(* ===== verification/_CoqProject ===== *)
-Q . S2P
Prelude.v
KString.v
State.v
Spinlock.v
Norm.v
Printf.v
Sched.v
Sleeplock.v
Kalloc.v
Vm.v
PageTable.v
UserMem.v
UserSpace.v
FreeWalk.v
UserCopy.v
Proc.v
Bio.v
LruList.v
Cache.v
CacheSpec.v
Blocks.v
Log.v
LogSpec.v
LogTx.v
FsTx.v
Fs.v
FsAlloc.v
FsFile.v
FsWrite.v
FsDir.v
FsPath.v
Mkfs.v
MkfsSpec.v
MkfsTree.v
Pipe.v
PipeSpec.v
Console.v
File.v
Fork.v
Exec.v
Sysfile.v
Syscall.v
Trap.v
Virtio.v
VirtioSpec.v
Main.v
Start.v
User.v
Uprintf.v
Grep.v
Umalloc.v
Shell.v
Uthread.v
Programs.v
