(* ===== verification/Prelude.v ===== *)
(** * Verification of xv6 (lab-l4): the kernel and its user library

    The program is a small multiprocessor operating system for RISC-V: a kernel
    (src/kernel) with processes, Sv39 page tables, a logging file system over a
    buffer cache, pipes and a console, extended with a choice of schedulers
    (round robin and a two-level feedback queue) and a [ps] system call; and user
    programs (src/user): a C library with an allocator, cooperative threads, a
    shell and small utilities.  This library translates the code into executable
    definitions and proves theorems about them.

    ** How the code is represented

    - Integers are [Z]; a conversion of the code that can lose bits is written
      out with [u8 .. u64], [s16], [s32].  Memory is a finite map from addresses
      to bytes, with little-endian loads and stores ([ld64], [st64], ...).
    - Kernel code is a computation [K A] on the record [kst] (State.v): the C
      globals, the memory, the process running on this hart.  A computation
      returns ([Done]), panics ([Panic]), does something C leaves undefined or an
      index out of an array ([Fault]), or waits for ever ([Asleep]).
    - Waiting and concurrency: a [world] holds, besides the state, a list of
      actions of the rest of the machine.  Each time the code gives up the
      processor ([sleep], [swtch]) or spins, the next action is applied to the
      state; when none is left the code is [Asleep].  The theorems quantify over
      the list, so over what other processes and devices do at those points.
      Locking protocols proper are small-step systems with one transition per
      atomic step and arbitrary interleaving (Spinlock.v, Sleeplock.v).
    - User programs are computations [U A] on their memory, their static
      variables and the answers of the kernel (User.v); each system call consumes
      an answer and is recorded in a trace.  A theorem quantifies over the
      answers, so over what the kernel does.
    - mkfs is a computation [H A] on the image and its static variables, where
      any call of the host may fail (Mkfs.v).
    - Assembly runs on a register file with loads and stores (Trap.v, Start.v).
    - [wp c Q w]: [c] returns and [Q] holds of the result; [safe c Q R w]: it
      returns with [Q] or waits with [R], but never panics or faults;
      [uspec c Q X W s]: the same for user code, with [X] at an exit.

    ** Files and the code they model

    - Prelude: integers, memory, the monad and its rules, shared lemmas.
    - KString: kernel/string.c.  State: proc.h, file.h, buf.h, fs.h, riscv.h,
      memlayout.h, param.h and the globals of the kernel.
    - Spinlock: spinlock.c.  Norm: states up to lock and wakeup bookkeeping.
      Sleeplock: sleeplock.c.
    - Printf, Console: printf.c, console.c, uart.c.
    - Sched: the scheduling half of proc.c ([rr_scheduler], [mlfq_scheduler],
      [sched], [yield], [sleep], [wakeup], [kill], [schedset]).  Proc and Fork:
      the rest of proc.c ([allocproc], [growproc], [ps], [wait], [fork], [exit]).
    - Kalloc: kalloc.c.  Vm: vm.c.  PageTable (the radix tree), UserMem (user
      address spaces), UserSpace ([uvmalloc], [uvmcopy]), FreeWalk ([uvmfree]),
      UserCopy ([copyin], [copyout], [copyinstr]): theorems about vm.c.
    - Bio: bio.c.  LruList, Cache, CacheSpec: the cache implements a map of the
      blocks in use.  Blocks: the rules clients of the cache use.
    - Log: log.c.  LogSpec, LogTx: transactions and crash safety.
    - Fs: fs.c.  FsTx: the view of the cache and the log that code between
      [begin_op] and [end_op] has.  FsAlloc ([balloc], [bfree] and the bitmap),
      FsFile ([bmap], [readi], the loop of [writei]), FsWrite ([iupdate],
      [writei], the commit), FsDir ([iget], [dirlookup], [dirlink]), FsPath
      ([ilock], [iput], [namex]): theorems about fs.c.
    - Mkfs: mkfs/mkfs.c, the program of the build machine that makes the disk
      image; MkfsSpec: the image it makes; MkfsTree: the kernel's path names on
      that image.
    - File: file.c and [pipealloc].  Pipe, PipeSpec: pipe.c.
    - Exec: exec.c.  Sysfile: sysfile.c and argument fetching.  Syscall:
      sysproc.c and syscall.c.  Trap: trap.c, plic.c, trampoline.S.  Virtio:
      virtio_disk.c; VirtioSpec: the driver with a device that follows the virtio
      protocol implements the interface below the cache.  Main: main.c.  Start:
      entry.S, start.c, kernelvec.S, swtch.S.
    - User: user.h, usys.pl, ulib.c.  Uprintf: user/printf.c.  Umalloc:
      umalloc.c.  Grep: grep.c.  Shell: sh.c.  Uthread: uthread.c, tswtch.S,
      lock.c.  Programs: the remaining utilities.

    ** What the theorems show

    - Locks: mutual exclusion, owner tracking and freedom from panic for every
      interleaving; for sleep locks also that no wakeup is lost.
    - Scheduling: the feedback queue runs high-priority processes first; a demoted
      process is promoted in time; a round-robin round runs each runnable process
      once.
    - Memory: the allocator's pages are partitioned between the free list and its
      clients; mapping, growing, copying and freeing an address space have the
      effect on address translation they should, and give back every page when
      they fail; copies to and from user memory touch only accessible memory.
    - Storage: the buffer cache refines a map of blocks; a transaction of the log
      is atomic for a crash at every block write, recovery included.  On top of
      them files are arrays of bytes: a write is read back, changes no other file,
      keeps the block bitmap right, and survives a crash entirely or not at all.
      Directories are maps from names to inodes, which [dirlink] extends, and path
      names resolve to what the tree on the disk says, without leaking a reference
      or a lock.
      The image mkfs builds satisfies the conditions of these theorems, and the
      kernel finds each file in it under its name.
    - Pipes refine bounded queues, with 32-bit counters that wrap around.
    - Traps, timer interrupts and context switches preserve the registers they
      must.
    - User level: the allocator returns disjoint blocks; the shell's parser is
      total and stays in its buffers; grep prints the matching lines; the thread
      switch is round robin.

    ** Fuel and bounds

    Loops that are not structural take fuel computed from the data: the size of
    the range in pages for the loops of vm.c, the number of table entries, the
    number of bytes left, and for waiting loops the number of environment
    actions left, plus one.  Running out of fuel is a [Fault] ([UFuel] for user
    code), which [wp], [safe] and [uspec] exclude: the theorems show that the
    fuel suffices.  Array sizes are those of param.h.

    ** Interfaces

    The disk below the cache is the class [DiskDriver] (Bio.v) with its laws
    [DiskDriverOk] (Cache.v), which the cache, the log and the file system are
    verified against; its instances are the driver of virtio_disk.c
    (VirtioSpec.v) and a disk that answers at once (CacheSpec.v).  Addresses fixed
    by the linker are the class [KernelImage] (State.v).

    ** Not modelled

    - ramdisk.c: not part of the build, and it uses fields that [struct buf] does
      not have.
    - user/usertests.c, grind.c, cowtest.c, ttest.c, task1test.c: test programs,
      which only issue system calls and compare answers with expectations.
    - The linker scripts, the Makefile and the scripts of the repository.
    - The TLB, memory ordering weaker than the interleaving of atomic steps, and
      the timing of devices. *)

From Stdlib Require Export ZArith Lia.
From stdpp Require Export base gmap list strings numbers.

Open Scope Z_scope.
Coercion Z.of_nat : nat >-> Z.

(** ** Machine integers

    A w-bit C integer is a [Z]; the conversions below are what a C cast to the
    type does ([types.h]).  Arithmetic of the source that can leave the type is
    followed by the cast; arithmetic that cannot is left plain. *)

Definition u8 (x : Z) : Z := x mod 256.
Definition u16 (x : Z) : Z := x mod 65536.
Definition u32 (x : Z) : Z := x mod 4294967296.
Definition u64 (x : Z) : Z := x mod 18446744073709551616.

Definition s16 (x : Z) : Z := (x + 32768) mod 65536 - 32768.
Definition s32 (x : Z) : Z := (x + 2147483648) mod 4294967296 - 2147483648.

(** [x & ~m] on a 64-bit value, for a constant mask [m]. *)
Definition andnot64 (x m : Z) : Z := Z.land x (Z.lxor m 18446744073709551615).

(** ** Byte-addressed memory

    A memory is a finite map from addresses to bytes; an address that was never
    written reads as 0.  Multi-byte accesses are little endian, as on RISC-V. *)

Declare Scope mem_scope.
Delimit Scope mem_scope with mem.

Definition rd (m : gmap Z Z) (a : Z) : Z := default 0 (m !! a) mod 256.
Definition wr (m : gmap Z Z) (a v : Z) : gmap Z Z := <[a := v mod 256]> m.

Notation "m .[ a ]" := (rd m a) (at level 1, left associativity, format "m .[ a ]") : mem_scope.
Notation "m .[ a <- v ]" := (wr m a v) (at level 1, left associativity, format "m .[ a  <-  v ]") : mem_scope.
Open Scope mem_scope.

Fixpoint ldn (n : nat) (m : gmap Z Z) (a : Z) : Z :=
  match n with
  | O => 0
  | S n => m.[a] + 256 * ldn n m (a + 1)
  end.

Fixpoint stn (n : nat) (m : gmap Z Z) (a v : Z) : gmap Z Z :=
  match n with
  | O => m
  | S n => stn n (m.[a <- v]) (a + 1) (v / 256)
  end.

Definition ld64 : gmap Z Z -> Z -> Z := ldn 8.
Definition st64 : gmap Z Z -> Z -> Z -> gmap Z Z := stn 8.
Definition ld32 : gmap Z Z -> Z -> Z := ldn 4.
Definition st32 : gmap Z Z -> Z -> Z -> gmap Z Z := stn 4.

#[global] Arguments ld64 : simpl never.
#[global] Arguments st64 : simpl never.
#[global] Arguments ld32 : simpl never.
#[global] Arguments st32 : simpl never.

(** The [n] bytes at address [a], and writing a list of bytes at [a]. *)
Fixpoint rd_bytes (n : nat) (m : gmap Z Z) (a : Z) : list Z :=
  match n with
  | O => []
  | S n => m.[a] :: rd_bytes n m (a + 1)
  end.

Fixpoint wr_bytes (m : gmap Z Z) (a : Z) (bs : list Z) : gmap Z Z :=
  match bs with
  | [] => m
  | b :: bs => wr_bytes (m.[a <- b]) (a + 1) bs
  end.

(** Little-endian encoding of an integer in a byte list (a field of a struct
    kept as bytes). *)
Fixpoint le_bytes (n : nat) (v : Z) : list Z :=
  match n with
  | O => []
  | S n => v mod 256 :: le_bytes n (v / 256)
  end.

Fixpoint le_val (bs : list Z) : Z :=
  match bs with
  | [] => 0
  | b :: bs => b mod 256 + 256 * le_val bs
  end.

(** Overwriting bytes of an array, and reading an integer field of one. *)
Definition patch (off : nat) (bs : list Z) (a : list Z) : list Z :=
  take off a ++ bs ++ drop (off + length bs) a.
Definition get_le (n off : nat) (bs : list Z) : Z := le_val (take n (drop off bs)).

(** The bytes of a C string literal, without the terminator. *)
Definition bytes (s : string) : list Z := (fun c => Z.of_N (Ascii.N_of_ascii c)) <$> String.list_ascii_of_string s.

(** The byte of a C character literal. *)
Definition chr (s : string) : Z := default 0 (head (bytes s)).

Definition NL : string := String (Ascii.ascii_of_nat 10) EmptyString.
Definition TAB : string := String (Ascii.ascii_of_nat 9) EmptyString.

(** The C string at the start of a byte array. *)
Fixpoint cstring (bs : list Z) : list Z :=
  match bs with
  | [] => []
  | b :: bs => if b =? 0 then [] else b :: cstring bs
  end.

(** Two memories that read the same everywhere. *)
Definition meq (m1 m2 : gmap Z Z) : Prop := forall a, m1.[a] = m2.[a].

(** [agree P m1 m2]: the memories agree on the addresses in [P]. *)
Definition agree (P : Z -> Prop) (m1 m2 : gmap Z Z) : Prop := forall a, P a -> m1.[a] = m2.[a].

(** ** The effect monad

    A kernel routine run by one hart on behalf of one process is a function of
    the machine state.  It either returns, or calls [panic], or performs an
    access the hardware refuses or C leaves undefined, or waits for something
    the rest of the system has not done yet.  What the rest of the system does
    while the routine sleeps or spins is the explicit list [env] of state
    transformers that accompanies the state: a sleeping routine consumes the
    next ones until its wake-up condition holds. *)

Record world (S : Type) : Type := World { st : S; env : list (S -> S) }.
Arguments World {S} _ _.
Arguments st {S} _.
Arguments env {S} _.

Inductive outcome (W A : Type) : Type :=
| Done (a : A) (w : W)
| Panic (msg : string)
| Fault (msg : string)
| Asleep (w : W).
Arguments Done {W A} _ _.
Arguments Panic {W A} _.
Arguments Fault {W A} _.
Arguments Asleep {W A} _.

Definition M (S A : Type) : Type := world S -> outcome (world S) A.

#[export] Instance M_ret (S : Type) : MRet (M S) := fun A a w => Done a w.
#[export] Instance M_bind (S : Type) : MBind (M S) := fun A B k c w =>
  match c w with
  | Done a w' => k a w'
  | Panic msg => Panic msg
  | Fault msg => Fault msg
  | Asleep w' => Asleep w'
  end.

Definition panic {S A : Type} (msg : string) : M S A := fun _ => Panic msg.
Definition fault {S A : Type} (msg : string) : M S A := fun _ => Fault msg.
Definition get {S : Type} : M S S := fun w => Done (st w) w.
Definition gets {S A : Type} (f : S -> A) : M S A := fun w => Done (f (st w)) w.
Definition modify {S : Type} (f : S -> S) : M S unit := fun w => Done tt (World (f (st w)) (env w)).
Definition when {S : Type} (b : bool) (c : M S unit) : M S unit := if b then c else mret tt.

(** Let the rest of the system run until [p] holds. *)
Fixpoint wait_loop {S : Type} (p : S -> bool) (s : S) (e : list (S -> S)) : outcome (world S) unit :=
  if p s then Done tt (World s e)
  else match e with
       | [] => Asleep (World s [])
       | f :: e => wait_loop p (f s) e
       end.

Definition wait_until {S : Type} (p : S -> bool) : M S unit := fun w => wait_loop p (st w) (env w).

(** Hand the machine over: exactly one action of the rest of the system. *)
Definition step_env {S : Type} : M S unit := fun w =>
  match env w with
  | [] => Asleep w
  | f :: e => Done tt (World (f (st w)) e)
  end.

(** Fuel for a loop each of whose repetitions consumes an action of the rest of
    the system. *)
Definition env_fuel {S A : Type} (f : nat -> M S A) : M S A := fun w => f (Datatypes.S (length (env w))) w.

(** Array access [xs[i]]: out of range is a fault. *)
Definition nth_or_fault {S A : Type} (xs : list A) (i : nat) : M S A :=
  match xs !! i with
  | Some x => mret x
  | None => fault "array index out of range"
  end.

(** [for x in xs: body x], where [body] may leave the loop with [Some r]. *)
Fixpoint foreach {S X R : Type} (xs : list X) (body : X -> M S (option R)) : M S (option R) :=
  match xs with
  | [] => mret None
  | x :: xs =>
      r ← body x;
      match r with
      | Some r => mret (Some r)
      | None => foreach xs body
      end
  end.

(** ** Weakest preconditions

    [wp c Q w]: run on [w], [c] returns, and its result and final world satisfy
    [Q].  It is total: a routine that panics, faults or never wakes up has no
    weakest precondition. *)
Definition wp {S A : Type} (c : M S A) (Q : A -> world S -> Prop) (w : world S) : Prop :=
  match c w with
  | Done a w' => Q a w'
  | _ => False
  end.

Section Wp.
Context {S : Type}.
Implicit Types (w : world S).

Lemma wp_ret {A} (a : A) Q w : Q a w -> wp (mret a) Q w.
Proof. done. Qed.

Lemma wp_bind {A B} (c : M S A) (k : A -> M S B) Q w :
  wp c (fun a w' => wp (k a) Q w') w -> wp (c ≫= k) Q w.
Proof. unfold wp, mbind, M_bind. by destruct (c w). Qed.

Lemma wp_bind_inv {A B} (c : M S A) (k : A -> M S B) Q w :
  wp (c ≫= k) Q w -> wp c (fun a w' => wp (k a) Q w') w.
Proof. unfold wp, mbind, M_bind. by destruct (c w). Qed.

(** A routine that panics after [c] has returned. *)
Lemma bind_panic {A B} (c : M S A) (k : A -> M S B) msg w :
  wp c (fun a w' => k a w' = Panic msg) w -> (c ≫= k) w = Panic msg.
Proof. unfold wp, mbind, M_bind. by destruct (c w). Qed.

Lemma panic_bind {A B} (c : M S A) (k : A -> M S B) msg w : c w = Panic msg -> (c ≫= k) w = Panic msg.
Proof. intros H. unfold mbind, M_bind. by rewrite H. Qed.

Lemma wp_mono {A} (c : M S A) (Q Q' : A -> world S -> Prop) w :
  wp c Q w -> (forall a w', Q a w' -> Q' a w') -> wp c Q' w.
Proof. unfold wp. destruct (c w); naive_solver. Qed.

Lemma wp_and {A} (c : M S A) (Q Q' : A -> world S -> Prop) w :
  wp c Q w -> wp c Q' w -> wp c (fun a w' => Q a w' /\ Q' a w') w.
Proof. unfold wp. destruct (c w); naive_solver. Qed.

Lemma wp_done {A} (c : M S A) Q w : wp c Q w <-> exists a w', c w = Done a w' /\ Q a w'.
Proof. unfold wp. destruct (c w); split; intros H; try destruct H as (? & ? & ? & ?); simplify_eq; eauto; done. Qed.

Lemma wp_get Q w : Q (st w) w -> wp get Q w.
Proof. done. Qed.

Lemma wp_gets {A} (f : S -> A) Q w : Q (f (st w)) w -> wp (gets f) Q w.
Proof. done. Qed.

Lemma wp_modify (f : S -> S) Q w : Q tt (World (f (st w)) (env w)) -> wp (modify f) Q w.
Proof. done. Qed.

Lemma wp_nth {A} (xs : list A) i x Q w : xs !! i = Some x -> Q x w -> wp (nth_or_fault xs i) Q w.
Proof. intros Hx HQ. unfold nth_or_fault. by rewrite Hx. Qed.

(** Loop rule: [I xs] describes the world before the remaining elements [xs]. *)
Lemma wp_foreach {X R} (body : X -> M S (option R)) (I : list X -> world S -> Prop) Q xs w :
  I xs w ->
  (forall x xs w, I (x :: xs) w ->
     wp (body x) (fun r w' => match r with Some _ => Q r w' | None => I xs w' end) w) ->
  (forall w, I [] w -> Q None w) ->
  wp (foreach xs body) Q w.
Proof.
  intros HI Hstep Hend. revert w HI. induction xs as [|x xs IH]; intros w HI; simpl.
  { by apply wp_ret, Hend. }
  apply wp_bind. eapply wp_mono; [by apply Hstep|].
  intros [r|] w' H; [by apply wp_ret | by apply IH].
Qed.

(** [for (k = 0; k < n; k++)]: [I k] describes the world before iteration [k]. *)
Lemma wp_foreach_seq {R} (body : nat -> M S (option R)) (I : nat -> world S -> Prop) Q n w :
  I O w ->
  (forall k w, (k < n)%nat -> I k w ->
     wp (body k) (fun r w' => match r with Some _ => Q r w' | None => I (Datatypes.S k) w' end) w) ->
  (forall w, I n w -> Q None w) ->
  wp (foreach (seq 0 n) body) Q w.
Proof.
  intros HI Hstep Hend.
  apply wp_foreach with (fun xs w => exists k, xs = seq k (n - k) /\ (k <= n)%nat /\ I k w).
  - exists O. rewrite Nat.sub_0_r. split_and!; [done|lia|done].
  - intros x xs w' (k & Hxs & Hk & HIk). destruct (n - k)%nat as [|r] eqn:Er; [done|]. cbn [seq] in Hxs. injection Hxs as -> ->.
    eapply wp_mono; [apply Hstep; [lia|done]|]. intros [r'|] w'' H; [done|]. exists (Datatypes.S k).
    replace (n - Datatypes.S k)%nat with r by lia. split_and!; [done|lia|done].
  - intros w' (k & Hxs & Hk & HIk). apply Hend. assert (k = n) as <-; [|done]. destruct (n - k)%nat eqn:E; [lia|done].
Qed.

(** A loop whose body is a plain state update that never leaves the loop. *)
Lemma wp_foreach_pure {X R} (body : X -> M S (option R)) (f : X -> S -> S) xs Q w :
  (forall x w Q, Q None (World (f x (st w)) (env w)) -> wp (body x) Q w) ->
  Q None (World (foldl (fun s x => f x s) (st w) xs) (env w)) ->
  wp (foreach xs body) Q w.
Proof.
  intros Hb. revert w. induction xs as [|x xs IH]; intros w HQ; simpl.
  { apply wp_ret. by destruct w. }
  apply wp_bind, Hb. by apply IH.
Qed.

Lemma wait_loop_now (p : S -> bool) s e : p s = true -> wait_loop p s e = Done tt (World s e).
Proof. intros H. destruct e; simpl; by rewrite H. Qed.

Lemma wait_loop_next (p : S -> bool) s f e :
  p s = false -> wait_loop p s (f :: e) = wait_loop p (f s) e.
Proof. intros H. simpl. by rewrite H. Qed.

Lemma wp_wait_now (p : S -> bool) Q w : p (st w) = true -> Q tt w -> wp (wait_until p) Q w.
Proof. intros Hp HQ. unfold wp, wait_until. rewrite wait_loop_now by done. by destruct w. Qed.

Lemma wp_wait_next (p : S -> bool) f e s Q :
  p s = false -> wp (wait_until p) Q (World (f s) e) -> wp (wait_until p) Q (World s (f :: e)).
Proof. intros Hp HQ. unfold wp, wait_until in *. cbn [st env] in *. by rewrite wait_loop_next. Qed.

(** Whatever the rest of the system does, a wait that ends ends in a state that
    satisfies the condition, and it consumed a prefix of the environment. *)
Lemma wait_loop_done (p : S -> bool) s e u w :
  wait_loop p s e = Done u w ->
  p (st w) = true /\ exists e1, e = e1 ++ env w /\ st w = foldl (fun s f => f s) s e1.
Proof.
  revert s. induction e as [|f e IH]; intros s; simpl; destruct (p s) eqn:E; intros H; simplify_eq; simpl.
  - split; [done|]. by exists [].
  - split; [done|]. by exists [].
  - destruct (IH _ H) as (Hp & e1 & -> & He). split; [done|]. by exists (f :: e1).
Qed.

End Wp.

(** ** Runs that may end asleep

    [safe c Q R w]: run on [w], [c] neither panics nor faults; if it returns,
    [Q] holds of the result, and if it ends waiting for the rest of the system,
    [R] holds of the world it waits in. *)
Definition safe {S A : Type} (c : M S A) (Q : A -> world S -> Prop) (R : world S -> Prop) (w : world S) : Prop :=
  match c w with
  | Done a w' => Q a w'
  | Asleep w' => R w'
  | _ => False
  end.

Lemma safe_wp {S A} (c : M S A) Q (R : world S -> Prop) w : wp c Q w -> safe c Q R w.
Proof. unfold wp, safe. by destruct (c w). Qed.

Lemma safe_bind {S A B} (c : M S A) (k : A -> M S B) Q (R : world S -> Prop) w :
  safe c (fun a w' => safe (k a) Q R w') R w -> safe (c ≫= k) Q R w.
Proof. unfold safe, mbind, M_bind. by destruct (c w). Qed.

Lemma safe_mono {S A} (c : M S A) (Q Q' : A -> world S -> Prop) (R R' : world S -> Prop) w :
  safe c Q R w -> (forall a w', Q a w' -> Q' a w') -> (forall w', R w' -> R' w') -> safe c Q' R' w.
Proof. unfold safe. destruct (c w); naive_solver. Qed.

Lemma safe_foreach {S X T} (body : X -> M S (option T)) (I : list X -> world S -> Prop) Q R xs w :
  I xs w ->
  (forall x xs w, I (x :: xs) w ->
     safe (body x) (fun r w' => match r with Some _ => Q r w' | None => I xs w' end) R w) ->
  (forall w, I [] w -> Q None w) ->
  safe (foreach xs body) Q R w.
Proof.
  intros HI Hstep Hend. revert w HI. induction xs as [|x xs IH]; intros w HI; simpl.
  { by apply safe_wp, wp_ret, Hend. }
  apply safe_bind. eapply safe_mono; [by apply Hstep| |done].
  intros [r|] w' H; [by apply safe_wp, wp_ret | by apply IH].
Qed.

Lemma safe_env_fuel {S A} (f : nat -> M S A) Q (R : world S -> Prop) w :
  safe (f (Datatypes.S (length (env w)))) Q R w -> safe (env_fuel f) Q R w.
Proof. done. Qed.

Lemma wp_env_fuel {S A} (f : nat -> M S A) (Q : A -> world S -> Prop) w :
  wp (f (Datatypes.S (length (env w)))) Q w -> wp (env_fuel f) Q w.
Proof. done. Qed.

Lemma wp_step_env {S} f e s (Q : unit -> world S -> Prop) : Q tt (World (f s) e) -> wp step_env Q (World s (f :: e)).
Proof. done. Qed.

(** The state a run ends in, for states built by running the code. *)
Definition final {S A : Type} (s0 : S) (o : outcome (world S) A) : S :=
  match o with Done _ w => st w | _ => s0 end.

Lemma wp_final {S A} (c : M S A) (P : S -> Prop) s0 w : wp c (fun _ w' => P (st w')) w -> P (final s0 (c w)).
Proof. unfold wp, final. by destruct (c w). Qed.

(** The value a run returns, if it returns. *)
Definition result {W A : Type} (o : outcome W A) : option A :=
  match o with Done a _ => Some a | _ => None end.

Lemma wp_result {S A} (c : M S A) (P : A -> S -> Prop) s0 w a :
  result (c w) = Some a -> wp c (fun a w' => P a (st w')) w -> P a (final s0 (c w)).
Proof. unfold wp, final, result. destruct (c w); naive_solver. Qed.

(** ** Automation *)

(** [wp_step] runs one primitive of the monad. *)
Ltac wp_step :=
  lazymatch goal with
  | |- wp (mbind _ _) _ _ => apply wp_bind
  | |- wp (mret _) _ _ => apply wp_ret
  | |- wp get _ _ => apply wp_get
  | |- wp (gets _) _ _ => apply wp_gets
  | |- wp (modify _) _ _ => apply wp_modify
  end; cbn beta.

Ltac wp_steps := repeat wp_step.

(** Case analysis on the conditions of [if]s, turning boolean tests into
    propositions. *)
Ltac bool_facts :=
  repeat match goal with
  | H : (_ =? _) = true |- _ => apply Z.eqb_eq in H
  | H : (_ =? _) = false |- _ => apply Z.eqb_neq in H
  | H : (_ <? _) = true |- _ => apply Z.ltb_lt in H
  | H : (_ <? _) = false |- _ => apply Z.ltb_ge in H
  | H : (_ <=? _) = true |- _ => apply Z.leb_le in H
  | H : (_ <=? _) = false |- _ => apply Z.leb_gt in H
  | H : (_ && _) = true |- _ => apply andb_true_iff in H; destruct H
  | H : (_ && _) = false |- _ => apply andb_false_iff in H
  | H : (_ || _) = true |- _ => apply orb_true_iff in H
  | H : (_ || _) = false |- _ => apply orb_false_iff in H; destruct H
  | H : negb _ = true |- _ => apply negb_true_iff in H
  | H : negb _ = false |- _ => apply negb_false_iff in H
  | H : bool_decide _ = true |- _ => apply bool_decide_eq_true in H
  | H : bool_decide _ = false |- _ => apply bool_decide_eq_false in H
  end.

Ltac case_if :=
  match goal with
  | |- context [if ?b then _ else _] =>
      lazymatch type of b with
      | bool => let E := fresh "E" in destruct b eqn:E
      | _ => destruct b
      end
  end; bool_facts.

(** ** Integer lemmas *)

Ltac unfold_int := unfold u8, u16, u32, u64, s16, s32 in *.

Lemma u8_range x : 0 <= u8 x < 256.
Proof. apply Z.mod_pos_bound. lia. Qed.
Lemma u32_range x : 0 <= u32 x < 4294967296.
Proof. apply Z.mod_pos_bound. lia. Qed.
Lemma u64_range x : 0 <= u64 x < 18446744073709551616.
Proof. apply Z.mod_pos_bound. lia. Qed.
Lemma u8_small x : 0 <= x < 256 -> u8 x = x.
Proof. apply Z.mod_small. Qed.
Lemma u16_small x : 0 <= x < 65536 -> u16 x = x.
Proof. apply Z.mod_small. Qed.
Lemma u32_small x : 0 <= x < 4294967296 -> u32 x = x.
Proof. apply Z.mod_small. Qed.
Lemma u64_small x : 0 <= x < 18446744073709551616 -> u64 x = x.
Proof. apply Z.mod_small. Qed.
Lemma s32_small x : -2147483648 <= x < 2147483648 -> s32 x = x.
Proof. unfold s32. intros. rewrite Z.mod_small; lia. Qed.
Lemma s16_small x : -32768 <= x < 32768 -> s16 x = x.
Proof. unfold s16. intros. rewrite Z.mod_small; lia. Qed.
Lemma u32_s32 x : u32 (s32 x) = u32 x.
Proof.
  unfold u32, s32. rewrite Zminus_mod_idemp_l. f_equal. lia.
Qed.

Lemma u8_bytes l : Forall (fun b => 0 <= b < 256) l -> u8 <$> l = l.
Proof. induction 1 as [|b l Hb _ IH]; cbn; [done|]. by rewrite IH, u8_small. Qed.

Lemma testbit_large x i : 0 <= x < 18446744073709551616 -> 64 <= i -> Z.testbit x i = false.
Proof.
  intros Hx Hi. destruct (decide (x = 0)) as [->|]; [apply Z.bits_0|].
  apply Z.bits_above_log2; [lia|]. apply Z.log2_lt_pow2; [lia|].
  apply (Z.lt_le_trans _ (2 ^ 64)); [lia|]. apply Z.pow_le_mono_r; lia.
Qed.

(** Clearing the [n] low bits of a 64-bit value. *)
Lemma andnot64_ones x n : 0 <= x < 18446744073709551616 -> 0 <= n <= 64 ->
  andnot64 x (Z.ones n) = x / 2 ^ n * 2 ^ n.
Proof.
  intros Hx Hn. unfold andnot64. change 18446744073709551615 with (Z.ones 64).
  apply Z.bits_inj'. intros i Hi.
  rewrite <- Z.shiftl_mul_pow2, <- Z.shiftr_div_pow2 by lia.
  rewrite Z.land_spec, Z.lxor_spec, Z.shiftl_spec by lia.
  rewrite !Z.testbit_ones by lia. rewrite !(proj2 (Z.leb_le 0 i) Hi). cbn [andb].
  destruct (Z.ltb_spec i n).
  - rewrite (Z.testbit_neg_r _ (i - n)) by lia.
    rewrite (proj2 (Z.ltb_lt i 64)) by lia. apply andb_false_r.
  - rewrite Z.shiftr_spec by lia. replace (i - n + n) with i by lia.
    destruct (Z.ltb_spec i 64); [apply andb_true_r|]. rewrite (testbit_large x i) by lia. done.
Qed.

Create Rewrite HintDb cint.
#[export] Hint Rewrite u8_small u16_small u32_small u64_small s32_small s16_small using lia : cint.

(** ** Memory lemmas *)

Lemma rd_range m a : 0 <= m.[a] < 256.
Proof. apply Z.mod_pos_bound. lia. Qed.

Lemma rd_wr m a v b : (m.[a <- v]).[b] = if decide (a = b) then v mod 256 else m.[b].
Proof.
  unfold rd, wr. rewrite lookup_insert. case_decide; [|done]. simpl. by rewrite Z.mod_mod by lia.
Qed.
Lemma rd_wr_eq m a v : (m.[a <- v]).[a] = v mod 256.
Proof. rewrite rd_wr. by case_decide. Qed.
Lemma rd_wr_ne m a v b : a <> b -> (m.[a <- v]).[b] = m.[b].
Proof. intros. rewrite rd_wr. by case_decide. Qed.

#[export] Instance meq_equiv : Equivalence meq.
Proof. split; [by intros m a | by intros m1 m2 H a | intros m1 m2 m3 H1 H2 a; by rewrite H1, H2]. Qed.
#[export] Instance rd_proper : Proper (meq ==> eq ==> eq) rd.
Proof. intros m1 m2 Hm a ? <-. apply Hm. Qed.
#[export] Instance wr_proper : Proper (meq ==> eq ==> eq ==> meq) wr.
Proof. intros m1 m2 Hm a ? <- v ? <- b. rewrite !rd_wr. case_decide; [done|apply Hm]. Qed.
#[export] Instance ldn_proper n : Proper (meq ==> eq ==> eq) (ldn n).
Proof.
  intros m1 m2 Hm a ? <-. revert a. induction n as [|n IH]; intros a; simpl; [done|].
  by rewrite IH, Hm.
Qed.

Lemma stn_frame (n : nat) m a v b : b < a \/ a + n <= b -> (stn n m a v).[b] = m.[b].
Proof.
  revert m a v. induction n as [|n IH]; intros m a v Hb; simpl; [done|].
  rewrite IH by lia. apply rd_wr_ne. lia.
Qed.

Lemma ldn_ext (n : nat) m1 m2 a : (forall b, a <= b < a + n -> m1.[b] = m2.[b]) -> ldn n m1 a = ldn n m2 a.
Proof.
  revert a. induction n as [|n IH]; intros a H; simpl; [done|].
  rewrite (H a) by lia. f_equal. f_equal. apply IH. intros. apply H. lia.
Qed.

Lemma ldn_stn_same (n : nat) m a v : ldn n (stn n m a v) a = v mod 256 ^ n.
Proof.
  revert m a v. induction n as [|n IH]; intros m a v.
  { simpl. by rewrite Z.mod_1_r. }
  cbn [ldn stn]. rewrite IH, stn_frame, rd_wr_eq by lia.
  rewrite Nat2Z.inj_succ, Z.pow_succ_r by lia.
  rewrite (Z.rem_mul_r v 256 (256 ^ n)) by lia. lia.
Qed.

Lemma ldn_stn_frame (n k : nat) m a v b :
  b + n <= a \/ a + k <= b -> ldn n (stn k m a v) b = ldn n m b.
Proof. intros H. apply ldn_ext. intros c Hc. apply stn_frame. lia. Qed.

Lemma ldn_range (n : nat) m a : 0 <= ldn n m a < 256 ^ n.
Proof.
  revert a. induction n as [|n IH]; intros a; [simpl; lia|].
  cbn [ldn]. rewrite Nat2Z.inj_succ, Z.pow_succ_r by lia.
  pose proof (IH (a + 1)). pose proof (rd_range m a). lia.
Qed.

Lemma ldn_wr_frame (n : nat) m a v b : a < b \/ b + n <= a -> ldn n (m.[a <- v]) b = ldn n m b.
Proof. intros H. apply ldn_ext. intros c Hc. apply rd_wr_ne. lia. Qed.

Lemma ld64_st64 m a v : 0 <= v < 18446744073709551616 -> ld64 (st64 m a v) a = v.
Proof. intros H. unfold ld64, st64. rewrite ldn_stn_same. by apply Z.mod_small. Qed.
Lemma ld64_st64_ne m a v b : b + 8 <= a \/ a + 8 <= b -> ld64 (st64 m a v) b = ld64 m b.
Proof. intros H. apply ldn_stn_frame. simpl. lia. Qed.
Lemma st64_frame m a v b : b < a \/ a + 8 <= b -> (st64 m a v).[b] = m.[b].
Proof. intros H. apply stn_frame. simpl. lia. Qed.
Lemma ld64_ext m1 m2 a : (forall b, a <= b < a + 8 -> m1.[b] = m2.[b]) -> ld64 m1 a = ld64 m2 a.
Proof. intros H. apply ldn_ext. intros; apply H. simpl in *; lia. Qed.
Lemma ld64_range m a : 0 <= ld64 m a < 18446744073709551616.
Proof. apply (ldn_range 8). Qed.
Lemma ld64_zero m a : (forall b, a <= b < a + 8 -> m.[b] = 0) -> ld64 m a = 0.
Proof. intros H. unfold ld64. simpl. rewrite !H by lia. done. Qed.

#[export] Instance agree_refl P : Reflexive (agree P).
Proof. by intros m a. Qed.
#[export] Instance agree_trans P : Transitive (agree P).
Proof. intros m1 m2 m3 H1 H2 a Ha. by rewrite H1, H2. Qed.

Lemma length_rd_bytes (n : nat) m a : length (rd_bytes n m a) = n.
Proof. revert a. induction n; intros a; simpl; auto. Qed.

Lemma lookup_rd_bytes (n : nat) m a (i : nat) : (i < n)%nat -> rd_bytes n m a !! i = Some (m.[a + i]).
Proof.
  revert a i. induction n as [|n IH]; intros a i Hi; [lia|]. destruct i as [|i]; simpl.
  - by rewrite Z.add_0_r.
  - rewrite IH by lia. do 2 f_equal. lia.
Qed.

Lemma rd_bytes_ext (n : nat) m1 m2 a :
  (forall b, a <= b < a + n -> m1.[b] = m2.[b]) -> rd_bytes n m1 a = rd_bytes n m2 a.
Proof.
  revert a. induction n as [|n IH]; intros a H; simpl; [done|].
  f_equal; [apply H; lia | apply IH; intros; apply H; lia].
Qed.

Lemma rd_bytes_app (n k : nat) m a : rd_bytes (n + k) m a = rd_bytes n m a ++ rd_bytes k m (a + n).
Proof.
  revert a. induction n as [|n IH]; intros a; simpl.
  - by rewrite Z.add_0_r.
  - rewrite IH. do 3 f_equal. lia.
Qed.

Lemma rd_wr_bytes m a bs b :
  (wr_bytes m a bs).[b] =
    if decide (a <= b < a + length bs) then default 0 (bs !! Z.to_nat (b - a)) mod 256 else m.[b].
Proof.
  revert m a. induction bs as [|x bs IH]; intros m a; simpl.
  { case_decide; [lia|done]. }
  rewrite IH, rd_wr. destruct (decide (a = b)) as [->|Hne].
  - rewrite decide_False by lia. rewrite decide_True by lia. by rewrite Z.sub_diag.
  - repeat case_decide; try lia; try done.
    replace (Z.to_nat (b - a)) with (S (Z.to_nat (b - (a + 1)))) by lia. done.
Qed.

Lemma length_le_bytes (n : nat) v : length (le_bytes n v) = n.
Proof. revert v. induction n; intros v; simpl; auto. Qed.

(** Encoding then decoding an integer that fits gives it back. *)
Lemma le_val_bytes (n : nat) v : le_val (le_bytes n v) = v mod 256 ^ n.
Proof.
  revert v. induction n as [|n IH]; intros v; [simpl; by rewrite Z.mod_1_r|].
  cbn [le_val le_bytes]. rewrite IH, Z.mod_mod, Nat2Z.inj_succ, Z.pow_succ_r by lia.
  rewrite (Z.rem_mul_r v 256 (256 ^ n)) by lia. lia.
Qed.

(** Overwriting part of an array. *)
Lemma length_patch off bs a : (off + length bs <= length a)%nat -> length (patch off bs a) = length a.
Proof. intros H. unfold patch. rewrite !length_app, length_take, length_drop. lia. Qed.

Lemma get_patch_eq off bs a : (off + length bs <= length a)%nat -> take (length bs) (drop off (patch off bs a)) = bs.
Proof.
  intros H. unfold patch. rewrite drop_app_length' by (rewrite length_take; lia). by rewrite take_app_length.
Qed.

Lemma get_patch_ne n off' off bs a : (off + length bs <= length a)%nat -> (off' + n <= off \/ off + length bs <= off')%nat ->
  take n (drop off' (patch off bs a)) = take n (drop off' a).
Proof.
  intros H Ho. apply list_eq. intros i. destruct (decide (i < n)%nat) as [Hi|Hi]; [|by rewrite !lookup_take_ge by lia].
  rewrite !lookup_take_lt, !lookup_drop by lia. unfold patch. destruct Ho as [Ho|Ho].
  - by rewrite lookup_app_l, lookup_take_lt by (rewrite ?length_take; lia).
  - rewrite lookup_app_r by (rewrite length_take; lia). rewrite lookup_app_r by (rewrite length_take; lia).
    rewrite lookup_drop. f_equal. rewrite length_take. lia.
Qed.

Lemma get_le_patch_eq n off v a : (off + n <= length a)%nat -> get_le n off (patch off (le_bytes n v) a) = v mod 256 ^ n.
Proof.
  intros H. unfold get_le. rewrite <- (length_le_bytes n v) at 1. rewrite get_patch_eq by (by rewrite length_le_bytes).
  apply le_val_bytes.
Qed.

Lemma get_le_patch_ne n off' off bs a : (off + length bs <= length a)%nat -> (off' + n <= off \/ off + length bs <= off')%nat ->
  get_le n off' (patch off bs a) = get_le n off' a.
Proof. intros H Ho. unfold get_le. by rewrite get_patch_ne. Qed.
