(* ===== verification/KString.v ===== *)
(** * kernel/string.c: byte and string routines

    The routines run on byte memory: a pointer is an address, and a routine that
    writes returns the memory it leaves.  Loops count down the number of
    iterations left, as the source's [n] does; [strlen], whose loop has no
    counter, takes fuel and returns [None] when it runs out.  [char] is unsigned
    on RISC-V. *)

From S2P Require Import Prelude.

(** ** The routines *)

Fixpoint memset_loop (k : nat) (m : gmap Z Z) (cdst i c : Z) : gmap Z Z :=
  match k with
  | O => m
  | S k => memset_loop k (m.[cdst + i <- c]) cdst (i + 1) c
  end.

Definition memset (m : gmap Z Z) (dst c n : Z) : gmap Z Z :=
  memset_loop (Z.to_nat (u32 n)) m dst 0 c.

Fixpoint memcmp_loop (k : nat) (m : gmap Z Z) (s1 s2 : Z) : Z :=
  match k with
  | O => 0
  | S k => if negb (m.[s1] =? m.[s2]) then m.[s1] - m.[s2] else memcmp_loop k m (s1 + 1) (s2 + 1)
  end.

Definition memcmp (m : gmap Z Z) (v1 v2 n : Z) : Z := memcmp_loop (Z.to_nat (u32 n)) m v1 v2.

(** [while(n-- > 0) *d++ = *s++;] *)
Fixpoint copy_up (k : nat) (m : gmap Z Z) (d s : Z) : gmap Z Z :=
  match k with
  | O => m
  | S k => copy_up k (m.[d <- m.[s]]) (d + 1) (s + 1)
  end.

(** [while(n-- > 0) *--d = *--s;] *)
Fixpoint copy_down (k : nat) (m : gmap Z Z) (d s : Z) : gmap Z Z :=
  match k with
  | O => m
  | S k => copy_down k (m.[d - 1 <- m.[s - 1]]) (d - 1) (s - 1)
  end.

Definition memmove (m : gmap Z Z) (dst src n : Z) : gmap Z Z :=
  let n := u32 n in
  if n =? 0 then m
  else if (src <? dst) && (dst <? src + n)
  then copy_down (Z.to_nat n) m (dst + n) (src + n)
  else copy_up (Z.to_nat n) m dst src.

Definition memcpy (m : gmap Z Z) (dst src n : Z) : gmap Z Z := memmove m dst src n.

Fixpoint strncmp_loop (k : nat) (m : gmap Z Z) (p q : Z) : Z :=
  match k with
  | O => 0
  | S k =>
      if negb (m.[p] =? 0) && (m.[p] =? m.[q])
      then strncmp_loop k m (p + 1) (q + 1)
      else m.[p] - m.[q]
  end.

Definition strncmp (m : gmap Z Z) (p q n : Z) : Z := strncmp_loop (Z.to_nat (u32 n)) m p q.

(** First loop of [strncpy]: the memory, the iterations left and the write
    pointer when it stops. *)
Fixpoint strncpy_copy (k : nat) (m : gmap Z Z) (s t : Z) : gmap Z Z * nat * Z :=
  match k with
  | O => (m, O, s)
  | S k =>
      let c := m.[t] in
      let m := m.[s <- c] in
      if c =? 0 then (m, k, s + 1) else strncpy_copy k m (s + 1) (t + 1)
  end.

Fixpoint strncpy_pad (k : nat) (m : gmap Z Z) (s : Z) : gmap Z Z :=
  match k with
  | O => m
  | S k => strncpy_pad k (m.[s <- 0]) (s + 1)
  end.

Definition strncpy (m : gmap Z Z) (s t n : Z) : gmap Z Z :=
  let '(m, k, s) := strncpy_copy (Z.to_nat n) m s t in
  strncpy_pad k m s.

Fixpoint safestrcpy_loop (k : nat) (m : gmap Z Z) (s t : Z) : gmap Z Z :=
  match k with
  | O => m.[s <- 0]
  | S k =>
      let c := m.[t] in
      let m := m.[s <- c] in
      if c =? 0 then m.[s + 1 <- 0] else safestrcpy_loop k m (s + 1) (t + 1)
  end.

Definition safestrcpy (m : gmap Z Z) (s t n : Z) : gmap Z Z :=
  if n <=? 0 then m else safestrcpy_loop (Z.to_nat (n - 1)) m s t.

Fixpoint strlen_loop (fuel : nat) (m : gmap Z Z) (s n : Z) : option Z :=
  match fuel with
  | O => None
  | S fuel => if m.[s + n] =? 0 then Some n else strlen_loop fuel m s (n + 1)
  end.

Definition strlen (fuel : nat) (m : gmap Z Z) (s : Z) : option Z := strlen_loop fuel m s 0.

(** The routines on local arrays: the arrays are placed in a scratch memory, the
    destination at 0 and the source at 4096, each followed by zero bytes. *)
Definition strncmp_bytes (p q : list Z) (n : Z) : Z :=
  strncmp (wr_bytes (wr_bytes ∅ 0 p) 4096 q) 0 4096 n.
Definition strncpy_bytes (s t : list Z) (n : Z) : list Z :=
  rd_bytes (length s) (strncpy (wr_bytes (wr_bytes ∅ 0 s) 4096 t) 0 4096 n) 0.
Definition safestrcpy_bytes (s t : list Z) (n : Z) : list Z :=
  rd_bytes (length s) (safestrcpy (wr_bytes (wr_bytes ∅ 0 s) 4096 t) 0 4096 n) 0.

(** ** What they compute

    [cstr m a l]: the NUL-terminated string [l] is at address [a].
    [cpre k m a]: the bytes at [a] before the first NUL, at most [k] of them. *)

Fixpoint cstr (m : gmap Z Z) (a : Z) (l : list Z) : Prop :=
  match l with
  | [] => m.[a] = 0
  | c :: l => m.[a] = c /\ c <> 0 /\ cstr m (a + 1) l
  end.

Fixpoint cpre (k : nat) (m : gmap Z Z) (a : Z) : list Z :=
  match k with
  | O => []
  | S k => if m.[a] =? 0 then [] else m.[a] :: cpre k m (a + 1)
  end.

(** [bytes_at m a l]: the bytes [l] are at [a] (no terminator). *)
Fixpoint bytes_at (m : gmap Z Z) (a : Z) (l : list Z) : Prop :=
  match l with
  | [] => True
  | c :: l => m.[a] = c /\ bytes_at m (a + 1) l
  end.

Lemma memset_loop_spec k m d i c a :
  (memset_loop k m d i c).[a] = if decide (d + i <= a < d + i + k) then c mod 256 else m.[a].
Proof.
  revert m i. induction k as [|k IH]; intros m i; cbn [memset_loop].
  { case_decide; [lia|done]. }
  rewrite IH, rd_wr. repeat case_decide; try lia; done.
Qed.

Lemma memset_spec m d c n a : 0 <= n < 4294967296 ->
  (memset m d c n).[a] = if decide (d <= a < d + n) then c mod 256 else m.[a].
Proof.
  intros Hn. unfold memset. rewrite memset_loop_spec, u32_small, Z2Nat.id by lia.
  by rewrite Z.add_0_r.
Qed.

Lemma copy_up_spec (k : nat) m d s a : ~ (s < d < s + k) ->
  (copy_up k m d s).[a] = if decide (d <= a < d + k) then m.[s + (a - d)] else m.[a].
Proof.
  revert m d s. induction k as [|k IH]; intros m d s Hov; cbn [copy_up].
  { case_decide; [lia|done]. }
  rewrite IH by lia. destruct (decide (d = a)) as [->|Hne].
  - rewrite decide_False, decide_True by lia. rewrite rd_wr_eq, Z.sub_diag, Z.add_0_r.
    apply Z.mod_small, rd_range.
  - repeat case_decide; try lia.
    + destruct (decide (s = d)) as [->|]; [|rewrite rd_wr_ne by lia; f_equal; lia].
      replace (d + 1 + (a - (d + 1))) with a by lia. rewrite rd_wr_ne by lia. f_equal; lia.
    + by rewrite rd_wr_ne by lia.
Qed.

Lemma copy_down_spec (k : nat) m d s a : ~ (d < s < d + k) ->
  (copy_down k m d s).[a] = if decide (d - k <= a < d) then m.[s - (d - a)] else m.[a].
Proof.
  revert m d s. induction k as [|k IH]; intros m d s Hov; cbn [copy_down].
  { case_decide; [lia|done]. }
  rewrite IH by lia. destruct (decide (d - 1 = a)) as [Heq|Hne].
  - rewrite decide_False, decide_True by lia. subst a. rewrite rd_wr_eq.
    replace (s - (d - (d - 1))) with (s - 1) by lia. apply Z.mod_small, rd_range.
  - repeat case_decide; try lia.
    + destruct (decide (s = d)) as [->|]; rewrite rd_wr_ne by lia; f_equal; lia.
    + by rewrite rd_wr_ne by lia.
Qed.

Lemma memmove_rd m dst src n a : 0 <= n < 4294967296 ->
  (memmove m dst src n).[a] = if decide (dst <= a < dst + n) then m.[src + (a - dst)] else m.[a].
Proof.
  intros Hn. unfold memmove. rewrite u32_small by lia. case_if.
  { subst. case_decide; [lia|done]. }
  case_if.
  - rewrite copy_down_spec by lia. rewrite Z2Nat.id by lia.
    replace (dst + n - n) with dst by lia. case_decide; [|done]. f_equal. lia.
  - rewrite copy_up_spec by lia. by rewrite Z2Nat.id by lia.
Qed.

(** [memmove] is correct for every overlap of source and destination: each
    byte of the destination range holds what the corresponding source byte held
    before the call, and no other byte changes. *)
Theorem memmove_spec m dst src n a : 0 <= n < 4294967296 ->
  (memmove m dst src n).[a] = if decide (dst <= a < dst + n) then m.[src + (a - dst)] else m.[a].
Proof. apply memmove_rd. Qed.

Lemma memmove_spec_witness :
  (memmove (wr_bytes ∅ 100 [1; 2; 3; 4]) 102 100 4).[105] = 4 /\
  (memmove (wr_bytes ∅ 100 [1; 2; 3; 4]) 99 100 4).[99] = 1.
Proof.
  split.
  - rewrite (memmove_spec _ 102 100 4 105) by lia. reflexivity.
  - rewrite (memmove_spec _ 99 100 4 99) by lia. reflexivity.
Defined.

(** Reference comparison of two strings: the difference of the first bytes that
    differ, the terminator counting as 0. *)
Fixpoint lexcmp (l1 l2 : list Z) : Z :=
  match l1, l2 with
  | [], [] => 0
  | [], y :: _ => 0 - y
  | x :: _, [] => x
  | x :: l1, y :: l2 => if x =? y then lexcmp l1 l2 else x - y
  end.

Lemma lexcmp_zero l1 l2 : Forall (fun c => c <> 0) l1 -> Forall (fun c => c <> 0) l2 ->
  lexcmp l1 l2 = 0 <-> l1 = l2.
Proof.
  revert l2. induction l1 as [|x l1 IH]; intros [|y l2] H1 H2; simpl; try done.
  - inv H2. split; [lia|done].
  - inv H1. split; [lia|done].
  - inv H1. inv H2. case_if; [|split; [lia|congruence]].
    subst. rewrite IH by done. split; congruence.
Qed.

Lemma cpre_nonzero k m a : Forall (fun c => c <> 0) (cpre k m a).
Proof.
  revert a. induction k as [|k IH]; intros a; simpl; [constructor|].
  case_if; constructor; [done | apply IH].
Qed.

Lemma strncmp_loop_lex k m p q : strncmp_loop k m p q = lexcmp (cpre k m p) (cpre k m q).
Proof.
  revert p q. induction k as [|k IH]; intros p q; cbn [strncmp_loop cpre]; [done|].
  destruct (Z.eqb_spec (m.[p]) 0) as [Hp|Hp], (Z.eqb_spec (m.[q]) 0) as [Hq|Hq]; simpl.
  - lia.
  - lia.
  - destruct (Z.eqb_spec (m.[p]) (m.[q])); lia.
  - case_if; [apply IH|done].
Qed.

(** [strncmp(p, q, n)] is the lexicographic comparison of the two strings
    cut at [n] bytes, so it is 0 exactly when the cut strings are equal. *)
Theorem strncmp_spec m p q n : 0 <= n < 4294967296 ->
  let sp := cpre (Z.to_nat n) m p in
  let sq := cpre (Z.to_nat n) m q in
  strncmp m p q n = lexcmp sp sq /\ (strncmp m p q n = 0 <-> sp = sq).
Proof.
  intros Hn sp sq. unfold strncmp. rewrite u32_small, strncmp_loop_lex by lia.
  split; [done|]. apply lexcmp_zero; apply cpre_nonzero.
Qed.

Lemma strncmp_spec_witness :
  let m := wr_bytes (wr_bytes ∅ 100 [97; 98; 0]) 200 [97; 98; 99; 0] in
  strncmp m 100 200 2 = 0 /\ strncmp m 100 200 3 = -99.
Proof.
  intros m. split.
  - apply (strncmp_spec m 100 200 2); [lia | vm_compute; reflexivity].
  - rewrite (proj1 (strncmp_spec m 100 200 3 ltac:(lia))). vm_compute. reflexivity.
Defined.

Lemma cstr_app_nul m a l : bytes_at m a l -> Forall (fun c => c <> 0) l -> m.[a + length l] = 0 -> cstr m a l.
Proof.
  revert a. induction l as [|c l IH]; intros a Hb Hl Hz; simpl in *.
  - by rewrite Z.add_0_r in Hz.
  - destruct Hb as [Hc Hb]. inv Hl. split_and!; [done|done|]. apply IH; [done|done|].
    rewrite <- Hz. f_equal. lia.
Qed.

Lemma bytes_at_ext m1 m2 a l :
  (forall b, a <= b < a + length l -> m1.[b] = m2.[b]) -> bytes_at m1 a l -> bytes_at m2 a l.
Proof.
  revert a. induction l as [|c l IH]; intros a H; simpl in *; [done|].
  intros [Hc Hb]. split; [rewrite <- H by lia; done|]. apply IH; [intros; apply H; lia | done].
Qed.

Lemma cpre_ext k m1 m2 a : (forall b, a <= b < a + Z.of_nat k -> m1.[b] = m2.[b]) -> cpre k m1 a = cpre k m2 a.
Proof.
  revert a. induction k as [|k IH]; intros a H; simpl; [done|].
  rewrite (H a) by lia. case_if; [done|]. f_equal. apply IH. intros; apply H; lia.
Qed.

Lemma cpre_length k m a : (length (cpre k m a) <= k)%nat.
Proof. revert a. induction k as [|k IH]; intros a; simpl; [lia|]. case_if; simpl; [lia|]. specialize (IH (a + 1)). lia. Qed.

Lemma safestrcpy_loop_spec (k : nat) m s t :
  t + k <= s \/ s + k + 1 <= t ->
  let m' := safestrcpy_loop k m s t in
  cstr m' s (cpre k m t) /\ (forall a, a < s \/ s + k < a -> m'.[a] = m.[a]).
Proof.
  revert m s t. induction k as [|k IH]; intros m s t Hd; cbn [safestrcpy_loop cpre].
  { split; [simpl; by rewrite rd_wr_eq|]. intros a Ha. apply rd_wr_ne. lia. }
  destruct (Z.eqb_spec (m.[t]) 0) as [Hz|Hz].
  - split.
    + simpl. by rewrite rd_wr_ne, rd_wr_eq, Hz by lia.
    + intros a Ha. rewrite !rd_wr_ne by lia. done.
  - destruct (IH (m.[s <- m.[t]]) (s + 1) (t + 1)) as [Hc Hf]; [lia|].
    split.
    + simpl. split_and!.
      * rewrite Hf, rd_wr_eq by lia. apply Z.mod_small, rd_range.
      * done.
      * erewrite (cpre_ext k m); [exact Hc|]. intros b Hb. rewrite rd_wr_ne; [done|lia].
    + intros a Ha. rewrite Hf by lia. apply rd_wr_ne. lia.
Qed.

(** With disjoint buffers and [n > 0], [safestrcpy] always leaves a
    NUL-terminated string: the source cut at [n - 1] bytes; it writes nothing
    outside the [n] bytes of the destination. *)
Theorem safestrcpy_spec m s t n : 0 < n -> t + n <= s \/ s + n <= t ->
  let m' := safestrcpy m s t n in
  cstr m' s (cpre (Z.to_nat (n - 1)) m t) /\ (forall a, a < s \/ s + n <= a -> m'.[a] = m.[a]).
Proof.
  intros Hn Hd. unfold safestrcpy. case_if; [lia|].
  destruct (safestrcpy_loop_spec (Z.to_nat (n - 1)) m s t) as [H1 H2]; [lia|].
  split; [done|]. intros a Ha. apply H2. lia.
Qed.

Lemma safestrcpy_spec_witness :
  let m := wr_bytes ∅ 200 [104; 101; 108; 108; 111; 0] in
  cstr (safestrcpy m 100 200 4) 100 [104; 101; 108].
Proof.
  intros m. assert (Hn : 0 < 4) by lia. assert (Hd : 200 + 4 <= 100 \/ 100 + 4 <= 200) by lia.
  exact (proj1 (safestrcpy_spec m 100 200 4 Hn Hd)).
Defined.

Lemma strncpy_pad_spec k m s a :
  (strncpy_pad k m s).[a] = if decide (s <= a < s + Z.of_nat k) then 0 else m.[a].
Proof.
  revert m s. induction k as [|k IH]; intros m s; cbn [strncpy_pad]; [case_decide; [lia|done]|].
  rewrite IH, rd_wr. repeat case_decide; try lia; done.
Qed.

Lemma strncpy_copy_spec (k : nat) m s t m' k' s' :
  t + k <= s \/ s + k <= t ->
  strncpy_copy k m s t = (m', k', s') ->
  s' + k' = s + k /\ bytes_at m' s (cpre k m t) /\
  (forall a, s + length (cpre k m t) <= a < s' -> m'.[a] = 0) /\ s + length (cpre k m t) <= s' /\
  (forall a, a < s \/ s' <= a -> m'.[a] = m.[a]).
Proof.
  revert m s t. induction k as [|k IH]; intros m s t Hd; cbn [strncpy_copy cpre].
  { intros ?; simplify_eq. simpl. split_and!; auto; lia. }
  destruct (Z.eqb_spec (m.[t]) 0) as [Hz|Hz].
  - intros ?; simplify_eq. simpl. split_and!; [lia|done| |lia|].
    + intros a Ha. replace a with s by lia. by rewrite rd_wr_eq, Hz.
    + intros a Ha. apply rd_wr_ne. lia.
  - intros Heq. apply IH in Heq as (H1 & H2 & H3 & H4 & H5); [|lia].
    rewrite (cpre_ext k _ m) in H2, H3, H4 by (intros; apply rd_wr_ne; lia).
    simpl. split_and!; [lia| |done| | |].
    + rewrite H5, rd_wr_eq by lia. apply Z.mod_small, rd_range.
    + intros a Ha. apply H3. lia.
    + lia.
    + intros a Ha. rewrite H5 by lia. apply rd_wr_ne. lia.
Qed.

(** [strncpy] copies the source cut at [n] bytes and fills the rest of the [n]
    bytes with zeros: the name field of a directory entry. *)
Lemma strncpy_spec m s t n : 0 <= n -> t + n <= s \/ s + n <= t ->
  let m' := strncpy m s t n in
  let l := cpre (Z.to_nat n) m t in
  bytes_at m' s l /\ (forall a, s + length l <= a < s + n -> m'.[a] = 0) /\
  (forall a, a < s \/ s + n <= a -> m'.[a] = m.[a]).
Proof.
  intros Hn Hd. unfold strncpy.
  destruct (strncpy_copy (Z.to_nat n) m s t) as [[m1 k1] s1] eqn:E.
  apply strncpy_copy_spec in E as (H1 & H2 & H3 & H4 & H5); [|lia].
  rewrite Z2Nat.id in H1 by lia. simpl. split_and!.
  - eapply bytes_at_ext; [|exact H2]. intros b Hb. rewrite strncpy_pad_spec, decide_False by lia. done.
  - intros a Ha. rewrite strncpy_pad_spec. case_decide; [done|]. apply H3. lia.
  - intros a Ha. rewrite strncpy_pad_spec, decide_False by lia. apply H5. lia.
Qed.

Lemma strlen_loop_spec fuel m s n l :
  cstr m (s + n) l -> (length l < fuel)%nat -> strlen_loop fuel m s n = Some (n + length l).
Proof.
  revert n l. induction fuel as [|fuel IH]; intros n l Hl Hf; [lia|]. cbn [strlen_loop].
  destruct l as [|c l]; simpl in *.
  - rewrite Hl. simpl. f_equal. lia.
  - destruct Hl as (Hc & Hnz & Hl). case_if; [congruence|].
    rewrite (IH (n + 1) l); [f_equal; lia | | lia]. by rewrite Z.add_assoc.
Qed.

(** [strlen] terminates on every NUL-terminated string and returns its length. *)
Lemma strlen_spec fuel m s l : cstr m s l -> (length l < fuel)%nat -> strlen fuel m s = Some (Z.of_nat (length l)).
Proof. intros Hl Hf. unfold strlen. by rewrite (strlen_loop_spec fuel m s 0 l) by (rewrite ?Z.add_0_r; done). Qed.
