(* ===== verification/State.v ===== *)
(** * The machine state of the kernel

    The C structures and global variables of the kernel, as records, with the
    constants of [param.h], [memlayout.h], [riscv.h], [proc.h].  One record [kst]
    holds the globals of the modelled kernel files and the part of the hardware
    they touch, as seen from the hart that executes the routine. *)

From S2P Require Import Prelude.

(** ** Constants *)

Definition NPROC : nat := 64.
Definition NCPU : nat := 8.
Definition NOFILE : nat := 16.
Definition NFILE : nat := 100.
Definition NINODE : nat := 50.
Definition NDEV : nat := 10.
Definition NBUF : nat := 30.
Definition LOGSIZE : nat := 30.
Definition MAXOPBLOCKS : Z := 10.
Definition ROOTDEV : Z := 1.
Definition ROOTINO : Z := 1.
Definition MAXARG : nat := 32.
Definition MAXPATH : nat := 128.
Definition BSIZE : nat := 1024.

Definition PGSIZE : Z := 4096.
Definition PGSHIFT : Z := 12.
Definition UART0 : Z := 268435456.
Definition VIRTIO0 : Z := 268439552.
Definition PLIC : Z := 201326592.
Definition KERNBASE : Z := 2147483648.
Definition PHYSTOP : Z := KERNBASE + 128 * 1024 * 1024.
Definition MAXVA : Z := Z.shiftl 1 (9 + 9 + 9 + 12 - 1).
Definition TRAMPOLINE : Z := MAXVA - PGSIZE.
Definition TRAPFRAME : Z := TRAMPOLINE - PGSIZE.
Definition KSTACK (p : Z) : Z := TRAMPOLINE - (p + 1) * 2 * PGSIZE.

Definition PGROUNDUP (sz : Z) : Z := andnot64 (u64 (sz + PGSIZE - 1)) (PGSIZE - 1).
Definition PGROUNDDOWN (a : Z) : Z := andnot64 a (PGSIZE - 1).

Definition PTE_V : Z := 1.
Definition PTE_R : Z := 2.
Definition PTE_W : Z := 4.
Definition PTE_X : Z := 8.
Definition PTE_U : Z := 16.

Definition PA2PTE (pa : Z) : Z := u64 (Z.shiftl (Z.shiftr pa 12) 10).
Definition PTE2PA (pte : Z) : Z := u64 (Z.shiftl (Z.shiftr pte 10) 12).
Definition PTE_FLAGS (pte : Z) : Z := Z.land pte 1023.
Definition PXMASK : Z := 511.
Definition PXSHIFT (level : Z) : Z := PGSHIFT + 9 * level.
Definition PX (level va : Z) : Z := Z.land (Z.shiftr va (PXSHIFT level)) PXMASK.

Definition SATP_SV39 : Z := Z.shiftl 8 60.
Definition MAKE_SATP (pagetable : Z) : Z := Z.lor SATP_SV39 (Z.shiftr pagetable 12).

(** ** Identities of kernel objects

    A kernel object that is only ever compared by address (a lock, a sleep
    channel) is named by a constructor: distinct objects have distinct
    addresses. *)

Inductive sleepid : Set :=
| SL_buf (i : nat)
| SL_inode (i : nat).

Inductive lockid : Set :=
| L_kmem | L_pid | L_wait | L_ticks | L_cons | L_pr | L_uart_tx
| L_bcache | L_itable | L_ftable | L_log | L_vdisk
| L_proc (i : nat)
| L_pipe (pa : Z)
| L_sleep (l : sleepid).

Inductive chan : Set :=
| Ch_null
| Ch_proc (i : nat)
| Ch_ticks | Ch_log | Ch_cons | Ch_uart_tx | Ch_vdisk
| Ch_sleeplock (l : sleepid)
| Ch_buf (i : nat)
| Ch_pipe_nread (pa : Z)
| Ch_pipe_nwrite (pa : Z).

#[export] Instance sleepid_eq_dec : EqDecision sleepid.
Proof. solve_decision. Defined.
#[export] Instance lockid_eq_dec : EqDecision lockid.
Proof. solve_decision. Defined.
#[export] Instance chan_eq_dec : EqDecision chan.
Proof. solve_decision. Defined.

Definition sleepid_code (l : sleepid) : nat + nat :=
  match l with SL_buf i => inl i | SL_inode i => inr i end.
Definition sleepid_decode (c : nat + nat) : sleepid :=
  match c with inl i => SL_buf i | inr i => SL_inode i end.

#[export] Program Instance sleepid_countable : Countable sleepid :=
  inj_countable' sleepid_code sleepid_decode _.
Next Obligation. by intros []. Qed.

Definition lockid_code (l : lockid) : nat + nat + Z + sleepid :=
  match l with
  | L_kmem => inl (inl (inl 0%nat)) | L_pid => inl (inl (inl 1%nat))
  | L_wait => inl (inl (inl 2%nat)) | L_ticks => inl (inl (inl 3%nat))
  | L_cons => inl (inl (inl 4%nat)) | L_pr => inl (inl (inl 5%nat))
  | L_uart_tx => inl (inl (inl 6%nat)) | L_bcache => inl (inl (inl 7%nat))
  | L_itable => inl (inl (inl 8%nat)) | L_ftable => inl (inl (inl 9%nat))
  | L_log => inl (inl (inl 10%nat)) | L_vdisk => inl (inl (inl 11%nat))
  | L_proc i => inl (inl (inr i))
  | L_pipe pa => inl (inr pa)
  | L_sleep l => inr l
  end.
Definition lockid_decode (c : nat + nat + Z + sleepid) : lockid :=
  match c with
  | inl (inl (inl n)) =>
      nth n [L_kmem; L_pid; L_wait; L_ticks; L_cons; L_pr; L_uart_tx; L_bcache;
             L_itable; L_ftable; L_log; L_vdisk] L_kmem
  | inl (inl (inr i)) => L_proc i
  | inl (inr pa) => L_pipe pa
  | inr l => L_sleep l
  end.

#[export] Program Instance lockid_countable : Countable lockid :=
  inj_countable' lockid_code lockid_decode _.
Next Obligation. by intros []. Qed.

#[global] Arguments sleepid_countable : simpl never.
#[global] Arguments lockid_countable : simpl never.
#[global] Arguments sleepid_eq_dec : simpl never.
#[global] Arguments lockid_eq_dec : simpl never.

(** ** Structures *)

(** [struct spinlock] (the [name] is for debugging only). *)
Record spinlock := mkspin { locked : Z; lk_cpu : option nat }.

(** [struct sleeplock], without the spinlock that protects it, which is
    [L_sleep] of the lock map. *)
Record sleeplock := mksleep { sl_locked : Z; sl_pid : Z }.

Inductive procstate : Set := UNUSED | USED | SLEEPING | RUNNABLE | RUNNING | ZOMBIE.

#[export] Instance procstate_eq_dec : EqDecision procstate.
Proof. solve_decision. Defined.

Record context := mkctx { ctx_ra : Z; ctx_sp : Z; ctx_s : list Z (* s0 .. s11 *) }.

Record proc := mkproc {
  p_state : procstate;
  p_chan : chan;
  p_killed : Z;
  p_xstate : Z;
  p_pid : Z;
  p_priority : Z;         (* uint *)
  p_promotion_timer : Z;  (* int *)
  p_parent : option nat;  (* index in proc[] *)
  p_kstack : Z;
  p_sz : Z;
  p_pagetable : Z;        (* physical address of the root page, 0 if none *)
  p_trapframe : Z;        (* physical address of the trapframe page, 0 if none *)
  p_context : context;
  p_ofile : list (option nat);  (* indices in ftable.file[] *)
  p_cwd : option nat;           (* index in itable.inode[] *)
  p_name : list Z               (* 16 bytes *)
}.

(** [struct cpu], of the executing hart; its saved scheduler context is
    represented by the environment of the monad. *)
Record cpu := mkcpu { c_proc : option nat; c_noff : Z; c_intena : bool }.

Inductive schedimpl : Set := rr_scheduler_ptr | mlfq_scheduler_ptr.

#[export] Instance schedimpl_eq_dec : EqDecision schedimpl.
Proof. solve_decision. Defined.

(** [struct pipe]; [data] is the [PIPESIZE]-byte buffer. *)
Record pipe := mkpipe {
  pi_data : list Z;
  pi_nread : Z;      (* uint *)
  pi_nwrite : Z;     (* uint *)
  pi_readopen : Z;
  pi_writeopen : Z
}.

(** [struct buf]; the sleep lock is [SL_buf i] of the sleep-lock map.  The list
    pointers [prev] and [next] are indices in [bcache]. *)
Record buf := mkbuf {
  b_valid : Z;
  b_disk : Z;
  b_dev : Z;         (* uint *)
  b_blockno : Z;     (* uint *)
  b_refcnt : Z;      (* uint *)
  b_prev : nat;
  b_next : nat;
  b_data : list Z    (* BSIZE bytes *)
}.

(** [struct log], without its spinlock. *)
Record logst := mklog {
  lg_start : Z;
  lg_size : Z;
  lg_outstanding : Z;
  lg_committing : Z;
  lg_dev : Z;
  lg_n : Z;            (* lh.n *)
  lg_block : list Z    (* lh.block[LOGSIZE] *)
}.

Record superblock := mksb {
  sb_magic : Z;
  sb_size : Z;
  sb_nblocks : Z;
  sb_ninodes : Z;
  sb_nlog : Z;
  sb_logstart : Z;
  sb_inodestart : Z;
  sb_bmapstart : Z
}.

(** [struct inode]; the sleep lock is [SL_inode i]. *)
Record inode := mkinode {
  i_dev : Z;           (* uint *)
  i_inum : Z;          (* uint *)
  i_ref : Z;
  i_valid : Z;
  i_type : Z;          (* short *)
  i_major : Z;         (* short *)
  i_minor : Z;         (* short *)
  i_nlink : Z;         (* short *)
  i_size : Z;          (* uint *)
  i_addrs : list Z     (* uint[NDIRECT + 1] *)
}.

Inductive filetype : Set := FD_NONE | FD_PIPE | FD_INODE | FD_DEVICE.

#[export] Instance filetype_eq_dec : EqDecision filetype.
Proof. solve_decision. Defined.

Record file := mkfile {
  f_type : filetype;
  f_ref : Z;
  f_readable : Z;
  f_writable : Z;
  f_pipe : Z;              (* address of the pipe's page *)
  f_ip : option nat;       (* index in itable.inode[] *)
  f_off : Z;               (* uint *)
  f_major : Z              (* short *)
}.

(** The functions a [devsw] entry can point to. *)
Inductive devread : Set := consoleread_ptr.
Inductive devwrite : Set := consolewrite_ptr.
Record devsw := mkdevsw { dev_read : option devread; dev_write : option devwrite }.

(** The console input buffer. *)
Record consst := mkcons {
  cons_buf : list Z;   (* INPUT_BUF_SIZE bytes *)
  cons_r : Z;          (* uint *)
  cons_w : Z;          (* uint *)
  cons_e : Z           (* uint *)
}.

(** The UART: the transmit buffer of uart.c, and the hardware.  [ut_lsr] are the
    answers the line status register will give to the question whether the
    transmitter is idle; when they are used up it is idle.  [ut_rx] are the bytes
    waiting in the receiver, [ut_out] those that were given to the transmitter,
    [ut_cfg] the other register writes. *)
Record uartst := mkuart {
  ut_buf : list Z;     (* UART_TX_BUF_SIZE bytes *)
  ut_w : Z;            (* uint64 *)
  ut_r : Z;            (* uint64 *)
  ut_lsr : list bool;
  ut_rx : list Z;
  ut_out : list Z;
  ut_cfg : list (Z * Z)
}.

(** The supervisor trap registers of the hart: of [sstatus] the previous
    privilege and previous interrupt-enable bits ([SIE] is [k_sie]). *)
Record csrs := mkcsrs {
  r_scause : Z;
  r_sepc : Z;
  r_stval : Z;
  r_stvec : Z;
  r_spp : bool;
  r_spie : bool;
  r_sip : Z
}.

(** The interrupt controller: interrupts waiting to be claimed, interrupts
    claimed and not completed, writes to the configuration registers. *)
Record plicst := mkplic { pl_pending : list Z; pl_service : list Z; pl_cfg : list (Z * Z) }.

(** What a descriptor of the disk queue points to: a request header
    [disk.ops[i]], the data of a buffer, a status byte [disk.info[i].status]. *)
Inductive vaddr : Set := VA_null | VA_ops (i : nat) | VA_data (b : nat) | VA_status (i : nat).

Record virtq_desc := mkdesc { d_addr : vaddr; d_len : Z; d_flags : Z; d_next : Z }.
Record virtio_blk_req := mkreq { q_type : Z; q_reserved : Z; q_sector : Z }.

(** [struct disk], with the three queue pages it points to; the registers of the
    device: the values it gives to reads, and the writes. *)
Record vdisk := mkvdisk {
  v_desc : list virtq_desc;
  v_avail_idx : Z;            (* uint16 *)
  v_avail_ring : list Z;
  v_usedp_idx : Z;            (* disk.used->idx, uint16 *)
  v_usedp_ring : list Z;      (* the ids in disk.used->ring *)
  v_free : list Z;
  v_used_idx : Z;             (* uint16 *)
  v_info_b : list (option nat);
  v_info_status : list Z;
  v_ops : list virtio_blk_req;
  v_regs : gmap Z Z;          (* values the device registers read as *)
  v_writes : list (Z * Z)     (* register writes, oldest first *)
}.

(** Addresses fixed by the linker ([kernel.ld]) that the kernel refers to. *)
Class KernelImage := {
  kend : Z;            (* end[]: first address after the kernel *)
  etext : Z;           (* etext[]: end of the kernel text *)
  trampoline_pa : Z;   (* trampoline[]: the trampoline page *)
  forkret_addr : Z;    (* entry point of forkret() *)
  usertrap_addr : Z;   (* entry point of usertrap() *)
  kernelvec_addr : Z;  (* kernelvec, in kernelvec.S *)
  uservec_off : Z;     (* uservec - trampoline, in trampoline.S *)
  userret_off : Z      (* userret - trampoline *)
}.

(** What [kernel.ld] guarantees about them. *)
Class KernelImageOk `{KernelImage} : Prop := {
  kend_lo : KERNBASE < kend;
  kend_hi : kend <= PHYSTOP;
  etext_aligned : etext mod PGSIZE = 0;
  etext_in : KERNBASE < etext <= kend;
  trampoline_aligned : trampoline_pa mod PGSIZE = 0;
  trampoline_in : KERNBASE <= trampoline_pa < kend
}.

(** ** The kernel state *)

(** The file system's part: buffer cache, log, tables, disk. *)
Record fsst := mkfs {
  fs_bufs : list buf;  (* bcache.buf[NBUF], then bcache.head at index NBUF *)
  fs_log : logst;  (* log *)
  fs_sb : superblock;  (* sb *)
  fs_inodes : list inode;  (* itable.inode[NINODE] *)
  fs_files : list file;  (* ftable.file[NFILE] *)
  fs_devsw : list devsw;  (* devsw[NDEV] *)
  fs_disk : gmap Z (list Z);  (* the disk: contents of the blocks; an absent block holds zeroes *)
  fs_dwrites : list (Z * list Z);  (* history: block writes that reached the disk, latest first *)
}.

Definition set_fs_bufs (x : list buf) (f : fsst) : fsst :=
  mkfs x (fs_log f) (fs_sb f) (fs_inodes f) (fs_files f) (fs_devsw f) (fs_disk f) (fs_dwrites f).
Definition set_fs_log (x : logst) (f : fsst) : fsst :=
  mkfs (fs_bufs f) x (fs_sb f) (fs_inodes f) (fs_files f) (fs_devsw f) (fs_disk f) (fs_dwrites f).
Definition set_fs_sb (x : superblock) (f : fsst) : fsst :=
  mkfs (fs_bufs f) (fs_log f) x (fs_inodes f) (fs_files f) (fs_devsw f) (fs_disk f) (fs_dwrites f).
Definition set_fs_inodes (x : list inode) (f : fsst) : fsst :=
  mkfs (fs_bufs f) (fs_log f) (fs_sb f) x (fs_files f) (fs_devsw f) (fs_disk f) (fs_dwrites f).
Definition set_fs_files (x : list file) (f : fsst) : fsst :=
  mkfs (fs_bufs f) (fs_log f) (fs_sb f) (fs_inodes f) x (fs_devsw f) (fs_disk f) (fs_dwrites f).
Definition set_fs_devsw (x : list devsw) (f : fsst) : fsst :=
  mkfs (fs_bufs f) (fs_log f) (fs_sb f) (fs_inodes f) (fs_files f) x (fs_disk f) (fs_dwrites f).
Definition set_fs_disk (x : gmap Z (list Z)) (f : fsst) : fsst :=
  mkfs (fs_bufs f) (fs_log f) (fs_sb f) (fs_inodes f) (fs_files f) (fs_devsw f) x (fs_dwrites f).
Definition set_fs_dwrites (x : list (Z * list Z)) (f : fsst) : fsst :=
  mkfs (fs_bufs f) (fs_log f) (fs_sb f) (fs_inodes f) (fs_files f) (fs_devsw f) (fs_disk f) x.

(** Other global variables and registers. *)
Record globst := mkglob {
  gl_kpgtbl : Z;  (* kernel_pagetable *)
  gl_satp : Z;  (* satp register of this hart *)
  gl_initproc : option nat;  (* initproc *)
  gl_nextpid : Z;  (* nextpid *)
  gl_sched : schedimpl;  (* sched_pointer *)
  gl_ticks : Z;  (* ticks *)
  gl_pipes : gmap Z pipe;  (* the pipe structures, by the address of their page *)
  gl_dispatched : list (nat * Z);  (* history: processes the scheduler switched to, with their priority, latest first *)
  gl_first : Z;  (* the static variable first of forkret *)
}.

Definition set_gl_kpgtbl (x : Z) (f : globst) : globst :=
  mkglob x (gl_satp f) (gl_initproc f) (gl_nextpid f) (gl_sched f) (gl_ticks f) (gl_pipes f) (gl_dispatched f) (gl_first f).
Definition set_gl_satp (x : Z) (f : globst) : globst :=
  mkglob (gl_kpgtbl f) x (gl_initproc f) (gl_nextpid f) (gl_sched f) (gl_ticks f) (gl_pipes f) (gl_dispatched f) (gl_first f).
Definition set_gl_initproc (x : option nat) (f : globst) : globst :=
  mkglob (gl_kpgtbl f) (gl_satp f) x (gl_nextpid f) (gl_sched f) (gl_ticks f) (gl_pipes f) (gl_dispatched f) (gl_first f).
Definition set_gl_nextpid (x : Z) (f : globst) : globst :=
  mkglob (gl_kpgtbl f) (gl_satp f) (gl_initproc f) x (gl_sched f) (gl_ticks f) (gl_pipes f) (gl_dispatched f) (gl_first f).
Definition set_gl_sched (x : schedimpl) (f : globst) : globst :=
  mkglob (gl_kpgtbl f) (gl_satp f) (gl_initproc f) (gl_nextpid f) x (gl_ticks f) (gl_pipes f) (gl_dispatched f) (gl_first f).
Definition set_gl_ticks (x : Z) (f : globst) : globst :=
  mkglob (gl_kpgtbl f) (gl_satp f) (gl_initproc f) (gl_nextpid f) (gl_sched f) x (gl_pipes f) (gl_dispatched f) (gl_first f).
Definition set_gl_pipes (x : gmap Z pipe) (f : globst) : globst :=
  mkglob (gl_kpgtbl f) (gl_satp f) (gl_initproc f) (gl_nextpid f) (gl_sched f) (gl_ticks f) x (gl_dispatched f) (gl_first f).
Definition set_gl_dispatched (x : list (nat * Z)) (f : globst) : globst :=
  mkglob (gl_kpgtbl f) (gl_satp f) (gl_initproc f) (gl_nextpid f) (gl_sched f) (gl_ticks f) (gl_pipes f) x (gl_first f).
Definition set_gl_first (x : Z) (f : globst) : globst :=
  mkglob (gl_kpgtbl f) (gl_satp f) (gl_initproc f) (gl_nextpid f) (gl_sched f) (gl_ticks f) (gl_pipes f) (gl_dispatched f) x.

(** The devices' part. *)
Record devst := mkdev {
  dv_cons : consst;  (* cons *)
  dv_uart : uartst;  (* uart_tx_* and the UART hardware *)
  dv_prlocking : Z;  (* pr.locking *)
  dv_csr : csrs;  (* supervisor trap registers of this hart *)
  dv_plic : plicst;  (* the interrupt controller *)
  dv_vdisk : vdisk;  (* disk of virtio_disk.c, and the device registers *)
}.

Definition set_dv_cons (x : consst) (f : devst) : devst :=
  mkdev x (dv_uart f) (dv_prlocking f) (dv_csr f) (dv_plic f) (dv_vdisk f).
Definition set_dv_uart (x : uartst) (f : devst) : devst :=
  mkdev (dv_cons f) x (dv_prlocking f) (dv_csr f) (dv_plic f) (dv_vdisk f).
Definition set_dv_prlocking (x : Z) (f : devst) : devst :=
  mkdev (dv_cons f) (dv_uart f) x (dv_csr f) (dv_plic f) (dv_vdisk f).
Definition set_dv_csr (x : csrs) (f : devst) : devst :=
  mkdev (dv_cons f) (dv_uart f) (dv_prlocking f) x (dv_plic f) (dv_vdisk f).
Definition set_dv_plic (x : plicst) (f : devst) : devst :=
  mkdev (dv_cons f) (dv_uart f) (dv_prlocking f) (dv_csr f) x (dv_vdisk f).
Definition set_dv_vdisk (x : vdisk) (f : devst) : devst :=
  mkdev (dv_cons f) (dv_uart f) (dv_prlocking f) (dv_csr f) (dv_plic f) x.

Record kst := mkst {
  k_hart : nat;  (* hart id, register tp *)
  k_cpu : cpu;  (* cpus[hartid] *)
  k_sie : bool;  (* SIE bit of this hart's sstatus *)
  k_locks : gmap lockid spinlock;  (* spinlocks that are held; an absent lock is free *)
  k_sleeplocks : gmap sleepid sleeplock;  (* sleep locks that are held *)
  k_mem : gmap Z Z;  (* physical memory *)
  k_freelist : Z;  (* kmem.freelist *)
  k_procs : list proc;  (* proc[NPROC] *)
  k_glob : globst;  (* other globals *)
  k_fs : fsst;  (* file system *)
  k_dev : devst;  (* devices *)
}.

Definition set_k_hart (x : nat) (s : kst) : kst :=
  mkst x (k_cpu s) (k_sie s) (k_locks s) (k_sleeplocks s) (k_mem s) (k_freelist s) (k_procs s) (k_glob s) (k_fs s) (k_dev s).
Definition set_k_cpu (x : cpu) (s : kst) : kst :=
  mkst (k_hart s) x (k_sie s) (k_locks s) (k_sleeplocks s) (k_mem s) (k_freelist s) (k_procs s) (k_glob s) (k_fs s) (k_dev s).
Definition set_k_sie (x : bool) (s : kst) : kst :=
  mkst (k_hart s) (k_cpu s) x (k_locks s) (k_sleeplocks s) (k_mem s) (k_freelist s) (k_procs s) (k_glob s) (k_fs s) (k_dev s).
Definition set_k_locks (x : gmap lockid spinlock) (s : kst) : kst :=
  mkst (k_hart s) (k_cpu s) (k_sie s) x (k_sleeplocks s) (k_mem s) (k_freelist s) (k_procs s) (k_glob s) (k_fs s) (k_dev s).
Definition set_k_sleeplocks (x : gmap sleepid sleeplock) (s : kst) : kst :=
  mkst (k_hart s) (k_cpu s) (k_sie s) (k_locks s) x (k_mem s) (k_freelist s) (k_procs s) (k_glob s) (k_fs s) (k_dev s).
Definition set_k_mem (x : gmap Z Z) (s : kst) : kst :=
  mkst (k_hart s) (k_cpu s) (k_sie s) (k_locks s) (k_sleeplocks s) x (k_freelist s) (k_procs s) (k_glob s) (k_fs s) (k_dev s).
Definition set_k_freelist (x : Z) (s : kst) : kst :=
  mkst (k_hart s) (k_cpu s) (k_sie s) (k_locks s) (k_sleeplocks s) (k_mem s) x (k_procs s) (k_glob s) (k_fs s) (k_dev s).
Definition set_k_procs (x : list proc) (s : kst) : kst :=
  mkst (k_hart s) (k_cpu s) (k_sie s) (k_locks s) (k_sleeplocks s) (k_mem s) (k_freelist s) x (k_glob s) (k_fs s) (k_dev s).
Definition set_k_glob (x : globst) (s : kst) : kst :=
  mkst (k_hart s) (k_cpu s) (k_sie s) (k_locks s) (k_sleeplocks s) (k_mem s) (k_freelist s) (k_procs s) x (k_fs s) (k_dev s).
Definition set_k_fs (x : fsst) (s : kst) : kst :=
  mkst (k_hart s) (k_cpu s) (k_sie s) (k_locks s) (k_sleeplocks s) (k_mem s) (k_freelist s) (k_procs s) (k_glob s) x (k_dev s).
Definition set_k_dev (x : devst) (s : kst) : kst :=
  mkst (k_hart s) (k_cpu s) (k_sie s) (k_locks s) (k_sleeplocks s) (k_mem s) (k_freelist s) (k_procs s) (k_glob s) (k_fs s) x.

(** Access to the parts. *)
Definition k_bufs (s : kst) : list buf := fs_bufs (k_fs s).
Definition set_k_bufs (x : list buf) (s : kst) : kst := set_k_fs (set_fs_bufs x (k_fs s)) s.
Definition k_log (s : kst) : logst := fs_log (k_fs s).
Definition set_k_log (x : logst) (s : kst) : kst := set_k_fs (set_fs_log x (k_fs s)) s.
Definition k_sb (s : kst) : superblock := fs_sb (k_fs s).
Definition set_k_sb (x : superblock) (s : kst) : kst := set_k_fs (set_fs_sb x (k_fs s)) s.
Definition k_inodes (s : kst) : list inode := fs_inodes (k_fs s).
Definition set_k_inodes (x : list inode) (s : kst) : kst := set_k_fs (set_fs_inodes x (k_fs s)) s.
Definition k_files (s : kst) : list file := fs_files (k_fs s).
Definition set_k_files (x : list file) (s : kst) : kst := set_k_fs (set_fs_files x (k_fs s)) s.
Definition k_devsw (s : kst) : list devsw := fs_devsw (k_fs s).
Definition set_k_devsw (x : list devsw) (s : kst) : kst := set_k_fs (set_fs_devsw x (k_fs s)) s.
Definition k_disk (s : kst) : gmap Z (list Z) := fs_disk (k_fs s).
Definition set_k_disk (x : gmap Z (list Z)) (s : kst) : kst := set_k_fs (set_fs_disk x (k_fs s)) s.
Definition k_dwrites (s : kst) : list (Z * list Z) := fs_dwrites (k_fs s).
Definition set_k_dwrites (x : list (Z * list Z)) (s : kst) : kst := set_k_fs (set_fs_dwrites x (k_fs s)) s.
Definition k_kpgtbl (s : kst) : Z := gl_kpgtbl (k_glob s).
Definition set_k_kpgtbl (x : Z) (s : kst) : kst := set_k_glob (set_gl_kpgtbl x (k_glob s)) s.
Definition k_satp (s : kst) : Z := gl_satp (k_glob s).
Definition set_k_satp (x : Z) (s : kst) : kst := set_k_glob (set_gl_satp x (k_glob s)) s.
Definition k_initproc (s : kst) : option nat := gl_initproc (k_glob s).
Definition set_k_initproc (x : option nat) (s : kst) : kst := set_k_glob (set_gl_initproc x (k_glob s)) s.
Definition k_nextpid (s : kst) : Z := gl_nextpid (k_glob s).
Definition set_k_nextpid (x : Z) (s : kst) : kst := set_k_glob (set_gl_nextpid x (k_glob s)) s.
Definition k_sched (s : kst) : schedimpl := gl_sched (k_glob s).
Definition set_k_sched (x : schedimpl) (s : kst) : kst := set_k_glob (set_gl_sched x (k_glob s)) s.
Definition k_ticks (s : kst) : Z := gl_ticks (k_glob s).
Definition set_k_ticks (x : Z) (s : kst) : kst := set_k_glob (set_gl_ticks x (k_glob s)) s.
Definition k_pipes (s : kst) : gmap Z pipe := gl_pipes (k_glob s).
Definition set_k_pipes (x : gmap Z pipe) (s : kst) : kst := set_k_glob (set_gl_pipes x (k_glob s)) s.
Definition k_dispatched (s : kst) : list (nat * Z) := gl_dispatched (k_glob s).
Definition set_k_dispatched (x : list (nat * Z)) (s : kst) : kst := set_k_glob (set_gl_dispatched x (k_glob s)) s.
Definition k_first (s : kst) : Z := gl_first (k_glob s).
Definition set_k_first (x : Z) (s : kst) : kst := set_k_glob (set_gl_first x (k_glob s)) s.
Definition k_cons (s : kst) : consst := dv_cons (k_dev s).
Definition set_k_cons (x : consst) (s : kst) : kst := set_k_dev (set_dv_cons x (k_dev s)) s.
Definition k_uart (s : kst) : uartst := dv_uart (k_dev s).
Definition set_k_uart (x : uartst) (s : kst) : kst := set_k_dev (set_dv_uart x (k_dev s)) s.
Definition k_prlocking (s : kst) : Z := dv_prlocking (k_dev s).
Definition set_k_prlocking (x : Z) (s : kst) : kst := set_k_dev (set_dv_prlocking x (k_dev s)) s.
Definition k_csr (s : kst) : csrs := dv_csr (k_dev s).
Definition set_k_csr (x : csrs) (s : kst) : kst := set_k_dev (set_dv_csr x (k_dev s)) s.
Definition k_plic (s : kst) : plicst := dv_plic (k_dev s).
Definition set_k_plic (x : plicst) (s : kst) : kst := set_k_dev (set_dv_plic x (k_dev s)) s.
Definition k_vdisk (s : kst) : vdisk := dv_vdisk (k_dev s).
Definition set_k_vdisk (x : vdisk) (s : kst) : kst := set_k_dev (set_dv_vdisk x (k_dev s)) s.

(** Field updates of the structures. *)
Definition set_p_state x p := mkproc x (p_chan p) (p_killed p) (p_xstate p) (p_pid p) (p_priority p) (p_promotion_timer p) (p_parent p) (p_kstack p) (p_sz p) (p_pagetable p) (p_trapframe p) (p_context p) (p_ofile p) (p_cwd p) (p_name p).
Definition set_p_chan x p := mkproc (p_state p) x (p_killed p) (p_xstate p) (p_pid p) (p_priority p) (p_promotion_timer p) (p_parent p) (p_kstack p) (p_sz p) (p_pagetable p) (p_trapframe p) (p_context p) (p_ofile p) (p_cwd p) (p_name p).
Definition set_p_killed x p := mkproc (p_state p) (p_chan p) x (p_xstate p) (p_pid p) (p_priority p) (p_promotion_timer p) (p_parent p) (p_kstack p) (p_sz p) (p_pagetable p) (p_trapframe p) (p_context p) (p_ofile p) (p_cwd p) (p_name p).
Definition set_p_xstate x p := mkproc (p_state p) (p_chan p) (p_killed p) x (p_pid p) (p_priority p) (p_promotion_timer p) (p_parent p) (p_kstack p) (p_sz p) (p_pagetable p) (p_trapframe p) (p_context p) (p_ofile p) (p_cwd p) (p_name p).
Definition set_p_pid x p := mkproc (p_state p) (p_chan p) (p_killed p) (p_xstate p) x (p_priority p) (p_promotion_timer p) (p_parent p) (p_kstack p) (p_sz p) (p_pagetable p) (p_trapframe p) (p_context p) (p_ofile p) (p_cwd p) (p_name p).
Definition set_p_priority x p := mkproc (p_state p) (p_chan p) (p_killed p) (p_xstate p) (p_pid p) x (p_promotion_timer p) (p_parent p) (p_kstack p) (p_sz p) (p_pagetable p) (p_trapframe p) (p_context p) (p_ofile p) (p_cwd p) (p_name p).
Definition set_p_promotion_timer x p := mkproc (p_state p) (p_chan p) (p_killed p) (p_xstate p) (p_pid p) (p_priority p) x (p_parent p) (p_kstack p) (p_sz p) (p_pagetable p) (p_trapframe p) (p_context p) (p_ofile p) (p_cwd p) (p_name p).
Definition set_p_parent x p := mkproc (p_state p) (p_chan p) (p_killed p) (p_xstate p) (p_pid p) (p_priority p) (p_promotion_timer p) x (p_kstack p) (p_sz p) (p_pagetable p) (p_trapframe p) (p_context p) (p_ofile p) (p_cwd p) (p_name p).
Definition set_p_kstack x p := mkproc (p_state p) (p_chan p) (p_killed p) (p_xstate p) (p_pid p) (p_priority p) (p_promotion_timer p) (p_parent p) x (p_sz p) (p_pagetable p) (p_trapframe p) (p_context p) (p_ofile p) (p_cwd p) (p_name p).
Definition set_p_sz x p := mkproc (p_state p) (p_chan p) (p_killed p) (p_xstate p) (p_pid p) (p_priority p) (p_promotion_timer p) (p_parent p) (p_kstack p) x (p_pagetable p) (p_trapframe p) (p_context p) (p_ofile p) (p_cwd p) (p_name p).
Definition set_p_pagetable x p := mkproc (p_state p) (p_chan p) (p_killed p) (p_xstate p) (p_pid p) (p_priority p) (p_promotion_timer p) (p_parent p) (p_kstack p) (p_sz p) x (p_trapframe p) (p_context p) (p_ofile p) (p_cwd p) (p_name p).
Definition set_p_trapframe x p := mkproc (p_state p) (p_chan p) (p_killed p) (p_xstate p) (p_pid p) (p_priority p) (p_promotion_timer p) (p_parent p) (p_kstack p) (p_sz p) (p_pagetable p) x (p_context p) (p_ofile p) (p_cwd p) (p_name p).
Definition set_p_context x p := mkproc (p_state p) (p_chan p) (p_killed p) (p_xstate p) (p_pid p) (p_priority p) (p_promotion_timer p) (p_parent p) (p_kstack p) (p_sz p) (p_pagetable p) (p_trapframe p) x (p_ofile p) (p_cwd p) (p_name p).
Definition set_p_ofile x p := mkproc (p_state p) (p_chan p) (p_killed p) (p_xstate p) (p_pid p) (p_priority p) (p_promotion_timer p) (p_parent p) (p_kstack p) (p_sz p) (p_pagetable p) (p_trapframe p) (p_context p) x (p_cwd p) (p_name p).
Definition set_p_cwd x p := mkproc (p_state p) (p_chan p) (p_killed p) (p_xstate p) (p_pid p) (p_priority p) (p_promotion_timer p) (p_parent p) (p_kstack p) (p_sz p) (p_pagetable p) (p_trapframe p) (p_context p) (p_ofile p) x (p_name p).
Definition set_p_name x p := mkproc (p_state p) (p_chan p) (p_killed p) (p_xstate p) (p_pid p) (p_priority p) (p_promotion_timer p) (p_parent p) (p_kstack p) (p_sz p) (p_pagetable p) (p_trapframe p) (p_context p) (p_ofile p) (p_cwd p) x.
Definition set_pi_data x p := mkpipe x (pi_nread p) (pi_nwrite p) (pi_readopen p) (pi_writeopen p).
Definition set_pi_nread x p := mkpipe (pi_data p) x (pi_nwrite p) (pi_readopen p) (pi_writeopen p).
Definition set_pi_nwrite x p := mkpipe (pi_data p) (pi_nread p) x (pi_readopen p) (pi_writeopen p).
Definition set_pi_readopen x p := mkpipe (pi_data p) (pi_nread p) (pi_nwrite p) x (pi_writeopen p).
Definition set_pi_writeopen x p := mkpipe (pi_data p) (pi_nread p) (pi_nwrite p) (pi_readopen p) x.
Definition set_c_proc x c := mkcpu x (c_noff c) (c_intena c).
Definition set_c_noff x c := mkcpu (c_proc c) x (c_intena c).
Definition set_c_intena x c := mkcpu (c_proc c) (c_noff c) x.

Definition set_b_valid x b := mkbuf x (b_disk b) (b_dev b) (b_blockno b) (b_refcnt b) (b_prev b) (b_next b) (b_data b).
Definition set_b_disk x b := mkbuf (b_valid b) x (b_dev b) (b_blockno b) (b_refcnt b) (b_prev b) (b_next b) (b_data b).
Definition set_b_dev x b := mkbuf (b_valid b) (b_disk b) x (b_blockno b) (b_refcnt b) (b_prev b) (b_next b) (b_data b).
Definition set_b_blockno x b := mkbuf (b_valid b) (b_disk b) (b_dev b) x (b_refcnt b) (b_prev b) (b_next b) (b_data b).
Definition set_b_refcnt x b := mkbuf (b_valid b) (b_disk b) (b_dev b) (b_blockno b) x (b_prev b) (b_next b) (b_data b).
Definition set_b_prev x b := mkbuf (b_valid b) (b_disk b) (b_dev b) (b_blockno b) (b_refcnt b) x (b_next b) (b_data b).
Definition set_b_next x b := mkbuf (b_valid b) (b_disk b) (b_dev b) (b_blockno b) (b_refcnt b) (b_prev b) x (b_data b).
Definition set_b_data x b := mkbuf (b_valid b) (b_disk b) (b_dev b) (b_blockno b) (b_refcnt b) (b_prev b) (b_next b) x.
Definition set_lg_start x g := mklog x (lg_size g) (lg_outstanding g) (lg_committing g) (lg_dev g) (lg_n g) (lg_block g).
Definition set_lg_size x g := mklog (lg_start g) x (lg_outstanding g) (lg_committing g) (lg_dev g) (lg_n g) (lg_block g).
Definition set_lg_outstanding x g := mklog (lg_start g) (lg_size g) x (lg_committing g) (lg_dev g) (lg_n g) (lg_block g).
Definition set_lg_committing x g := mklog (lg_start g) (lg_size g) (lg_outstanding g) x (lg_dev g) (lg_n g) (lg_block g).
Definition set_lg_dev x g := mklog (lg_start g) (lg_size g) (lg_outstanding g) (lg_committing g) x (lg_n g) (lg_block g).
Definition set_lg_n x g := mklog (lg_start g) (lg_size g) (lg_outstanding g) (lg_committing g) (lg_dev g) x (lg_block g).
Definition set_lg_block x g := mklog (lg_start g) (lg_size g) (lg_outstanding g) (lg_committing g) (lg_dev g) (lg_n g) x.
Definition set_i_dev x ip := mkinode x (i_inum ip) (i_ref ip) (i_valid ip) (i_type ip) (i_major ip) (i_minor ip) (i_nlink ip) (i_size ip) (i_addrs ip).
Definition set_i_inum x ip := mkinode (i_dev ip) x (i_ref ip) (i_valid ip) (i_type ip) (i_major ip) (i_minor ip) (i_nlink ip) (i_size ip) (i_addrs ip).
Definition set_i_ref x ip := mkinode (i_dev ip) (i_inum ip) x (i_valid ip) (i_type ip) (i_major ip) (i_minor ip) (i_nlink ip) (i_size ip) (i_addrs ip).
Definition set_i_valid x ip := mkinode (i_dev ip) (i_inum ip) (i_ref ip) x (i_type ip) (i_major ip) (i_minor ip) (i_nlink ip) (i_size ip) (i_addrs ip).
Definition set_i_type x ip := mkinode (i_dev ip) (i_inum ip) (i_ref ip) (i_valid ip) x (i_major ip) (i_minor ip) (i_nlink ip) (i_size ip) (i_addrs ip).
Definition set_i_major x ip := mkinode (i_dev ip) (i_inum ip) (i_ref ip) (i_valid ip) (i_type ip) x (i_minor ip) (i_nlink ip) (i_size ip) (i_addrs ip).
Definition set_i_minor x ip := mkinode (i_dev ip) (i_inum ip) (i_ref ip) (i_valid ip) (i_type ip) (i_major ip) x (i_nlink ip) (i_size ip) (i_addrs ip).
Definition set_i_nlink x ip := mkinode (i_dev ip) (i_inum ip) (i_ref ip) (i_valid ip) (i_type ip) (i_major ip) (i_minor ip) x (i_size ip) (i_addrs ip).
Definition set_i_size x ip := mkinode (i_dev ip) (i_inum ip) (i_ref ip) (i_valid ip) (i_type ip) (i_major ip) (i_minor ip) (i_nlink ip) x (i_addrs ip).
Definition set_i_addrs x ip := mkinode (i_dev ip) (i_inum ip) (i_ref ip) (i_valid ip) (i_type ip) (i_major ip) (i_minor ip) (i_nlink ip) (i_size ip) x.
Definition set_f_type x f := mkfile x (f_ref f) (f_readable f) (f_writable f) (f_pipe f) (f_ip f) (f_off f) (f_major f).
Definition set_f_ref x f := mkfile (f_type f) x (f_readable f) (f_writable f) (f_pipe f) (f_ip f) (f_off f) (f_major f).
Definition set_f_readable x f := mkfile (f_type f) (f_ref f) x (f_writable f) (f_pipe f) (f_ip f) (f_off f) (f_major f).
Definition set_f_writable x f := mkfile (f_type f) (f_ref f) (f_readable f) x (f_pipe f) (f_ip f) (f_off f) (f_major f).
Definition set_f_pipe x f := mkfile (f_type f) (f_ref f) (f_readable f) (f_writable f) x (f_ip f) (f_off f) (f_major f).
Definition set_f_ip x f := mkfile (f_type f) (f_ref f) (f_readable f) (f_writable f) (f_pipe f) x (f_off f) (f_major f).
Definition set_f_off x f := mkfile (f_type f) (f_ref f) (f_readable f) (f_writable f) (f_pipe f) (f_ip f) x (f_major f).
Definition set_f_major x f := mkfile (f_type f) (f_ref f) (f_readable f) (f_writable f) (f_pipe f) (f_ip f) (f_off f) x.
Definition set_dev_read x d := mkdevsw x (dev_write d).
Definition set_dev_write x d := mkdevsw (dev_read d) x.
Definition set_cons_buf x c := mkcons x (cons_r c) (cons_w c) (cons_e c).
Definition set_cons_r x c := mkcons (cons_buf c) x (cons_w c) (cons_e c).
Definition set_cons_w x c := mkcons (cons_buf c) (cons_r c) x (cons_e c).
Definition set_cons_e x c := mkcons (cons_buf c) (cons_r c) (cons_w c) x.
Definition set_ut_buf x u := mkuart x (ut_w u) (ut_r u) (ut_lsr u) (ut_rx u) (ut_out u) (ut_cfg u).
Definition set_ut_w x u := mkuart (ut_buf u) x (ut_r u) (ut_lsr u) (ut_rx u) (ut_out u) (ut_cfg u).
Definition set_ut_r x u := mkuart (ut_buf u) (ut_w u) x (ut_lsr u) (ut_rx u) (ut_out u) (ut_cfg u).
Definition set_ut_lsr x u := mkuart (ut_buf u) (ut_w u) (ut_r u) x (ut_rx u) (ut_out u) (ut_cfg u).
Definition set_ut_rx x u := mkuart (ut_buf u) (ut_w u) (ut_r u) (ut_lsr u) x (ut_out u) (ut_cfg u).
Definition set_ut_out x u := mkuart (ut_buf u) (ut_w u) (ut_r u) (ut_lsr u) (ut_rx u) x (ut_cfg u).
Definition set_ut_cfg x u := mkuart (ut_buf u) (ut_w u) (ut_r u) (ut_lsr u) (ut_rx u) (ut_out u) x.
Definition set_r_scause x r := mkcsrs x (r_sepc r) (r_stval r) (r_stvec r) (r_spp r) (r_spie r) (r_sip r).
Definition set_r_sepc x r := mkcsrs (r_scause r) x (r_stval r) (r_stvec r) (r_spp r) (r_spie r) (r_sip r).
Definition set_r_stval x r := mkcsrs (r_scause r) (r_sepc r) x (r_stvec r) (r_spp r) (r_spie r) (r_sip r).
Definition set_r_stvec x r := mkcsrs (r_scause r) (r_sepc r) (r_stval r) x (r_spp r) (r_spie r) (r_sip r).
Definition set_r_spp x r := mkcsrs (r_scause r) (r_sepc r) (r_stval r) (r_stvec r) x (r_spie r) (r_sip r).
Definition set_r_spie x r := mkcsrs (r_scause r) (r_sepc r) (r_stval r) (r_stvec r) (r_spp r) x (r_sip r).
Definition set_r_sip x r := mkcsrs (r_scause r) (r_sepc r) (r_stval r) (r_stvec r) (r_spp r) (r_spie r) x.
Definition set_pl_pending x r := mkplic x (pl_service r) (pl_cfg r).
Definition set_pl_service x r := mkplic (pl_pending r) x (pl_cfg r).
Definition set_pl_cfg x r := mkplic (pl_pending r) (pl_service r) x.
Definition set_d_addr x d := mkdesc x (d_len d) (d_flags d) (d_next d).
Definition set_d_len x d := mkdesc (d_addr d) x (d_flags d) (d_next d).
Definition set_d_flags x d := mkdesc (d_addr d) (d_len d) x (d_next d).
Definition set_d_next x d := mkdesc (d_addr d) (d_len d) (d_flags d) x.
Definition set_q_type x q := mkreq x (q_reserved q) (q_sector q).
Definition set_q_reserved x q := mkreq (q_type q) x (q_sector q).
Definition set_q_sector x q := mkreq (q_type q) (q_reserved q) x.
Definition set_v_desc x v := mkvdisk x (v_avail_idx v) (v_avail_ring v) (v_usedp_idx v) (v_usedp_ring v) (v_free v) (v_used_idx v) (v_info_b v) (v_info_status v) (v_ops v) (v_regs v) (v_writes v).
Definition set_v_avail_idx x v := mkvdisk (v_desc v) x (v_avail_ring v) (v_usedp_idx v) (v_usedp_ring v) (v_free v) (v_used_idx v) (v_info_b v) (v_info_status v) (v_ops v) (v_regs v) (v_writes v).
Definition set_v_avail_ring x v := mkvdisk (v_desc v) (v_avail_idx v) x (v_usedp_idx v) (v_usedp_ring v) (v_free v) (v_used_idx v) (v_info_b v) (v_info_status v) (v_ops v) (v_regs v) (v_writes v).
Definition set_v_usedp_idx x v := mkvdisk (v_desc v) (v_avail_idx v) (v_avail_ring v) x (v_usedp_ring v) (v_free v) (v_used_idx v) (v_info_b v) (v_info_status v) (v_ops v) (v_regs v) (v_writes v).
Definition set_v_usedp_ring x v := mkvdisk (v_desc v) (v_avail_idx v) (v_avail_ring v) (v_usedp_idx v) x (v_free v) (v_used_idx v) (v_info_b v) (v_info_status v) (v_ops v) (v_regs v) (v_writes v).
Definition set_v_free x v := mkvdisk (v_desc v) (v_avail_idx v) (v_avail_ring v) (v_usedp_idx v) (v_usedp_ring v) x (v_used_idx v) (v_info_b v) (v_info_status v) (v_ops v) (v_regs v) (v_writes v).
Definition set_v_used_idx x v := mkvdisk (v_desc v) (v_avail_idx v) (v_avail_ring v) (v_usedp_idx v) (v_usedp_ring v) (v_free v) x (v_info_b v) (v_info_status v) (v_ops v) (v_regs v) (v_writes v).
Definition set_v_info_b x v := mkvdisk (v_desc v) (v_avail_idx v) (v_avail_ring v) (v_usedp_idx v) (v_usedp_ring v) (v_free v) (v_used_idx v) x (v_info_status v) (v_ops v) (v_regs v) (v_writes v).
Definition set_v_info_status x v := mkvdisk (v_desc v) (v_avail_idx v) (v_avail_ring v) (v_usedp_idx v) (v_usedp_ring v) (v_free v) (v_used_idx v) (v_info_b v) x (v_ops v) (v_regs v) (v_writes v).
Definition set_v_ops x v := mkvdisk (v_desc v) (v_avail_idx v) (v_avail_ring v) (v_usedp_idx v) (v_usedp_ring v) (v_free v) (v_used_idx v) (v_info_b v) (v_info_status v) x (v_regs v) (v_writes v).
Definition set_v_regs x v := mkvdisk (v_desc v) (v_avail_idx v) (v_avail_ring v) (v_usedp_idx v) (v_usedp_ring v) (v_free v) (v_used_idx v) (v_info_b v) (v_info_status v) (v_ops v) x (v_writes v).
Definition set_v_writes x v := mkvdisk (v_desc v) (v_avail_idx v) (v_avail_ring v) (v_usedp_idx v) (v_usedp_ring v) (v_free v) (v_used_idx v) (v_info_b v) (v_info_status v) (v_ops v) (v_regs v) x.

(** The state at boot, before [main] has run: every global is zero. *)
(** A zeroed [struct proc]. *)
Definition proc0 : proc :=
  mkproc UNUSED Ch_null 0 0 0 0 0 None 0 0 0 0 (mkctx 0 0 (replicate 12 0)) (replicate NOFILE None) None
    (replicate 16 0).
Definition fsst0 : fsst :=
  mkfs (replicate (S NBUF) (mkbuf 0 0 0 0 0 0 0 (replicate BSIZE 0)))
    (mklog 0 0 0 0 0 0 (replicate LOGSIZE 0))
    (mksb 0 0 0 0 0 0 0 0)
    (replicate NINODE (mkinode 0 0 0 0 0 0 0 0 0 (replicate 13 0)))
    (replicate NFILE (mkfile FD_NONE 0 0 0 0 None 0 0))
    (replicate NDEV (mkdevsw None None))
    ∅ [].
Definition devst0 : devst :=
  mkdev (mkcons (replicate 128 0) 0 0 0) (mkuart (replicate 32 0) 0 0 [] [] [] []) 0
    (mkcsrs 0 0 0 0 false false 0) (mkplic [] [] [])
    (mkvdisk (replicate 8 (mkdesc VA_null 0 0 0)) 0 (replicate 8 0) 0 (replicate 8 0) (replicate 8 0) 0
       (replicate 8 None) (replicate 8 0) (replicate 8 (mkreq 0 0 0)) ∅ []).
Definition kst0 : kst :=
  mkst 0 (mkcpu None 0 false) true ∅ ∅ ∅ 0 (replicate NPROC proc0) (mkglob 0 0 None 1 rr_scheduler_ptr 0 ∅ [] 1) fsst0 devst0.

(** ** Page rounding *)

Lemma PGROUNDDOWN_spec x : 0 <= x < 18446744073709551616 -> PGROUNDDOWN x = x / PGSIZE * PGSIZE.
Proof. intros Hx. unfold PGROUNDDOWN. exact (andnot64_ones x 12 Hx ltac:(lia)). Qed.

Lemma PGROUNDUP_spec x : 0 <= x -> x + PGSIZE <= 18446744073709551616 ->
  PGROUNDUP x = (x + PGSIZE - 1) / PGSIZE * PGSIZE.
Proof.
  intros Hx Hu. unfold PGROUNDUP. rewrite u64_small by (unfold PGSIZE in *; lia).
  apply (andnot64_ones (x + PGSIZE - 1) 12); unfold PGSIZE in *; lia.
Qed.

(** [PGROUNDUP] is the least multiple of the page size that is not below. *)
Lemma PGROUNDUP_bounds x : 0 <= x -> x + PGSIZE <= 18446744073709551616 ->
  PGROUNDUP x mod PGSIZE = 0 /\ x <= PGROUNDUP x < x + PGSIZE.
Proof.
  intros Hx Hu. rewrite PGROUNDUP_spec by done. unfold PGSIZE.
  split; [apply Z.mod_mul; lia|]. Z.div_mod_to_equations. lia.
Qed.

Lemma PGROUNDDOWN_bounds x : 0 <= x < 18446744073709551616 ->
  PGROUNDDOWN x mod PGSIZE = 0 /\ PGROUNDDOWN x <= x < PGROUNDDOWN x + PGSIZE.
Proof.
  intros Hx. rewrite PGROUNDDOWN_spec by done. unfold PGSIZE.
  split; [apply Z.mod_mul; lia|]. Z.div_mod_to_equations. lia.
Qed.
