(* ===== verification/Spinlock.v ===== *)
(** * kernel/spinlock.c: spin locks and interrupt nesting

    The routines as one hart executes them, the effect of each on the state, the
    restoration of the interrupt flag by matched [push_off]/[pop_off], and mutual
    exclusion of several harts that run [acquire]/[release] interleaved at the
    granularity of their memory accesses. *)

From S2P Require Import Prelude State.

Abbreviation K := (M kst).

(** ** The routines *)

Definition unlocked : spinlock := mkspin 0 None.

Definition lock_of (l : lockid) (s : kst) : spinlock := default unlocked (k_locks s !! l).

(** Storing the initial value in a lock removes it from the map of held locks. *)
Definition set_lock (l : lockid) (x : spinlock) (s : kst) : kst :=
  set_k_locks (if (locked x =? 0) && bool_decide (lk_cpu x = None)
               then delete l (k_locks s) else <[l := x]> (k_locks s)) s.

Definition intr_get : K bool := gets (fun s => k_sie s).
Definition intr_on : K unit := modify (set_k_sie true).
Definition intr_off : K unit := modify (set_k_sie false).

Definition modify_cpu (f : cpu -> cpu) : K unit := modify (fun s => set_k_cpu (f (k_cpu s)) s).

Definition initlock (l : lockid) : K unit := modify (set_lock l (mkspin 0 None)).

Definition holding (l : lockid) : K bool :=
  gets (fun s => let lk := lock_of l s in
                 negb (locked lk =? 0) && bool_decide (lk_cpu lk = Some (k_hart s))).

Definition push_off : K unit :=
  old ← intr_get;
  intr_off;;
  c ← gets (fun s => k_cpu s);
  when (c_noff c =? 0) (modify_cpu (set_c_intena old));;
  modify_cpu (fun c => set_c_noff (c_noff c + 1) c).

Definition pop_off : K unit :=
  i ← intr_get;
  (if (i : bool) then panic "pop_off - interruptible" else
   c ← gets (fun s => k_cpu s);
   if c_noff c <? 1 then panic "pop_off" else
   modify_cpu (fun c => set_c_noff (c_noff c - 1) c);;
   c ← gets (fun s => k_cpu s);
   when ((c_noff c =? 0) && c_intena c) intr_on).

Definition acquire (l : lockid) : K unit :=
  push_off;;
  h ← holding l;
  if (h : bool) then panic "acquire" else
  wait_until (fun s => locked (lock_of l s) =? 0);;
  modify (fun s => set_lock l (mkspin 1 (lk_cpu (lock_of l s))) s);;
  modify (fun s => set_lock l (mkspin (locked (lock_of l s)) (Some (k_hart s))) s).

Definition release (l : lockid) : K unit :=
  h ← holding l;
  if negb h then panic "release" else
  modify (fun s => set_lock l (mkspin (locked (lock_of l s)) None) s);;
  modify (fun s => set_lock l (mkspin 0 (lk_cpu (lock_of l s))) s);;
  pop_off.

(** ** Several harts

    The same two routines as a transition system: [pc] is where a hart stands in
    [acquire]/[release] of one lock, and each rule is one access to the lock
    (lines of spinlock.c in the comments). *)

Inductive pc : Set :=
| Idle          (* outside acquire/release *)
| Tas           (* 32: about to execute the atomic swap *)
| SetCpu        (* 42: got the lock, about to record lk->cpu *)
| Crit          (* between acquire and release *)
| ClearCpu      (* 52 *)
| ClearLocked   (* 69 *)
| Panicked.     (* 26 or 50 *)

Record smp := mksmp { s_lock : spinlock; s_pc : nat -> pc }.

Definition set_pc (h : nat) (p : pc) (f : nat -> pc) : nat -> pc :=
  fun h' => if decide (h' = h) then p else f h'.

Definition holds (h : nat) (lk : spinlock) : bool :=
  negb (locked lk =? 0) && bool_decide (lk_cpu lk = Some h).

Definition hart_step (h : nat) (s : smp) : smp :=
  let lk := s_lock s in
  match s_pc s h with
  | Idle => mksmp lk (set_pc h (if holds h lk then Panicked else Tas) (s_pc s))
  | Tas => mksmp (mkspin 1 (lk_cpu lk)) (set_pc h (if locked lk =? 0 then SetCpu else Tas) (s_pc s))
  | SetCpu => mksmp (mkspin (locked lk) (Some h)) (set_pc h Crit (s_pc s))
  | Crit => mksmp lk (set_pc h (if holds h lk then ClearCpu else Panicked) (s_pc s))
  | ClearCpu => mksmp (mkspin (locked lk) None) (set_pc h ClearLocked (s_pc s))
  | ClearLocked => mksmp (mkspin 0 (lk_cpu lk)) (set_pc h Idle (s_pc s))
  | Panicked => s
  end.

Inductive smp_reach : smp -> Prop :=
| smp_init : smp_reach (mksmp unlocked (fun _ => Idle))
| smp_next s h : smp_reach s -> smp_reach (hart_step h s).

(** ** Their effects *)

(** Interrupt nesting is consistent: inside a [push_off] interrupts are off. *)
Definition intr_ok (s : kst) : Prop :=
  0 <= c_noff (k_cpu s) /\ (0 < c_noff (k_cpu s) -> k_sie s = false).

Definition enter (s : kst) : kst :=
  set_k_sie false
    (set_k_cpu (mkcpu (c_proc (k_cpu s)) (c_noff (k_cpu s) + 1)
                  (if c_noff (k_cpu s) =? 0 then k_sie s else c_intena (k_cpu s))) s).

Definition leave (s : kst) : kst :=
  set_k_sie (if (c_noff (k_cpu s) - 1 =? 0) && c_intena (k_cpu s) then true else k_sie s)
    (set_k_cpu (mkcpu (c_proc (k_cpu s)) (c_noff (k_cpu s) - 1) (c_intena (k_cpu s))) s).

(** What a matched pair leaves behind: [intena] has been refreshed. *)
Definition settle (s : kst) : kst :=
  set_k_cpu (mkcpu (c_proc (k_cpu s)) (c_noff (k_cpu s))
               (if c_noff (k_cpu s) =? 0 then k_sie s else c_intena (k_cpu s))) s.

Definition acquired (l : lockid) (s : kst) : kst :=
  set_k_locks (<[l := mkspin 1 (Some (k_hart s))]> (k_locks s)) (enter s).

Definition unlock (l : lockid) (s : kst) : kst := set_k_locks (delete l (k_locks s)) s.

Definition lock_free (l : lockid) (s : kst) : Prop := k_locks s !! l = None.
Definition lock_held (l : lockid) (s : kst) : Prop := k_locks s !! l = Some (mkspin 1 (Some (k_hart s))).

Lemma wp_push_off Q w : Q tt (World (enter (st w)) (env w)) -> wp push_off Q w.
Proof.
  intros HQ. unfold push_off, intr_get, intr_off. wp_steps. unfold when. cbn.
  destruct (c_noff (k_cpu (st w)) =? 0) eqn:E; unfold modify_cpu; wp_steps; unfold enter in HQ;
    rewrite E in HQ; exact HQ.
Qed.

Lemma wp_pop_off Q w :
  k_sie (st w) = false -> 1 <= c_noff (k_cpu (st w)) ->
  Q tt (World (leave (st w)) (env w)) -> wp pop_off Q w.
Proof.
  intros Hs Hn HQ. unfold pop_off, intr_get. wp_steps. rewrite Hs. wp_steps.
  case_if; [lia|]. unfold modify_cpu, when, intr_on. wp_steps. cbn.
  unfold leave in HQ.
  destruct ((c_noff (k_cpu (st w)) - 1 =? 0) && c_intena (k_cpu (st w))); wp_steps; exact HQ.
Qed.

Lemma settle_idem s : settle (settle s) = settle s.
Proof. unfold settle; cbn. by destruct (c_noff (k_cpu s) =? 0). Qed.

Lemma leave_enter s : intr_ok s -> leave (enter s) = settle s.
Proof.
  intros [Hn Hi]. unfold leave, enter, settle; cbn.
  replace (c_noff (k_cpu s) + 1 - 1) with (c_noff (k_cpu s)) by lia.
  destruct (Z.eqb_spec (c_noff (k_cpu s)) 0); cbn.
  - by destruct (k_sie s) eqn:E; unfold set_k_sie, set_k_cpu; cbn; rewrite E.
  - rewrite <- (Hi ltac:(lia)). reflexivity.
Qed.

Lemma intr_ok_enter s : intr_ok s -> intr_ok (enter s) /\ k_sie (enter s) = false /\ 1 <= c_noff (k_cpu (enter s)).
Proof. intros [Hn Hi]. unfold intr_ok; cbn. split_and!; auto; lia. Qed.

Lemma intr_ok_settle s : intr_ok s -> intr_ok (settle s).
Proof. done. Qed.

Lemma set_lock_held l x s : locked x <> 0 -> set_lock l x s = set_k_locks (<[l := x]> (k_locks s)) s.
Proof. intros H. unfold set_lock. rewrite (proj2 (Z.eqb_neq _ _) H). done. Qed.

Lemma lock_of_held l s : lock_held l s -> lock_of l s = mkspin 1 (Some (k_hart s)).
Proof. intros H. unfold lock_of. by rewrite H. Qed.

Lemma lock_of_free l s : lock_free l s -> lock_of l s = unlocked.
Proof. intros H. unfold lock_of. by rewrite H. Qed.

(** [acquire] of a free lock. *)
Lemma wp_acquire l Q w :
  lock_free l (st w) -> Q tt (World (acquired l (st w)) (env w)) -> wp (acquire l) Q w.
Proof.
  intros Hf HQ. unfold lock_free in Hf. unfold acquire. apply wp_bind, wp_push_off.
  apply wp_bind. unfold holding. wp_steps. unfold lock_of at 1. cbn. rewrite Hf. cbn.
  apply wp_bind, wp_wait_now; [unfold lock_of; cbn; by rewrite Hf|].
  wp_steps. unfold lock_of; cbn. rewrite Hf. cbn.
  rewrite !(set_lock_held l (mkspin 1 _)) by done. cbn. rewrite lookup_insert_eq. cbn.
  rewrite set_lock_held by done. cbn. rewrite insert_insert_eq. exact HQ.
Qed.

(** [release] of a lock the hart holds. *)
Lemma wp_release l Q w :
  lock_held l (st w) -> k_sie (st w) = false -> 1 <= c_noff (k_cpu (st w)) ->
  Q tt (World (leave (unlock l (st w))) (env w)) -> wp (release l) Q w.
Proof.
  intros Hh Hs Hn HQ. unfold lock_held in Hh. unfold release, holding. wp_steps.
  rewrite (lock_of_held l (st w) Hh). cbn. rewrite bool_decide_eq_true_2 by done. cbn.
  wp_steps. rewrite (lock_of_held l (st w) Hh). cbn [locked].
  rewrite (set_lock_held l (mkspin 1 _)) by done. unfold lock_of, set_lock; cbn.
  rewrite lookup_insert_eq. cbn. rewrite delete_insert_eq.
  apply wp_pop_off; done.
Qed.

(** A balanced critical section whose body changes no lock state. *)
Lemma crit_exit l s : intr_ok s -> lock_free l s -> leave (unlock l (acquired l s)) = settle s.
Proof.
  intros Hi Hf. rewrite <- (leave_enter s) by done. f_equal. unfold unlock, acquired. cbn.
  unfold set_k_locks. cbn. rewrite delete_insert_id by done. reflexivity.
Qed.

(** Updates of data that no lock operation looks at commute with them. *)
Definition inert (d : kst -> kst) : Prop := forall s,
  k_locks (d s) = k_locks s /\ k_hart (d s) = k_hart s /\ k_cpu (d s) = k_cpu s /\ k_sie (d s) = k_sie s /\
  (forall x, d (set_k_locks x s) = set_k_locks x (d s)) /\
  (forall x, d (set_k_cpu x s) = set_k_cpu x (d s)) /\
  (forall x, d (set_k_sie x s) = set_k_sie x (d s)).

(** Leaving a critical section in which the data was updated by [d]. *)
Lemma wp_release_crit l d s Q e :
  inert d -> intr_ok s -> lock_free l s ->
  Q tt (World (d (settle s)) e) -> wp (release l) Q (World (d (acquired l s)) e).
Proof.
  intros Hd Hi Hf HQ. destruct (Hd (acquired l s)) as (H1 & H2 & H3 & H4 & H5 & H6 & H7).
  apply wp_release; cbn [st env].
  - unfold lock_held. rewrite H1, H2. cbn. by rewrite lookup_insert_eq.
  - by rewrite H4.
  - rewrite H3. cbn. destruct Hi. lia.
  - replace (leave (unlock l (d (acquired l s)))) with (d (settle s)); [done|].
    rewrite <- (crit_exit l s) by done. unfold leave, unlock.
    rewrite H1, <- H5. destruct (Hd (set_k_locks (delete l (k_locks (acquired l s))) (acquired l s)))
      as (G1 & G2 & G3 & G4 & G5 & G6 & G7).
    rewrite G3, G4, <- G6. symmetry. rewrite (proj2 (proj2 (proj2 (proj2 (proj2 (proj2 (Hd _))))))).
    reflexivity.
Qed.

(** Inside another critical section [intena] is not refreshed. *)
Lemma settle_nested s : 0 < c_noff (k_cpu s) -> settle s = s.
Proof.
  intros H. unfold settle. destruct (c_noff (k_cpu s) =? 0) eqn:E; bool_facts; [lia|]. by destruct s as [? [] ? ? ? ? ? ? ? ? ?].
Qed.

(** [panic("acquire")]: acquiring a lock this hart already holds. *)
Lemma acquire_twice_panics l w :
  lock_held l (st w) -> acquire l w = Panic "acquire".
Proof.
  intros Hh. unfold acquire, mbind, M_bind.
  destruct (wp_done push_off (fun _ w' => w' = World (enter (st w)) (env w)) w) as [H _].
  destruct H as (u & w' & -> & ->); [by apply wp_push_off|].
  unfold holding, gets. cbn [st]. rewrite (lock_of_held l (enter (st w))) by exact Hh. cbn.
  by rewrite bool_decide_eq_true_2 by done.
Qed.


Ltac inert_tac := intros ?; split_and!; intros; reflexivity.

(** ** Nesting *)

Definition run_ops : list bool -> K unit :=
  foldr (fun (b : bool) k => (if b then push_off else pop_off);; k) (mret tt).

(** Well-nested sequences of [push_off] ([true]) and [pop_off] ([false]). *)
Inductive nested : list bool -> Prop :=
| nested_nil : nested []
| nested_wrap l r : nested l -> nested r -> nested (true :: l ++ false :: r).

Lemma settle_id s : c_noff (k_cpu s) <> 0 -> settle s = s.
Proof.
  intros Hn. unfold settle. apply Z.eqb_neq in Hn. rewrite Hn. destruct s as [h c]. by destruct c.
Qed.

Lemma wp_run_app a b Q w : wp (run_ops a) (fun _ w' => wp (run_ops b) Q w') w -> wp (run_ops (a ++ b)) Q w.
Proof.
  revert w. induction a as [|x a IH]; intros w H; simpl in *; [exact H|].
  apply wp_bind_inv in H. apply wp_bind. eapply wp_mono; [exact H|]. intros u w'. apply IH.
Qed.

(** Any well-nested sequence of [push_off] and [pop_off] runs without panic
    and restores the interrupt-enable flag, the nesting depth and everything
    else; only the saved flag [intena] may have been refreshed. *)
Theorem push_pop_nested ops w : nested ops -> intr_ok (st w) ->
  wp (run_ops ops)
     (fun _ w' => settle (st w') = settle (st w) /\ k_sie (st w') = k_sie (st w) /\
                  c_noff (k_cpu (st w')) = c_noff (k_cpu (st w)) /\ env w' = env w) w.
Proof.
  intros Hn. revert w. induction Hn as [|l r Hl IHl Hr IHr]; intros w Hi; [done|].
  simpl. apply wp_bind, wp_push_off, wp_run_app.
  destruct (intr_ok_enter (st w) Hi) as (Hi1 & Hs1 & Hn1).
  eapply wp_mono; [by apply IHl|]. intros _ w1 (Hset & Hs & Hnoff & He). cbn [st env] in *.
  assert (st w1 = enter (st w)) as Hw1.
  { rewrite <- (settle_id (st w1)) by lia. rewrite Hset. apply settle_id. lia. }
  simpl. apply wp_bind, wp_pop_off; rewrite ?Hw1; [done|done|].
  rewrite leave_enter by done. eapply wp_mono; [by apply IHr|].
  intros _ w2 (H1 & H2 & H3 & H4). cbn [st env] in *.
  rewrite H1, settle_idem, H2, H3, H4. done.
Qed.

Lemma push_pop_nested_witness :
  wp (run_ops [true; true; false; false; true; false])
     (fun _ w' => k_sie (st w') = true) (World kst0 []).
Proof.
  eapply wp_mono.
  - apply (push_pop_nested [true; true; false; false; true; false] (World kst0 [])).
    + apply (nested_wrap [true; false] [true; false]);
        [apply (nested_wrap [] []) | apply (nested_wrap [] [])]; constructor.
    + split; cbn; lia.
  - intros _ w' (_ & H & _). exact H.
Defined.

(** ** Mutual exclusion *)

(** A hart that owns the lock word. *)
Definition owns (p : pc) : bool :=
  match p with SetCpu | Crit | ClearCpu | ClearLocked => true | _ => false end.

(** The hart, if any, whose identity is recorded in [lk->cpu]. *)
Definition recorded (p : pc) : bool := match p with Crit | ClearCpu => true | _ => false end.

(** There is at most one owner [o]; the lock word says whether there is one and
    [lk->cpu] names it while it is recorded. *)
Definition owner_inv (o : option nat) (s : smp) : Prop :=
  locked (s_lock s) = (if o is Some _ then 1 else 0) /\
  (forall h, owns (s_pc s h) = bool_decide (o = Some h)) /\
  lk_cpu (s_lock s) = (h ← o; if recorded (s_pc s h) then Some h else None) /\
  (forall h, s_pc s h <> Panicked).

Definition smp_inv (s : smp) : Prop := exists o, owner_inv o s.

Lemma owner_unique o s h : owner_inv o s -> owns (s_pc s h) = true -> o = Some h.
Proof. intros (_ & Ho & _) H. rewrite Ho in H. by bool_facts. Qed.

Lemma holds_iff s h : smp_inv s -> holds h (s_lock s) = recorded (s_pc s h).
Proof.
  intros [o (Hl & Ho & Hc & _)]. unfold holds. rewrite Hl, Hc. specialize (Ho h).
  destruct o as [h'|]; cbn.
  - destruct (decide (h' = h)) as [->|Hne].
    + destruct (recorded (s_pc s h)); [by rewrite bool_decide_eq_true_2 | by rewrite bool_decide_eq_false_2].
    + rewrite bool_decide_eq_false_2 in Ho by congruence.
      rewrite bool_decide_eq_false_2 by (destruct (recorded (s_pc s h')); congruence).
      by destruct (s_pc s h).
  - rewrite bool_decide_eq_false_2 in Ho by done. by destruct (s_pc s h).
Qed.

(** A step of [h] that keeps the owner. *)
Lemma owner_inv_set o s h p lk :
  owner_inv o s -> owns p = owns (s_pc s h) -> p <> Panicked -> locked lk = locked (s_lock s) ->
  lk_cpu lk = (if decide (o = Some h) then if recorded p then Some h else None else lk_cpu (s_lock s)) ->
  owner_inv o (mksmp lk (set_pc h p (s_pc s))).
Proof.
  intros (Hl & Ho & Hc & Hp) Hown Hnp Hlk Hcpu. unfold owner_inv, set_pc; cbn [s_lock s_pc locked lk_cpu].
  split_and!; [by rewrite Hlk| | |intros h'; destruct (decide (h' = h)); auto].
  - intros h'. destruct (decide (h' = h)) as [->|]; [by rewrite Hown|apply Ho].
  - rewrite Hcpu, Hc. destruct o as [h'|]; cbn; [|by rewrite decide_False].
    destruct (decide (h' = h)) as [->|Hne]; [by rewrite decide_True|].
    by rewrite decide_False by congruence.
Qed.

Lemma smp_inv_step s h : smp_inv s -> smp_inv (hart_step h s).
Proof.
  intros Hinv. pose proof (holds_iff s h Hinv) as Hh. destruct Hinv as [o Hinv].
  pose proof (owner_unique o s h Hinv) as Hu. pose proof Hinv as (Hl & Ho & Hc & Hp).
  unfold hart_step. specialize (Ho h) as Hoh. rewrite Hh.
  destruct (s_pc s h) eqn:Epc; cbn [recorded owns] in *.
  - exists o. apply (owner_inv_set o s h Tas); rewrite ?Epc; try done.
    by rewrite decide_False by (intros ->; by rewrite bool_decide_eq_true_2 in Hoh).
  - rewrite Hl. destruct o as [h'|]; cbn.
    + exists (Some h'). apply (owner_inv_set _ s h Tas); rewrite ?Epc; try done.
      by rewrite decide_False by (intros ?; by rewrite bool_decide_eq_true_2 in Hoh).
    + exists (Some h). unfold owner_inv, set_pc; cbn [s_lock s_pc locked lk_cpu]. split_and!; [done| | |].
      * intros h'. destruct (decide (h' = h)) as [->|]; [by rewrite bool_decide_eq_true_2|].
        rewrite Ho. rewrite !bool_decide_eq_false_2 by congruence. done.
      * rewrite Hc. cbn. by rewrite decide_True.
      * intros h'. by destruct (decide (h' = h)).
  - rewrite (Hu eq_refl) in *. exists (Some h). apply (owner_inv_set _ s h Crit); rewrite ?Epc; try done.
    by rewrite decide_True.
  - rewrite (Hu eq_refl) in *. exists (Some h). apply (owner_inv_set _ s h ClearCpu); rewrite ?Epc; try done.
    rewrite decide_True by done. rewrite Hc. cbn. by rewrite Epc.
  - rewrite (Hu eq_refl) in *. exists (Some h). apply (owner_inv_set _ s h ClearLocked); rewrite ?Epc; try done.
    by rewrite decide_True.
  - rewrite (Hu eq_refl) in *. exists None. unfold owner_inv, set_pc; cbn [s_lock s_pc locked lk_cpu].
    split_and!; [done| | |intros h'; by destruct (decide (h' = h))].
    + intros h'. destruct (decide (h' = h)); [done|]. rewrite Ho. rewrite !bool_decide_eq_false_2 by congruence. done.
    + rewrite Hc. cbn. by rewrite Epc.
  - by destruct (Hp h).
Qed.

Lemma smp_reach_inv s : smp_reach s -> smp_inv s.
Proof.
  induction 1 as [|s h _ IH]; [|by apply smp_inv_step].
  exists None. unfold owner_inv; cbn. split_and!; [done| |done|done]. intros h.
  by rewrite bool_decide_eq_false_2.
Qed.

(** C18: however the harts interleave, at most one is between [acquire] and
    [release] of a lock, and neither routine panics; moreover [holding] is true
    on exactly the hart that is in its critical section. *)
Theorem spinlock_mutual_exclusion s : smp_reach s ->
  (forall h1 h2, s_pc s h1 = Crit -> s_pc s h2 = Crit -> h1 = h2) /\
  (forall h, s_pc s h <> Panicked) /\
  (forall h, s_pc s h = Crit -> holds h (s_lock s) = true /\ forall h', h' <> h -> holds h' (s_lock s) = false).
Proof.
  intros Hr. pose proof (smp_reach_inv s Hr) as Hinv. pose proof Hinv as [o Ho].
  assert (forall h, s_pc s h = Crit -> o = Some h) as Hcrit.
  { intros h Hc. apply (owner_unique o s h Ho). by rewrite Hc. }
  split_and!; [|apply Ho|].
  - intros h1 h2 H1%Hcrit H2%Hcrit. congruence.
  - intros h Hc. split; [by rewrite holds_iff, Hc|]. intros h' Hne. rewrite holds_iff by done.
    apply not_true_is_false. intros E. apply Hne. apply Hcrit in Hc.
    assert (o = Some h') by (apply (owner_unique o s h' Ho); by destruct (s_pc s h')). congruence.
Qed.

(** Hart 1 spins while hart 0 is in its critical section. *)
Definition smp_demo : smp :=
  hart_step 1 (hart_step 1 (hart_step 0 (hart_step 0 (hart_step 0 (mksmp unlocked (fun _ => Idle)))))).

Lemma spinlock_mutual_exclusion_witness :
  s_pc smp_demo 0 = Crit /\ s_pc smp_demo 1 = Tas /\ holds 0 (s_lock smp_demo) = true.
Proof.
  assert (Hr : smp_reach smp_demo) by (repeat apply smp_next; apply smp_init).
  split; [reflexivity|]. split; [reflexivity|].
  apply (proj2 (proj2 (spinlock_mutual_exclusion smp_demo Hr)) 0%nat). reflexivity.
Defined.
