(* ===== verification/Norm.v ===== *)
(** * States up to scheduling noise

    Almost every kernel routine takes and drops spin locks and wakes other
    processes.  This leaves traces a caller does not care about: the saved
    interrupt flag [intena] of the hart outside critical sections, and the
    scheduling fields of the process table.  [norm] forgets them; the
    specifications of the higher layers relate [norm] of the final state to
    [norm] of the initial one. *)

From S2P Require Import Prelude State Spinlock.

(** A process without its scheduling state. *)
Definition strip (p : proc) : proc :=
  set_p_state UNUSED (set_p_chan Ch_null (set_p_priority 0 (set_p_promotion_timer 0 p))).

Definition norm_cpu (c : cpu) : cpu :=
  mkcpu (c_proc c) (c_noff c) (if c_noff c =? 0 then false else c_intena c).

Definition norm (s : kst) : kst :=
  set_k_procs (strip <$> k_procs s) (set_k_cpu (norm_cpu (k_cpu s)) s).

Lemma strip_idem p : strip (strip p) = strip p.
Proof. done. Qed.

Lemma norm_cpu_idem c : norm_cpu (norm_cpu c) = norm_cpu c.
Proof. unfold norm_cpu; cbn. by destruct (c_noff c =? 0). Qed.

Lemma norm_idem s : norm (norm s) = norm s.
Proof.
  unfold norm. cbn [k_procs k_cpu set_k_procs set_k_cpu].
  rewrite norm_cpu_idem, <- list_fmap_compose. done.
Qed.

Lemma norm_settle s : norm (settle s) = norm s.
Proof. unfold norm, settle, norm_cpu; cbn. by destruct (c_noff (k_cpu s) =? 0). Qed.

Lemma norm_procs ps s : strip <$> ps = strip <$> k_procs s -> norm (set_k_procs ps s) = norm s.
Proof. intros H. unfold norm. cbn. by rewrite H. Qed.

(** Reading the fields [norm] keeps. *)
Lemma norm_fields s s' : norm s = norm s' ->
  k_hart s = k_hart s' /\ k_sie s = k_sie s' /\ k_locks s = k_locks s' /\ k_sleeplocks s = k_sleeplocks s' /\
  k_mem s = k_mem s' /\ k_freelist s = k_freelist s' /\ k_glob s = k_glob s' /\ k_fs s = k_fs s' /\ k_dev s = k_dev s' /\
  c_proc (k_cpu s) = c_proc (k_cpu s') /\ c_noff (k_cpu s) = c_noff (k_cpu s') /\
  strip <$> k_procs s = strip <$> k_procs s'.
Proof.
  intros H. split_and!;
    [exact (f_equal k_hart H)|exact (f_equal k_sie H)|exact (f_equal k_locks H)|exact (f_equal k_sleeplocks H)
    |exact (f_equal k_mem H)|exact (f_equal k_freelist H)|exact (f_equal k_glob H)|exact (f_equal k_fs H)
    |exact (f_equal k_dev H)|exact (f_equal (fun s => c_proc (k_cpu s)) H)|exact (f_equal (fun s => c_noff (k_cpu s)) H)
    |exact (f_equal k_procs H)].
Qed.

Lemma norm_intr_ok s s' : norm s = norm s' -> intr_ok s -> intr_ok s'.
Proof. unfold intr_ok. intros (_ & -> & _ & _ & _ & _ & _ & _ & _ & _ & -> & _)%norm_fields. done. Qed.

Lemma norm_lock_free l s s' : norm s = norm s' -> lock_free l s -> lock_free l s'.
Proof. unfold lock_free. by intros (_ & _ & -> & _)%norm_fields. Qed.

(** The process [p] is what entry [i] of the table is, but for its scheduling
    state. *)
Lemma norm_lookup s s' i p : norm s = norm s' -> k_procs s !! i = Some p ->
  exists p', k_procs s' !! i = Some p' /\ strip p' = strip p.
Proof.
  intros (_ & _ & _ & _ & _ & _ & _ & _ & _ & _ & _ & H)%norm_fields Hp.
  apply (f_equal (lookup i)) in H. rewrite !list_lookup_fmap, Hp in H. cbn in H.
  destruct (k_procs s' !! i) as [p'|] eqn:E; [|done]. exists p'. cbn in H. split; congruence.
Qed.

Lemma norm_length s s' : norm s = norm s' -> length (k_procs s) = length (k_procs s').
Proof.
  intros (_ & _ & _ & _ & _ & _ & _ & _ & _ & _ & _ & H)%norm_fields.
  apply (f_equal length) in H. by rewrite !length_fmap in H.
Qed.
