(* ===== verification/Printf.v ===== *)
(** * kernel/printf.c: formatted console output

    [printf] and its helpers, with the part of uart.c and console.c it prints
    through: [consputc] and the polling [uartputc_sync].  [panic] is the [Panic]
    outcome of the monad.  The theorem relates what reaches the UART to the
    number printed: reading the digits back gives the number. *)

From S2P Require Import Prelude State Spinlock Norm.

(** ** uart.c and console.c, polling output *)

Definition modify_uart (f : uartst -> uartst) : K unit := modify (fun s => set_k_uart (f (k_uart s)) s).

(** [while ((ReadReg(LSR) & LSR_TX_IDLE) == 0) ;]: the answers the register
    still has to give after the first that says idle. *)
Fixpoint lsr_spin (l : list bool) : list bool :=
  match l with
  | [] => []
  | true :: l => l
  | false :: l => lsr_spin l
  end.

(** [WriteReg(THR, c)]: the register is eight bits wide. *)
Definition write_thr (c : Z) : K unit := modify_uart (fun u => set_ut_out (ut_out u ++ [u8 c]) u).

Definition uartputc_sync (c : Z) : K unit :=
  push_off;;
  modify_uart (fun u => set_ut_lsr (lsr_spin (ut_lsr u)) u);;
  write_thr c;;
  pop_off.

Definition BACKSPACE : Z := 256.

Definition consputc (c : Z) : K unit :=
  if c =? BACKSPACE then
    uartputc_sync 8;;
    uartputc_sync (chr " ");;
    uartputc_sync 8
  else uartputc_sync c.

(** ** printf.c *)

Definition digits : list Z := bytes "0123456789abcdef".

(** The [do ... while] loop: [buf] holds [buf[0]] to [buf[i - 1]] of the 16-byte
    array; storing a digit outside it faults.  An [uint] has at most 32 digits
    in any base. *)
Fixpoint printint_loop (fuel : nat) (x base : Z) (buf : list Z) : K (list Z) :=
  match fuel with
  | O => fault "printint: out of fuel"
  | S fuel =>
      d ← nth_or_fault digits (Z.to_nat (x mod base));
      if (16 <=? length buf)%nat then fault "printint: buf" else
      let buf := buf ++ [d] in
      if x / base =? 0 then mret buf else printint_loop fuel (x / base) base buf
  end.

(** [for (...) consputc(...)] over the bytes of a string. *)
Fixpoint put_all (cs : list Z) : K unit :=
  match cs with
  | [] => mret tt
  | c :: cs => consputc c;; put_all cs
  end.

Definition printint (xx base : Z) (sign : bool) : K unit :=
  let sign := sign && (xx <? 0) in
  let x := u32 (if sign then - xx else xx) in
  buf ← printint_loop 32 x base [];
  buf ← (if (sign : bool) then
           if (16 <=? length buf)%nat then fault "printint: buf" else mret (buf ++ [chr "-"])
         else mret buf);
  put_all (rev buf).

Fixpoint printptr_loop (n : nat) (x : Z) : K unit :=
  match n with
  | O => mret tt
  | S n =>
      d ← nth_or_fault digits (Z.to_nat (Z.shiftr x 60));
      consputc d;;
      printptr_loop n (u64 (Z.shiftl x 4))
  end.

Definition printptr (x : Z) : K unit :=
  consputc (chr "0");;
  consputc (chr "x");;
  printptr_loop 16 x.

(** The variable arguments; [PStr None] is a null pointer. *)
Inductive parg : Set := PInt (x : Z) | PPtr (x : Z) | PStr (s : option (list Z)).

(** The loop over the format string: an argument of another type than the
    directive asks for, or a missing one, is undefined in C. *)
Fixpoint printf_loop (fmt : list Z) (ap : list parg) : K unit :=
  match fmt with
  | [] => mret tt
  | c :: fmt =>
      if negb (c =? chr "%") then consputc c;; printf_loop fmt ap else
      match fmt with
      | [] => mret tt
      | c :: fmt =>
          if c =? chr "d" then
            match ap with PInt x :: ap => printint x 10 true;; printf_loop fmt ap | _ => fault "printf: %d" end
          else if c =? chr "x" then
            match ap with PInt x :: ap => printint x 16 true;; printf_loop fmt ap | _ => fault "printf: %x" end
          else if c =? chr "p" then
            match ap with PPtr x :: ap => printptr x;; printf_loop fmt ap | _ => fault "printf: %p" end
          else if c =? chr "s" then
            match ap with
            | PStr s :: ap => put_all (default (bytes "(null)") s);; printf_loop fmt ap
            | _ => fault "printf: %s"
            end
          else if c =? chr "%" then consputc (chr "%");; printf_loop fmt ap
          else consputc (chr "%");; consputc c;; printf_loop fmt ap
      end
  end.

Definition printf (fmt : string) (ap : list parg) : K unit :=
  locking ← gets k_prlocking;
  when (negb (locking =? 0)) (acquire L_pr);;
  printf_loop (bytes fmt) ap;;
  when (negb (locking =? 0)) (release L_pr).

Definition printfinit : K unit :=
  initlock L_pr;;
  modify (set_k_prlocking 1).

(** ** What reaches the UART *)

Definition uart_put (u : uartst) (c : Z) : uartst :=
  set_ut_out (ut_out u ++ [u8 c]) (set_ut_lsr (lsr_spin (ut_lsr u)) u).

(** The state after the bytes [cs] have been sent. *)
Definition sent (cs : list Z) (s : kst) : kst := set_k_uart (foldl uart_put (k_uart s) cs) s.

Lemma sent_out cs s : ut_out (k_uart (sent cs s)) = ut_out (k_uart s) ++ (u8 <$> cs).
Proof.
  unfold sent. change (k_uart (set_k_uart ?u s)) with u. generalize (k_uart s). induction cs as [|c cs IH]; intros u; cbn.
  - by rewrite app_nil_r.
  - rewrite IH. cbn. by rewrite <- app_assoc.
Qed.

Lemma sent_nil s : sent [] s = s.
Proof. unfold sent, set_k_uart, set_k_dev. destruct s as [? ? ? ? ? ? ? ? ? ? d]. by destruct d. Qed.

Lemma sent_app cs1 cs2 s : sent cs2 (sent cs1 s) = sent (cs1 ++ cs2) s.
Proof. unfold sent. cbn. by rewrite foldl_app. Qed.

Lemma wp_uartputc_sync c Q w : intr_ok (st w) ->
  (forall s', norm s' = sent [c] (norm (st w)) -> Q tt (World s' (env w))) -> wp (uartputc_sync c) Q w.
Proof.
  intros Hi HQ. unfold uartputc_sync, modify_uart, write_thr, modify_uart. apply wp_bind, wp_push_off.
  wp_steps. destruct (intr_ok_enter (st w) Hi) as (_ & H1 & H2).
  apply wp_pop_off; [done|done|]. cbn [st env]. apply HQ.
  transitivity (norm (sent [c] (leave (enter (st w))))); [done|].
  rewrite leave_enter by done. change (sent [c] (norm (settle (st w))) = sent [c] (norm (st w))). by rewrite norm_settle.
Qed.

Lemma wp_consputc c Q w : intr_ok (st w) -> c <> BACKSPACE ->
  (forall s', norm s' = sent [c] (norm (st w)) -> Q tt (World s' (env w))) -> wp (consputc c) Q w.
Proof. intros Hi Hc HQ. unfold consputc. rewrite (proj2 (Z.eqb_neq _ _) Hc). by apply wp_uartputc_sync. Qed.

Lemma norm_sent_intr_ok cs s s' : norm s' = sent cs (norm s) -> intr_ok s -> intr_ok s'.
Proof. intros H Hi. apply (norm_intr_ok (sent cs s)); [by rewrite H|exact Hi]. Qed.

Lemma wp_put_all cs Q w : intr_ok (st w) -> Forall (fun c => 0 <= c < 256) cs ->
  (forall s', norm s' = sent cs (norm (st w)) -> Q tt (World s' (env w))) -> wp (put_all cs) Q w.
Proof.
  intros Hi Hcs. revert w Hi. induction Hcs as [|c cs Hc Hcs IH]; intros w Hi HQ; cbn [put_all].
  - apply wp_ret. destruct w. apply HQ. by rewrite sent_nil.
  - apply wp_bind, wp_consputc; [done|unfold BACKSPACE; lia|]. intros s1 H1.
    apply IH; cbn [st env]; [by eapply norm_sent_intr_ok|]. intros s2 H2. apply HQ.
    rewrite H2, H1, sent_app. done.
Qed.

(** ** Numbers *)

(** The value of a digit in base [b]. *)
Definition digit_of (b c : Z) : option Z :=
  let v := if (48 <=? c) && (c <=? 57) then c - 48 else if (97 <=? c) && (c <=? 102) then c - 87 else -1 in
  if (0 <=? v) && (v <? b) then Some v else None.

Fixpoint read_digits (b acc : Z) (cs : list Z) : option Z :=
  match cs with
  | [] => Some acc
  | c :: cs => match digit_of b c with Some d => read_digits b (acc * b + d) cs | None => None end
  end.

(** The number a text denotes: an optional minus sign and at least one digit. *)
Definition read_int (b : Z) (cs : list Z) : option Z :=
  match cs with
  | [] => None
  | c :: ds =>
      if c =? chr "-" then match ds with [] => None | _ => Z.opp <$> read_digits b 0 ds end
      else read_digits b 0 cs
  end.

Lemma read_digits_app b acc cs1 cs2 :
  read_digits b acc (cs1 ++ cs2) = read_digits b acc cs1 ≫= fun v => read_digits b v cs2.
Proof.
  revert acc. induction cs1 as [|c cs1 IH]; intros acc; cbn; [done|]. by destruct (digit_of b c).
Qed.

Lemma digits_lookup d : 0 <= d < 16 ->
  exists c, digits !! Z.to_nat d = Some c /\ c <> chr "-" /\ 0 <= c < 256 /\ forall b, d < b -> digit_of b c = Some d.
Proof.
  intros Hd. assert (Hc : forall n : nat, (n < 16)%nat -> exists c, digits !! n = Some c /\ c <> chr "-" /\ 0 <= c < 256 /\
    (if (48 <=? c) && (c <=? 57) then c - 48 else if (97 <=? c) && (c <=? 102) then c - 87 else -1) = n).
  { intros n Hn. do 16 (destruct n as [|n]; [eexists; vm_compute; split_and!; [reflexivity|done..]|]). lia. }
  destruct (Hc (Z.to_nat d)) as (c & H1 & H2 & H3 & H4); [lia|]. exists c. split_and!; [done|done|lia|lia|].
  intros b Hb. unfold digit_of. rewrite H4, Z2Nat.id by lia.
  rewrite (proj2 (Z.leb_le 0 d)), (proj2 (Z.ltb_lt d b)) by lia. done.
Qed.

(** The loop stores the digits of [x], least significant first: [n] of them are
    enough when [x < base ^ n]. *)
Lemma wp_printint_loop base (n fuel : nat) x buf Q w :
  2 <= base <= 16 -> (0 < n <= fuel)%nat -> 0 <= x < base ^ n -> (length buf + n <= 16)%nat ->
  (forall ds, (0 < length ds <= n)%nat -> read_digits base 0 (rev ds) = Some x ->
     Forall (fun c => c <> chr "-" /\ 0 <= c < 256) ds -> Q (buf ++ ds) w) ->
  wp (printint_loop fuel x base buf) Q w.
Proof.
  intros Hb. revert n x buf Q. induction fuel as [|fuel IH]; intros n x buf Q Hn Hx Hl HQ; [lia|].
  assert (Hm : 0 <= x mod base < base) by (apply Z.mod_pos_bound; lia).
  destruct (digits_lookup (x mod base)) as (c & Hc & Hne & Hr & Hd); [lia|].
  cbn [printint_loop]. apply wp_bind, (wp_nth _ _ c); [done|].
  rewrite (proj2 (Nat.leb_gt _ _)) by lia. pose proof (Z.div_mod x base ltac:(lia)) as Hdm.
  destruct (x / base =? 0) eqn:E; bool_facts.
  - apply wp_ret, HQ; [cbn; lia| |by apply list.Forall_singleton]. cbn. rewrite Hd by lia. f_equal. nia.
  - destruct n as [|[|n]]; [lia| |].
    { exfalso. rewrite Z.pow_1_r in Hx. apply E. apply Z.div_small. lia. }
    apply (IH (S n)); [lia| |rewrite length_app; cbn; lia|].
    + split; [apply Z.div_pos; lia|]. apply Z.div_lt_upper_bound; [lia|].
      rewrite <- Z.pow_succ_r by lia. rewrite <- Nat2Z.inj_succ. lia.
    + intros ds Hds Hrd Hall. rewrite <- app_assoc. apply HQ; [cbn; lia| |by constructor].
      cbn [rev app]. rewrite read_digits_app, Hrd. cbn. rewrite Hd by lia. f_equal. lia.
Qed.

(** [printint] sends the sign and digits of the number, in at most [n + 1] bytes. *)
Lemma wp_printint xx base (n : nat) Q w :
  intr_ok (st w) -> -2147483648 <= xx < 2147483648 -> 2 <= base <= 16 -> 4294967296 <= base ^ n -> (0 < n < 16)%nat ->
  (forall text s', read_int base text = Some xx -> (length text <= S n)%nat -> Forall (fun c => 0 <= c < 256) text ->
     norm s' = sent text (norm (st w)) -> Q tt (World s' (env w))) ->
  wp (printint xx base true) Q w.
Proof.
  intros Hi Hxx Hb Hp Hn HQ. unfold printint. cbn [andb].
  assert (Hu : u32 (if xx <? 0 then - xx else xx) = Z.abs xx) by (rewrite u32_small; case_if; lia).
  rewrite Hu. apply wp_bind, (wp_printint_loop base n); [done|lia|lia|cbn; lia|].
  intros ds Hds Hrd Hall. cbn [app]. apply wp_bind.
  assert (Hby : Forall (fun c => 0 <= c < 256) ds) by (eapply list.Forall_impl; [exact Hall|by intros ? []]).
  destruct (xx <? 0) eqn:E; bool_facts.
  - rewrite (proj2 (Nat.leb_gt _ _)) by lia. apply wp_ret. rewrite rev_app_distr. cbn [rev app].
    apply wp_put_all; [done|constructor; [by vm_compute|by apply Forall_rev]|]. intros s' Hs.
    apply (HQ (chr "-" :: rev ds)); [|cbn; rewrite length_rev; lia|constructor; [by vm_compute|by apply Forall_rev]|done].
    cbn [read_int]. rewrite Z.eqb_refl, Hrd. destruct (rev ds) eqn:Er; [apply (f_equal length) in Er; rewrite length_rev in Er; cbn in Er; lia|].
    cbn. f_equal. lia.
  - apply wp_ret. apply wp_put_all; [done|by apply Forall_rev|]. intros s' Hs.
    apply (HQ (rev ds)); [|rewrite length_rev; lia|by apply Forall_rev|done].
    destruct (rev ds) as [|c ds'] eqn:Er; [apply (f_equal length) in Er; rewrite length_rev in Er; cbn in Er; lia|].
    cbn [read_int]. assert (c <> chr "-") as Hc.
    { apply Forall_rev in Hall. change (List.rev ds) with (rev ds) in Hall. rewrite Er in Hall. by apply list.Forall_cons in Hall as [[? _] _]. }
    rewrite (proj2 (Z.eqb_neq _ _) Hc), Hrd. f_equal. lia.
Qed.

(** [printint] of any [int] in base 10 (as [%d] uses it) or 16 (as [%x]
    uses it) never stores outside its 16-byte buffer, returns, and sends to the
    UART a text that reads back as the number; nothing else of the machine
    changes. *)
Theorem printint_roundtrip xx base w :
  intr_ok (st w) -> -2147483648 <= xx < 2147483648 -> base = 10 \/ base = 16 ->
  wp (printint xx base true) (fun _ w' => exists text,
    read_int base text = Some xx /\ (length text <= 11)%nat /\
    ut_out (k_uart (st w')) = ut_out (k_uart (st w)) ++ text /\ norm (st w') = sent text (norm (st w))) w.
Proof.
  intros Hi Hxx Hb.
  assert (exists n : nat, 4294967296 <= base ^ n /\ (0 < n <= 10)%nat) as (n & Hp & Hn).
  { destruct Hb; subst base; [exists 10%nat|exists 8%nat]; cbn; lia. }
  apply (wp_printint xx base n); [done|done|lia|done|lia|].
  intros text s' Hr Hl Hc Hs. exists text. split_and!; [done|lia| |done]. cbn [st].
  change (ut_out (k_uart (norm s')) = ut_out (k_uart (norm (st w))) ++ text).
  by rewrite Hs, sent_out, u8_bytes.
Qed.

Lemma printint_roundtrip_witness :
  wp (printint (-2147483648) 10 true) (fun _ w' => exists text,
    read_int 10 text = Some (-2147483648) /\ ut_out (k_uart (st w')) = text) (World kst0 []).
Proof.
  eapply wp_mono.
  - apply (printint_roundtrip (-2147483648) 10 (World kst0 [])); [split; cbn; lia|lia|by left].
  - intros u w' (text & H1 & _ & H2 & _). by exists text.
Defined.
