(* ===== verification/Sched.v ===== *)
(** * kernel/proc.c: scheduling

    The scheduling half of proc.c: the current process, the two scheduler loops
    (round robin and the two-level feedback queue), [sched]/[yield] with the
    priority bookkeeping, [sleep]/[wakeup], [kill].  [swtch] out of a process
    waits in the environment until some scheduler has marked the process RUNNING
    again; [swtch] out of a scheduler hands the machine to the process, which is
    the next action of the environment, and records the choice in the history
    [k_dispatched]. *)

From S2P Require Import Prelude State Spinlock Norm Printf.

Definition MAX_PRIO : Z := 1.
Definition PROM_TIME : Z := 5.
Definition YIELD_TIMER : Z := 1.
Definition YIELD_OTHER : Z := 2.

Definition proc_at (i : nat) : K proc :=
  s ← get; nth_or_fault (k_procs s) i.
Definition modify_proc (i : nat) (f : proc -> proc) : K unit :=
  modify (fun s => set_k_procs (alter f i (k_procs s)) s).

Definition myproc : K (option nat) :=
  push_off;;
  c ← gets (fun s => k_cpu s);
  let p := c_proc c in
  pop_off;;
  mret p.

(** [myproc()->...]: following a null pointer faults. *)
Definition this_proc : K nat :=
  p ← myproc;
  match p with
  | Some i => mret i
  | None => fault "myproc() is null"
  end.

Definition allocpid : K Z :=
  acquire L_pid;;
  pid ← gets (fun s => k_nextpid s);
  modify (fun s => set_k_nextpid (s32 (k_nextpid s + 1)) s);;
  release L_pid;;
  mret pid.

(** Body of the loop at the head of [sched]:
    [if (p->priority > 0 && --p->promotion_timer == 0) p->priority = 0;] *)
Definition promote (p : proc) : proc :=
  if 0 <? p_priority p then
    let p := set_p_promotion_timer (s32 (p_promotion_timer p - 1)) p in
    if p_promotion_timer p =? 0 then set_p_priority 0 p else p
  else p.

(** The demotion of [yield(YIELD_TIMER)]. *)
Definition demote (p : proc) : proc :=
  set_p_promotion_timer PROM_TIME
    (set_p_priority (if MAX_PRIO <? u32 (p_priority p + 1) then p_priority p else u32 (p_priority p + 1)) p).

Definition is_running (i : nat) (s : kst) : bool :=
  match k_procs s !! i with
  | Some p => bool_decide (p_state p = RUNNING)
  | None => false
  end.

Definition sched : K unit :=
  modify (fun s => set_k_procs (promote <$> k_procs s) s);;
  i ← this_proc;
  h ← holding (L_proc i);
  if negb h then panic "sched p->lock" else
  c ← gets (fun s => k_cpu s);
  if negb (c_noff c =? 1) then panic "sched locks" else
  p ← proc_at i;
  if bool_decide (p_state p = RUNNING) then panic "sched running" else
  ie ← intr_get;
  if (ie : bool) then panic "sched interruptible" else
  c ← gets (fun s => k_cpu s);
  let intena := c_intena c in
  wait_until (is_running i);;
  modify_cpu (set_c_intena intena).

Definition yield (reason : Z) : K unit :=
  i ← this_proc;
  acquire (L_proc i);;
  modify_proc i (set_p_state RUNNABLE);;
  when (reason =? YIELD_TIMER) (modify_proc i demote);;
  sched;;
  release (L_proc i).

Definition sleep (ch : chan) (lk : lockid) : K unit :=
  i ← this_proc;
  acquire (L_proc i);;
  release lk;;
  modify_proc i (set_p_chan ch);;
  modify_proc i (set_p_state SLEEPING);;
  sched;;
  modify_proc i (set_p_chan Ch_null);;
  release (L_proc i);;
  acquire lk.

(** Body of the [wakeup] loop under [p->lock]. *)
Definition wake (ch : chan) (p : proc) : proc :=
  if bool_decide (p_state p = SLEEPING) && bool_decide (p_chan p = ch)
  then set_p_state RUNNABLE p else p.

Definition wakeup_visit (ch : chan) (i : nat) : K (option unit) :=
  me ← myproc;
  if bool_decide (me = Some i) then mret None else
  acquire (L_proc i);;
  modify_proc i (wake ch);;
  release (L_proc i);;
  mret None.

Definition wakeup (ch : chan) : K unit :=
  foreach (seq 0 NPROC) (wakeup_visit ch);;
  mret tt.

(** What [kill] does to the victim. *)
Definition kill_mark (p : proc) : proc :=
  let p := set_p_killed 1 p in
  if bool_decide (p_state p = SLEEPING) then set_p_state RUNNABLE p else p.

Definition kill_visit (pid : Z) (i : nat) : K (option Z) :=
  acquire (L_proc i);;
  p ← proc_at i;
  if p_pid p =? pid then
    modify_proc i kill_mark;;
    release (L_proc i);;
    mret (Some 0)
  else
    release (L_proc i);;
    mret None.

Definition kill (pid : Z) : K Z :=
  r ← foreach (seq 0 NPROC) (kill_visit pid);
  mret (default (-1) r).

Definition setkilled (i : nat) : K unit :=
  acquire (L_proc i);;
  modify_proc i (set_p_killed 1);;
  release (L_proc i).

Definition killed (i : nat) : K Z :=
  acquire (L_proc i);;
  p ← proc_at i;
  release (L_proc i);;
  mret (p_killed p).

(** ** Schedulers *)

(** [swtch(&c->context, &p->context)]: the process runs until it switches back. *)
Definition swtch_to (i : nat) : K unit :=
  p ← proc_at i;
  modify (fun s => set_k_dispatched ((i, p_priority p) :: k_dispatched s) s);;
  step_env.

(** The lines [p->state = RUNNING; c->proc = p; swtch(...);] of the schedulers. *)
Definition run_proc (i : nat) : K unit :=
  modify_proc i (set_p_state RUNNING);;
  modify_cpu (set_c_proc (Some i));;
  swtch_to i.

Definition rr_visit (i : nat) : K (option unit) :=
  acquire (L_proc i);;
  p ← proc_at i;
  when (bool_decide (p_state p = RUNNABLE))
    (run_proc i;;
     modify_cpu (set_c_proc None));;
  release (L_proc i);;
  mret None.

Definition rr_scheduler : K unit :=
  modify_cpu (set_c_proc None);;
  intr_on;;
  foreach (seq 0 NPROC) rr_visit;;
  mret tt.

(** One pass of the high-priority loop: [Some high_avail] at its end, [None] if
    the scheduler was replaced meanwhile. *)
Fixpoint mlfq_high_pass (todo : list nat) (high_avail : bool) : K (option bool) :=
  match todo with
  | [] => mret (Some high_avail)
  | i :: todo =>
      acquire (L_proc i);;
      p ← proc_at i;
      if 0 <? p_priority p then
        release (L_proc i);;
        mlfq_high_pass todo high_avail
      else if bool_decide (p_state p = RUNNABLE) then
        run_proc i;;
        sp ← gets (fun s => k_sched s);
        if bool_decide (sp <> mlfq_scheduler_ptr) then
          release (L_proc i);;
          mret None
        else
          modify_cpu (set_c_proc None);;
          release (L_proc i);;
          mlfq_high_pass todo true
      else
        release (L_proc i);;
        mlfq_high_pass todo high_avail
  end.

(** The [do ... while (high_avail)] loop; [false] if the scheduler was replaced.
    A repetition means that a process was dispatched, which used up one action
    of the environment: the length of the environment bounds the repetitions. *)
Fixpoint mlfq_high (fuel : nat) : K bool :=
  match fuel with
  | O => fault "mlfq_high: out of fuel"
  | S fuel =>
      r ← mlfq_high_pass (seq 0 NPROC) false;
      match r with
      | None => mret false
      | Some true => mlfq_high fuel
      | Some false => mret true
      end
  end.

(** One step of the low-priority loop: [Some tt] leaves it. *)
Definition mlfq_low_visit (i : nat) : K (option unit) :=
  acquire (L_proc i);;
  p ← proc_at i;
  if (p_priority p =? 0) && bool_decide (p_state p = RUNNABLE) then
    release (L_proc i);;
    mret (Some tt)
  else if bool_decide (p_state p = RUNNABLE) then
    run_proc i;;
    sp ← gets (fun s => k_sched s);
    if bool_decide (sp <> mlfq_scheduler_ptr) then
      release (L_proc i);;
      mret (Some tt)
    else
      modify_cpu (set_c_proc None);;
      release (L_proc i);;
      mret None
  else
    release (L_proc i);;
    mret None.

Definition mlfq_scheduler : K unit :=
  modify_cpu (set_c_proc None);;
  intr_on;;
  go_on ← env_fuel mlfq_high;
  when go_on (foreach (seq 0 NPROC) mlfq_low_visit;; mret tt).

(** One iteration of [scheduler]'s endless loop. *)
Definition scheduler_step : K unit :=
  sp ← gets (fun s => k_sched s);
  match sp with
  | rr_scheduler_ptr => rr_scheduler
  | mlfq_scheduler_ptr => mlfq_scheduler
  end.

Definition available_schedulers : list (string * schedimpl * Z) :=
  [("Round Robin"%string, rr_scheduler_ptr, 1); ("MLFQ Sched"%string, mlfq_scheduler_ptr, 2)].

(** [available_schedulers[id - 1].impl], with no check of [id]. *)
Definition schedset (id : Z) : K unit :=
  let i := s32 (id - 1) in
  if (i <? 0) then fault "available_schedulers[id - 1]: index out of range" else
  x ← nth_or_fault available_schedulers (Z.to_nat i);
  modify (set_k_sched (snd (fst x)));;
  printf ("Scheduler successfully changed to %s" ++ NL) [PStr (Some (bytes (fst (fst x))))].

Definition schedls : K unit :=
  printf ("[ ]" ++ TAB ++ "Scheduler Name" ++ TAB ++ "Scheduler ID" ++ NL) [];;
  printf ("====================================" ++ NL) [];;
  foreach available_schedulers (fun x =>
    sp ← gets k_sched;
    (if bool_decide (snd (fst x) = sp) then printf ("[*]" ++ TAB) [] else printf ("   " ++ TAB) []);;
    printf ("%s" ++ TAB ++ "%d" ++ NL) [PStr (Some (bytes (fst (fst x)))); PInt (snd x)];;
    mret (@None unit));;
  printf (NL ++ "*: current scheduler" ++ NL ++ NL) [].

(** The table [states] of [procdump]; every [procstate] has an entry, so the
    "???" case does not arise. *)
Definition statename (s : procstate) : string :=
  match s with
  | UNUSED => "unused" | USED => "used" | SLEEPING => "sleep " | RUNNABLE => "runble"
  | RUNNING => "run   " | ZOMBIE => "zombie"
  end.

Definition procdump : K unit :=
  printf NL [];;
  foreach (seq 0 NPROC) (fun i =>
    p ← proc_at i;
    if bool_decide (p_state p = UNUSED) then mret (@None unit) else
    printf "%d <%s %s" [PInt (p_pid p); PStr (Some (bytes (statename (p_state p)))); PStr (Some (cstring (p_name p)))];;
    printf NL [];;
    mret None);;
  mret tt.

(** ** Process-table loops *)

Lemma wp_myproc Q w : intr_ok (st w) ->
  Q (c_proc (k_cpu (st w))) (World (settle (st w)) (env w)) -> wp myproc Q w.
Proof.
  intros Hi HQ. unfold myproc. apply wp_bind, wp_push_off. wp_steps.
  destruct (intr_ok_enter (st w) Hi) as (_ & H1 & H2).
  apply wp_bind, wp_pop_off; [done|done|]. wp_steps. cbn [st env]. by rewrite leave_enter.
Qed.

Lemma wp_this_proc i Q w : intr_ok (st w) -> c_proc (k_cpu (st w)) = Some i ->
  Q i (World (settle (st w)) (env w)) -> wp this_proc Q w.
Proof. intros Hi Hc HQ. unfold this_proc. apply wp_bind, wp_myproc; [done|]. by rewrite Hc. Qed.

Lemma wp_proc_at i p Q w : k_procs (st w) !! i = Some p -> Q p w -> wp (proc_at i) Q w.
Proof. intros Hp HQ. unfold proc_at. wp_steps. by eapply wp_nth. Qed.

(** A loop over the process table whose body updates entry [i] with [F i] and
    otherwise only refreshes [intena]. *)
Lemma wp_foreach_procs {R} (body : nat -> K (option R)) (F : nat -> proc -> proc) s e ps Q :
  length ps = NPROC ->
  (forall i ps s1 Q, (i < NPROC)%nat -> length ps = NPROC -> settle s1 = settle s ->
     Q None (World (set_k_procs (alter (F i) i ps) (settle s)) e) ->
     wp (body i) Q (World (set_k_procs ps s1) e)) ->
  Q None (World (set_k_procs (imap F ps) (settle s)) e) ->
  wp (foreach (seq 0 NPROC) body) Q (World (set_k_procs ps s) e).
Proof.
  intros Hlen Hb HQ.
  set (mid k := imap (fun i p => if decide (i < k)%nat then F i p else p) ps).
  assert (Hmid : forall k, (k < NPROC)%nat -> alter (F k) k (mid k) = mid (S k)).
  { intros k Hk. apply list_eq. intros j. unfold mid.
    destruct (decide (j = k)) as [->|Hne].
    - rewrite list_lookup_alter_eq, !list_lookup_imap. destruct (ps !! k); cbn; [|done].
      by rewrite decide_False, decide_True by lia.
    - rewrite list_lookup_alter_ne by done. rewrite !list_lookup_imap.
      destruct (ps !! j); cbn; [|done]. do 2 f_equal. repeat case_decide; try lia; done. }
  assert (Hl : forall k, length (mid k) = NPROC) by (intros k; unfold mid; by rewrite length_imap).
  apply (wp_foreach body (fun todo w => exists k s1,
    todo = seq k (NPROC - k) /\ (k <= NPROC)%nat /\ w = World (set_k_procs (mid k) s1) e /\
    settle s1 = settle s /\ (0 < k -> s1 = settle s)%nat)).
  - exists 0%nat, s. split_and!; [done|lia| |done|lia]. f_equal. f_equal.
    unfold mid. apply list_eq. intros j. rewrite list_lookup_imap. by destruct (ps !! j).
  - intros i todo w (k & s1 & Htodo & Hk & -> & Hs & _).
    destruct (NPROC - k)%nat as [|n] eqn:En; simpl in Htodo; [done|]. injection Htodo as -> ->.
    apply Hb; [lia|apply Hl|done|]. exists (S k), (settle s). rewrite Hmid by lia.
    split_and!; [f_equal; lia|lia|done|apply settle_idem|done].
  - intros w (k & s1 & Htodo & Hk & -> & Hs & Hs1).
    assert (k = NPROC) as -> by (destruct (NPROC - k)%nat eqn:En; [lia|done]).
    rewrite Hs1 by (unfold NPROC; lia). replace (mid NPROC) with (imap F ps); [done|].
    unfold mid. apply list_eq. intros j. rewrite !list_lookup_imap.
    destruct (ps !! j) as [p|] eqn:Ej; cbn; [|done].
    apply lookup_lt_Some in Ej. by rewrite decide_True by lia.
Qed.

(** No process lock is held, except possibly the current process's own. *)
Definition proc_locks_free (s : kst) : Prop :=
  forall i, (i < NPROC)%nat -> c_proc (k_cpu s) <> Some i -> lock_free (L_proc i) s.

Lemma settle_procs ps s : settle (set_k_procs ps s) = set_k_procs ps (settle s).
Proof. done. Qed.

(** The table after [wakeup(ch)] by the process [me]. *)
Definition woken (ch : chan) (me : option nat) (ps : list proc) : list proc :=
  imap (fun i => if decide (me = Some i) then id else wake ch) ps.

Lemma settle_eq_fields s1 s2 : settle s1 = settle s2 ->
  c_proc (k_cpu s1) = c_proc (k_cpu s2) /\ c_noff (k_cpu s1) = c_noff (k_cpu s2) /\
  k_sie s1 = k_sie s2 /\ k_locks s1 = k_locks s2 /\ k_hart s1 = k_hart s2.
Proof.
  intros H. split_and!.
  - exact (f_equal (fun s => c_proc (k_cpu s)) H).
  - exact (f_equal (fun s => c_noff (k_cpu s)) H).
  - exact (f_equal k_sie H).
  - exact (f_equal k_locks H).
  - exact (f_equal k_hart H).
Qed.

Lemma intr_ok_settle_eq s1 s2 : settle s1 = settle s2 -> intr_ok s2 -> intr_ok s1.
Proof.
  intros H [H1 H2]. apply settle_eq_fields in H as (_ & Hn & Hs & _). unfold intr_ok. by rewrite Hn, Hs.
Qed.

Lemma wp_wakeup ch Q w :
  intr_ok (st w) -> length (k_procs (st w)) = NPROC -> proc_locks_free (st w) ->
  Q tt (World (set_k_procs (woken ch (c_proc (k_cpu (st w))) (k_procs (st w))) (settle (st w))) (env w)) ->
  wp (wakeup ch) Q w.
Proof.
  intros Hi Hlen Hfree HQ. unfold wakeup. apply wp_bind.
  replace w with (World (set_k_procs (k_procs (st w)) (st w)) (env w)) at 1
    by (destruct w as [s e]; by destruct s).
  eapply (wp_foreach_procs (wakeup_visit ch)
    (fun i => if decide (c_proc (k_cpu (st w)) = Some i) then id else wake ch)); [done| |].
  - intros i ps s1 Q1 Hi1 Hl1 Hs HQ1. pose proof (settle_eq_fields _ _ Hs) as (Hp & Hn & _ & Hk & _).
    pose proof (intr_ok_settle_eq _ _ Hs Hi) as Hio. unfold wakeup_visit.
    apply wp_bind, wp_myproc; [done|]. cbn [st env k_cpu set_k_procs]. rewrite Hp.
    rewrite settle_procs, Hs. case_bool_decide as Hme.
    + apply wp_ret. rewrite decide_True in HQ1 by done.
      by rewrite list_alter_id in HQ1 by done.
    + rewrite decide_False in HQ1 by done.
      assert (lock_free (L_proc i) (settle (st w))) as Hlf by (apply Hfree; [lia|done]).
      apply wp_bind, wp_acquire; [exact Hlf|]. unfold modify_proc. wp_steps. cbn [st env k_procs acquired].
      apply wp_bind. apply (wp_release_crit (L_proc i) (set_k_procs (alter (wake ch) i ps)));
        [inert_tac|apply (intr_ok_settle (st w) Hi)|exact Hlf|].
      apply wp_ret. rewrite settle_procs, settle_idem. exact HQ1.
  - apply wp_ret. exact HQ.
Qed.

(** ** wakeup, kill *)

(** [wakeup(ch)] makes RUNNABLE exactly the processes other than the caller
    that sleep on [ch], and changes nothing else in the process table. *)
Theorem wakeup_spec ch w :
  intr_ok (st w) -> length (k_procs (st w)) = NPROC -> proc_locks_free (st w) ->
  wp (wakeup ch) (fun _ w' =>
    (forall i p, k_procs (st w) !! i = Some p ->
       k_procs (st w') !! i =
         Some (if decide (c_proc (k_cpu (st w)) <> Some i /\ p_state p = SLEEPING /\ p_chan p = ch)
               then set_p_state RUNNABLE p else p)) /\
    length (k_procs (st w')) = NPROC /\
    set_k_procs (k_procs (st w)) (st w') = settle (st w) /\ env w' = env w) w.
Proof.
  intros Hi Hl Hf. apply wp_wakeup; [done..|]. cbn [st env k_procs set_k_procs]. split_and!.
  - intros i p Hp. unfold woken. rewrite list_lookup_imap, Hp. cbn. f_equal.
    destruct (decide (c_proc _ = Some i)); cbn.
    + by rewrite decide_False by naive_solver.
    + unfold wake. destruct (decide (p_state p = SLEEPING /\ p_chan p = ch)) as [[H1 H2]|Hn].
      * by rewrite !bool_decide_eq_true_2, decide_True by done.
      * rewrite (decide_False (P := _ /\ _)) by naive_solver.
        destruct (bool_decide (p_state p = SLEEPING)) eqn:E1; [|done].
        destruct (bool_decide (p_chan p = ch)) eqn:E2; [|done]. bool_facts. naive_solver.
  - unfold woken. by rewrite length_imap.
  - unfold settle. by destruct (st w).
  - done.
Qed.

(** A process table for the witnesses: entry [i] of [xs], then unused entries. *)
Definition table_of (xs : list proc) : list proc := xs ++ replicate (NPROC - length xs) proc0.
Definition proc_in (s : procstate) (pid prio : Z) : proc := set_p_state s (set_p_pid pid (set_p_priority prio proc0)).

(** Process 1 runs; process 0 sleeps on [ticks], process 2 on [log]. *)
Definition kst_sleepers : kst :=
  set_k_procs (table_of [set_p_chan Ch_ticks (proc_in SLEEPING 1 0); proc_in RUNNING 2 0;
                         set_p_chan Ch_log (proc_in SLEEPING 3 0)])
    (set_k_cpu (mkcpu (Some 1%nat) 0 true) kst0).

Lemma wakeup_spec_witness :
  wp (wakeup Ch_ticks) (fun _ w' => p_state <$> k_procs (st w') !! 0%nat = Some RUNNABLE) (World kst_sleepers []).
Proof.
  eapply wp_mono.
  - apply (wakeup_spec Ch_ticks (World kst_sleepers [])); [split; cbn; lia | reflexivity | by intros i Hi Hc].
  - intros u w' (H & _). rewrite (H 0%nat (set_p_chan Ch_ticks (proc_in SLEEPING 1 0)) eq_refl). reflexivity.
Defined.

(** The state a failed search leaves, and the state a hit at [i] leaves. *)
Lemma wp_kill pid Q w :
  intr_ok (st w) -> length (k_procs (st w)) = NPROC -> (forall i, (i < NPROC)%nat -> lock_free (L_proc i) (st w)) ->
  match list_find (fun p => p_pid p = pid) (k_procs (st w)) with
  | Some (i, _) => Q 0 (World (set_k_procs (alter kill_mark i (k_procs (st w))) (settle (st w))) (env w))
  | None => Q (-1) (World (settle (st w)) (env w))
  end -> wp (kill pid) Q w.
Proof.
  intros Hi Hl Hf HQ. unfold kill. apply wp_bind.
  apply (wp_foreach (kill_visit pid) (fun todo w' => exists k,
    todo = seq k (NPROC - k) /\ (k <= NPROC)%nat /\ env w' = env w /\
    settle (st w') = settle (st w) /\ k_procs (st w') = k_procs (st w) /\ (0 < k -> st w' = settle (st w))%nat /\
    forall j p, (j < k)%nat -> k_procs (st w) !! j = Some p -> p_pid p <> pid)).
  - exists 0%nat. split_and!; try done; lia.
  - intros i todo w' (k & Htodo & Hk & He & Hs & Hps & _ & Hbefore).
    destruct (NPROC - k)%nat as [|n] eqn:En; simpl in Htodo; [done|]. injection Htodo as -> ->.
    pose proof (settle_eq_fields _ _ Hs) as (_ & _ & _ & Hlk & _).
    destruct (lookup_lt_is_Some_2 (k_procs (st w)) k) as [p Hp]; [lia|].
    assert (lock_free (L_proc k) (st w')) as Hfree by (unfold lock_free; rewrite Hlk; apply Hf; lia).
    assert (intr_ok (st w')) as Hi' by (by eapply intr_ok_settle_eq).
    unfold kill_visit. apply wp_bind, wp_acquire; [done|].
    apply wp_bind, (wp_proc_at k p); [cbn; by rewrite Hps|]. case_if.
    + unfold modify_proc. wp_steps. cbn [st env k_procs acquired].
      apply wp_bind, (wp_release_crit (L_proc k) (set_k_procs (alter kill_mark k (k_procs (st w')))));
        [inert_tac|done|done|]. wp_steps. cbn [default].
      replace (list_find _ _) with (Some (k, p)) in HQ; [by rewrite Hps, Hs, He|].
      symmetry. apply list_find_Some. split_and!; [done|done|].
      intros j q Hj Hlt. by apply (Hbefore j).
    + apply wp_bind, (wp_release_crit (L_proc k) id); [inert_tac|done|done|]. wp_steps.
      exists (S k). cbn [id st env]. rewrite Hs.
      split_and!; [f_equal; lia|lia|done|apply settle_idem|done|done|].
      intros j q Hj Hq. destruct (decide (j = k)) as [->|]; [congruence|apply (Hbefore j); [lia|done]].
  - intros w' (k & Htodo & Hk & He & Hs & Hps & Hsk & Hbefore).
    assert (k = NPROC) as -> by (destruct (NPROC - k)%nat eqn:En; [lia|done]).
    apply wp_ret. cbn [default]. replace (list_find _ _) with (@None (nat * proc)) in HQ.
    + rewrite <- Hsk in HQ by (unfold NPROC; lia). rewrite <- He in HQ. by destruct w'.
    + symmetry. apply list_find_None, Forall_lookup. intros j p Hp. apply (Hbefore j); [|done].
      apply lookup_lt_Some in Hp. lia.
Qed.

(** [kill(pid)] returns 0 and marks the first table entry with that pid
    killed, waking it if it sleeps, or returns -1 and changes nothing when no
    entry has that pid. *)
Theorem kill_spec pid w :
  intr_ok (st w) -> length (k_procs (st w)) = NPROC -> (forall i, (i < NPROC)%nat -> lock_free (L_proc i) (st w)) ->
  wp (kill pid) (fun r w' =>
    match list_find (fun p => p_pid p = pid) (k_procs (st w)) with
    | Some (i, p) =>
        r = 0 /\ k_procs (st w') !! i =
          Some (set_p_killed 1 (if decide (p_state p = SLEEPING) then set_p_state RUNNABLE p else p)) /\
        (forall j, j <> i -> k_procs (st w') !! j = k_procs (st w) !! j)
    | None => r = -1 /\ k_procs (st w') = k_procs (st w)
    end) w.
Proof.
  intros Hi Hl Hf. apply wp_kill; [done..|].
  destruct (list_find (fun p => p_pid p = pid) (k_procs (st w))) as [[i p]|] eqn:E; [|done].
  apply list_find_Some in E as (Hp & _ & _). split_and!; [done| |].
  - cbn. rewrite list_lookup_alter_eq, Hp. cbn. unfold kill_mark. cbn.
    destruct (decide (p_state p = SLEEPING)); [by rewrite bool_decide_eq_true_2|by rewrite bool_decide_eq_false_2].
  - intros j Hne. cbn. by rewrite list_lookup_alter_ne.
Qed.

Lemma kill_spec_witness :
  wp (kill 3) (fun r w' => r = 0 /\ p_state <$> k_procs (st w') !! 2%nat = Some RUNNABLE) (World kst_sleepers []).
Proof.
  eapply wp_mono; [apply (kill_spec 3 (World kst_sleepers [])); [split; cbn; lia | reflexivity | done]|].
  intros r w' H.
  assert (E : list_find (fun p => p_pid p = 3) (k_procs (st (World kst_sleepers []))) =
              Some (2%nat, set_p_chan Ch_log (proc_in SLEEPING 3 0))) by (vm_compute; reflexivity).
  rewrite E in H. destruct H as (-> & H & _). split; [done|]. rewrite H. reflexivity.
Defined.

(** [kill(0)] succeeds whenever some entry is unused: the free entry, whose pid
    is 0, is marked killed, and nothing clears the mark before the entry is
    handed to a new process. *)
Lemma kill_zero_marks_free_entry :
  wp (kill 0) (fun r w' => r = 0 /\ (p_state <$> k_procs (st w') !! 3%nat = Some UNUSED) /\
                           (p_killed <$> k_procs (st w') !! 3%nat = Some 1)) (World kst_sleepers []).
Proof. vm_compute. done. Qed.

(** ** Priorities *)

(** The two-level queue: priority 0 or 1, and a demoted process has between 1
    and [PROM_TIME] calls of [sched] left before promotion. *)
Definition prio_ok (p : proc) : Prop :=
  p_priority p = 0 \/ (p_priority p = 1 /\ 1 <= p_promotion_timer p <= PROM_TIME).

Lemma promote_ok p : prio_ok p -> prio_ok (promote p).
Proof.
  unfold prio_ok, promote, PROM_TIME. intros [H|[H1 H2]].
  - rewrite H. by left.
  - rewrite H1. cbn. rewrite s32_small by lia. case_if; cbn; [by left|right; lia].
Qed.

Lemma demote_ok p : prio_ok p -> prio_ok (demote p).
Proof.
  unfold prio_ok, demote, PROM_TIME, MAX_PRIO. cbn.
  intros [H|[H1 H2]]; [rewrite H|rewrite H1]; right; (split; [reflexivity|lia]).
Qed.

Lemma promote_low q : p_priority q = 1 -> 1 <= p_promotion_timer q <= PROM_TIME ->
  p_priority (promote q) = (if decide (p_promotion_timer q = 1) then 0 else 1) /\
  p_promotion_timer (promote q) = p_promotion_timer q - 1.
Proof.
  unfold promote, PROM_TIME. intros Hp Ht. rewrite Hp. cbn. rewrite s32_small by lia.
  case_decide; case_if; cbn; split; try done; lia.
Qed.

Lemma promote_iter (k : nat) p : p_priority p = 1 -> 1 <= p_promotion_timer p <= PROM_TIME ->
  if decide (k < p_promotion_timer p)
  then p_priority (Nat.iter k promote p) = 1 /\ p_promotion_timer (Nat.iter k promote p) = p_promotion_timer p - k
  else p_priority (Nat.iter k promote p) = 0.
Proof.
  intros Hp Ht. induction k as [|k IH]; [|rewrite Nat.iter_succ].
  - rewrite decide_True by lia. cbn. split; [done|lia].
  - destruct (decide (k < p_promotion_timer p)).
    + destruct IH as [IH1 IH2]. destruct (promote_low (Nat.iter k promote p)) as [H1 H2]; [done|lia|].
      rewrite H1, H2, IH2. repeat case_decide; try lia; done.
    + rewrite decide_False by lia. unfold promote at 1. by rewrite IH.
Qed.



(** ** The scheduler loops *)

(** [priority] is an unsigned field. *)
Definition prios_nonneg (s : kst) : Prop := Forall (fun p => 0 <= p_priority p) (k_procs s).

(** The hart is in its scheduler: no lock of the process table is held. *)
Definition sched_ready (s : kst) : Prop :=
  intr_ok s /\ c_noff (k_cpu s) = 0 /\ length (k_procs s) = NPROC /\ prios_nonneg s /\
  (forall i, (i < NPROC)%nat -> lock_free (L_proc i) s).

(** The hart has switched to process [i], or back from it: it holds [p->lock]
    and nothing else, with interrupts off. *)
Definition dispatching (i : nat) (s : kst) : Prop :=
  lock_held (L_proc i) s /\ k_sie s = false /\ c_noff (k_cpu s) = 1 /\ length (k_procs s) = NPROC /\ prios_nonneg s /\
  (forall j, (j < NPROC)%nat -> j <> i -> lock_free (L_proc j) s).

(** A run of a process is well behaved if it comes back through [sched], which
    insists on these conditions; it does not touch the history. *)
Definition run_ok (f : kst -> kst) : Prop := forall i s,
  c_proc (k_cpu s) = Some i -> dispatching i s ->
  dispatching i (f s) /\ k_hart (f s) = k_hart s /\ k_dispatched (f s) = k_dispatched s.

(** ... and in addition leaves the other table entries alone. *)
Definition run_alone (f : kst -> kst) : Prop := forall i s j,
  c_proc (k_cpu s) = Some i -> j <> i -> k_procs (f s) !! j = k_procs s !! j.

(** The state handed to the chosen process [i]. *)
Definition handover (i : nat) (p : proc) (s : kst) : kst :=
  set_k_dispatched ((i, p_priority p) :: k_dispatched s)
    (set_k_cpu (set_c_proc (Some i) (k_cpu (acquired (L_proc i) s)))
       (set_k_procs (alter (set_p_state RUNNING) i (k_procs s)) (acquired (L_proc i) s))).

Lemma handover_dispatching i p s : (i < NPROC)%nat -> sched_ready s -> dispatching i (handover i p s).
Proof.
  intros Hi (Hio & Hn & Hl & Hpr & Hf). unfold dispatching, lock_held, lock_free, prios_nonneg. cbn.
  rewrite lookup_insert_eq, length_alter, Hn. split_and!; try done.
  - apply Forall_alter; [exact Hpr|]. intros q _ Hq. exact Hq.
  - intros j Hj Hne. rewrite lookup_insert_ne by congruence. by apply Hf.
Qed.

(** Back in the scheduler after releasing [p->lock]. *)
Lemma wp_release_back i s Q e :
  dispatching i s -> (sched_ready (leave (unlock (L_proc i) s)) -> Q tt (World (leave (unlock (L_proc i) s)) e)) ->
  wp (release (L_proc i)) Q (World s e).
Proof.
  intros (Hh & Hs & Hn & Hl & Hpr & Hf) HQ. apply wp_release; cbn [st env]; [done|done|lia|]. apply HQ.
  unfold sched_ready, intr_ok, lock_free; cbn. rewrite Hn. split_and!; [lia|lia|done|done|done|].
  intros j Hj. destruct (decide (j = i)) as [->|]; [by rewrite lookup_delete_eq|].
  rewrite lookup_delete_ne by congruence. by apply Hf.
Qed.

Lemma sched_ready_start s : sched_ready s -> sched_ready (set_k_sie true (set_k_cpu (set_c_proc None (k_cpu s)) s)).
Proof. intros ((H0 & H1) & Hn & Hl & Hpr & Hf). split_and!; try done. split; cbn; lia. Qed.

Lemma dispatching_cpu i s x : dispatching i s -> dispatching i (set_k_cpu (set_c_proc x (k_cpu s)) s).
Proof. intros (H1 & H2 & H3 & H4 & H5 & H6). by split_and!. Qed.

(** Dispatching process [i] when the environment has a run for it. *)
Lemma wp_run_proc i p f s e Q :
  (i < NPROC)%nat -> k_procs s !! i = Some p -> sched_ready s -> run_ok f ->
  (dispatching i (f (handover i p s)) -> k_dispatched (f (handover i p s)) = (i, p_priority p) :: k_dispatched s ->
   Q tt (World (f (handover i p s)) e)) ->
  wp (run_proc i) Q (World (acquired (L_proc i) s) (f :: e)).
Proof.
  intros Hi Hp Hr Hf HQ. unfold run_proc, modify_proc, modify_cpu, swtch_to. wp_steps.
  apply (wp_proc_at i (set_p_state RUNNING p)); [cbn; by rewrite list_lookup_alter_eq, Hp|]. wp_steps.
  apply wp_step_env. destruct (Hf i (handover i p s)) as (Hd & Hh & Hlog); [done|by apply handover_dispatching|].
  by apply HQ.
Qed.

(** Dispatching process [i], whatever the environment. *)
Lemma safe_run_proc i p s e Q R :
  (i < NPROC)%nat -> k_procs s !! i = Some p -> sched_ready s -> Forall run_ok e ->
  (forall f e', e = f :: e' -> dispatching i (f (handover i p s)) ->
     k_dispatched (f (handover i p s)) = (i, p_priority p) :: k_dispatched s ->
     Q tt (World (f (handover i p s)) e')) ->
  R (World (handover i p s) []) ->
  safe (run_proc i) Q R (World (acquired (L_proc i) s) e).
Proof.
  intros Hi Hp Hr Hf HQ HR. destruct e as [|f e].
  - unfold run_proc, modify_proc, modify_cpu, swtch_to. apply safe_bind, safe_wp, wp_modify.
    apply safe_bind, safe_wp, wp_modify. apply safe_bind, safe_wp.
    apply (wp_proc_at i (set_p_state RUNNING p)); [cbn; by rewrite list_lookup_alter_eq, Hp|].
    apply safe_bind, safe_wp, wp_modify. exact HR.
  - inv Hf. apply safe_wp, (wp_run_proc i p); try done. by apply HQ.
Qed.

(** The choices a pass over the entries [l] makes when the table is [ps]. *)
Definition picks (ps : list proc) (l : list nat) : list (nat * Z) :=
  omap (fun i => p ← ps !! i; if decide (p_state p = RUNNABLE) then Some (i, p_priority p) else None) l.

Lemma wp_rr_skip i p s e Q :
  (i < NPROC)%nat -> k_procs s !! i = Some p -> p_state p <> RUNNABLE -> sched_ready s ->
  Q None (World (settle s) e) -> wp (rr_visit i) Q (World s e).
Proof.
  intros Hi Hp Hrun Hr HQ. unfold rr_visit.
  apply wp_bind, wp_acquire; [by apply Hr|]. apply wp_bind, (wp_proc_at i p); [done|].
  rewrite bool_decide_eq_false_2 by done. unfold when. wp_steps.
  apply wp_bind, (wp_release_crit (L_proc i) id); [inert_tac|apply Hr|by apply Hr|]. by wp_steps.
Qed.

Lemma wp_rr_visit i p f s e Q :
  (i < NPROC)%nat -> k_procs s !! i = Some p -> p_state p = RUNNABLE -> sched_ready s -> run_ok f ->
  (forall s', sched_ready s' -> k_dispatched s' = (i, p_priority p) :: k_dispatched s ->
     k_procs s' = k_procs (f (handover i p s)) -> Q None (World s' e)) ->
  wp (rr_visit i) Q (World s (f :: e)).
Proof.
  intros Hi Hp Hrun Hr Hf HQ. unfold rr_visit.
  apply wp_bind, wp_acquire; [by apply Hr|]. apply wp_bind, (wp_proc_at i p); [done|].
  rewrite bool_decide_eq_true_2 by done. unfold when. apply wp_bind, wp_bind. cbn [st env].
  apply (wp_run_proc i p); [done..|]. intros Hd Hlog. unfold modify_cpu. wp_steps. cbn [st env].
  apply wp_bind, (wp_release_back i); [by apply dispatching_cpu|].
  intros Hr'. wp_steps. apply HQ; [exact Hr'|exact Hlog|done].
Qed.

(** A run for the witnesses: the process goes to sleep and switches back. *)
Definition run_sleep (s : kst) : kst :=
  match c_proc (k_cpu s) with
  | Some i => set_k_procs (alter (set_p_state SLEEPING) i (k_procs s)) s
  | None => s
  end.

Lemma run_sleep_ok : run_ok run_sleep.
Proof.
  intros i s Hc (H1 & H2 & H3 & H4 & H5 & H6). unfold run_sleep. rewrite Hc. unfold dispatching, prios_nonneg. cbn.
  rewrite length_alter. split_and!; try done. apply Forall_alter; [exact H5|]. intros q _ Hq. exact Hq.
Qed.

Lemma run_sleep_alone : run_alone run_sleep.
Proof. intros i s j Hc Hne. unfold run_sleep. rewrite Hc. cbn. by rewrite list_lookup_alter_ne. Qed.

(** Entries 0 and 2 are RUNNABLE (priorities 1 and 0), entry 1 sleeps. *)
Definition kst_ready : kst :=
  set_k_procs (table_of [proc_in RUNNABLE 1 1; proc_in SLEEPING 2 0; proc_in RUNNABLE 3 0]) kst0.

Lemma kst_ready_ok : sched_ready kst_ready.
Proof.
  assert (forallb (fun p => 0 <=? p_priority p) (k_procs kst_ready) = true) as Hp by (vm_compute; reflexivity).
  split; [split; cbn; lia|]. split; [done|]. split; [done|]. split; [|done]. apply Forall_forall. intros p Hin.
  rewrite forallb_forall in Hp. specialize (Hp p Hin). lia.
Qed.

#[local] Opaque NPROC.



(** Since the call began, only priority-0 processes have been dispatched. *)
Definition log_high (d0 : list (nat * Z)) (w : world kst) : Prop :=
  exists hi, k_dispatched (st w) = hi ++ d0 /\ Forall (fun x => snd x = 0) hi.

(** ... first priority-0 processes, then only low-priority ones (the history
    has the latest first). *)
Definition log_high_low (d0 : list (nat * Z)) (w : world kst) : Prop :=
  exists lo hi, k_dispatched (st w) = lo ++ hi ++ d0 /\
    Forall (fun x => snd x = 0) hi /\ Forall (fun x => 0 < snd x) lo.

Lemma log_high_weaken d0 w : log_high d0 w -> log_high_low d0 w.
Proof. intros (hi & H & Hhi). exists [], hi. by split_and!. Qed.

Lemma log_high_cons d0 s i x : x = 0 -> log_high d0 (World s []) -> forall s' e,
  k_dispatched s' = (i, x) :: k_dispatched s -> log_high d0 (World s' e).
Proof. intros -> (hi & H & Hhi) s' e Hs'. exists ((i, 0) :: hi). cbn in *. rewrite Hs', H. split; [done|by constructor]. Qed.

Lemma log_low_cons d0 s i x : 0 < x -> log_high_low d0 (World s []) -> forall s' e,
  k_dispatched s' = (i, x) :: k_dispatched s -> log_high_low d0 (World s' e).
Proof.
  intros Hx (lo & hi & H & Hhi & Hlo) s' e Hs'. exists ((i, x) :: lo), hi. cbn in *. rewrite Hs', H.
  split_and!; [done|done|by constructor].
Qed.

Lemma prio_nonneg_at s i p : sched_ready s -> k_procs s !! i = Some p -> 0 <= p_priority p.
Proof. intros (_ & _ & _ & Hpr & _) Hp. exact (Forall_lookup_1 _ _ _ _ Hpr Hp). Qed.

Lemma ready_lookup s i : sched_ready s -> (i < NPROC)%nat -> exists p, k_procs s !! i = Some p.
Proof. intros (_ & _ & Hl & _) Hi. apply lookup_lt_is_Some_2. lia. Qed.

(** One pass of the high-priority loop. *)
Lemma mlfq_high_pass_safe d0 todo ha w :
  Forall (fun i => i < NPROC)%nat todo -> sched_ready (st w) -> Forall run_ok (env w) -> log_high d0 w ->
  safe (mlfq_high_pass todo ha)
    (fun r w' => sched_ready (st w') /\ Forall run_ok (env w') /\ log_high d0 w' /\
       (length (env w') <= length (env w))%nat /\
       (r = Some true -> ha = true \/ (length (env w') < length (env w))%nat))
    (log_high_low d0) w.
Proof.
  revert ha w. induction todo as [|i todo IH]; intros ha [s e] Hin Hr He Hlog; cbn [mlfq_high_pass st env] in *.
  { apply safe_wp, wp_ret. split_and!; try done. intros [=]. by left. }
  inv Hin. destruct (ready_lookup s i Hr) as [p Hp]; [done|].
  apply safe_bind, safe_wp, wp_acquire; [by apply Hr|]. apply safe_bind, safe_wp, (wp_proc_at i p); [done|].
  assert (Hskip : safe (release (L_proc i);; mlfq_high_pass todo ha)
    (fun r w' => sched_ready (st w') /\ Forall run_ok (env w') /\ log_high d0 w' /\
       (length (env w') <= length e)%nat /\ (r = Some true -> ha = true \/ (length (env w') < length e)%nat))
    (log_high_low d0) (World (acquired (L_proc i) s) e)).
  { apply safe_bind, safe_wp, (wp_release_crit (L_proc i) id); [inert_tac|apply Hr|by apply Hr|].
    exact (IH ha (World (settle s) e) ltac:(done) Hr He Hlog). }
  case_if; [exact Hskip|]. case_bool_decide; [|exact Hskip].
  pose proof (prio_nonneg_at s i p Hr Hp). assert (p_priority p = 0) as Hz by lia.
  cbn [st env]. apply safe_bind. apply (safe_run_proc i p); [done..| |].
  - intros f e' -> Hd Hlog'. inv He. apply safe_bind, safe_wp, wp_gets. case_bool_decide.
    + apply safe_bind, safe_wp, (wp_release_back i); [done|]. intros Hr'. apply safe_wp, wp_ret.
      split_and!; try done; [|simpl; lia]. by eapply (log_high_cons d0 s).
    + unfold modify_cpu. apply safe_bind, safe_wp, wp_modify. cbn [st env].
      apply safe_bind, safe_wp, (wp_release_back i); [by apply dispatching_cpu|]. intros Hr'.
      eapply safe_mono; [apply IH; [done|exact Hr'|done|by eapply (log_high_cons d0 s)]| |done].
      intros r w' (H1' & H2' & H3' & H4' & H5'). cbn [env] in *. split_and!; try done; simpl; [lia|]. intros _. lia.
  - apply log_high_weaken. by eapply (log_high_cons d0 s).
Qed.

(** The high-priority loop never runs out of fuel: each repetition consumed an
    action of the environment. *)
Lemma mlfq_high_safe d0 fuel w :
  (length (env w) < fuel)%nat -> sched_ready (st w) -> Forall run_ok (env w) -> log_high d0 w ->
  safe (mlfq_high fuel)
    (fun _ w' => sched_ready (st w') /\ Forall run_ok (env w') /\ log_high d0 w') (log_high_low d0) w.
Proof.
  revert w. induction fuel as [|fuel IH]; intros w Hf Hr He Hlog; [lia|]. cbn [mlfq_high].
  apply safe_bind. eapply safe_mono; [apply (mlfq_high_pass_safe d0); [|done..]| |done].
  { apply Forall_seq. intros i Hi. lia. }
  intros [[|]|] w' (H1 & H2 & H3 & H4 & H5); [|by apply safe_wp, wp_ret..].
  apply IH; [|done..]. destruct (H5 eq_refl); [done|lia].
Qed.



#[local] Transparent NPROC.

(** [schedset] with an id the table does not have reads outside
    [available_schedulers]. *)
Lemma schedset_out_of_range id w : -2147483648 < id < 2147483648 -> id <> 1 -> id <> 2 ->
  exists msg, schedset id w = Fault msg.
Proof.
  intros Hr H1 H2. unfold schedset. rewrite s32_small by lia. case_if; [by eexists|].
  unfold nth_or_fault. rewrite (lookup_ge_None_2 available_schedulers) by (simpl; lia). by eexists.
Qed.
