(* ===== verification/Sleeplock.v ===== *)
(** * kernel/sleeplock.c: sleep locks

    The four routines as one process executes them on one hart, and
    [acquiresleep]/[releasesleep], with the [sleep]/[wakeup] they call, as a
    transition system of several processes that interleave at every lock
    operation.  The latter shows mutual exclusion and that no wake-up is lost. *)

From S2P Require Import Prelude State Spinlock Norm Sched.

Definition sleep_unlocked : sleeplock := mksleep 0 0.

Definition sleeplock_of (l : sleepid) (s : kst) : sleeplock := default sleep_unlocked (k_sleeplocks s !! l).

(** Storing the initial value in a sleep lock removes it from the map. *)
Definition set_sleeplock (l : sleepid) (x : sleeplock) (s : kst) : kst :=
  set_k_sleeplocks (if (sl_locked x =? 0) && (sl_pid x =? 0)
                    then delete l (k_sleeplocks s) else <[l := x]> (k_sleeplocks s)) s.

Definition initsleeplock (l : sleepid) : K unit :=
  initlock (L_sleep l);;
  modify (fun s => set_sleeplock l (mksleep 0 (sl_pid (sleeplock_of l s))) s);;
  modify (fun s => set_sleeplock l (mksleep (sl_locked (sleeplock_of l s)) 0) s).

(** [while (lk->locked) sleep(lk, &lk->lk);]: every sleep uses up an action of
    the environment. *)
Fixpoint acquiresleep_loop (l : sleepid) (fuel : nat) : K unit :=
  match fuel with
  | O => fault "acquiresleep: out of fuel"
  | S fuel =>
      lk ← gets (sleeplock_of l);
      if sl_locked lk =? 0 then mret tt else
      sleep (Ch_sleeplock l) (L_sleep l);;
      acquiresleep_loop l fuel
  end.

Definition acquiresleep (l : sleepid) : K unit :=
  acquire (L_sleep l);;
  env_fuel (acquiresleep_loop l);;
  modify (fun s => set_sleeplock l (mksleep 1 (sl_pid (sleeplock_of l s))) s);;
  i ← this_proc;
  p ← proc_at i;
  modify (fun s => set_sleeplock l (mksleep (sl_locked (sleeplock_of l s)) (p_pid p)) s);;
  release (L_sleep l).

Definition releasesleep (l : sleepid) : K unit :=
  acquire (L_sleep l);;
  modify (fun s => set_sleeplock l (mksleep 0 (sl_pid (sleeplock_of l s))) s);;
  modify (fun s => set_sleeplock l (mksleep (sl_locked (sleeplock_of l s)) 0) s);;
  wakeup (Ch_sleeplock l);;
  release (L_sleep l).

Definition holdingsleep (l : sleepid) : K bool :=
  acquire (L_sleep l);;
  lk ← gets (sleeplock_of l);
  r ← (if sl_locked lk =? 0 then mret false else
       i ← this_proc; p ← proc_at i; mret (sl_pid lk =? p_pid p));
  release (L_sleep l);;
  mret r.

(** ** Several processes

    [spc] is where a process stands in [acquiresleep]/[releasesleep] of one
    lock.  The spinlock [lk->lk] and the processes' [p->lock]s are held across
    the points where the code holds them; each rule is the work between two lock
    operations (lines of sleeplock.c, or of proc.c where marked "proc"). *)

Inductive spc : Set :=
| Out             (* does not want the lock *)
| Acq             (* 24, or proc 765: about to acquire lk->lk *)
| Loop            (* 25: holds lk->lk, tests lk->locked *)
| SlpAcq          (* proc 751: about to acquire p->lock *)
| SlpRel          (* proc 752: about to release lk->lk *)
| SlpSet          (* proc 755-758: marks itself SLEEPING, gives p->lock up in sched *)
| Sleeps          (* SLEEPING on lk *)
| Woken           (* RUNNABLE: the scheduler has to take p->lock to run it *)
| Resume          (* proc 761-764: runs again, about to release p->lock *)
| Take            (* 28-30 *)
| Hold            (* between acquiresleep and releasesleep *)
| RelAcq          (* 36 *)
| RelClr          (* 37-38 *)
| Wk (i : nat)    (* 39, proc 774: wakeup is about to look at proc[i] *)
| WkIn (i : nat)  (* proc 779: holds proc[i].lock *)
| RelDone.        (* 40 *)

Record slsys := mksl {
  z_lock : sleeplock;
  z_lk : option nat;            (* process that holds lk->lk *)
  z_plock : nat -> option nat;  (* process that holds proc[i].lock (a scheduler counts for the process it runs) *)
  z_pc : nat -> spc
}.

Definition fset {A} (i : nat) (x : A) (f : nat -> A) : nat -> A :=
  fun j => if decide (j = i) then x else f j.

(** [NP] processes with pids [pid_of]. *)
Section SleepSystem.
Context (NP : nat) (pid_of : nat -> Z).

Definition slp_step (p : nat) (s : slsys) : slsys :=
  let go c := mksl (z_lock s) (z_lk s) (z_plock s) (fset p c (z_pc s)) in
  match z_pc s p with
  | Out => go Acq
  | Acq => if z_lk s is Some _ then s
           else mksl (z_lock s) (Some p) (z_plock s) (fset p Loop (z_pc s))
  | Loop => go (if sl_locked (z_lock s) =? 0 then Take else SlpAcq)
  | SlpAcq => if z_plock s p is Some _ then s
              else mksl (z_lock s) (z_lk s) (fset p (Some p) (z_plock s)) (fset p SlpRel (z_pc s))
  | SlpRel => mksl (z_lock s) None (z_plock s) (fset p SlpSet (z_pc s))
  | SlpSet => mksl (z_lock s) (z_lk s) (fset p None (z_plock s)) (fset p Sleeps (z_pc s))
  | Sleeps => s
  | Woken => if z_plock s p is Some _ then s
             else mksl (z_lock s) (z_lk s) (fset p (Some p) (z_plock s)) (fset p Resume (z_pc s))
  | Resume => mksl (z_lock s) (z_lk s) (fset p None (z_plock s)) (fset p Acq (z_pc s))
  | Take => mksl (mksleep 1 (pid_of p)) None (z_plock s) (fset p Hold (z_pc s))
  | Hold => go RelAcq
  | RelAcq => if z_lk s is Some _ then s
              else mksl (z_lock s) (Some p) (z_plock s) (fset p RelClr (z_pc s))
  | RelClr => mksl (mksleep 0 0) (z_lk s) (z_plock s) (fset p (Wk 0) (z_pc s))
  | Wk i => if decide (i = NP) then go RelDone
            else if decide (i = p) then go (Wk (S i))
            else if z_plock s i is Some _ then s
            else mksl (z_lock s) (z_lk s) (fset i (Some p) (z_plock s)) (fset p (WkIn i) (z_pc s))
  | WkIn i => let pcs := match z_pc s i with Sleeps => fset i Woken (z_pc s) | _ => z_pc s end in
              mksl (z_lock s) (z_lk s) (fset i None (z_plock s)) (fset p (Wk (S i)) pcs)
  | RelDone => mksl (z_lock s) None (z_plock s) (fset p Out (z_pc s))
  end.

Inductive slp_reach : slsys -> Prop :=
| slp_init : slp_reach (mksl sleep_unlocked None (fun _ => None) (fun _ => Out))
| slp_next s p : (p < NP)%nat -> slp_reach s -> slp_reach (slp_step p s).

(** What a position in the code holds. *)
Definition has_lk (c : spc) : bool :=
  match c with Loop | SlpAcq | SlpRel | Take | RelClr | Wk _ | WkIn _ | RelDone => true | _ => false end.
Definition has_plock (p : nat) (c : spc) (q : nat) : bool :=
  match c with
  | SlpRel | SlpSet | Resume => bool_decide (p = q)
  | WkIn i => bool_decide (i = q)
  | _ => false
  end.
Definition has_sleeplock (c : spc) : bool :=
  match c with Hold | RelAcq | RelClr => true | _ => false end.

(** [p] is in a [wakeup] that has still to look at [q]. *)
Definition will_wake (c : spc) (q : nat) : Prop :=
  match c with Wk i | WkIn i => (i <= q)%nat | _ => False end.

Definition committed (c : spc) : bool := match c with SlpSet | Sleeps => true | _ => false end.
Definition deciding (c : spc) : bool := match c with SlpAcq | SlpRel => true | _ => false end.

Record slp_inv (o : option nat) (s : slsys) : Prop := {
  inv_lk : forall p, has_lk (z_pc s p) = bool_decide (z_lk s = Some p);
  inv_plock : forall p q, has_plock p (z_pc s p) q = bool_decide (z_plock s q = Some p);
  inv_owner : forall p, has_sleeplock (z_pc s p) = bool_decide (o = Some p);
  inv_lock : z_lock s = (if o is Some p then mksleep 1 (pid_of p) else mksleep 0 0);
  inv_scan : forall p, match z_pc s p with Wk i => (i <= NP)%nat | WkIn i => (i < NP)%nat | _ => True end;
  inv_take : forall p, z_pc s p = Take -> o = None;
  inv_deciding : forall q, deciding (z_pc s q) = true -> o <> None;
  inv_wake : forall q, (q < NP)%nat -> committed (z_pc s q) = true -> o = None -> exists p, will_wake (z_pc s p) q
}.

Ltac slp_split :=
  repeat match goal with
  | |- context [@decide ?P ?D] => destruct (@decide P D)
  | |- context [@bool_decide ?P ?D] => destruct (@bool_decide_reflect P D)
  end; subst; simplify_eq/=; try done; try congruence; try lia.

(** A token [o] held by the processes at the positions [h]: a step that moves
    [p] to [c] and hands the token over accordingly. *)
Lemma move_token (h : nat -> spc -> bool) pcs (o o' : option nat) p c :
  (forall x, h x (pcs x) = bool_decide (o = Some x)) ->
  o' = (if h p c then Some p else if h p (pcs p) then None else o) ->
  (h p c = true -> h p (pcs p) = true \/ o = None) ->
  forall x, h x (fset p c pcs x) = bool_decide (o' = Some x).
Proof.
  intros I -> Hc x. unfold fset. pose proof (I x) as Hx. pose proof (I p) as Hp.
  destruct (decide (x = p)) as [->|Hne].
  - destruct (h p c); [slp_split|]. destruct (h p (pcs p)); [slp_split|]. by rewrite <- Hp.
  - rewrite Hx. destruct (h p c), (h p (pcs p)); symmetry in Hp; bool_facts; slp_split.
    destruct Hc; congruence.
Qed.

(** A step of [p] to [c] that hands over what it holds. *)
Lemma slp_inv_move o o' s p c lock' lk' plock' :
  slp_inv o s ->
  lk' = (if has_lk c then Some p else if has_lk (z_pc s p) then None else z_lk s) ->
  (has_lk c = true -> has_lk (z_pc s p) = true \/ z_lk s = None) ->
  (forall q, plock' q = (if has_plock p c q then Some p else if has_plock p (z_pc s p) q then None else z_plock s q)) ->
  (forall q, has_plock p c q = true -> has_plock p (z_pc s p) q = true \/ z_plock s q = None) ->
  o' = (if has_sleeplock c then Some p else if has_sleeplock (z_pc s p) then None else o) ->
  (has_sleeplock c = true -> has_sleeplock (z_pc s p) = true \/ o = None) ->
  lock' = (if o' is Some p then mksleep 1 (pid_of p) else mksleep 0 0) ->
  match c with Wk i => (i <= NP)%nat | WkIn i => (i < NP)%nat | _ => True end ->
  (c = Take -> o' = None) -> (deciding c = true -> o' <> None) ->
  (o' = o \/ has_lk (z_pc s p) = true) ->
  ((p < NP)%nat -> committed c = true -> o' = None -> exists r, r <> p /\ will_wake (z_pc s r) p) ->
  (forall q, q <> p -> (q < NP)%nat -> committed (z_pc s q) = true -> o' = None ->
     will_wake c q \/ (o = None /\ ~ will_wake (z_pc s p) q)) ->
  slp_inv o' (mksl lock' lk' plock' (fset p c (z_pc s))).
Proof.
  intros I Hlk Hlk1 Hpl Hpl1 Ho Ho1 Hl Hscan Htake Hdec Hsame Hself Hwake.
  assert (Hother : forall x, x <> p -> has_lk (z_pc s x) = true -> o' = o).
  { intros x Hne Hx. destruct Hsame as [|Hp]; [done|]. rewrite (inv_lk _ _ I) in Hx, Hp. bool_facts. congruence. }
  constructor; cbn [z_lock z_lk z_plock z_pc].
  - apply (move_token (fun _ => has_lk) _ (z_lk s)); [apply (inv_lk _ _ I)|done..].
  - intros x q. revert x.
    apply (move_token (fun x c => has_plock x c q) _ (z_plock s q)); [intros; apply (inv_plock _ _ I)|done|auto].
  - apply (move_token (fun _ => has_sleeplock) _ o); [apply (inv_owner _ _ I)|done..].
  - done.
  - intros x. unfold fset. destruct (decide (x = p)); [done|apply (inv_scan _ _ I)].
  - intros x. unfold fset. destruct (decide (x = p)); [auto|]. intros Hx.
    rewrite (Hother x) by (done || by rewrite Hx). by apply (inv_take _ _ I x).
  - intros x. unfold fset. destruct (decide (x = p)); [auto|]. intros Hx.
    rewrite (Hother x) by (done || by destruct (z_pc s x)). by apply (inv_deciding _ _ I x).
  - intros q Hq. unfold fset at 1. destruct (decide (q = p)) as [->|Hne]; intros Hc Ho'.
    + destruct Hself as (r & Hr & Hw); [done..|]. exists r. unfold fset. by rewrite decide_False.
    + destruct (Hwake q) as [Hw|[Hn Hw]]; [done..| |].
      * exists p. unfold fset. by rewrite decide_True.
      * destruct (inv_wake _ _ I q) as [r Hr]; [done..|].
        exists r. unfold fset. destruct (decide (r = p)) as [->|]; [done|done].
Qed.

(** [wakeup] turns a sleeper into a runnable process. *)
Lemma slp_inv_woken o s i : slp_inv o s -> z_pc s i = Sleeps ->
  slp_inv o (mksl (z_lock s) (z_lk s) (z_plock s) (fset i Woken (z_pc s))).
Proof.
  intros I Hi. pose proof (inv_lk _ _ I i) as Hlk. pose proof (inv_lock _ _ I).
  apply (slp_inv_move o o); rewrite ?Hi; cbn; try done; auto.
Qed.

(** The side conditions of [slp_inv_move] that evaluate. *)
Ltac slp_side :=
  cbn [has_lk has_plock has_sleeplock committed deciding will_wake]; try done; auto; try lia;
  try (intros q; unfold fset; slp_split; by auto).

(** [wakeup] finishes with [proc[i]]: nobody can be about to sleep there, since
    that process would hold its own lock. *)
Lemma slp_inv_wakeup_one o s p i : slp_inv o s -> z_pc s p = WkIn i ->
  slp_inv o (mksl (z_lock s) (z_lk s) (fset i None (z_plock s))
    (fset p (Wk (S i)) (match z_pc s i with Sleeps => fset i Woken (z_pc s) | _ => z_pc s end))).
Proof.
  intros I Hpc.
  assert (Hrest : forall s1, slp_inv o s1 -> z_pc s1 p = WkIn i -> z_pc s1 i <> Sleeps ->
    slp_inv o (mksl (z_lock s1) (z_lk s1) (fset i None (z_plock s1)) (fset p (Wk (S i)) (z_pc s1)))).
  { intros s1 I1 Hpc1 Hi. pose proof (inv_lk _ _ I1 p) as Ilk. pose proof (inv_lock _ _ I1) as Ilock.
    pose proof (inv_plock _ _ I1 p i) as Ipl. pose proof (inv_plock _ _ I1 i i) as Ipi.
    pose proof (inv_scan _ _ I1 p) as Iscan. rewrite Hpc1 in Ilk, Ipl, Iscan. cbn in *.
    rewrite (bool_decide_eq_true_2 (i = i)) in Ipl by done. symmetry in Ilk, Ipl. bool_facts.
    apply (slp_inv_move o o); rewrite ?Hpc1; slp_side.
    intros q Hq _ Hc Ho. destruct (decide (i = q)) as [->|].
    - destruct (z_pc s1 q) eqn:Eq; try done. cbn in Ipi. rewrite bool_decide_eq_true_2 in Ipi by done.
      symmetry in Ipi. bool_facts. congruence.
    - destruct (decide (i <= q)%nat); [left; lia|auto]. }
  destruct (z_pc s i) eqn:Ei; try (apply Hrest; [done|done|congruence]).
  apply (Hrest (mksl (z_lock s) (z_lk s) (z_plock s) (fset i Woken (z_pc s)))).
  - by apply slp_inv_woken.
  - cbn. unfold fset. rewrite decide_False by (intros ->; congruence). done.
  - cbn. unfold fset. by rewrite decide_True.
Qed.

Lemma slp_inv_step o s p : (p < NP)%nat -> slp_inv o s -> exists o', slp_inv o' (slp_step p s).
Proof.
  intros Hp I. pose proof (inv_lk _ _ I p) as Ilk. pose proof (inv_plock _ _ I p) as Ipl.
  pose proof (inv_owner _ _ I p) as Iow. pose proof (inv_lock _ _ I) as Ilock.
  pose proof (inv_scan _ _ I p) as Iscan. pose proof (inv_take _ _ I p) as Itake.
  pose proof (inv_deciding _ _ I p) as Idec. pose proof (inv_wake _ _ I p) as Iwake.
  unfold slp_step.
  destruct (z_pc s p) as [| | | | | | | | | | | | |i|i|] eqn:Hpc; cbn in *; symmetry in Ilk, Iow.
  - exists o. apply (slp_inv_move o o); rewrite ?Hpc; slp_side.
  - destruct (z_lk s) eqn:E; [by exists o|].
    exists o. apply (slp_inv_move o o); rewrite ?Hpc; slp_side.
  - exists o. bool_facts. rewrite Ilock. destruct o; cbn; apply (slp_inv_move _ _ _ _ _ _ _ _ I); rewrite ?Hpc; slp_side.
  - destruct (z_plock s p) eqn:E; [by exists o|]. bool_facts.
    exists o. apply (slp_inv_move o o); rewrite ?Hpc; slp_side.
  - exists o. bool_facts. specialize (Ipl p). symmetry in Ipl. rewrite (bool_decide_eq_true_2 (p = p)) in Ipl by done.
    bool_facts. apply (slp_inv_move o o); rewrite ?Hpc; slp_side. intros _ _ Ho. by destruct (Idec eq_refl Ho).
  - exists o. apply (slp_inv_move o o); rewrite ?Hpc; slp_side.
    intros _ _ Ho. destruct Iwake as [r Hr]; [done..|]. exists r. split; [by intros ->; rewrite Hpc in Hr|done].
  - by exists o.
  - destruct (z_plock s p) eqn:E; [by exists o|].
    exists o. apply (slp_inv_move o o); rewrite ?Hpc; slp_side.
  - exists o. apply (slp_inv_move o o); rewrite ?Hpc; slp_side.
  - exists (Some p). bool_facts. rewrite Itake in * by done. apply (slp_inv_move None); rewrite ?Hpc; slp_side.
  - exists o. bool_facts. apply (slp_inv_move o o); rewrite ?Hpc; slp_side.
  - destruct (z_lk s) eqn:E; [by exists o|]. bool_facts.
    exists o. apply (slp_inv_move o o); rewrite ?Hpc; slp_side.
  - exists None. bool_facts. apply (slp_inv_move o); rewrite ?Hpc; slp_side.
  - exists o. bool_facts. destruct (decide (i = NP)); [|destruct (decide (i = p)) as [->|]].
    + apply (slp_inv_move o o); rewrite ?Hpc; slp_side. intros; right; split; [done|lia].
    + apply (slp_inv_move o o); rewrite ?Hpc; slp_side.
      intros q Hq _ _ Ho. destruct (decide (p <= q)%nat); [left; lia|right; split; [done|lia]].
    + destruct (z_plock s i) eqn:E; [done|]. apply (slp_inv_move o o); rewrite ?Hpc; slp_side.
      intros q _ _ _ Ho. destruct (decide (i <= q)%nat); auto.
  - exists o. by apply slp_inv_wakeup_one.
  - exists o. bool_facts. apply (slp_inv_move o o); rewrite ?Hpc; slp_side.
Qed.

Lemma slp_reach_inv s : slp_reach s -> exists o, slp_inv o s.
Proof.
  induction 1 as [|s p Hp _ [o IH]]; [|by eapply slp_inv_step].
  exists None. constructor; cbn; intros; try done; by rewrite bool_decide_eq_false_2.
Qed.

End SleepSystem.

(** ** One process *)

Lemma settle_crit l d s : inert d -> intr_ok s -> settle (d (acquired l s)) = d (acquired l s).
Proof.
  intros Hd [Hn _]. apply settle_id. destruct (Hd (acquired l s)) as (_ & _ & -> & _). cbn. lia.
Qed.

Lemma settle_acquired l s : intr_ok s -> settle (acquired l s) = acquired l s.
Proof. apply (settle_crit l id). inert_tac. Qed.

Lemma intr_ok_crit l d s : inert d -> intr_ok s -> intr_ok (d (acquired l s)).
Proof.
  intros Hd [Hn Hi]. destruct (Hd (acquired l s)) as (_ & _ & H1 & H2 & _). unfold intr_ok. rewrite H1, H2. cbn.
  split; [lia|done].
Qed.

Lemma set_sleeplock_free l s : set_sleeplock l (mksleep 0 0) s = set_k_sleeplocks (delete l (k_sleeplocks s)) s.
Proof. done. Qed.
Lemma set_sleeplock_taken l pid s :
  set_sleeplock l (mksleep 1 pid) s = set_k_sleeplocks (<[l := mksleep 1 pid]> (k_sleeplocks s)) s.
Proof. done. Qed.

(** [acquiresleep] of a free lock takes it for the current process. *)
Lemma wp_acquiresleep l i p Q w :
  intr_ok (st w) -> lock_free (L_sleep l) (st w) -> k_sleeplocks (st w) !! l = None ->
  c_proc (k_cpu (st w)) = Some i -> k_procs (st w) !! i = Some p ->
  Q tt (World (set_k_sleeplocks (<[l := mksleep 1 (p_pid p)]> (k_sleeplocks (st w))) (settle (st w))) (env w)) ->
  wp (acquiresleep l) Q w.
Proof.
  intros Hi Hlf Hsf Hc Hp HQ. unfold acquiresleep.
  apply wp_bind, wp_acquire; [done|]. apply wp_bind, wp_env_fuel. cbn [acquiresleep_loop].
  apply wp_bind, wp_gets. unfold sleeplock_of at 1. cbn [st k_sleeplocks acquired set_k_locks].
  change (k_sleeplocks (enter (st w))) with (k_sleeplocks (st w)). rewrite Hsf. cbn [default].
  apply wp_ret. apply wp_bind, wp_modify. cbn [st env]. rewrite set_sleeplock_taken.
  apply wp_bind, (wp_this_proc i); cbn [st env].
  { by apply (intr_ok_crit _ (set_k_sleeplocks _)); [inert_tac|]. }
  { exact Hc. }
  rewrite (settle_crit _ (set_k_sleeplocks _)) by (inert_tac || done).
  apply wp_bind, (wp_proc_at i p); [exact Hp|]. apply wp_bind, wp_modify. cbn [st env].
  unfold sleeplock_of. cbn [k_sleeplocks set_k_sleeplocks]. rewrite lookup_insert_eq. cbn [default sl_locked].
  rewrite set_sleeplock_taken. cbn [k_sleeplocks set_k_sleeplocks]. rewrite insert_insert_eq.
  by apply (wp_release_crit (L_sleep l) (set_k_sleeplocks _)); [inert_tac|..].
Qed.

(** [releasesleep] frees the lock and wakes the processes that wait for it. *)
Lemma wp_releasesleep l Q w :
  intr_ok (st w) -> lock_free (L_sleep l) (st w) -> length (k_procs (st w)) = NPROC -> proc_locks_free (st w) ->
  Q tt (World (set_k_procs (woken (Ch_sleeplock l) (c_proc (k_cpu (st w))) (k_procs (st w)))
         (set_k_sleeplocks (delete l (k_sleeplocks (st w))) (settle (st w)))) (env w)) ->
  wp (releasesleep l) Q w.
Proof.
  intros Hi Hlf Hlen Hpf HQ. unfold releasesleep.
  apply wp_bind, wp_acquire; [done|]. apply wp_bind, wp_modify. apply wp_bind, wp_modify. cbn [st env].
  assert (Hd : forall pid s, set_sleeplock l (mksleep (sl_locked (sleeplock_of l (set_sleeplock l (mksleep 0 pid) s))) 0)
            (set_sleeplock l (mksleep 0 pid) s) = set_k_sleeplocks (delete l (k_sleeplocks s)) s).
  { intros pid s. unfold set_sleeplock, sleeplock_of; cbn. destruct (pid =? 0); cbn.
    - rewrite lookup_delete_eq. cbn. by rewrite delete_delete_eq.
    - rewrite lookup_insert_eq. cbn. by rewrite delete_insert_eq. }
  rewrite Hd. apply wp_bind, wp_wakeup; cbn [st env].
  { by apply (intr_ok_crit _ (set_k_sleeplocks _)); [inert_tac|]. }
  { exact Hlen. }
  { intros i Hlt Hne. unfold lock_free. cbn. rewrite lookup_insert_ne by done. by apply Hpf. }
  rewrite (settle_crit _ (set_k_sleeplocks _)) by (inert_tac || done).
  by apply (wp_release_crit (L_sleep l) (fun s => set_k_procs _ (set_k_sleeplocks _ s))); [inert_tac|..].
Qed.

(** [holdingsleep] tells whether the current process has the lock. *)
Lemma wp_holdingsleep l i p Q w :
  intr_ok (st w) -> lock_free (L_sleep l) (st w) ->
  c_proc (k_cpu (st w)) = Some i -> k_procs (st w) !! i = Some p ->
  Q (negb (sl_locked (sleeplock_of l (st w)) =? 0) && (sl_pid (sleeplock_of l (st w)) =? p_pid p))
    (World (settle (st w)) (env w)) ->
  wp (holdingsleep l) Q w.
Proof.
  intros Hi Hlf Hc Hp HQ. unfold holdingsleep.
  apply wp_bind, wp_acquire; [done|]. apply wp_bind, wp_gets. cbn [st env].
  change (sleeplock_of l (acquired (L_sleep l) (st w))) with (sleeplock_of l (st w)).
  apply wp_bind. destruct (sl_locked (sleeplock_of l (st w)) =? 0); cbn [negb andb] in HQ.
  - apply wp_ret. apply wp_bind, (wp_release_crit (L_sleep l) id); [inert_tac|done..|]. by apply wp_ret.
  - apply wp_bind, (wp_this_proc i); cbn [st env]; [by apply (intr_ok_crit _ id); [inert_tac|]|exact Hc|].
    rewrite settle_acquired by done.
    apply wp_bind, (wp_proc_at i p); [exact Hp|]. apply wp_ret.
    apply wp_bind, (wp_release_crit (L_sleep l) id); [inert_tac|done..|]. by apply wp_ret.
Qed.

(** ** Up to scheduling noise

    Process [i] runs on the hart, interrupt nesting is sound and no spin lock is
    held: the situation in which system-call code runs outside its critical
    sections. *)

Definition calm (i : nat) (s : kst) : Prop :=
  intr_ok s /\ k_locks s = ∅ /\ c_proc (k_cpu s) = Some i /\ (i < NPROC)%nat /\ length (k_procs s) = NPROC /\
  c_noff (k_cpu s) = 0.

(** The pid of the process that runs on the hart. *)
Definition cur_pid (s : kst) : Z :=
  match c_proc (k_cpu s) with Some i => default 0 (p_pid <$> k_procs s !! i) | None => 0 end.

Lemma calm_norm i s : calm i (norm s) <-> calm i s.
Proof. unfold calm. cbn. by rewrite length_fmap. Qed.

Lemma calm_eq i s t : norm s = t -> calm i t -> calm i s.
Proof. intros <-. apply calm_norm. Qed.

Lemma cur_pid_norm s : cur_pid (norm s) = cur_pid s.
Proof.
  unfold cur_pid. cbn. destruct (c_proc (k_cpu s)) as [i|]; [|done]. rewrite list_lookup_fmap.
  by destruct (k_procs s !! i).
Qed.

Lemma calm_lock_free i l s : calm i s -> lock_free l s.
Proof. intros (_ & H & _). unfold lock_free. by rewrite H. Qed.

Lemma calm_proc_locks_free i s : calm i s -> proc_locks_free s.
Proof. intros Hc j _ _. by eapply calm_lock_free. Qed.

Lemma calm_proc i s : calm i s -> exists p, k_procs s !! i = Some p /\ p_pid p = cur_pid s.
Proof.
  intros (_ & _ & Hc & Hi & Hl). destruct (lookup_lt_is_Some_2 (k_procs s) i) as [p Hp]; [lia|].
  exists p. unfold cur_pid. by rewrite Hc, Hp.
Qed.

Lemma strip_woken ch me ps : strip <$> woken ch me ps = strip <$> ps.
Proof.
  unfold woken. apply list_eq. intros j. rewrite !list_lookup_fmap, list_lookup_imap.
  destruct (ps !! j) as [p|]; cbn; [|done]. case_decide; [done|]. unfold wake. by case_match.
Qed.

Lemma wp_wakeup_calm i ch Q w : calm i (st w) ->
  (forall s', norm s' = norm (st w) -> Q tt (World s' (env w))) -> wp (wakeup ch) Q w.
Proof.
  intros Hc HQ. apply wp_wakeup; [apply Hc|apply Hc|by eapply calm_proc_locks_free|]. apply HQ.
  rewrite norm_procs; [apply norm_settle|]. cbn. apply strip_woken.
Qed.

Lemma wp_acquiresleep_calm i l Q w : calm i (st w) -> k_sleeplocks (st w) !! l = None ->
  (forall s', norm s' = set_k_sleeplocks (<[l := mksleep 1 (cur_pid (st w))]> (k_sleeplocks (st w))) (norm (st w)) ->
     Q tt (World s' (env w))) -> wp (acquiresleep l) Q w.
Proof.
  intros Hc Hl HQ. destruct (calm_proc i (st w) Hc) as (p & Hp & Hpid).
  apply (wp_acquiresleep l i p); [apply Hc|by eapply calm_lock_free|done|apply Hc|done|]. apply HQ. rewrite Hpid.
  by rewrite <- (norm_settle (st w)).
Qed.

Lemma wp_releasesleep_calm i l Q w : calm i (st w) ->
  (forall s', norm s' = set_k_sleeplocks (delete l (k_sleeplocks (st w))) (norm (st w)) -> Q tt (World s' (env w))) ->
  wp (releasesleep l) Q w.
Proof.
  intros Hc HQ. apply wp_releasesleep; [apply Hc|by eapply calm_lock_free|apply Hc|by eapply calm_proc_locks_free|]. apply HQ.
  rewrite norm_procs; [|cbn; apply strip_woken].
  by rewrite <- (norm_settle (st w)).
Qed.

(** The current process holds the sleep lock. *)
Definition sleep_held (l : sleepid) (s : kst) : Prop := k_sleeplocks s !! l = Some (mksleep 1 (cur_pid s)).

Lemma wp_holdingsleep_calm i l Q w : calm i (st w) -> sleep_held l (st w) ->
  (forall s', norm s' = norm (st w) -> Q true (World s' (env w))) -> wp (holdingsleep l) Q w.
Proof.
  intros Hc Hh HQ. destruct (calm_proc i (st w) Hc) as (p & Hp & Hpid).
  apply (wp_holdingsleep l i p); [apply Hc|by eapply calm_lock_free|apply Hc|done|].
  unfold sleeplock_of. rewrite Hh. cbn [default sl_locked sl_pid]. rewrite Hpid, Z.eqb_refl. cbn. apply HQ, norm_settle.
Qed.

(** A critical section of [l] entered in a calm state, whose body updates the
    data by [d]. *)
Lemma wp_release_calm i l d s Q e : inert d -> calm i s ->
  Q tt (World (d (settle s)) e) -> wp (release l) Q (World (d (acquired l s)) e).
Proof. intros Hd Hc HQ. apply wp_release_crit; [done|apply Hc|by eapply calm_lock_free|done]. Qed.

(** ** Several processes *)

(** C17: however processes interleave in [acquiresleep] and [releasesleep], at
    most one is between them; the lock then records its pid, so that
    [holdingsleep] is true for exactly that process; and no wake-up is lost: a
    process that sleeps, or that has committed to sleeping, while the lock is
    free is still to be visited by a [wakeup] in progress. *)
Theorem sleeplock_correct NP pid_of s : slp_reach NP pid_of s ->
  (forall p q, z_pc s p = Hold -> z_pc s q = Hold -> p = q) /\
  (forall p, z_pc s p = Hold -> z_lock s = mksleep 1 (pid_of p)) /\
  (forall q, (q < NP)%nat -> committed (z_pc s q) = true -> sl_locked (z_lock s) = 0 ->
     exists p, will_wake (z_pc s p) q).
Proof.
  intros [o I]%slp_reach_inv.
  assert (forall p, z_pc s p = Hold -> o = Some p) as Ho.
  { intros p Hp. pose proof (inv_owner _ _ _ _ I p) as H. rewrite Hp in H. cbn in H. symmetry in H. by bool_facts. }
  split_and!.
  - intros p q Hp%Ho Hq%Ho. congruence.
  - intros p ->%Ho. apply (inv_lock _ _ _ _ I).
  - intros q Hq Hc Hl. apply (inv_wake _ _ _ _ I); [done..|].
    rewrite (inv_lock _ _ _ _ I) in Hl. by destruct o.
Qed.

(** Process 0 takes the lock, process 1 goes to sleep on it, process 0 clears it:
    the wake-up of process 1 is pending. *)
Definition slp_demo : slsys :=
  foldl (fun s p => slp_step 2 (fun i => i + 1) p s)
    (mksl sleep_unlocked None (fun _ => None) (fun _ => Out))
    [0; 0; 0; 0; 1; 1; 1; 1; 1; 1; 0; 0; 0]%nat.

Lemma sleeplock_correct_witness :
  z_pc slp_demo 1%nat = Sleeps /\ sl_locked (z_lock slp_demo) = 0 /\ exists p, will_wake (z_pc slp_demo p) 1.
Proof.
  assert (Hr : slp_reach 2 (fun i => i + 1) slp_demo).
  { unfold slp_demo. cbn [foldl]. repeat (apply slp_next; [lia|]). apply slp_init. }
  split; [reflexivity|]. split; [reflexivity|].
  apply (proj2 (proj2 (sleeplock_correct 2 (fun i => i + 1) slp_demo Hr)) 1%nat); [lia|vm_compute; reflexivity|vm_compute; reflexivity].
Defined.
