(* ===== verification/Kalloc.v ===== *)
(** * kernel/kalloc.c: the physical page allocator

    [kinit], [freerange], [kfree] and [kalloc] on the bytes of physical memory:
    the free list is threaded through the free pages themselves.  The theorems
    relate it to the abstract list of free pages. *)

From S2P Require Import Prelude State KString Spinlock.

Section Kalloc.
Context `{KernelImage}.

Definition kfree (pa : Z) : K unit :=
  if negb (pa mod PGSIZE =? 0) || (pa <? kend) || (PHYSTOP <=? pa) then panic "kfree" else
  modify (fun s => set_k_mem (memset (k_mem s) pa 1 PGSIZE) s);;
  acquire L_kmem;;
  modify (fun s => set_k_mem (st64 (k_mem s) pa (k_freelist s)) s);;
  modify (set_k_freelist pa);;
  release L_kmem.

Definition kalloc : K Z :=
  acquire L_kmem;;
  r ← gets (fun s => k_freelist s);
  when (negb (r =? 0)) (modify (fun s => set_k_freelist (ld64 (k_mem s) r) s));;
  release L_kmem;;
  when (negb (r =? 0)) (modify (fun s => set_k_mem (memset (k_mem s) r 5 PGSIZE) s));;
  mret r.

Fixpoint freerange_loop (fuel : nat) (p pa_end : Z) : K unit :=
  match fuel with
  | O => fault "freerange: out of fuel"
  | S fuel =>
      if p + PGSIZE <=? pa_end then kfree p;; freerange_loop fuel (p + PGSIZE) pa_end
      else mret tt
  end.

Definition freerange (pa_start pa_end : Z) : K unit :=
  let p := PGROUNDUP pa_start in
  freerange_loop (S (Z.to_nat ((pa_end - p) / PGSIZE))) p pa_end.

Definition kinit : K unit :=
  initlock L_kmem;;
  freerange kend PHYSTOP.

(** ** The free list *)

(** A page the allocator manages. *)
Definition page_ok (a : Z) : Prop := a mod PGSIZE = 0 /\ kend <= a < PHYSTOP.

(** The list that starts at [head] in memory [m] is [l]. *)
Fixpoint fl_rep (m : gmap Z Z) (head : Z) (l : list Z) : Prop :=
  match l with
  | [] => head = 0
  | a :: l => head = a /\ page_ok a /\ fl_rep m (ld64 m a) l
  end.

Definition freelist_ok (m : gmap Z Z) (head : Z) (l : list Z) : Prop := fl_rep m head l /\ NoDup l.

Definition in_page (pg a : Z) : Prop := pg <= a < pg + PGSIZE.

(** What a use of the allocator changes: memory, the free list, and the saved
    interrupt flag. *)
Definition kmem_upd (m : gmap Z Z) (fl : Z) (s : kst) : kst := set_k_mem m (set_k_freelist fl (settle s)).

(** The allocator can be called: its lock is free and interrupt nesting is sound. *)
Definition kmem_ready (s : kst) : Prop := lock_free L_kmem s /\ intr_ok s.

Lemma kmem_ready_upd m fl s : kmem_ready s -> kmem_ready (kmem_upd m fl s).
Proof. done. Qed.

Lemma kmem_upd_upd m fl m' fl' s : kmem_upd m fl (kmem_upd m' fl' s) = kmem_upd m fl s.
Proof. unfold kmem_upd. unfold settle; cbn. by destruct (c_noff (k_cpu s) =? 0). Qed.

Lemma settle_kmem_upd m fl s : settle (kmem_upd m fl s) = kmem_upd m fl s.
Proof. unfold kmem_upd. unfold settle; cbn. by destruct (c_noff (k_cpu s) =? 0). Qed.

Lemma page_disjoint p q a : p mod PGSIZE = 0 -> q mod PGSIZE = 0 -> p <> q -> in_page p a -> ~ in_page q a.
Proof. unfold in_page, PGSIZE. intros Hp Hq Hne H1 H2. Z.div_mod_to_equations. lia. Qed.

Lemma page_ok_range `{!KernelImageOk} a : page_ok a -> 0 < a /\ a + PGSIZE <= PHYSTOP.
Proof.
  intros [Ha Hr]. pose proof kend_lo. unfold PHYSTOP, KERNBASE, PGSIZE in *. Z.div_mod_to_equations. lia.
Qed.

Lemma ld64_in_page m1 m2 pg a :
  (forall b, in_page pg b -> m1.[b] = m2.[b]) -> pg <= a -> a + 8 <= pg + PGSIZE -> ld64 m1 a = ld64 m2 a.
Proof. intros Hm H1 H2. apply ld64_ext. intros b Hb. apply Hm. unfold in_page. lia. Qed.

(** The list only depends on the bytes of its own pages. *)
Lemma fl_rep_ext m1 m2 head l :
  (forall p a, p ∈ l -> in_page p a -> m1.[a] = m2.[a]) -> fl_rep m1 head l -> fl_rep m2 head l.
Proof.
  revert head. induction l as [|p l IH]; intros head Hm; cbn; [done|]. intros (-> & Hp & Hl).
  split_and!; [done|done|]. rewrite <- (ld64_in_page m1 m2 p); [|intros; apply (Hm p); [set_solver|done]|lia|].
  - apply IH; [|done]. intros q a Hq. apply Hm. set_solver.
  - unfold PGSIZE. lia.
Qed.

Lemma fl_rep_ok m head l : fl_rep m head l -> Forall page_ok l.
Proof. revert head. induction l as [|p l IH]; intros head; cbn; [done|]. intros (_ & Hp & Hl). eauto. Qed.

Lemma memset_page m pg c a : (memset m pg c PGSIZE).[a] = if decide (in_page pg a) then c mod 256 else m.[a].
Proof. unfold in_page. by apply memset_spec. Qed.

Lemma settle_as_upd s : settle s = kmem_upd (k_mem s) (k_freelist s) s.
Proof. by destruct s. Qed.

(** [s'] differs from [s] only in memory, free list and the saved interrupt flag. *)
Definition kmem_rel (s s' : kst) : Prop := settle s' = kmem_upd (k_mem s') (k_freelist s') s.

#[export] Instance kmem_rel_refl : Reflexive kmem_rel.
Proof. intros s. apply settle_as_upd. Qed.
#[export] Instance kmem_rel_trans : Transitive kmem_rel.
Proof.
  unfold kmem_rel. intros s1 s2 s3 H12 ->. unfold kmem_upd at 1. rewrite H12. unfold kmem_upd.
  by destruct s1.
Qed.

Lemma kmem_rel_upd m fl s : kmem_rel s (kmem_upd m fl s).
Proof. apply settle_kmem_upd. Qed.
Lemma kmem_rel_mem m s s' : kmem_rel s s' -> kmem_rel s (set_k_mem m s').
Proof.
  unfold kmem_rel. intros Hs. change (settle (set_k_mem m s')) with (set_k_mem m (settle s')). by rewrite Hs.
Qed.
Lemma kmem_rel_ready s s' : kmem_rel s s' -> kmem_ready s -> kmem_ready s'.
Proof.
  unfold kmem_rel, kmem_ready, lock_free, intr_ok. intros Hs [H1 H2].
  pose proof (f_equal k_locks Hs) as Hl. pose proof (f_equal k_sie Hs) as Hi.
  pose proof (f_equal (fun s => c_noff (k_cpu s)) Hs) as Hn. cbn in Hl, Hi, Hn. by rewrite Hl, Hi, Hn.
Qed.

(** [kfree] of a page that is not free pushes it on the list and touches no
    other page. *)
Lemma wp_kfree `{!KernelImageOk} pa l Q w :
  kmem_ready (st w) -> freelist_ok (k_mem (st w)) (k_freelist (st w)) l -> page_ok pa -> pa ∉ l ->
  (forall m', freelist_ok m' pa (pa :: l) -> (forall a, ~ in_page pa a -> m'.[a] = (k_mem (st w)).[a]) ->
     Q tt (World (kmem_upd m' pa (st w)) (env w))) ->
  wp (kfree pa) Q w.
Proof.
  intros [Hlf Hi] [Hfl Hnd] Hpa Hnin HQ. unfold kfree. pose proof (page_ok_range pa Hpa) as [Hpos Hhi].
  destruct Hpa as [Hal Hr].
  destruct (negb (pa mod PGSIZE =? 0) || (pa <? kend) || (PHYSTOP <=? pa)) eqn:E.
  { exfalso. apply orb_true_iff in E as [E|E]; [apply orb_true_iff in E as [E|E]|]; bool_facts; lia. }
  apply wp_bind, wp_modify. cbn [st env].
  assert (Hm1 : forall a, ~ in_page pa a -> (memset (k_mem (st w)) pa 1 PGSIZE).[a] = (k_mem (st w)).[a]).
  { intros a Ha. rewrite memset_page. by rewrite decide_False. }
  generalize dependent (memset (k_mem (st w)) pa 1 PGSIZE). intros m1 Hm1.
  apply wp_bind, wp_acquire; [done|]. apply wp_bind, wp_modify. apply wp_bind, wp_modify. cbn [st env].
  apply (wp_release_crit L_kmem
    (fun s => set_k_freelist pa (set_k_mem (st64 m1 pa (k_freelist (st w))) s)) (set_k_mem m1 (st w)));
    [inert_tac|done|done|].
  set (m2 := st64 m1 pa (k_freelist (st w))).
  assert (Hm2 : forall a, ~ in_page pa a -> m2.[a] = (k_mem (st w)).[a]).
  { intros a Ha. unfold m2. rewrite st64_frame by (unfold in_page, PGSIZE in Ha; lia).
    by apply Hm1. }
  apply (HQ m2); [|done]. split; [|by constructor]. cbn. split_and!; [done|done|].
  assert (ld64 m2 pa = k_freelist (st w)) as ->.
  { unfold m2. apply ld64_st64. destruct l as [|q l]; cbn in Hfl; [lia|].
    destruct Hfl as (-> & Hq & _). pose proof (page_ok_range q Hq). unfold PHYSTOP, KERNBASE, PGSIZE in *. lia. }
  apply (fl_rep_ext (k_mem (st w))); [|done]. intros q a Hq Ha. symmetry. apply Hm2.
  apply fl_rep_ok in Hfl. rewrite list.Forall_forall in Hfl. destruct (Hfl q Hq) as [Hqa _].
  apply (page_disjoint q pa); [done|done|by intros ->|done].
Qed.

(** [kalloc] pops the first free page and fills it with junk, or returns 0 when
    there is none. *)
Lemma wp_kalloc `{!KernelImageOk} l Q w :
  kmem_ready (st w) -> freelist_ok (k_mem (st w)) (k_freelist (st w)) l ->
  match l with
  | [] => Q 0 (World (kmem_upd (k_mem (st w)) (k_freelist (st w)) (st w)) (env w))
  | a :: l => forall m' fl', page_ok a -> a ∉ l -> freelist_ok m' fl' l ->
      (forall b, m'.[b] = if decide (in_page a b) then 5 else (k_mem (st w)).[b]) ->
      Q a (World (kmem_upd m' fl' (st w)) (env w))
  end -> wp kalloc Q w.
Proof.
  intros [Hlf Hi] [Hfl Hnd] HQ. unfold kalloc. apply wp_bind, wp_acquire; [done|].
  apply wp_bind, wp_gets. cbn [st env]. change (k_freelist (acquired L_kmem (st w))) with (k_freelist (st w)).
  destruct l as [|a l]; cbn in Hfl.
  - rewrite Hfl in *. cbn [negb Z.eqb when]. apply wp_bind, wp_ret.
    apply wp_bind, (wp_release_crit L_kmem id); [inert_tac|done..|].
    apply wp_bind, wp_ret, wp_ret. cbn [id]. rewrite settle_as_upd, Hfl. done.
  - destruct Hfl as (Ha & Hp & Hfl). pose proof (page_ok_range a Hp) as [Hpos _]. rewrite Ha.
    rewrite (proj2 (Z.eqb_neq a 0)) by lia. cbn [negb when].
    apply wp_bind, wp_modify. cbn [st env].
    apply wp_bind, (wp_release_crit L_kmem (fun s => set_k_freelist (ld64 (k_mem (st w)) a) s)); [inert_tac|done..|].
    apply wp_bind, wp_modify, wp_ret. cbn [st env k_mem set_k_freelist settle set_k_cpu].
    apply list.NoDup_cons in Hnd as [Hnin Hnd].
    assert (Hm : forall b, (memset (k_mem (st w)) a 5 PGSIZE).[b] =
      if decide (in_page a b) then 5 else (k_mem (st w)).[b]) by (intros b; by rewrite memset_page).
    apply HQ; [done|done| |done]. split; [|done].
    apply (fl_rep_ext (k_mem (st w))); [|done]. intros q b Hq Hb. rewrite Hm, decide_False; [done|].
    apply fl_rep_ok in Hfl. rewrite list.Forall_forall in Hfl. destruct (Hfl q Hq) as [Hqa _]. destruct Hp.
    apply (page_disjoint q a); [done|done|by intros ->|done].
Qed.

(** ** The allocator against the set of free pages *)

Lemma freerange_ok `{!KernelImageOk} (fuel : nat) p l w :
  kmem_ready (st w) -> freelist_ok (k_mem (st w)) (k_freelist (st w)) l ->
  p mod PGSIZE = 0 -> kend <= p <= PHYSTOP -> PHYSTOP - p < fuel * PGSIZE ->
  (forall a, a ∈ l <-> page_ok a /\ a < p) ->
  wp (freerange_loop fuel p PHYSTOP) (fun _ w' =>
    exists m' fl' l', settle (st w') = kmem_upd m' fl' (st w) /\ env w' = env w /\
      freelist_ok m' fl' l' /\ forall a, a ∈ l' <-> page_ok a) w.
Proof.
  revert p l w. induction fuel as [|fuel IH]; intros p l w Hr Hfl Hal Hp Hf Hl; [lia|].
  cbn [freerange_loop]. destruct (p + PGSIZE <=? PHYSTOP) eqn:E; bool_facts.
  - assert (page_ok p) as Hok by (split; [done|unfold PGSIZE in *; lia]).
    apply wp_bind, (wp_kfree p l); [done|done|done|rewrite Hl; lia|].
    intros m' Hfl' _. eapply wp_mono.
    + apply (IH (p + PGSIZE) (p :: l)); cbn [st env].
      * by apply kmem_ready_upd.
      * exact Hfl'.
      * rewrite <- (Z.mod_add p 1 PGSIZE) in Hal by done. by rewrite Z.mul_1_l in Hal.
      * unfold PGSIZE in *. lia.
      * unfold PGSIZE in *. lia.
      * intros a. rewrite elem_of_cons, Hl. split.
        -- intros [->|[Ha1 Ha2]]; [split; [done|unfold PGSIZE; lia]|split; [done|unfold PGSIZE; lia]].
        -- intros [[Ha1 Ha2] Ha3]. destruct (decide (a = p)); [by left|right].
           split; [done|]. unfold PGSIZE in *. Z.div_mod_to_equations. lia.
    + intros _ w' (m1 & fl1 & l1 & Hs & He & H2 & H3). cbn [st env] in *. rewrite kmem_upd_upd in Hs.
      by exists m1, fl1, l1.
  - apply wp_ret. exists (k_mem (st w)), (k_freelist (st w)), l. rewrite settle_as_upd.
    split_and!; [done|done|done|]. intros a. rewrite Hl. split; [by intros []|]. intros Ha. split; [done|].
    destruct Ha as [Ha1 Ha2]. unfold PHYSTOP, KERNBASE, PGSIZE in *. Z.div_mod_to_equations. lia.
Qed.

End Kalloc.

(** After [kinit] on a machine whose globals are zero, the free list is well
    formed and holds every page between the end of the kernel and [PHYSTOP],
    each once. *)
Theorem kinit_spec `{KernelImageOk} w :
  intr_ok (st w) -> k_freelist (st w) = 0 ->
  wp kinit (fun _ w' => exists l,
    freelist_ok (k_mem (st w')) (k_freelist (st w')) l /\ (forall a, a ∈ l <-> page_ok a)) w.
Proof.
  intros Hi Hz. unfold kinit, initlock. apply wp_bind, wp_modify.
  pose proof kend_lo. pose proof kend_hi.
  destruct (PGROUNDUP_bounds kend) as [Hal Hb]; [unfold PHYSTOP, KERNBASE, PGSIZE in *; lia..|].
  unfold freerange. eapply wp_mono.
  - apply (freerange_ok _ (PGROUNDUP kend) []); cbn [st env].
    + split; [|done]. unfold lock_free. cbn. by rewrite lookup_delete_eq.
    + split; [exact Hz|constructor].
    + done.
    + unfold PHYSTOP, KERNBASE, PGSIZE in *. Z.div_mod_to_equations. lia.
    + rewrite Nat2Z.inj_succ. unfold PGSIZE in *. Z.div_mod_to_equations. lia.
    + intros a. split; [by intros ?%elem_of_nil|]. intros [[Ha1 Ha2] Ha3]. exfalso.
      unfold PGSIZE in *. Z.div_mod_to_equations. lia.
  - intros _ w' (m & fl & l & Hs & _ & Hfl & Hl). exists l.
    apply (f_equal k_mem) in Hs as Hm. apply (f_equal k_freelist) in Hs as Hf. cbn in Hm, Hf.
    by rewrite Hm, Hf.
Qed.

(** An image that leaves twelve pages to the allocator. *)
Definition demo_image : KernelImage :=
  {| kend := PHYSTOP - 12 * PGSIZE; etext := KERNBASE + 16 * PGSIZE; trampoline_pa := KERNBASE + PGSIZE; forkret_addr := KERNBASE + 2 * PGSIZE;
     usertrap_addr := KERNBASE + 3 * PGSIZE; kernelvec_addr := KERNBASE + 4 * PGSIZE; uservec_off := 0; userret_off := 144 |}.

Lemma demo_image_ok : @KernelImageOk demo_image.
Proof. split; cbn; by vm_compute. Qed.

(** The machine after [kinit]. *)
Definition kst_kinit : kst := final kst0 (@kinit demo_image (World kst0 [])).
#[global] Opaque kst_kinit.

Lemma kinit_spec_witness :
  wp (@kinit demo_image) (fun _ w' => exists l,
    @freelist_ok demo_image (k_mem (st w')) (k_freelist (st w')) l /\ PHYSTOP - 2 * PGSIZE ∈ l) (World kst0 []).
Proof.
  eapply wp_mono.
  - apply (@kinit_spec demo_image demo_image_ok (World kst0 [])); [split; cbn; lia|reflexivity].
  - intros _ w' (l & Hfl & Hl). exists l. split; [exact Hfl|]. apply Hl. split; [reflexivity|].
    cbn. unfold PHYSTOP, KERNBASE, PGSIZE. lia.
Defined.

(** Clients of the allocator: [None] allocates, [Some i] frees the [i]-th page
    the clients own. *)
Fixpoint run_kmem `{KernelImage} (ops : list (option nat)) (owned : list Z) : K (list Z) :=
  match ops with
  | [] => mret owned
  | None :: ops =>
      a ← kalloc;
      run_kmem ops (if a =? 0 then owned else a :: owned)
  | Some i :: ops =>
      match owned !! i with
      | Some a => kfree a;; run_kmem ops (delete i owned)
      | None => run_kmem ops owned
      end
  end.

(** C8: whatever clients allocate and free, no page is lost or handed out twice:
    the free pages and the pages in use always make up the same set, without
    repetition; no call panics; and bytes outside these pages never change. *)
Theorem kmem_partition `{KernelImageOk} ops l owned w :
  kmem_ready (st w) -> freelist_ok (k_mem (st w)) (k_freelist (st w)) l ->
  Forall page_ok owned -> NoDup (l ++ owned) ->
  wp (run_kmem ops owned) (fun owned' w' => exists l',
    freelist_ok (k_mem (st w')) (k_freelist (st w')) l' /\
    l' ++ owned' ≡ₚ l ++ owned /\ NoDup (l' ++ owned') /\ Forall page_ok owned' /\
    (forall a, (forall p, p ∈ l ++ owned -> ~ in_page p a) -> (k_mem (st w')).[a] = (k_mem (st w)).[a])) w.
Proof.
  revert l owned w. induction ops as [|[i|] ops IH]; intros l owned w Hr Hfl Hok Hnd; cbn [run_kmem].
  - apply wp_ret. exists l. by split_and!.
  - destruct (owned !! i) as [a|] eqn:Ei; [|by apply IH].
    pose proof (delete_Permutation owned i a Ei) as Hperm.
    assert (Hnd2 : NoDup ((a :: l) ++ delete i owned)) by (cbn; by rewrite Permutation_middle, <- Hperm).
    assert (page_ok a /\ Forall page_ok (delete i owned)) as [Ha Hdel] by (rewrite Hperm in Hok; by apply list.Forall_cons in Hok).
    apply wp_bind, (wp_kfree a l); [done|done|done| |].
    { apply list.NoDup_app in Hnd as (_ & Hd & _). intros Hin. apply (Hd a Hin). by eapply list_elem_of_lookup_2. }
    intros m' Hfl' Hm'. eapply wp_mono; [apply (IH (a :: l) (delete i owned)); [done..|exact Hnd2]|].
    intros owned' w' (l' & H1 & H2 & H3 & H4 & H5). exists l'. split_and!; [done| |done|done|].
    + rewrite H2. cbn. by rewrite Permutation_middle, <- Hperm.
    + intros b Hb. rewrite H5.
      * apply Hm', Hb. apply elem_of_app. right. by eapply list_elem_of_lookup_2.
      * intros p Hp. apply Hb. revert Hp. cbn. by rewrite Permutation_middle, <- Hperm.
  - apply wp_bind, (wp_kalloc l); [done|done|]. destruct l as [|a l].
    + eapply wp_mono; [apply (IH [] owned); done|]. intros owned' w' (l' & H1). by exists l'.
    + intros m' fl' Ha Hnin Hfl' Hm'. pose proof (page_ok_range a Ha) as Hrange.
      rewrite (proj2 (Z.eqb_neq a 0)) by lia. eapply wp_mono.
      * apply (IH l (a :: owned)); [done|exact Hfl'|by constructor|]. by rewrite <- Permutation_middle.
      * intros owned' w' (l' & H1 & H2 & H3 & H4 & H5). exists l'. split_and!; [done| |done|done|].
        -- rewrite H2. by rewrite <- Permutation_middle.
        -- intros b Hb. rewrite H5.
           ++ cbn. rewrite Hm', decide_False; [done|]. apply Hb. set_solver.
           ++ intros p Hp. apply Hb. revert Hp. by rewrite <- Permutation_middle.
Qed.

(** The free list [kinit] builds on it. *)
Definition demo_pages : list Z := (fun i : nat => PHYSTOP - (i + 1) * PGSIZE) <$> seq 0 12.

(** [fl_rep] as a test. *)
Fixpoint fl_check `{KernelImage} (m : gmap Z Z) (head : Z) (l : list Z) : bool :=
  match l with
  | [] => head =? 0
  | a :: l => (head =? a) && (a mod PGSIZE =? 0) && (kend <=? a) && (a <? PHYSTOP) && fl_check m (ld64 m a) l
  end.

Lemma fl_check_rep `{KernelImage} m head l : fl_check m head l = true -> fl_rep m head l.
Proof.
  revert head. induction l as [|a l IH]; intros head; cbn; [by intros ?%Z.eqb_eq|].
  intros Hc. bool_facts. split_and!; [done|by split|by apply IH].
Qed.

Lemma kst_kinit_ok : @freelist_ok demo_image (k_mem kst_kinit) (k_freelist kst_kinit) demo_pages.
Proof.
  split; [apply fl_check_rep; vm_compute; reflexivity|apply (bool_decide_unpack _); vm_compute; exact I].
Qed.

Lemma kst_kinit_ready : kmem_ready kst_kinit.
Proof. split; [vm_compute; reflexivity|split; vm_compute; discriminate]. Qed.

Lemma kmem_partition_witness :
  wp (@run_kmem demo_image [None; None; Some 0; None]%nat []) (fun owned' w' => exists l',
    @freelist_ok demo_image (k_mem (st w')) (k_freelist (st w')) l' /\
    length (l' ++ owned') = 12%nat) (World kst_kinit []).
Proof.
  eapply wp_mono.
  - apply (@kmem_partition demo_image demo_image_ok [None; None; Some 0%nat; None]
      demo_pages [] (World kst_kinit [])).
    + apply kst_kinit_ready.
    + apply kst_kinit_ok.
    + constructor.
    + apply (bool_decide_unpack _). vm_compute. exact I.
  - intros owned' w' (l' & H1 & H2 & _). exists l'. split; [exact H1|]. by rewrite H2.
Defined.

(** [kfree] panics, leaving the free list alone, on every address that is
    not a whole page of the memory it manages. *)
Lemma kfree_panics `{KernelImage} pa w : ~ page_ok pa -> kfree pa w = Panic "kfree".
Proof.
  intros Hpa. unfold kfree. destruct (negb (pa mod PGSIZE =? 0) || (pa <? kend) || (PHYSTOP <=? pa)) eqn:E; [done|].
  bool_facts. destruct Hpa. done.
Qed.
