(* ===== verification/Vm.v ===== *)
(** * kernel/vm.c: page tables and user memory

    Every routine of vm.c, and [proc_mapstacks] of proc.c, on the bytes of
    physical memory: a page table is the three levels of 512 eight-byte entries
    the hardware walks.  Kernel addresses equal physical addresses.  The kernel
    side of [copyout], [copyin] and [copyinstr] is the list of bytes given or
    produced, since kernel buffers are not part of the page memory. *)

From S2P Require Import Prelude State KString Spinlock Kalloc.

Definition load64 (a : Z) : K Z := gets (fun s => ld64 (k_mem s) a).
Definition store64 (a v : Z) : K unit := modify (fun s => set_k_mem (st64 (k_mem s) a v) s).

(** [memset] of a page [kalloc] returned: the null page is not mapped. *)
Definition clear_page (pa : Z) : K unit :=
  if pa =? 0 then fault "memset of address 0" else
  modify (fun s => set_k_mem (memset (k_mem s) pa 0 PGSIZE) s).

Definition valid (pte : Z) : bool := negb (Z.land pte PTE_V =? 0).

Section Vm.
Context `{KernelImage}.

(** The loop of [walk], from [level] down to 1; 0 is the null pointer. *)
Fixpoint walk_loop (level : nat) (pagetable va : Z) (alloc : bool) : K Z :=
  match level with
  | O => mret (pagetable + 8 * PX 0 va)
  | S level' =>
      let pte := pagetable + 8 * PX level va in
      e ← load64 pte;
      if valid e then walk_loop level' (PTE2PA e) va alloc
      else if negb alloc then mret 0 else
      pagetable ← kalloc;
      if pagetable =? 0 then mret 0 else
      clear_page pagetable;;
      store64 pte (Z.lor (PA2PTE pagetable) PTE_V);;
      walk_loop level' pagetable va alloc
  end.

Definition walk (pagetable va : Z) (alloc : bool) : K Z :=
  if MAXVA <=? va then panic "walk" else walk_loop 2 pagetable va alloc.

Definition walkaddr (pagetable va : Z) : K Z :=
  if MAXVA <=? va then mret 0 else
  pte ← walk pagetable va false;
  if pte =? 0 then mret 0 else
  e ← load64 pte;
  if Z.land e PTE_V =? 0 then mret 0 else
  if Z.land e PTE_U =? 0 then mret 0 else
  mret (PTE2PA e).

(** The [for(;;)] loop of [mappages]: it meets [last] after as many pages as lie
    between, unless [walk] panics first. *)
Fixpoint mappages_loop (fuel : nat) (pagetable a last pa perm : Z) : K Z :=
  match fuel with
  | O => fault "mappages: out of fuel"
  | S fuel =>
      pte ← walk pagetable a true;
      if pte =? 0 then mret (-1) else
      e ← load64 pte;
      if valid e then panic "mappages: remap" else
      store64 pte (Z.lor (Z.lor (PA2PTE pa) perm) PTE_V);;
      if a =? last then mret 0 else
      mappages_loop fuel pagetable (u64 (a + PGSIZE)) last (u64 (pa + PGSIZE)) perm
  end.

Definition mappages (pagetable va size pa perm : Z) : K Z :=
  if size =? 0 then panic "mappages: size" else
  let a := PGROUNDDOWN va in
  let last := PGROUNDDOWN (u64 (va + size - 1)) in
  mappages_loop (S (Z.to_nat (u64 (last - a) / PGSIZE))) pagetable a last pa perm.

Definition kvmmap (kpgtbl va pa sz perm : Z) : K unit :=
  r ← mappages kpgtbl va sz pa perm;
  if negb (r =? 0) then panic "kvmmap" else mret tt.

Definition proc_mapstacks (kpgtbl : Z) : K unit :=
  foreach (seq 0 NPROC) (fun i =>
    pa ← kalloc;
    if pa =? 0 then panic "kalloc" else
    kvmmap kpgtbl (KSTACK i) pa PGSIZE (Z.lor PTE_R PTE_W);;
    mret (@None unit));;
  mret tt.

Definition kvmmake : K Z :=
  kpgtbl ← kalloc;
  clear_page kpgtbl;;
  kvmmap kpgtbl UART0 UART0 PGSIZE (Z.lor PTE_R PTE_W);;
  kvmmap kpgtbl VIRTIO0 VIRTIO0 PGSIZE (Z.lor PTE_R PTE_W);;
  kvmmap kpgtbl PLIC PLIC 4194304 (Z.lor PTE_R PTE_W);;
  kvmmap kpgtbl KERNBASE KERNBASE (etext - KERNBASE) (Z.lor PTE_R PTE_X);;
  kvmmap kpgtbl etext etext (PHYSTOP - etext) (Z.lor PTE_R PTE_W);;
  kvmmap kpgtbl TRAMPOLINE trampoline_pa PGSIZE (Z.lor PTE_R PTE_X);;
  proc_mapstacks kpgtbl;;
  mret kpgtbl.

Definition kvminit : K unit :=
  kpgtbl ← kvmmake;
  modify (set_k_kpgtbl kpgtbl).

Definition kvminithart : K unit :=
  modify (fun s => set_k_satp (MAKE_SATP (k_kpgtbl s)) s).

Fixpoint uvmunmap_loop (fuel : nat) (pagetable a last : Z) (do_free : bool) : K unit :=
  match fuel with
  | O => fault "uvmunmap: out of fuel"
  | S fuel =>
      if a <? last then
        pte ← walk pagetable a false;
        if pte =? 0 then panic "uvmunmap: walk" else
        e ← load64 pte;
        if Z.land e PTE_V =? 0 then panic "uvmunmap: not mapped" else
        if PTE_FLAGS e =? PTE_V then panic "uvmunmap: not a leaf" else
        when do_free (kfree (PTE2PA e));;
        store64 pte 0;;
        uvmunmap_loop fuel pagetable (u64 (a + PGSIZE)) last do_free
      else mret tt
  end.

Definition uvmunmap (pagetable va npages : Z) (do_free : bool) : K unit :=
  if negb (va mod PGSIZE =? 0) then panic "uvmunmap: not aligned" else
  let last := u64 (va + npages * PGSIZE) in
  uvmunmap_loop (S (Z.to_nat ((last - va + PGSIZE - 1) / PGSIZE))) pagetable va last do_free.

Definition uvmcreate : K Z :=
  pagetable ← kalloc;
  if pagetable =? 0 then mret 0 else
  clear_page pagetable;;
  mret pagetable.

Definition uvmfirst (pagetable : Z) (src : list Z) : K unit :=
  if PGSIZE <=? length src then panic "uvmfirst: more than a page" else
  mem ← kalloc;
  clear_page mem;;
  mappages pagetable 0 PGSIZE mem (Z.lor (Z.lor (Z.lor PTE_W PTE_R) PTE_X) PTE_U);;
  modify (fun s => set_k_mem (wr_bytes (k_mem s) mem src) s).

Definition uvmdealloc (pagetable oldsz newsz : Z) : K Z :=
  if oldsz <=? newsz then mret oldsz else
  when (PGROUNDUP newsz <? PGROUNDUP oldsz)
    (let npages := s32 ((PGROUNDUP oldsz - PGROUNDUP newsz) / PGSIZE) in
     uvmunmap pagetable (PGROUNDUP newsz) npages true);;
  mret newsz.

Fixpoint uvmalloc_loop (fuel : nat) (pagetable oldsz a newsz xperm : Z) : K Z :=
  match fuel with
  | O => fault "uvmalloc: out of fuel"
  | S fuel =>
      if a <? newsz then
        mem ← kalloc;
        if mem =? 0 then
          uvmdealloc pagetable a oldsz;;
          mret 0
        else
        clear_page mem;;
        r ← mappages pagetable a PGSIZE mem (Z.lor (Z.lor PTE_R PTE_U) xperm);
        if negb (r =? 0) then
          kfree mem;;
          uvmdealloc pagetable a oldsz;;
          mret 0
        else
        uvmalloc_loop fuel pagetable oldsz (u64 (a + PGSIZE)) newsz xperm
      else mret newsz
  end.

Definition uvmalloc (pagetable oldsz newsz xperm : Z) : K Z :=
  if newsz <? oldsz then mret oldsz else
  let oldsz := PGROUNDUP oldsz in
  uvmalloc_loop (S (Z.to_nat ((newsz - oldsz + PGSIZE - 1) / PGSIZE))) pagetable oldsz oldsz newsz xperm.

(** [freewalk] recurses once per level; a table of the hardware has three. *)
Fixpoint freewalk (levels : nat) (pagetable : Z) : K unit :=
  match levels with
  | O => fault "freewalk: more than three levels"
  | S levels =>
      foreach (seq 0 512) (fun i =>
        let slot := pagetable + 8 * i in
        pte ← load64 slot;
        (if valid pte && (Z.land pte (Z.lor (Z.lor PTE_R PTE_W) PTE_X) =? 0) then
           freewalk levels (PTE2PA pte);;
           store64 slot 0
         else if valid pte then panic "freewalk: leaf"
         else mret tt);;
        mret (@None unit));;
      kfree pagetable
  end.

Definition uvmfree (pagetable sz : Z) : K unit :=
  when (0 <? sz) (uvmunmap pagetable 0 (PGROUNDUP sz / PGSIZE) true);;
  freewalk 3 pagetable.

Fixpoint uvmcopy_loop (fuel : nat) (old new i sz : Z) : K Z :=
  match fuel with
  | O => fault "uvmcopy: out of fuel"
  | S fuel =>
      if i <? sz then
        pte ← walk old i false;
        if pte =? 0 then panic "uvmcopy: pte should exist" else
        e ← load64 pte;
        if Z.land e PTE_V =? 0 then panic "uvmcopy: page not present" else
        let pa := PTE2PA e in
        let flags := PTE_FLAGS e in
        mem ← kalloc;
        if mem =? 0 then
          uvmunmap new 0 (i / PGSIZE) true;;
          mret (-1)
        else
        modify (fun s => set_k_mem (memmove (k_mem s) mem pa PGSIZE) s);;
        r ← mappages new i PGSIZE mem flags;
        if negb (r =? 0) then
          kfree mem;;
          uvmunmap new 0 (i / PGSIZE) true;;
          mret (-1)
        else
        uvmcopy_loop fuel old new (u64 (i + PGSIZE)) sz
      else mret 0
  end.

Definition uvmcopy (old new sz : Z) : K Z :=
  uvmcopy_loop (S (Z.to_nat ((sz + PGSIZE - 1) / PGSIZE))) old new 0 sz.

Definition uvmclear (pagetable va : Z) : K unit :=
  pte ← walk pagetable va false;
  if pte =? 0 then panic "uvmclear" else
  e ← load64 pte;
  store64 pte (andnot64 e PTE_U).

(** [copyout]: [src] is the remaining bytes of the kernel buffer.  Every round
    copies at least one byte. *)
Fixpoint copyout_loop (fuel : nat) (pagetable dstva : Z) (src : list Z) : K Z :=
  match fuel with
  | O => fault "copyout: out of fuel"
  | S fuel =>
      if 0 <? length src then
        let va0 := PGROUNDDOWN dstva in
        pa0 ← walkaddr pagetable va0;
        if pa0 =? 0 then mret (-1) else
        let n := PGSIZE - (dstva - va0) in
        let n := if length src <? n then Z.of_nat (length src) else n in
        modify (fun s => set_k_mem (wr_bytes (k_mem s) (pa0 + (dstva - va0)) (take (Z.to_nat n) src)) s);;
        copyout_loop fuel pagetable (u64 (va0 + PGSIZE)) (drop (Z.to_nat n) src)
      else mret 0
  end.

Definition copyout (pagetable dstva : Z) (src : list Z) : K Z :=
  copyout_loop (S (length src)) pagetable dstva src.

(** [copyin]: the result is the bytes stored in the kernel buffer and the status. *)
Fixpoint copyin_loop (fuel : nat) (pagetable srcva len : Z) : K (list Z * Z) :=
  match fuel with
  | O => fault "copyin: out of fuel"
  | S fuel =>
      if 0 <? len then
        let va0 := PGROUNDDOWN srcva in
        pa0 ← walkaddr pagetable va0;
        if pa0 =? 0 then mret ([], -1) else
        let n := PGSIZE - (srcva - va0) in
        let n := if len <? n then len else n in
        bs ← gets (fun s => rd_bytes (Z.to_nat n) (k_mem s) (pa0 + (srcva - va0)));
        r ← copyin_loop fuel pagetable (u64 (va0 + PGSIZE)) (len - n);
        mret (bs ++ fst r, snd r)
      else mret ([], 0)
  end.

Definition copyin (pagetable srcva len : Z) : K (list Z * Z) :=
  copyin_loop (S (Z.to_nat len)) pagetable srcva len.

(** The inner loop of [copyinstr] over the [n] bytes at [p]: the bytes stored,
    and whether the terminator was met. *)
Fixpoint copyinstr_page (n : nat) (m : gmap Z Z) (p : Z) : list Z * bool :=
  match n with
  | O => ([], false)
  | S n =>
      if m.[p] =? 0 then ([0], true)
      else let r := copyinstr_page n m (p + 1) in (m.[p] :: fst r, snd r)
  end.

Fixpoint copyinstr_loop (fuel : nat) (pagetable srcva max : Z) : K (list Z * Z) :=
  match fuel with
  | O => fault "copyinstr: out of fuel"
  | S fuel =>
      if 0 <? max then
        let va0 := PGROUNDDOWN srcva in
        pa0 ← walkaddr pagetable va0;
        if pa0 =? 0 then mret ([], -1) else
        let n := PGSIZE - (srcva - va0) in
        let n := if max <? n then max else n in
        s ← get;
        let x := copyinstr_page (Z.to_nat n) (k_mem s) (pa0 + (srcva - va0)) in
        if snd x then mret (fst x, 0) else
        r ← copyinstr_loop fuel pagetable (u64 (va0 + PGSIZE)) (max - n);
        mret (fst x ++ fst r, snd r)
      else mret ([], -1)
  end.

Definition copyinstr (pagetable srcva max : Z) : K (list Z * Z) :=
  copyinstr_loop (S (Z.to_nat max)) pagetable srcva max.

End Vm.
