(* ===== verification/PageTable.v ===== *)
(** * The three-level page table as a tree

    The nodes of a page table as paths of indices, the entry each virtual
    address has, the well-formedness invariant, and what the stores of vm.c do
    to them.  On top of it, the specifications of [walk], [walkaddr] and
    [mappages]. *)

From S2P Require Import Prelude State KString Spinlock Kalloc Vm.

(** ** Entries *)

Lemma lor_low x f n : 0 <= n -> 0 <= f < 2 ^ n -> Z.lor (x * 2 ^ n) f = x * 2 ^ n + f.
Proof.
  intros Hn Hf. symmetry. apply Z.add_nocarry_lor, Z.bits_inj'. intros i Hi.
  rewrite Z.bits_0, Z.land_spec, <- Z.shiftl_mul_pow2, Z.shiftl_spec by lia.
  destruct (Z.lt_ge_cases i n).
  - by rewrite Z.testbit_neg_r by lia.
  - rewrite <- (Z.mod_small f (2 ^ n)) by lia. by rewrite Z.mod_pow2_bits_high, andb_false_r by lia.
Qed.

Lemma lor_bound a b n : 0 <= n -> 0 <= a < 2 ^ n -> 0 <= b < 2 ^ n -> 0 <= Z.lor a b < 2 ^ n.
Proof.
  intros Hn Ha Hb. rewrite <- (Z.mod_small a (2 ^ n)), <- (Z.mod_small b (2 ^ n)) by lia.
  replace (Z.lor (a mod 2 ^ n) (b mod 2 ^ n)) with (Z.lor a b mod 2 ^ n); [apply Z.mod_pos_bound; lia|].
  apply Z.bits_inj'. intros i Hi. rewrite Z.lor_spec, !Z.testbit_mod_pow2, Z.lor_spec by lia.
  by destruct (i <? n).
Qed.

(** A page address that fits in an entry. *)
Definition pa_ok (pa : Z) : Prop := pa mod PGSIZE = 0 /\ 0 <= pa < 72057594037927936.

Lemma PA2PTE_val pa : pa_ok pa -> PA2PTE pa = pa / PGSIZE * 1024.
Proof.
  intros [Ha Hr]. unfold PA2PTE, PGSIZE in *.
  rewrite Z.shiftr_div_pow2, Z.shiftl_mul_pow2, u64_small by (simpl Z.pow; Z.div_mod_to_equations; lia). done.
Qed.

Lemma PA2PTE_lor pa f : pa_ok pa -> 0 <= f < 1024 -> Z.lor (PA2PTE pa) f = pa / PGSIZE * 1024 + f.
Proof. intros Hp Hf. rewrite PA2PTE_val by done. by apply (lor_low _ _ 10). Qed.

Lemma PTE2PA_mk pa f : pa_ok pa -> 0 <= f < 1024 -> PTE2PA (pa / PGSIZE * 1024 + f) = pa.
Proof.
  intros [Ha Hr] Hf. unfold PTE2PA, PGSIZE in *.
  rewrite Z.shiftr_div_pow2, Z.shiftl_mul_pow2 by lia. simpl Z.pow.
  replace ((pa / 4096 * 1024 + f) / 1024) with (pa / 4096) by (Z.div_mod_to_equations; lia).
  rewrite u64_small; Z.div_mod_to_equations; lia.
Qed.

Lemma PTE_FLAGS_mod pte : PTE_FLAGS pte = pte mod 1024.
Proof. apply (Z.land_ones pte 10). lia. Qed.

Lemma valid_mod pte : valid pte = negb (pte mod 2 =? 0).
Proof. unfold valid, PTE_V. change 1 with (Z.ones 1). by rewrite Z.land_ones. Qed.

Lemma valid_land pte : (Z.land pte PTE_V =? 0) = negb (valid pte).
Proof. unfold valid. by rewrite negb_involutive. Qed.

(** The entry [mappages] installs. *)
Definition leaf_pte (pa perm : Z) : Z := Z.lor (Z.lor (PA2PTE pa) perm) PTE_V.

Lemma leaf_pte_val pa perm : pa_ok pa -> 0 <= perm < 1024 ->
  leaf_pte pa perm = pa / PGSIZE * 1024 + Z.lor perm PTE_V /\ 0 <= Z.lor perm PTE_V < 1024.
Proof.
  intros Hpa Hperm. assert (0 <= Z.lor perm PTE_V < 1024) by (by apply (lor_bound _ _ 10)).
  split; [|done]. unfold leaf_pte. rewrite <- Z.lor_assoc. by apply PA2PTE_lor.
Qed.

Lemma leaf_pte_range pa perm : pa_ok pa -> 0 <= perm < 1024 -> 0 <= leaf_pte pa perm < 18446744073709551616.
Proof.
  intros Hpa Hperm. destruct (leaf_pte_val pa perm) as [-> ?]; [done..|]. destruct Hpa as [_ ?].
  unfold PGSIZE. Z.div_mod_to_equations. lia.
Qed.

Lemma leaf_pte_pa pa perm : pa_ok pa -> 0 <= perm < 1024 -> PTE2PA (leaf_pte pa perm) = pa.
Proof. intros Hpa Hperm. destruct (leaf_pte_val pa perm) as [-> ?]; [done..|]. by apply PTE2PA_mk. Qed.

Lemma leaf_pte_flags pa perm : pa_ok pa -> 0 <= perm < 1024 -> PTE_FLAGS (leaf_pte pa perm) = Z.lor perm PTE_V.
Proof.
  intros Hpa Hperm. destruct (leaf_pte_val pa perm) as [-> ?]; [done..|]. rewrite PTE_FLAGS_mod.
  Z.div_mod_to_equations. lia.
Qed.

Lemma leaf_pte_valid pa perm : valid (leaf_pte pa perm) = true.
Proof.
  unfold valid, leaf_pte. apply negb_true_iff, Z.eqb_neq. intros H.
  apply (f_equal (fun x => Z.testbit x 0)) in H. rewrite Z.land_spec, Z.lor_spec in H.
  change (Z.testbit PTE_V 0) with true in H. by rewrite orb_true_r in H.
Qed.

(** The permission bits of an entry. *)
Lemma land14_mod e : Z.land e 14 = Z.land (e mod 16) 14.
Proof. change 16 with (2 ^ 4). rewrite <- Z.land_ones, <- Z.land_assoc by lia. done. Qed.

Lemma PX_val level va : 0 <= level -> PX level va = va / 2 ^ (12 + 9 * level) mod 512.
Proof.
  intros Hl. unfold PX, PXSHIFT, PGSHIFT, PXMASK. rewrite Z.shiftr_div_pow2 by lia.
  apply (Z.land_ones _ 9). lia.
Qed.

Lemma PX_range level va : 0 <= level -> 0 <= PX level va < 512.
Proof. intros Hl. rewrite PX_val by done. apply Z.mod_pos_bound. lia. Qed.

(** The three indices determine the page of an address. *)
Lemma PX_inj va va' : 0 <= va < MAXVA -> 0 <= va' < MAXVA ->
  PX 2 va = PX 2 va' -> PX 1 va = PX 1 va' -> PX 0 va = PX 0 va' -> va / PGSIZE = va' / PGSIZE.
Proof.
  unfold MAXVA, PGSIZE. rewrite Z.shiftl_mul_pow2 by lia. simpl Z.pow. intros Hv Hv'.
  rewrite !PX_val by lia. simpl Z.pow. Z.div_mod_to_equations. lia.
Qed.

Lemma PX_same_page level va va' : 0 <= level -> va / PGSIZE = va' / PGSIZE -> PX level va = PX level va'.
Proof.
  intros Hl Hv. rewrite !PX_val by done. rewrite Z.pow_add_r, <- !Z.div_div by lia.
  change (2 ^ 12) with PGSIZE. by rewrite Hv.
Qed.

(** ** Nodes *)

(** The child an entry of a directory page points to. *)
Definition child (m : gmap Z Z) (x i : Z) : option Z :=
  let e := ld64 m (x + 8 * i) in if valid e then Some (PTE2PA e) else None.

Fixpoint pt_node (m : gmap Z Z) (x : Z) (path : list Z) : option Z :=
  match path with
  | [] => Some x
  | i :: path => y ← child m x i; pt_node m y path
  end.

Definition idx_ok (i : Z) : Prop := 0 <= i < 512.
Definition short (p : list Z) : Prop := (length p <= 2)%nat /\ Forall idx_ok p.

Definition va_path (va : Z) : list Z := [PX 2 va; PX 1 va].
#[global] Arguments va_path : simpl never.

(** Address of the level-0 entry of [va], when its page-table page exists, and
    the entry itself (0, invalid, when it does not). *)
Definition pte_addr (m : gmap Z Z) (root va : Z) : option Z :=
  x ← pt_node m root (va_path va); Some (x + 8 * PX 0 va).
Definition pte_at (m : gmap Z Z) (root va : Z) : Z :=
  match pte_addr m root va with Some a => ld64 m a | None => 0 end.

Definition is_node (m : gmap Z Z) (root x : Z) : Prop := exists p, short p /\ pt_node m root p = Some x.

(** Addresses below [MAXVA] use the lower half of the root page. *)
Definition low (p : list Z) : Prop := match p with [] => True | i :: _ => i < 256 end.

(** A well-formed table whose pages avoid the pages in [avoid]. *)
Record pt_wf `{KernelImage} (m : gmap Z Z) (root : Z) (avoid : list Z) : Prop := {
  wf_page : forall x, is_node m root x -> page_ok x /\ x ∉ avoid;
  wf_inj : forall p q x, short p -> short q -> pt_node m root p = Some x -> pt_node m root q = Some x -> p = q;
  wf_dir : forall p x i, (length p <= 1)%nat -> short p -> pt_node m root p = Some x -> idx_ok i ->
             valid (ld64 m (x + 8 * i)) = true -> Z.land (ld64 m (x + 8 * i)) 14 = 0;
  wf_low : forall p x, short p -> pt_node m root p = Some x -> low p
}.

Lemma pt_node_snoc m x p i : pt_node m x (p ++ [i]) = (y ← pt_node m x p; child m y i).
Proof. revert x. induction p as [|j p IH]; intros x; cbn; [by destruct (child m x i)|]. by destruct (child m x j); cbn. Qed.

Lemma short_snoc p i : short (p ++ [i]) <-> short p /\ (length p <= 1)%nat /\ idx_ok i.
Proof.
  unfold short. rewrite length_app, list.Forall_app, list.Forall_singleton. cbn. split; intros; destruct_and?; split_and!; try done; lia.
Qed.

Lemma short_nil : short [].
Proof. split; [cbn; lia|constructor]. Qed.

Lemma short_va_path va : short (va_path va).
Proof. unfold va_path. split; [cbn; lia|]. repeat constructor; apply PX_range; lia. Qed.

Lemma low_va_path va : 0 <= va < MAXVA -> low (va_path va).
Proof.
  unfold low, va_path, MAXVA. rewrite Z.shiftl_mul_pow2, PX_val by lia. simpl Z.pow. intros Hva. Z.div_mod_to_equations. lia.
Qed.

Lemma low_prefix p q r : low r -> p ++ q = r -> p <> [] -> low p.
Proof. intros Hr <- Hp. by destruct p. Qed.

Lemma root_is_node m root : is_node m root root.
Proof. exists []. split; [apply short_nil|done]. Qed.

Lemma child_slot m1 m2 x i : ld64 m1 (x + 8 * i) = ld64 m2 (x + 8 * i) -> child m1 x i = child m2 x i.
Proof. unfold child. by intros ->. Qed.

(** The slots of a page lie in the page. *)
Lemma slot_in_page x i b : idx_ok i -> x + 8 * i <= b < x + 8 * i + 8 -> in_page x b.
Proof. unfold idx_ok, in_page, PGSIZE. lia. Qed.

Lemma slot_ext m1 m2 x i : idx_ok i -> (forall a, in_page x a -> m1.[a] = m2.[a]) ->
  ld64 m1 (x + 8 * i) = ld64 m2 (x + 8 * i).
Proof. intros Hi Hm. apply ld64_ext. intros b Hb. by eapply Hm, slot_in_page. Qed.

(** A table only depends on the bytes of its nodes. *)
Lemma pt_node_ext m1 m2 root :
  (forall x a, is_node m1 root x -> in_page x a -> m2.[a] = m1.[a]) ->
  forall p, short p -> pt_node m2 root p = pt_node m1 root p.
Proof.
  intros Hm p. induction p as [|i p IH] using rev_ind; [done|]. intros Hs. apply short_snoc in Hs as (Hs & Hl & Hi).
  rewrite !pt_node_snoc, IH by done. destruct (pt_node m1 root p) as [y|] eqn:E; cbn; [|done].
  apply child_slot, slot_ext; [done|]. intros a Ha. apply (Hm y); [by exists p|done].
Qed.

Lemma is_node_ext m1 m2 root :
  (forall x a, is_node m1 root x -> in_page x a -> m2.[a] = m1.[a]) ->
  forall x, is_node m2 root x <-> is_node m1 root x.
Proof.
  intros Hm x. split; intros (p & Hs & Hp); exists p; (split; [done|]); [rewrite <- Hp; symmetry|rewrite <- Hp]; by apply pt_node_ext.
Qed.

Lemma pte_at_ext m1 m2 root va :
  (forall x a, is_node m1 root x -> in_page x a -> m2.[a] = m1.[a]) -> pte_at m2 root va = pte_at m1 root va.
Proof.
  intros Hm. unfold pte_at, pte_addr. rewrite (pt_node_ext m1 m2) by (done || apply short_va_path).
  destruct (pt_node m1 root (va_path va)) as [x|] eqn:E; cbn; [|done].
  apply slot_ext; [apply PX_range; lia|]. intros a Ha. apply (Hm x); [|done].
  exists (va_path va). split; [apply short_va_path|done].
Qed.

Lemma pt_wf_ext `{KernelImage} m1 m2 root l :
  (forall x a, is_node m1 root x -> in_page x a -> m2.[a] = m1.[a]) -> pt_wf m1 root l -> pt_wf m2 root l.
Proof.
  intros Hm [H1 H2 H3 H4]. constructor; [| | |by intros p x Hp; rewrite (pt_node_ext m1 m2) by done; apply H4].
  - intros x Hx. apply H1. by apply (is_node_ext m1 m2 root).
  - intros p q x Hp Hq. rewrite !(pt_node_ext m1 m2) by done. by apply H2.
  - intros p x i Hl Hs Hp Hi. rewrite (pt_node_ext m1 m2) in Hp by done.
    rewrite (slot_ext m2 m1 x i); [by eapply H3|done|]. intros a Ha. apply (Hm x); [by exists p|done].
Qed.

Lemma pt_wf_avoid `{KernelImage} m root l l' : (forall x, x ∈ l' -> x ∈ l) -> pt_wf m root l -> pt_wf m root l'.
Proof. intros Hl [H1 H2 H3 H4]. constructor; [|done..]. intros x Hx. destruct (H1 x Hx). naive_solver. Qed.

(** ** Stores into a table *)

Lemma slot_store_ne m x y i j v : x mod PGSIZE = 0 -> y mod PGSIZE = 0 -> idx_ok i -> idx_ok j ->
  x <> y \/ i <> j -> ld64 (st64 m (x + 8 * i) v) (y + 8 * j) = ld64 m (y + 8 * j).
Proof.
  intros Hx Hy Hi Hj Hne. apply ld64_st64_ne. unfold idx_ok, PGSIZE in *.
  destruct (decide (x = y)) as [->|]; [destruct Hne; [done|lia]|]. Z.div_mod_to_equations. lia.
Qed.

Section Stores.
Context `{KernelImage} {m : gmap Z Z} {root : Z} {l : list Z} (Hwf : pt_wf m root l).

Lemma node_aligned p x : short p -> pt_node m root p = Some x -> x mod PGSIZE = 0.
Proof. intros Hs Hp. assert (is_node m root x) as Hx by (by exists p). by destruct (wf_page _ _ _ Hwf x Hx) as [[? _] _]. Qed.

(** A store into a level-0 page leaves all nodes in place. *)
Lemma node_store_leaf p x i v : short p -> length p = 2%nat -> pt_node m root p = Some x -> idx_ok i ->
  forall q, short q -> pt_node (st64 m (x + 8 * i) v) root q = pt_node m root q.
Proof.
  intros Hp Hl Hx Hi q. induction q as [|j q IH] using rev_ind; [done|].
  intros Hs. apply short_snoc in Hs as (Hs & Hlq & Hj). rewrite !pt_node_snoc, IH by done.
  destruct (pt_node m root q) as [y|] eqn:E; cbn; [|done]. apply child_slot, slot_store_ne; eauto using node_aligned.
  left. intros ->. assert (p = q) as -> by (by eapply wf_inj). lia.
Qed.

Lemma pt_wf_store_leaf p x i v : short p -> length p = 2%nat -> pt_node m root p = Some x -> idx_ok i ->
  pt_wf (st64 m (x + 8 * i) v) root l.
Proof.
  intros Hp Hl Hx Hi. pose proof (node_store_leaf p x i v Hp Hl Hx Hi) as Hq. constructor; [| | |by intros q y Hs; rewrite Hq by done; apply (wf_low _ _ _ Hwf)].
  - intros y (q & Hs & Hy). rewrite Hq in Hy by done. apply (wf_page _ _ _ Hwf). by exists q.
  - intros q1 q2 y H1 H2. rewrite !Hq by done. by apply (wf_inj _ _ _ Hwf).
  - intros q y j Hlq Hs Hy Hj. rewrite Hq in Hy by done.
    rewrite slot_store_ne; [by eapply (wf_dir _ _ _ Hwf)|by eauto using node_aligned..|].
    left. intros ->. assert (p = q) as -> by (by eapply wf_inj). lia.
Qed.

(** It changes the entry of exactly one page of virtual addresses. *)
Lemma pte_at_store_leaf va a v va' : 0 <= va < MAXVA -> 0 <= va' < MAXVA -> 0 <= v < 18446744073709551616 ->
  pte_addr m root va = Some a ->
  pte_at (st64 m a v) root va' = if decide (va / PGSIZE = va' / PGSIZE) then v else pte_at m root va'.
Proof.
  intros Hva Hva' Hv Ha. unfold pte_addr in Ha.
  destruct (pt_node m root (va_path va)) as [x|] eqn:E; cbn in Ha; simplify_eq.
  unfold pte_at, pte_addr.
  rewrite (node_store_leaf (va_path va) x) by (done || apply short_va_path || (apply PX_range; lia)).
  destruct (decide (va / PGSIZE = va' / PGSIZE)) as [Heq|Hne].
  - assert (va_path va' = va_path va) as -> by (unfold va_path; by rewrite !(PX_same_page _ va' va) by (lia || done)).
    rewrite E. cbn. rewrite (PX_same_page 0 va' va) by (lia || done). by apply ld64_st64.
  - destruct (pt_node m root (va_path va')) as [y|] eqn:E'; cbn; [|done].
    apply slot_store_ne; eauto using node_aligned, short_va_path; try (apply PX_range; lia).
    destruct (decide (x = y)) as [->|]; [right|by left]. intros H0. apply Hne.
    assert (va_path va = va_path va') as Hp by (eapply wf_inj; eauto using short_va_path).
    unfold va_path in Hp. simplify_eq. by apply PX_inj.
Qed.

(** Linking a zeroed page [y] into an empty slot of a directory adds one node. *)
Context (p : list Z) (x i y : Z).
Hypothesis (Hp : short (p ++ [i])) (Hx : pt_node m root p = Some x) (Hempty : valid (ld64 m (x + 8 * i)) = false).
Hypothesis (Hlow : low (p ++ [i])).
Hypothesis (Hy : page_ok y) (Hyn : ~ is_node m root y) (Hyl : y ∉ l).
Hypothesis (Hzero : forall a, in_page y a -> m.[a] = 0) (Hypa : pa_ok y).

Definition linked : gmap Z Z := st64 m (x + 8 * i) (Z.lor (PA2PTE y) PTE_V).

Lemma short_p : short p /\ (length p <= 1)%nat /\ idx_ok i.
Proof. by apply short_snoc. Qed.

Lemma node_not_y q z : short q -> pt_node m root q = Some z -> z <> y.
Proof. intros Hs Hq ->. apply Hyn. by exists q. Qed.

Lemma linked_entry : ld64 linked (x + 8 * i) = y / PGSIZE * 1024 + 1.
Proof.
  unfold linked, PTE_V. rewrite PA2PTE_lor by (done || lia). apply ld64_st64.
  destruct Hypa as [_ ?]. unfold PGSIZE. Z.div_mod_to_equations. lia.
Qed.

Lemma linked_slot q z j : short q -> pt_node m root q = Some z -> idx_ok j ->
  z <> x \/ j <> i -> ld64 linked (z + 8 * j) = ld64 m (z + 8 * j).
Proof.
  intros Hs Hq Hj Hne. destruct short_p as (Hsp & _ & Hi). apply slot_store_ne; eauto using node_aligned. naive_solver.
Qed.

Lemma linked_y j : idx_ok j -> ld64 linked (y + 8 * j) = 0.
Proof.
  intros Hj. destruct short_p as (Hsp & _ & Hi). unfold linked.
  rewrite slot_store_ne; [|by eauto using node_aligned|by destruct Hy|done..|left; by eapply node_not_y].
  apply ld64_zero. intros b Hb. by apply Hzero, (slot_in_page y j).
Qed.

Lemma child_empty : child m x i = None.
Proof. unfold child. by rewrite Hempty. Qed.

Lemma node_linked q : short q -> pt_node linked root q = if decide (q = p ++ [i]) then Some y else pt_node m root q.
Proof.
  induction q as [|j q IH] using rev_ind; [by destruct p|].
  intros Hs. apply short_snoc in Hs as (Hs & Hlq & Hj). rewrite !pt_node_snoc, IH by done.
  destruct short_p as (Hsp & Hlp & Hi).
  destruct (decide (q = p ++ [i])) as [->|Hne].
  - cbn. unfold child at 1. rewrite linked_y by done. cbn.
    rewrite decide_False by (intros Heq%(f_equal length); rewrite !length_app in Heq; cbn in Heq; lia).
    rewrite pt_node_snoc, Hx. cbn. by rewrite child_empty.
  - destruct (pt_node m root q) as [z|] eqn:E; cbn.
    + destruct (decide (z = x /\ j = i)) as [[-> ->]|Hzj].
      * assert (q = p) as -> by (by eapply wf_inj). rewrite decide_True by done.
        unfold child. rewrite linked_entry, valid_mod, PTE2PA_mk by (done || lia).
        replace ((y / PGSIZE * 1024 + 1) mod 2) with 1 by (Z.div_mod_to_equations; lia). done.
      * apply not_and_l in Hzj. rewrite (child_slot linked m) by (by apply (linked_slot q)).
        destruct (decide (q ++ [j] = p ++ [i])) as [Heq|]; [|done].
        apply app_inj_2 in Heq as [-> ?]; [|done]. naive_solver.
    + destruct (decide (q ++ [j] = p ++ [i])) as [Heq|]; [|done].
      apply app_inj_2 in Heq as [-> ?]; [|done]. congruence.
Qed.

Lemma is_node_linked z : is_node linked root z <-> is_node m root z \/ z = y.
Proof.
  split.
  - intros (q & Hs & Hq). rewrite node_linked in Hq by done.
    destruct (decide (q = p ++ [i])); [injection Hq as <-; by right|]. left. by exists q.
  - intros [(q & Hs & Hq)| ->].
    + exists q. split; [done|]. rewrite node_linked by done. destruct (decide (q = p ++ [i])) as [->|]; [|done].
      rewrite pt_node_snoc, Hx in Hq. cbn in Hq. by rewrite child_empty in Hq.
    + exists (p ++ [i]). split; [done|]. rewrite node_linked by done. by rewrite decide_True.
Qed.

Lemma pt_wf_linked : pt_wf linked root l.
Proof.
  constructor; [| | |intros q z Hq; rewrite node_linked by done; destruct (decide (q = p ++ [i])) as [->|]; [done|by apply (wf_low _ _ _ Hwf)]].
  - intros z [Hz| ->]%is_node_linked; [by apply (wf_page _ _ _ Hwf)|done].
  - intros q1 q2 z H1 H2. rewrite !node_linked by done.
    destruct (decide (q1 = p ++ [i])) as [->|], (decide (q2 = p ++ [i])) as [->|]; intros G1 G2; [done| | |].
    + injection G1 as <-. by destruct (node_not_y q2 y H2 G2).
    + injection G2 as <-. by destruct (node_not_y q1 y H1 G1).
    + by eapply (wf_inj _ _ _ Hwf).
  - intros q z j Hlq Hs Hz Hj. rewrite node_linked in Hz by done.
    destruct (decide (q = p ++ [i])) as [->|].
    + injection Hz as <-. by rewrite linked_y.
    + destruct (decide (z = x /\ j = i)) as [[-> ->]|Hne].
      * intros _. rewrite linked_entry, land14_mod.
        replace ((y / PGSIZE * 1024 + 1) mod 16) with 1 by (Z.div_mod_to_equations; lia). done.
      * rewrite (linked_slot q) by (done || by apply not_and_l). by eapply wf_dir.
Qed.

Lemma pte_at_linked va : pte_at linked root va = pte_at m root va.
Proof.
  unfold pte_at, pte_addr. rewrite node_linked by apply short_va_path. destruct short_p as (Hsp & Hlp & Hi).
  destruct (decide (va_path va = p ++ [i])) as [->|Hne]; cbn.
  - rewrite linked_y by (apply PX_range; lia). rewrite pt_node_snoc, Hx. cbn. by rewrite child_empty.
  - destruct (pt_node m root (va_path va)) as [z|] eqn:E; cbn; [|done].
    apply (linked_slot (va_path va)); [apply short_va_path|done|apply PX_range; lia|]. left. intros ->.
    assert (p = va_path va) as -> by (eapply (wf_inj _ _ _ Hwf); eauto using short_va_path).
    unfold va_path in Hlp. cbn in Hlp. lia.
Qed.

End Stores.

(** ** walk and walkaddr *)

(** From [m] to [m'] the table grew by the nodes [taken]; nothing else moved. *)
Record pt_grow (m m' : gmap Z Z) (root : Z) (taken : list Z) : Prop := {
  grow_frame : forall a, (forall x, is_node m' root x -> ~ in_page x a) -> m'.[a] = m.[a];
  grow_nodes : forall x, is_node m' root x <-> is_node m root x \/ x ∈ taken;
  grow_pte : forall va, pte_at m' root va = pte_at m root va
}.

Lemma pt_grow_refl m root : pt_grow m m root [].
Proof. split; [done| |done]. intros x. rewrite elem_of_nil. naive_solver. Qed.

Lemma pt_grow_trans m1 m2 m3 root t1 t2 : pt_grow m1 m2 root t1 -> pt_grow m2 m3 root t2 -> pt_grow m1 m3 root (t1 ++ t2).
Proof.
  intros [F1 N1 P1] [F2 N2 P2]. split.
  - intros a Ha. rewrite F2, F1; [done| |done]. intros x Hx. apply Ha, N2. by left.
  - intros x. rewrite N2, N1, elem_of_app. naive_solver.
  - intros va. by rewrite P2.
Qed.

Fixpoint vpath (level : nat) (va : Z) : list Z :=
  match level with O => [] | S l => PX level va :: vpath l va end.

Section Walk.
Context `{KernelImageOk}.

Lemma page_pa_ok a : page_ok a -> pa_ok a.
Proof. intros Ha. pose proof (page_ok_range a Ha). destruct Ha. split; [done|]. unfold PHYSTOP, KERNBASE, PGSIZE in *. lia. Qed.

Lemma walk_loop_lookup level x va Q w :
  Q (default 0 (y ← pt_node (k_mem (st w)) x (vpath level va); Some (y + 8 * PX 0 va))) w ->
  wp (walk_loop level x va false) Q w.
Proof.
  revert x. induction level as [|level IH]; intros x HQ; cbn [walk_loop]; [by apply wp_ret|].
  apply wp_bind. unfold load64. apply wp_gets. cbn [vpath pt_node] in HQ. unfold child in HQ.
  destruct (valid _); [by apply IH|]. by apply wp_ret.
Qed.

(** [walk] without allocation is a lookup. *)
Lemma wp_walk_lookup root va Q w : 0 <= va < MAXVA ->
  Q (default 0 (pte_addr (k_mem (st w)) root va)) w -> wp (walk root va false) Q w.
Proof.
  intros Hva HQ. unfold walk. rewrite (proj2 (Z.leb_gt _ _)) by lia. by apply walk_loop_lookup.
Qed.

Lemma pte_addr_pos m root l va a : pt_wf m root l -> pte_addr m root va = Some a -> 0 < a.
Proof.
  intros Hwf Ha. unfold pte_addr in Ha. destruct (pt_node m root (va_path va)) as [x|] eqn:E; cbn in Ha; simplify_eq.
  assert (is_node m root x) as Hx by (exists (va_path va); split; [apply short_va_path|done]).
  destruct (wf_page _ _ _ Hwf x Hx) as [Hx' _]. pose proof (page_ok_range x Hx'). pose proof (PX_range 0 va). lia.
Qed.

(** [walkaddr] is the physical page of a valid user page, or 0. *)
Lemma wp_walkaddr root l va Q w : 0 <= va -> pt_wf (k_mem (st w)) root l ->
  (let e := pte_at (k_mem (st w)) root va in
   Q (if decide (va < MAXVA /\ valid e = true /\ Z.land e PTE_U <> 0) then PTE2PA e else 0) w) ->
  wp (walkaddr root va) Q w.
Proof.
  intros Hva Hwf HQ. unfold walkaddr. cbn zeta in HQ.
  destruct (MAXVA <=? va) eqn:E; bool_facts; [rewrite decide_False in HQ by lia; by apply wp_ret|].
  apply wp_bind, wp_walk_lookup; [lia|]. unfold pte_at in HQ.
  destruct (pte_addr (k_mem (st w)) root va) as [a|] eqn:Ea; cbn [default id].
  - pose proof (pte_addr_pos _ _ _ _ _ Hwf Ea). rewrite (proj2 (Z.eqb_neq a 0)) by lia.
    apply wp_bind. unfold load64. apply wp_gets. rewrite valid_land.
    destruct (valid _) eqn:Ev; cbn [negb]; [|rewrite decide_False in HQ by naive_solver; by apply wp_ret].
    destruct (Z.eqb_spec (Z.land (ld64 (k_mem (st w)) a) PTE_U) 0).
    + rewrite decide_False in HQ by naive_solver. by apply wp_ret.
    + rewrite decide_True in HQ by done. by apply wp_ret.
  - rewrite decide_False in HQ by (cbn; naive_solver). by apply wp_ret.
Qed.

(** A fresh page can be zeroed and linked. *)
Lemma fresh_page m m' root y l : pt_wf m root (y :: l) ->
  (forall b, ~ in_page y b -> m'.[b] = m.[b]) -> page_ok y ->
  pt_wf m' root l /\ ~ is_node m' root y /\ (forall p, short p -> pt_node m' root p = pt_node m root p) /\
  (forall x, is_node m' root x <-> is_node m root x) /\ (forall va, pte_at m' root va = pte_at m root va) /\
  (forall p x i, short (p ++ [i]) -> pt_node m root p = Some x -> ld64 m' (x + 8 * i) = ld64 m (x + 8 * i)).
Proof.
  intros Hwf Hm Hy.
  assert (Hny : ~ is_node m root y).
  { intros Hn. destruct (wf_page _ _ _ Hwf y Hn) as [_ []]. set_solver. }
  assert (Hag : forall x a, is_node m root x -> in_page x a -> m'.[a] = m.[a]).
  { intros x a Hx Ha. apply Hm. destruct (wf_page _ _ _ Hwf x Hx) as [[Hxa _] _]. destruct Hy.
    apply (page_disjoint x y); [done|done|by intros ->|done]. }
  split_and!.
  - apply (pt_wf_ext m m'); [done|]. by eapply pt_wf_avoid; [|exact Hwf]; set_solver.
  - by rewrite (is_node_ext m m').
  - by apply pt_node_ext.
  - by apply is_node_ext.
  - intros va. by apply pte_at_ext.
  - intros p x i (Hs & _ & Hi)%short_snoc Hx. apply slot_ext; [done|]. intros a Ha. apply (Hag x); [by exists p|done].
Qed.

(** Linking a page taken from the free list. *)
Lemma link_fresh m m2 root l p x i y :
  pt_wf m root (y :: l) -> short (p ++ [i]) -> low (p ++ [i]) -> pt_node m root p = Some x -> valid (ld64 m (x + 8 * i)) = false ->
  page_ok y -> y ∉ l -> (forall b, m2.[b] = if decide (in_page y b) then 0 else m.[b]) ->
  let m3 := st64 m2 (x + 8 * i) (Z.lor (PA2PTE y) PTE_V) in
  pt_wf m3 root l /\ pt_grow m m3 root [y] /\ pt_node m3 root (p ++ [i]) = Some y.
Proof.
  intros Hwf Hs Hlow Hx Hev Hy Hnin Hm2 m3.
  destruct (fresh_page m m2 root y l) as (Hwf2 & Hny & Hpn & Hnodes & Hpte & Hslot);
    [done|intros b Hb; by rewrite Hm2, decide_False|done|].
  assert (Hx2 : pt_node m2 root p = Some x) by (rewrite Hpn by (by apply short_snoc in Hs as [? _]); done).
  assert (Hempty : valid (ld64 m2 (x + 8 * i)) = false) by (by rewrite (Hslot p x i)).
  assert (Hz : forall a, in_page y a -> m2.[a] = 0) by (intros a Ha; by rewrite Hm2, decide_True).
  pose proof (page_pa_ok y Hy) as Hpa.
  pose proof (is_node_linked Hwf2 p x i y Hs Hx2 Hempty Hlow Hy Hny Hz Hpa : forall z, is_node m3 root z <-> _) as Hnode3.
  split_and!; [by apply (pt_wf_linked Hwf2 p)| |].
  - split.
    + intros a Ha. assert (~ in_page y a) as Hya by (apply Ha, Hnode3; by right).
      assert (~ in_page x a) as Hxa by (apply Ha, Hnode3; left; exists p; split; [by apply short_snoc in Hs as [? _]|done]).
      unfold m3. rewrite st64_frame; [by rewrite Hm2, decide_False|]. apply short_snoc in Hs as (_ & _ & Hi).
      destruct (decide (x + 8 * i <= a < x + 8 * i + 8)) as [Hin|]; [|lia]. by apply slot_in_page in Hin.
    + intros z. rewrite Hnode3, Hnodes, list_elem_of_singleton. done.
    + intros va. rewrite <- Hpte. by apply (pte_at_linked Hwf2 p).
  - unfold m3. fold (@linked m2 x i y). rewrite (node_linked Hwf2 p) by done. by rewrite decide_True.
Qed.

(** The free list survives changes to pages that are not on it. *)
Lemma freelist_frame m m' root l fl : freelist_ok m fl l -> pt_wf m' root l ->
  (forall a, (forall x, is_node m' root x -> ~ in_page x a) -> m'.[a] = m.[a]) -> freelist_ok m' fl l.
Proof.
  intros [Hfl Hnd] Hwf Hm. split; [|done]. apply (fl_rep_ext m); [|done]. intros q a Hq Ha. symmetry. apply Hm.
  intros x Hx. destruct (wf_page _ _ _ Hwf x Hx) as [[Hxa _] Hxl].
  apply fl_rep_ok in Hfl. rewrite list.Forall_forall in Hfl. destruct (Hfl q Hq) as [Hqa _].
  apply (page_disjoint q x); [done|done|by intros ->|done].
Qed.

(** What [walk] with allocation ends with. *)
Definition walked (root va : Z) (l : list Z) (m : gmap Z Z) (r : Z) (m' : gmap Z Z) (fl' : Z) : Prop :=
  exists taken l', l = taken ++ l' /\ freelist_ok m' fl' l' /\ pt_wf m' root l' /\ pt_grow m m' root taken /\
    (r = 0 /\ l' = [] \/ r <> 0 /\ pte_addr m' root va = Some r).

Lemma walk_loop_alloc level p x root va l Q w : 0 <= va < MAXVA ->
  kmem_ready (st w) -> freelist_ok (k_mem (st w)) (k_freelist (st w)) l -> pt_wf (k_mem (st w)) root l ->
  p ++ vpath level va = va_path va -> pt_node (k_mem (st w)) root p = Some x ->
  (forall r s', kmem_rel (st w) s' -> walked root va l (k_mem (st w)) r (k_mem s') (k_freelist s') -> Q r (World s' (env w))) ->
  wp (walk_loop level x va true) Q w.
Proof.
  revert p x l w. induction level as [|level IH]; intros p x l w Hva Hr Hfl Hwf Hp Hx HQ; cbn [walk_loop].
  - apply wp_ret. cbn [vpath] in Hp. rewrite app_nil_r in Hp. subst p. destruct w as [s e]. apply HQ; [done|].
    exists [], l. split_and!; [done|done|done|apply pt_grow_refl|right].
    assert (pte_addr (k_mem s) root va = Some (x + 8 * PX 0 va)) as Ha by (unfold pte_addr; cbn [st] in Hx; by rewrite Hx).
    split; [|done]. pose proof (pte_addr_pos _ _ _ _ _ Hwf Ha). lia.
  - set (i := PX (S level) va) in *.
    assert (Hs : short (p ++ [i])).
    { assert (Hv : short (p ++ vpath (S level) va)) by (rewrite Hp; apply short_va_path).
      cbn [vpath] in Hv. fold i in Hv. replace (i :: vpath level va) with ([i] ++ vpath level va) in Hv by done.
      rewrite app_assoc in Hv. destruct Hv as [Hl Hf]. rewrite length_app in Hl. apply list.Forall_app in Hf as [Hf _].
      split; [lia|done]. }
    assert (Hp' : (p ++ [i]) ++ vpath level va = va_path va) by (by rewrite <- app_assoc).
    assert (Hlow : low (p ++ [i])) by (eapply low_prefix; [apply (low_va_path va Hva)|exact Hp'|by destruct p]).
    apply wp_bind. unfold load64 at 1. apply wp_gets.
    destruct (valid (ld64 (k_mem (st w)) (x + 8 * i))) eqn:Ev.
    + apply (IH (p ++ [i]) _ l); [done..| |done]. rewrite pt_node_snoc, Hx. cbn. unfold child. by rewrite Ev.
    + apply wp_bind, (wp_kalloc l); [done|done|]. destruct l as [|y l].
      { cbn [Z.eqb]. apply wp_ret. apply HQ; [apply kmem_rel_upd|]. exists [], []. split_and!; [done..|apply pt_grow_refl|by left]. }
      intros m1 fl1 Hy Hnin Hfl1 Hm1. pose proof (page_ok_range y Hy) as [Hpos _].
      rewrite (proj2 (Z.eqb_neq y 0)) by lia. unfold clear_page, store64. rewrite (proj2 (Z.eqb_neq y 0)) by lia.
      apply wp_bind, wp_modify, wp_bind, wp_modify. cbn [st env k_mem set_k_mem kmem_upd].
      assert (Hm2 : forall b, (memset m1 y 0 PGSIZE).[b] = if decide (in_page y b) then 0 else (k_mem (st w)).[b]).
      { intros b. rewrite memset_page, Hm1. by destruct (decide (in_page y b)). }
      generalize dependent (memset m1 y 0 PGSIZE). intros m2 Hm2.
      destruct (link_fresh (k_mem (st w)) m2 root l p x i y) as (Hwf3 & Hgrow & Hn3); [done..|].
      assert (Hfl3 : freelist_ok (st64 m2 (x + 8 * i) (Z.lor (PA2PTE y) PTE_V)) fl1 l).
      { apply (freelist_frame m1 _ root); [done..|]. intros a Ha. rewrite (grow_frame _ _ _ _ Hgrow) by done.
        rewrite Hm1, decide_False; [done|]. apply Ha, Hgrow. right. set_solver. }
      generalize dependent (st64 m2 (x + 8 * i) (Z.lor (PA2PTE y) PTE_V)). intros m3 Hwf3 Hgrow Hn3 Hfl3.
      apply (IH (p ++ [i]) y l); cbn [st env]; [done|done|exact Hfl3|exact Hwf3|done|exact Hn3|].
      intros r s' Hs' (taken & l' & -> & H1 & H2 & H3 & H4). apply HQ.
      * etrans; [|exact Hs']. do 2 apply kmem_rel_mem. apply kmem_rel_upd.
      * exists (y :: taken), l'. split_and!; [done..| |done]. by apply (pt_grow_trans _ m3 _ _ [y]).
Qed.

(** [walk] with allocation. *)
Lemma wp_walk_alloc root va l Q w :
  0 <= va < MAXVA ->
  kmem_ready (st w) -> freelist_ok (k_mem (st w)) (k_freelist (st w)) l -> pt_wf (k_mem (st w)) root l ->
  (forall r s', kmem_rel (st w) s' -> walked root va l (k_mem (st w)) r (k_mem s') (k_freelist s') -> Q r (World s' (env w))) ->
  wp (walk root va true) Q w.
Proof.
  intros Hva Hr Hfl Hwf HQ. unfold walk. rewrite (proj2 (Z.leb_gt _ _)) by lia.
  by apply (walk_loop_alloc 2 [] root root va l).
Qed.

(** ** mappages *)

(** From [m] to [m'] the table grew by [taken] and its entries changed by [f];
    outside its nodes nothing changed. *)
Record pt_step (m m' : gmap Z Z) (root : Z) (taken : list Z) (f : Z -> Z -> Z) : Prop := {
  step_frame : forall a, (forall x, is_node m' root x -> ~ in_page x a) -> m'.[a] = m.[a];
  step_nodes : forall x, is_node m' root x <-> is_node m root x \/ x ∈ taken;
  step_pte : forall va, 0 <= va < MAXVA -> pte_at m' root va = f va (pte_at m root va)
}.

Lemma pt_step_trans m1 m2 m3 root t1 t2 f g :
  pt_step m1 m2 root t1 f -> pt_step m2 m3 root t2 g -> pt_step m1 m3 root (t1 ++ t2) (fun va e => g va (f va e)).
Proof.
  intros [F1 N1 P1] [F2 N2 P2]. split.
  - intros a Ha. rewrite F2, F1; [done| |done]. intros x Hx. apply Ha, N2. by left.
  - intros x. rewrite N2, N1, elem_of_app. naive_solver.
  - intros va Hva. by rewrite P2, P1.
Qed.

Lemma pt_step_ext m m' root t f g : (forall va e, 0 <= va < MAXVA -> f va e = g va e) ->
  pt_step m m' root t f -> pt_step m m' root t g.
Proof. intros Hfg [F N P]. split; [done..|]. intros va Hva. by rewrite P, Hfg. Qed.

Lemma pt_grow_step m m' root t : pt_grow m m' root t -> pt_step m m' root t (fun _ e => e).
Proof. intros [F N P]. by split. Qed.

(** A store through the address [walk] returned. *)
Lemma pt_step_store m root l va a v : pt_wf m root l -> 0 <= va < MAXVA -> 0 <= v < 18446744073709551616 ->
  pte_addr m root va = Some a ->
  pt_wf (st64 m a v) root l /\
  pt_step m (st64 m a v) root [] (fun va' e => if decide (va / PGSIZE = va' / PGSIZE) then v else e).
Proof.
  intros Hwf Hva Hv Ha. pose proof (fun va' H => pte_at_store_leaf Hwf va a v va' Hva H Hv Ha) as Hpte.
  unfold pte_addr in Ha. destruct (pt_node m root (va_path va)) as [x|] eqn:E; cbn in Ha; simplify_eq.
  assert (idx_ok (PX 0 va)) as Hi by (apply PX_range; lia).
  pose proof (node_store_leaf Hwf (va_path va) x (PX 0 va) v (short_va_path va) eq_refl E Hi) as Hn.
  assert (Hnodes : forall y, is_node (st64 m (x + 8 * PX 0 va) v) root y <-> is_node m root y).
  { intros y. unfold is_node. split; intros (q & Hs & Hq); exists q; (split; [done|]); [by rewrite Hn in Hq|by rewrite Hn]. }
  split; [by apply (pt_wf_store_leaf Hwf (va_path va)); eauto using short_va_path|]. split; [| |done].
  - intros b Hb. apply st64_frame. destruct (decide (x + 8 * PX 0 va <= b < x + 8 * PX 0 va + 8)) as [Hin|]; [|lia].
    apply slot_in_page in Hin; [|done]. destruct (Hb x); [|done]. apply Hnodes. exists (va_path va). split; [apply short_va_path|done].
  - intros y. rewrite Hnodes, elem_of_nil. naive_solver.
Qed.

(** The effect on the entries of mapping [n] pages from virtual page number
    [v0] to [pa] onwards. *)
Definition map_range (v0 n pa perm : Z) (va e : Z) : Z :=
  if decide (v0 <= va / PGSIZE < v0 + n) then leaf_pte (pa + (va / PGSIZE - v0) * PGSIZE) perm else e.

Definition mapped (root v0 n pa perm : Z) (l : list Z) (m : gmap Z Z) (r : Z) (m' : gmap Z Z) (fl' : Z) : Prop :=
  exists taken l' k, l = taken ++ l' /\ freelist_ok m' fl' l' /\ pt_wf m' root l' /\
    pt_step m m' root taken (map_range v0 k pa perm) /\
    (r = 0 /\ k = n \/ r = -1 /\ 0 <= k < n /\ l' = []).

Lemma map_range_one v0 pa perm va e :
  (if decide (v0 = va / PGSIZE) then leaf_pte pa perm else e) = map_range v0 1 pa perm va e.
Proof.
  unfold map_range. destruct (decide (v0 = va / PGSIZE)) as [->|].
  - rewrite decide_True by lia. by rewrite Z.sub_diag, Z.mul_0_l, Z.add_0_r.
  - by rewrite decide_False by lia.
Qed.

Lemma map_range_cons v0 k pa perm va e : 0 <= k ->
  map_range (v0 + 1) k (pa + PGSIZE) perm va (map_range v0 1 pa perm va e) = map_range v0 (k + 1) pa perm va e.
Proof.
  intros Hk. unfold map_range. destruct (decide (v0 <= va / PGSIZE < v0 + 1)) as [Heq|].
  - rewrite decide_False, decide_True by lia. by replace (va / PGSIZE) with v0 by lia.
  - destruct (decide (v0 + 1 <= va / PGSIZE < v0 + 1 + k)).
    + rewrite decide_True by lia. f_equal. lia.
    + by rewrite decide_False by lia.
Qed.

(** One round of [mappages]: it fails for want of memory, or maps one page. *)
Lemma mappages_round fuel root a last pa perm l Q w :
  0 <= a < MAXVA -> pa_ok pa -> 0 <= perm < 1024 ->
  kmem_ready (st w) -> freelist_ok (k_mem (st w)) (k_freelist (st w)) l -> pt_wf (k_mem (st w)) root l ->
  valid (pte_at (k_mem (st w)) root a) = false ->
  (forall s1, kmem_rel (st w) s1 ->
     (forall n, 0 < n -> mapped root (a / PGSIZE) n pa perm l (k_mem (st w)) (-1) (k_mem s1) (k_freelist s1)) ->
     Q (-1) (World s1 (env w))) ->
  (forall s1 t1 l1, kmem_rel (st w) s1 -> l = t1 ++ l1 -> freelist_ok (k_mem s1) (k_freelist s1) l1 ->
     pt_wf (k_mem s1) root l1 -> pt_step (k_mem (st w)) (k_mem s1) root t1 (map_range (a / PGSIZE) 1 pa perm) ->
     wp (if a =? last then mret 0 else mappages_loop fuel root (u64 (a + PGSIZE)) last (u64 (pa + PGSIZE)) perm) Q
        (World s1 (env w))) ->
  wp (mappages_loop (S fuel) root a last pa perm) Q w.
Proof.
  intros Ha Hpa Hperm Hr Hfl Hwf Hun HQ1 HQ2. cbn [mappages_loop].
  apply wp_bind, (wp_walk_alloc root a l); [done..|].
  intros pte s1 Hs1 (t1 & l1 & -> & Hfl1 & Hwf1 & Hgrow & [[-> ->]|[Hne Haddr]]).
  { cbn [Z.eqb]. apply wp_ret, HQ1; [done|]. intros n Hn. exists t1, [], 0.
    split_and!; [done..| |right; split_and!; by (done || lia)].
    apply pt_grow_step in Hgrow. eapply pt_step_ext; [|exact Hgrow]. intros va e _. unfold map_range. by rewrite decide_False by lia. }
  rewrite (proj2 (Z.eqb_neq pte 0)) by done. unfold load64, store64. apply wp_bind, wp_gets. cbn [st].
  assert (ld64 (k_mem s1) pte = pte_at (k_mem s1) root a) as -> by (unfold pte_at; by rewrite Haddr).
  rewrite (grow_pte _ _ _ _ Hgrow), Hun. apply wp_bind, wp_modify. cbn [st env]. fold (leaf_pte pa perm).
  pose proof (leaf_pte_range pa perm Hpa Hperm) as Hrange.
  destruct (pt_step_store (k_mem s1) root l1 a pte (leaf_pte pa perm)) as [Hwf2 Hstep]; [done..|].
  pose proof (pt_step_trans _ _ _ _ _ _ _ _ (pt_grow_step _ _ _ _ Hgrow) Hstep) as Hstep2. rewrite app_nil_r in Hstep2.
  apply (HQ2 _ t1 l1); cbn [k_mem k_freelist set_k_mem]; [by apply kmem_rel_mem|done| |done|].
  - eapply freelist_frame; [exact Hfl1|exact Hwf2|apply Hstep].
  - eapply pt_step_ext; [|exact Hstep2]. intros va e _. apply map_range_one.
Qed.

Lemma page_div_succ a : (a + PGSIZE) / PGSIZE = a / PGSIZE + 1.
Proof. unfold PGSIZE. Z.div_mod_to_equations. lia. Qed.
Lemma page_mod_succ a : (a + PGSIZE) mod PGSIZE = a mod PGSIZE.
Proof. unfold PGSIZE. Z.div_mod_to_equations. lia. Qed.
Lemma MAXVA_val : MAXVA = 67108864 * PGSIZE.
Proof. reflexivity. Qed.

Lemma mappages_loop_spec fuel root a last pa perm l Q w :
  a mod PGSIZE = 0 -> last mod PGSIZE = 0 -> 0 <= a <= last -> last < MAXVA -> last - a < Z.of_nat fuel * PGSIZE ->
  pa_ok pa -> pa + (last - a) < 72057594037927936 -> 0 <= perm < 1024 ->
  kmem_ready (st w) -> freelist_ok (k_mem (st w)) (k_freelist (st w)) l -> pt_wf (k_mem (st w)) root l ->
  (forall va, a <= va < last + PGSIZE -> valid (pte_at (k_mem (st w)) root va) = false) ->
  (forall r s', kmem_rel (st w) s' ->
     mapped root (a / PGSIZE) (last / PGSIZE - a / PGSIZE + 1) pa perm l (k_mem (st w)) r (k_mem s') (k_freelist s') ->
     Q r (World s' (env w))) ->
  wp (mappages_loop fuel root a last pa perm) Q w.
Proof.
  revert a pa l w. induction fuel as [|fuel IH]; intros a pa l w Ha Hlast Hal Hm Hfuel Hpa Hpar Hperm Hr Hfl Hwf Hun HQ; [lia|].
  assert (Hle : a / PGSIZE <= last / PGSIZE) by (apply Z.div_le_mono; [done|lia]).
  apply (mappages_round fuel root a last pa perm l); [lia|done..|apply Hun; unfold PGSIZE; lia| |].
  { intros s1 Hs1 Hfail. apply HQ; [done|]. apply Hfail. lia. }
  intros s1 t1 l1 Hs1 -> Hfl1 Hwf1 Hstep1.
  destruct (Z.eqb_spec a last) as [->|Hneq].
  { apply wp_ret, HQ; [done|]. exists t1, l1, 1. split_and!; [done..|left; split; [done|lia]]. }
  assert (Hlt : a + PGSIZE <= last) by (unfold PGSIZE in *; Z.div_mod_to_equations; lia).
  rewrite MAXVA_val in *. rewrite !u64_small by (destruct Hpa; unfold PGSIZE in *; lia).
  apply (IH (a + PGSIZE) (pa + PGSIZE) l1); cbn [st env]; try done.
  - by rewrite page_mod_succ.
  - unfold PGSIZE in *; lia.
  - unfold PGSIZE in *; lia.
  - destruct Hpa. split; [by rewrite page_mod_succ|unfold PGSIZE in *; lia].
  - lia.
  - by eapply kmem_rel_ready.
  - intros va Hva. rewrite (step_pte _ _ _ _ _ Hstep1) by (rewrite MAXVA_val; unfold PGSIZE in *; Z.div_mod_to_equations; lia).
    unfold map_range. rewrite decide_False by (unfold PGSIZE in *; Z.div_mod_to_equations; lia). apply Hun. lia.
  - rewrite page_div_succ. intros r s' Hs' (t2 & l2 & k & -> & H1 & H2 & H3 & H4). apply HQ; [by etrans|].
    exists (t1 ++ t2), l2, (k + 1). rewrite <- app_assoc. split_and!; [done..| |].
    + pose proof (pt_step_trans _ _ _ _ _ _ _ _ Hstep1 H3) as Hstep3. eapply pt_step_ext; [|exact Hstep3].
      intros va e _. apply map_range_cons. destruct H4 as [[_ ->]|[_ [? _]]]; [|lia].
      assert (a / PGSIZE + 1 <= last / PGSIZE) by (rewrite <- page_div_succ; apply Z.div_le_mono; [done|lia]). lia.
    + destruct H4 as [[-> ->]|(-> & ? & ->)]; [left; split; [done|lia]|right; split_and!; [done|lia|lia|done]].
Qed.

(** [mappages] on a range of unmapped addresses. *)
Lemma wp_mappages root va size pa perm l Q w :
  0 < size -> 0 <= va -> va + size <= MAXVA -> pa_ok pa -> pa + size + 2 * PGSIZE < 72057594037927936 -> 0 <= perm < 1024 ->
  kmem_ready (st w) -> freelist_ok (k_mem (st w)) (k_freelist (st w)) l -> pt_wf (k_mem (st w)) root l ->
  (forall va', va / PGSIZE <= va' / PGSIZE <= (va + size - 1) / PGSIZE -> valid (pte_at (k_mem (st w)) root va') = false) ->
  (forall r s', kmem_rel (st w) s' ->
     mapped root (va / PGSIZE) ((va + size - 1) / PGSIZE - va / PGSIZE + 1) pa perm l (k_mem (st w)) r (k_mem s') (k_freelist s') ->
     Q r (World s' (env w))) ->
  wp (mappages root va size pa perm) Q w.
Proof.
  intros Hsz Hva Hmax Hpa Hpar Hperm Hr Hfl Hwf Hun HQ. unfold mappages.
  rewrite (proj2 (Z.eqb_neq size 0)) by lia. rewrite MAXVA_val in *.
  rewrite (u64_small (va + size - 1)) by (unfold PGSIZE in *; lia).
  rewrite !PGROUNDDOWN_spec by (unfold PGSIZE in *; lia).
  assert (Hle : va / PGSIZE <= (va + size - 1) / PGSIZE) by (apply Z.div_le_mono; [done|lia]).
  apply (mappages_loop_spec _ root _ _ pa perm l); try done.
  - apply Z.mod_mul. done.
  - apply Z.mod_mul. done.
  - unfold PGSIZE in *. Z.div_mod_to_equations. lia.
  - rewrite MAXVA_val. unfold PGSIZE in *. Z.div_mod_to_equations. lia.
  - rewrite u64_small by (unfold PGSIZE in *; Z.div_mod_to_equations; lia).
    rewrite Nat2Z.inj_succ. unfold PGSIZE in *. Z.div_mod_to_equations. lia.
  - unfold PGSIZE in *. Z.div_mod_to_equations. lia.
  - intros va' Hva'. apply Hun. unfold PGSIZE in *. Z.div_mod_to_equations. lia.
  - by rewrite !Z.div_mul.
Qed.

End Walk.

(** ** uvmcreate *)

(** A zeroed page is an empty table. *)
Lemma zero_table m root : (forall a, in_page root a -> m.[a] = 0) ->
  (forall x, is_node m root x <-> x = root) /\ (forall va, pte_at m root va = 0) /\
  (forall i, idx_ok i -> ld64 m (root + 8 * i) = 0).
Proof.
  intros Hz. assert (Hs : forall i, idx_ok i -> ld64 m (root + 8 * i) = 0).
  { intros i Hi. apply ld64_zero. intros b Hb. by apply Hz, (slot_in_page root i). }
  assert (Hc : forall i, idx_ok i -> child m root i = None) by (intros i Hi; unfold child; by rewrite Hs).
  split_and!; [|intros va|done].
  - intros x. split; [|by intros ->; apply root_is_node]. intros (p & [_ Hp] & Hx). destruct p as [|i p]; cbn in Hx; [by simplify_eq|].
    apply list.Forall_cons in Hp as [Hi _]. by rewrite Hc in Hx.
  - unfold pte_at, pte_addr, va_path. cbn. rewrite Hc; [done|]. apply PX_range. lia.
Qed.

Lemma pt_wf_zero `{KernelImage} m root l : (forall a, in_page root a -> m.[a] = 0) -> page_ok root -> root ∉ l -> pt_wf m root l.
Proof.
  intros Hz Hok Hl. destruct (zero_table m root Hz) as (Hn & _ & Hs).
  assert (Hp : forall p x, short p -> pt_node m root p = Some x -> p = []).
  { intros p x [_ Hp] Hx. destruct p as [|i p]; [done|]. apply list.Forall_cons in Hp as [Hi _].
    cbn in Hx. unfold child in Hx. by rewrite Hs in Hx. }
  constructor; [| | |intros p x Hsp Hx; by rewrite (Hp p x Hsp Hx)].
  - by intros x ->%Hn.
  - intros p q x Hsp Hsq Hxp Hxq. by rewrite (Hp p x Hsp Hxp), (Hp q x Hsq Hxq).
  - intros p x i _ Hsp Hx Hi. rewrite (Hp p x Hsp Hx) in Hx. cbn in Hx. simplify_eq. by rewrite Hs.
Qed.

(** [uvmcreate] yields an empty table made of one page, or 0 for want of memory. *)
Lemma wp_uvmcreate `{KernelImageOk} l Q w :
  kmem_ready (st w) -> freelist_ok (k_mem (st w)) (k_freelist (st w)) l ->
  (l = [] -> Q 0 (World (settle (st w)) (env w))) ->
  (forall root l' s', l = root :: l' -> kmem_rel (st w) s' -> freelist_ok (k_mem s') (k_freelist s') l' ->
     page_ok root -> root ∉ l' -> pt_wf (k_mem s') root l' ->
     (forall b, (k_mem s').[b] = if decide (in_page root b) then 0 else (k_mem (st w)).[b]) ->
     Q root (World s' (env w))) ->
  wp uvmcreate Q w.
Proof.
  intros Hr Hfl HQ0 HQ. unfold uvmcreate. apply wp_bind, (wp_kalloc l); [done..|].
  destruct l as [|root l]; [apply wp_ret; rewrite <- settle_as_upd; by apply HQ0|].
  intros m1 fl1 Hok Hnin Hfl1 Hm1. pose proof (page_ok_range root Hok) as [Hpos _].
  unfold clear_page. rewrite (proj2 (Z.eqb_neq root 0)) by lia. apply wp_bind, wp_modify, wp_ret. cbn [st env k_mem kmem_upd set_k_mem].
  assert (Hm2 : forall b, (memset m1 root 0 PGSIZE).[b] = if decide (in_page root b) then 0 else (k_mem (st w)).[b]).
  { intros b. rewrite memset_page, Hm1. by destruct (decide (in_page root b)). }
  generalize dependent (memset m1 root 0 PGSIZE). intros m2 Hm2.
  assert (Hwf : pt_wf m2 root l) by (apply pt_wf_zero; [|done..]; intros a Ha; by rewrite Hm2, decide_True).
  apply (HQ root l); [done|by apply kmem_rel_mem, kmem_rel_upd| |done..].
  apply (freelist_frame m1 m2 root); [done..|]. intros a Ha. specialize (Ha root (root_is_node _ _)).
  by rewrite Hm2, Hm1, !decide_False.
Qed.

(** ** The hardware's view

    Address translation as the RISC-V privileged architecture defines it for
    Sv39 (with superpages): the physical address and the flags, or a page fault. *)
Fixpoint sv39 (level : nat) (m : gmap Z Z) (table va : Z) : option (Z * Z) :=
  let e := ld64 m (table + 8 * PX level va) in
  if negb (Z.testbit e 0) || (negb (Z.testbit e 1) && Z.testbit e 2) then None
  else if Z.testbit e 1 || Z.testbit e 3 then
    let size := 2 ^ (12 + 9 * level) in
    if PTE2PA e mod size =? 0 then Some (PTE2PA e + va mod size, PTE_FLAGS e) else None
  else match level with O => None | S level => sv39 level m (PTE2PA e) va end.

Definition translate (m : gmap Z Z) (root va : Z) : option (Z * Z) := sv39 2 m root va.

(** A leaf entry the hardware accepts: valid, readable or executable, not
    writable only. *)
Definition leaf_ok (e : Z) : bool :=
  valid e && negb (negb (Z.testbit e 1) && Z.testbit e 2) && (Z.testbit e 1 || Z.testbit e 3).

Lemma valid_testbit e : valid e = Z.testbit e 0.
Proof. rewrite valid_mod, Z.bit0_eqb. destruct (Z.eqb_spec (e mod 2) 0), (Z.eqb_spec (e mod 2) 1); cbn; Z.div_mod_to_equations; lia. Qed.

(** A directory entry has none of the R, W, X bits. *)
Lemma dir_bits e : Z.land e 14 = 0 -> Z.testbit e 1 = false /\ Z.testbit e 2 = false /\ Z.testbit e 3 = false.
Proof.
  intros H. assert (Hb : forall i, Z.testbit e i && Z.testbit 14 i = false) by (intros i; by rewrite <- Z.land_spec, H, Z.bits_0).
  split_and!; [specialize (Hb 1)|specialize (Hb 2)|specialize (Hb 3)]; by rewrite andb_true_r in Hb.
Qed.

Lemma PTE2PA_aligned e : 0 <= e < 18446744073709551616 -> PTE2PA e mod PGSIZE = 0.
Proof.
  intros He. unfold PTE2PA, u64, PGSIZE. rewrite Z.shiftl_mul_pow2 by lia. change (2 ^ 12) with 4096.
  Z.div_mod_to_equations. lia.
Qed.

(** On a well-formed table the hardware uses the entry that [walk] finds. *)
Lemma translate_pte `{KernelImage} m root l va : pt_wf m root l ->
  translate m root va =
    let e := pte_at m root va in if leaf_ok e then Some (PTE2PA e + va mod PGSIZE, PTE_FLAGS e) else None.
Proof.
  intros Hwf. unfold translate, pte_at, pte_addr.
  change (va_path va) with [PX 2 va; PX 1 va]. cbn [pt_node sv39].
  assert (Hdir : forall p x i, (length p <= 1)%nat -> short p -> pt_node m root p = Some x -> idx_ok i ->
    child m x i = (if Z.testbit (ld64 m (x + 8 * i)) 0 then Some (PTE2PA (ld64 m (x + 8 * i))) else None) /\
    (Z.testbit (ld64 m (x + 8 * i)) 0 = true -> Z.land (ld64 m (x + 8 * i)) 14 = 0)).
  { intros p x i Hl Hs Hp Hi. unfold child. rewrite <- valid_testbit. split; [done|]. by apply (wf_dir _ _ _ Hwf p). }
  destruct (Hdir [] root (PX 2 va)) as [-> H2]; [cbn; lia|apply short_nil|done|apply PX_range; lia|].
  change (Z.of_nat 2) with 2. change (Z.of_nat 1) with 1. change (Z.of_nat 0) with 0.
  destruct (Z.testbit (ld64 m (root + 8 * PX 2 va)) 0) eqn:E2; cbn [mbind option_bind negb orb]; [|done].
  apply dir_bits in H2 as (-> & -> & ->); [|done]. cbn [negb andb orb].
  set (x1 := PTE2PA (ld64 m (root + 8 * PX 2 va))).
  assert (Hx1 : pt_node m root [PX 2 va] = Some x1) by (cbn; unfold child; by rewrite valid_testbit, E2).
  assert (Hs1 : short [PX 2 va]) by (split; [cbn; lia|repeat constructor; apply PX_range; lia]).
  destruct (Hdir [PX 2 va] x1 (PX 1 va)) as [-> H1]; [done|done|done|apply PX_range; lia|].
  destruct (Z.testbit (ld64 m (x1 + 8 * PX 1 va)) 0) eqn:E1; cbn [mbind option_bind negb orb]; [|done].
  apply dir_bits in H1 as (-> & -> & ->); [|done]. cbn [negb andb orb].
  set (e := ld64 m (PTE2PA (ld64 m (x1 + 8 * PX 1 va)) + 8 * PX 0 va)).
  unfold leaf_ok. rewrite valid_testbit.
  destruct (Z.testbit e 0); cbn [negb andb orb]; [|done].
  destruct (negb (Z.testbit e 1) && Z.testbit e 2); cbn [negb andb]; [done|].
  destruct (Z.testbit e 1 || Z.testbit e 3); [|done].
  change (2 ^ (12 + 9 * 0)) with PGSIZE. by rewrite PTE2PA_aligned by apply ld64_range.
Qed.

(** Permissions the hardware accepts in a leaf. *)
Definition perm_ok (perm : Z) : Prop :=
  0 <= perm < 1024 /\ Z.testbit perm 1 || Z.testbit perm 3 = true /\ negb (Z.testbit perm 1) && Z.testbit perm 2 = false.

Lemma leaf_pte_bit pa perm i : pa_ok pa -> 1 <= i < 10 -> Z.testbit (leaf_pte pa perm) i = Z.testbit perm i.
Proof.
  intros Hpa Hi. unfold leaf_pte. rewrite !Z.lor_spec, PA2PTE_val by done. change 1024 with (2 ^ 10).
  rewrite Z.mul_pow2_bits_low by lia. cbn [orb]. replace (Z.testbit PTE_V i) with false; [by rewrite orb_false_r|].
  symmetry. apply Z.bits_above_log2; [done|]. cbn. lia.
Qed.

Lemma leaf_pte_ok pa perm : pa_ok pa -> perm_ok perm -> leaf_ok (leaf_pte pa perm) = true.
Proof.
  intros Hpa (Hr & H1 & H2). unfold leaf_ok. rewrite leaf_pte_valid, !leaf_pte_bit by (done || lia). by rewrite H1, H2.
Qed.

(** The hardware's view after mapping [k] pages. *)
Lemma translate_map_range `{KernelImage} m m' root l l' taken v0 k pa perm va :
  pt_wf m root l -> pt_wf m' root l' -> pt_step m m' root taken (map_range v0 k pa perm) -> 0 <= va < MAXVA ->
  pa_ok pa -> pa + k * PGSIZE < 72057594037927936 -> perm_ok perm ->
  translate m' root va =
    if decide (v0 <= va / PGSIZE < v0 + k) then Some (pa + (va - v0 * PGSIZE), Z.lor perm PTE_V) else translate m root va.
Proof.
  intros Hwf Hwf' Hstep Hva Hpa Hpar Hperm. rewrite (translate_pte m' root l'), (translate_pte m root l) by done. cbn zeta.
  rewrite (step_pte _ _ _ _ _ Hstep) by done. unfold map_range.
  destruct (decide (v0 <= va / PGSIZE < v0 + k)); [|done].
  assert (pa_ok (pa + (va / PGSIZE - v0) * PGSIZE)) as Hpa'.
  { destruct Hpa. split; [by rewrite Z.mod_add|unfold PGSIZE in *; Z.div_mod_to_equations; nia]. }
  rewrite leaf_pte_ok, leaf_pte_pa, leaf_pte_flags by (done || apply Hperm). do 2 f_equal.
  unfold PGSIZE. Z.div_mod_to_equations. lia.
Qed.

(** C13: [mappages] of an unmapped range either returns 0 and the hardware then
    translates exactly the pages of the range, to consecutive physical addresses
    with the given permissions, or returns -1 having run out of memory, with a
    proper prefix of the range mapped.  In both cases every other translation is
    unchanged, the pages of the table come from the free list, the table stays
    well formed, and no byte outside the table changes. *)
Theorem mappages_correct `{KernelImageOk} root va size pa perm l w :
  0 < size -> 0 <= va -> va + size <= MAXVA -> pa_ok pa -> pa + size + 2 * PGSIZE < 72057594037927936 -> perm_ok perm ->
  kmem_ready (st w) -> freelist_ok (k_mem (st w)) (k_freelist (st w)) l -> pt_wf (k_mem (st w)) root l ->
  (forall va', va / PGSIZE <= va' / PGSIZE <= (va + size - 1) / PGSIZE -> valid (pte_at (k_mem (st w)) root va') = false) ->
  wp (mappages root va size pa perm) (fun r w' => exists taken l' k,
    l = taken ++ l' /\ freelist_ok (k_mem (st w')) (k_freelist (st w')) l' /\ pt_wf (k_mem (st w')) root l' /\
    (r = 0 /\ k = (va + size - 1) / PGSIZE - va / PGSIZE + 1 \/
     r = -1 /\ 0 <= k < (va + size - 1) / PGSIZE - va / PGSIZE + 1 /\ l' = []) /\
    (forall va', 0 <= va' < MAXVA ->
       translate (k_mem (st w')) root va' =
         if decide (va / PGSIZE <= va' / PGSIZE < va / PGSIZE + k)
         then Some (pa + (va' - PGROUNDDOWN va), Z.lor perm PTE_V) else translate (k_mem (st w)) root va') /\
    (forall x, is_node (k_mem (st w')) root x <-> is_node (k_mem (st w)) root x \/ x ∈ taken) /\
    (forall a, (forall x, is_node (k_mem (st w')) root x -> ~ in_page x a) ->
       (k_mem (st w')).[a] = (k_mem (st w)).[a])) w.
Proof.
  intros Hsz Hva Hmax Hpa Hpar Hperm Hr Hfl Hwf Hun.
  assert (va + size <= 18446744073709551616) by (rewrite MAXVA_val in Hmax; unfold PGSIZE in *; lia).
  apply (wp_mappages root va size pa perm l); try done; [apply Hperm|].
  intros r s' Hs' (taken & l' & k & Hl & Hfl' & Hwf' & Hstep & Hres). exists taken, l', k. cbn [st].
  split_and!; [done..| |apply Hstep|apply Hstep].
  intros va' Hva'. rewrite PGROUNDDOWN_spec by lia. eapply translate_map_range; try done.
  assert (k <= (va + size - 1) / PGSIZE - va / PGSIZE + 1) by (destruct Hres as [[_ ->]|[_ [? _]]]; lia).
  unfold PGSIZE in *. Z.div_mod_to_equations. lia.
Qed.

(** A machine with an empty table [demo_root] and eleven free pages. *)
Definition demo_root : Z := PHYSTOP - PGSIZE.
Definition demo_free : list Z := drop 1 demo_pages.
Definition kst_table : kst := final kst0 (uvmcreate (World kst_kinit [])).

Definition table_ok (s : kst) : Prop :=
  kmem_ready s /\ @freelist_ok demo_image (k_mem s) (k_freelist s) demo_free /\
  @pt_wf demo_image (k_mem s) demo_root demo_free /\ forall va, pte_at (k_mem s) demo_root va = 0.

Lemma kst_table_ok : table_ok kst_table.
Proof.
  apply (wp_final uvmcreate table_ok kst0 (World kst_kinit [])).
  apply (@wp_uvmcreate demo_image demo_image_ok demo_pages); [apply kst_kinit_ready|apply kst_kinit_ok|done|].
  intros root l' s' Hl Hs' Hfl' _ _ Hwf Hm. injection Hl as <- <-. cbn [st] in *.
  split_and!; [eapply kmem_rel_ready; [exact Hs'|apply kst_kinit_ready]|done|done|].
  apply (zero_table (k_mem s') (PHYSTOP - PGSIZE)). intros a Ha. by rewrite Hm, decide_True.
Qed.

#[global] Opaque kst_table.

Lemma mappages_correct_witness :
  wp (mappages demo_root 0 PGSIZE KERNBASE (Z.lor PTE_R PTE_X)) (fun r w' =>
    r = -1 \/ translate (k_mem (st w')) demo_root 12 = Some (KERNBASE + 12, 11)) (World kst_table []).
Proof.
  destruct kst_table_ok as (Hr & Hfl & Hwf & Hz). eapply wp_mono.
  - apply (@mappages_correct demo_image demo_image_ok demo_root 0 PGSIZE KERNBASE (Z.lor PTE_R PTE_X) demo_free (World kst_table []));
      [done|done|vm_compute; discriminate|split; vm_compute; [done|split; [discriminate|done]]|done
      |split_and!; vm_compute; (done || discriminate)|exact Hr|exact Hfl|exact Hwf|].
    intros va' _. cbn [st]. by rewrite Hz.
  - intros r w' (t & l' & k & _ & _ & _ & [[-> ->]|[-> _]] & Ht & _); [right|by left].
    rewrite (Ht 12) by (vm_compute; split; [discriminate|reflexivity]). reflexivity.
Defined.
