(* ===== verification/UserMem.v ===== *)
(** * User address spaces

    The invariant of a process's page table, user memory as a partial function
    from virtual addresses to bytes, and the routines of vm.c on it:
    [copyout], [copyin], [copyinstr], [uvmunmap], [uvmalloc], [uvmdealloc],
    [freewalk], [uvmfree], [uvmcopy], [uvmclear]. *)

From S2P Require Import Prelude State KString Spinlock Kalloc Vm PageTable.

(** ** User memory *)

Definition user_bit (e : Z) : bool := negb (Z.land e PTE_U =? 0).

(** Can user code touch [va]? *)
Definition uacc (m : gmap Z Z) (root va : Z) : bool :=
  (0 <=? va) && (va <? MAXVA) && valid (pte_at m root va) && user_bit (pte_at m root va).

(** Its physical address. *)
Definition uphys (m : gmap Z Z) (root va : Z) : Z := PTE2PA (pte_at m root va) + va mod PGSIZE.

(** User memory: the byte at a virtual address user code can touch. *)
Definition umem (m : gmap Z Z) (root va : Z) : option Z :=
  if uacc m root va then Some (m.[uphys m root va]) else None.

(** The invariant of an address space, relative to the free list [l]: below
    [TRAPFRAME] every valid entry is a leaf that owns a page of its own. *)
Record uspace `{KernelImage} (m : gmap Z Z) (root : Z) (l : list Z) : Prop := {
  us_wf : pt_wf m root l;
  us_user : forall va, uacc m root va = true -> va < TRAPFRAME;
  us_page : forall va, 0 <= va < TRAPFRAME -> valid (pte_at m root va) = true ->
    page_ok (PTE2PA (pte_at m root va)) /\ (PTE2PA (pte_at m root va) ∉ l) /\
    ~ is_node m root (PTE2PA (pte_at m root va)) /\ PTE_FLAGS (pte_at m root va) <> PTE_V;
  us_inj : forall va va', 0 <= va < TRAPFRAME -> 0 <= va' < TRAPFRAME ->
    valid (pte_at m root va) = true -> valid (pte_at m root va') = true ->
    PTE2PA (pte_at m root va) = PTE2PA (pte_at m root va') -> va / PGSIZE = va' / PGSIZE
}.

Lemma uacc_spec m root va : uacc m root va = true <->
  0 <= va < MAXVA /\ valid (pte_at m root va) = true /\ Z.land (pte_at m root va) PTE_U <> 0.
Proof.
  unfold uacc, user_bit. rewrite !andb_true_iff, negb_true_iff, Z.eqb_neq, Z.leb_le, Z.ltb_lt. naive_solver.
Qed.

Lemma TRAPFRAME_val : TRAPFRAME = 67108862 * PGSIZE.
Proof. reflexivity. Qed.

(** Entries of addresses in the same page are the same. *)
Lemma pte_at_page m root va va' : va / PGSIZE = va' / PGSIZE -> pte_at m root va = pte_at m root va'.
Proof.
  intros Hv. unfold pte_at, pte_addr, va_path. by rewrite !(PX_same_page _ va va') by (lia || done).
Qed.

Lemma rounddown_page va : 0 <= va < 18446744073709551616 -> PGROUNDDOWN va / PGSIZE = va / PGSIZE /\ va - PGROUNDDOWN va = va mod PGSIZE.
Proof.
  intros Hva. rewrite PGROUNDDOWN_spec by done. unfold PGSIZE. split; [apply Z.div_mul; lia|]. Z.div_mod_to_equations. lia.
Qed.

(** Changes confined to the pages a process owns leave its table alone. *)
Lemma uspace_frame `{KernelImage} m m' root l :
  uspace m root l -> (forall x a, is_node m root x -> in_page x a -> m'.[a] = m.[a]) -> uspace m' root l.
Proof.
  intros [Hwf Hu Hp Hi] Hag.
  assert (Hpte : forall va, pte_at m' root va = pte_at m root va) by (intros va; by apply pte_at_ext).
  assert (Hacc : forall va, uacc m' root va = uacc m root va) by (intros va; unfold uacc; by rewrite Hpte).
  constructor.
  - by apply (pt_wf_ext m m').
  - intros va. rewrite Hacc. apply Hu.
  - intros va Hva. rewrite Hpte, (is_node_ext m m') by done. by apply Hp.
  - intros va va' Hva Hva'. rewrite !Hpte. by apply Hi.
Qed.

Lemma in_page_mod pg a : pg mod PGSIZE = 0 -> in_page pg (pg + a mod PGSIZE).
Proof. intros Hp. unfold in_page, PGSIZE in *. Z.div_mod_to_equations. lia. Qed.

Lemma uphys_inj `{KernelImage} m root l va va' : uspace m root l -> uacc m root va = true -> uacc m root va' = true ->
  uphys m root va = uphys m root va' -> va = va'.
Proof.
  intros Hus Ha Ha' Heq. pose proof (us_user _ _ _ Hus va Ha) as Hlt. pose proof (us_user _ _ _ Hus va' Ha') as Hlt'.
  apply uacc_spec in Ha as (Hr & Hv & _). apply uacc_spec in Ha' as (Hr' & Hv' & _).
  destruct (us_page _ _ _ Hus va) as ([Hal _] & _); [lia|done|]. destruct (us_page _ _ _ Hus va') as ([Hal' _] & _); [lia|done|].
  unfold uphys in Heq.
  assert (PTE2PA (pte_at m root va) = PTE2PA (pte_at m root va')) as Hpa by (unfold PGSIZE in *; Z.div_mod_to_equations; lia).
  pose proof (us_inj _ _ _ Hus va va' ltac:(lia) ltac:(lia) Hv Hv' Hpa) as Hpg.
  unfold PGSIZE in *. Z.div_mod_to_equations. lia.
Qed.

(** Writing bytes at a run of user addresses inside one page. *)
Lemma umem_write `{KernelImage} m root l va bs :
  uspace m root l -> uacc m root va = true -> va mod PGSIZE + Z.of_nat (length bs) <= PGSIZE ->
  let m' := wr_bytes m (uphys m root va) bs in
  uspace m' root l /\ (forall va', pte_at m' root va' = pte_at m root va') /\
  (forall va', umem m' root va' =
     if decide (va <= va' < va + Z.of_nat (length bs)) then Some (default 0 (bs !! Z.to_nat (va' - va)) mod 256) else umem m root va') /\
  (forall a, (forall va', uacc m root va' = true -> uphys m root va' <> a) -> m'.[a] = m.[a]).
Proof.
  intros Hus Ha Hlen m'.
  pose proof (us_user _ _ _ Hus va Ha) as Hlt. pose proof Ha as Hacc. apply uacc_spec in Ha as (Hr & Hv & Hu).
  destruct (us_page _ _ _ Hus va) as (Hok & Hnl & Hnn & _); [lia|done|].
  pose proof Hok as [Hal _].
  assert (Hm' : forall a, m'.[a] = if decide (uphys m root va <= a < uphys m root va + Z.of_nat (length bs))
            then default 0 (bs !! Z.to_nat (a - uphys m root va)) mod 256 else m.[a]) by (intros a; apply rd_wr_bytes).
  assert (Hag : forall x a, is_node m root x -> in_page x a -> m'.[a] = m.[a]).
  { intros x a Hx Hin. rewrite Hm', decide_False; [done|]. intros Hrange.
    destruct (wf_page _ _ _ (us_wf _ _ _ Hus) x Hx) as [[Hxa _] _].
    apply (page_disjoint x (PTE2PA (pte_at m root va)) a); [done|done|by intros ->|done|].
    unfold uphys, in_page in *. pose proof (Z.mod_pos_bound va PGSIZE). unfold PGSIZE in *. lia. }
  assert (Hpte : forall va', pte_at m' root va' = pte_at m root va') by (intros va'; by apply pte_at_ext).
  assert (Huacc : forall va', uacc m' root va' = uacc m root va') by (intros va'; unfold uacc; by rewrite Hpte).
  assert (Hrun : forall va', va <= va' < va + Z.of_nat (length bs) ->
     va' / PGSIZE = va / PGSIZE /\ uacc m root va' = true /\ uphys m root va' = uphys m root va + (va' - va)).
  { intros va' Hva'. assert (va' / PGSIZE = va / PGSIZE) as Hpg by (unfold PGSIZE in *; Z.div_mod_to_equations; lia).
    split_and!; [done| |].
    - apply uacc_spec. rewrite (pte_at_page m root va' va) by done. split_and!; [lia| |done|done].
      rewrite TRAPFRAME_val, MAXVA_val in *. unfold PGSIZE in *. Z.div_mod_to_equations. lia.
    - unfold uphys. rewrite (pte_at_page m root va' va) by done. unfold PGSIZE in *. Z.div_mod_to_equations. lia. }
  split_and!; [by apply (uspace_frame m m')|done| |].
  - intros va'. unfold umem. rewrite Huacc.
    assert (uphys m' root va' = uphys m root va') as -> by (unfold uphys; by rewrite Hpte).
    destruct (decide (va <= va' < va + Z.of_nat (length bs))) as [Hin|Hout].
    + destruct (Hrun va' Hin) as (_ & -> & ->). rewrite Hm', decide_True by lia.
      by replace (uphys m root va + (va' - va) - uphys m root va) with (va' - va) by lia.
    + destruct (uacc m root va') eqn:Ea; [|done]. rewrite Hm', decide_False; [done|]. intros Hin. apply Hout.
      destruct (Hrun (va + (uphys m root va' - uphys m root va))) as (_ & Hacc2 & Hphys); [lia|].
      assert (va + (uphys m root va' - uphys m root va) = va') as <- by (apply (uphys_inj m root l); [done..|rewrite Hphys; lia]). lia.
  - intros a Hno. rewrite Hm', decide_False; [done|]. intros Hin.
    destruct (Hrun (va + (a - uphys m root va))) as (_ & Hacc2 & Hphys); [lia|]. apply (Hno _ Hacc2). lia.
Qed.

(** ** Copying *)

Section Copy.
Context `{KernelImageOk}.

Lemma wp_walkaddr_round root l va Q w : 0 <= va < 18446744073709551616 -> pt_wf (k_mem (st w)) root l ->
  Q (if uacc (k_mem (st w)) root va then PTE2PA (pte_at (k_mem (st w)) root va) else 0) w ->
  wp (walkaddr root (PGROUNDDOWN va)) Q w.
Proof.
  intros Hva Hwf HQ. destruct (rounddown_page va Hva) as [Hpg _]. destruct (PGROUNDDOWN_bounds va Hva) as [Hal Hb].
  assert (0 <= PGROUNDDOWN va) by (rewrite PGROUNDDOWN_spec by done; unfold PGSIZE in *; Z.div_mod_to_equations; lia).
  apply (wp_walkaddr root l); [done..|]. cbn zeta. rewrite (pte_at_page _ root (PGROUNDDOWN va) va) by done.
  destruct (uacc (k_mem (st w)) root va) eqn:E.
  - apply uacc_spec in E as (? & ? & ?). by rewrite decide_True by (split_and!; [lia|done..]).
  - rewrite decide_False; [done|]. intros (? & ? & ?). apply not_true_iff_false in E. apply E, uacc_spec.
    split_and!; [lia| |done..]. rewrite MAXVA_val in *. unfold PGSIZE in *. Z.div_mod_to_equations. lia.
Qed.

(** A page user code can touch is below the trap frame and not page 0. *)
Lemma uacc_page m root l va : uspace m root l -> uacc m root va = true -> 0 <= va < TRAPFRAME /\ 0 < PTE2PA (pte_at m root va).
Proof.
  intros Hus Ha. pose proof (us_user _ _ _ Hus va Ha) as Hlt. apply uacc_spec in Ha as (Hr & Hv & _).
  destruct (us_page _ _ _ Hus va) as (Hok & _); [lia|done|]. pose proof (page_ok_range _ Hok). lia.
Qed.

(** [copyout] stored the first [k] bytes of [src] at [dstva] and nothing else. *)
Record copied (m : gmap Z Z) (root : Z) (l : list Z) (dstva : Z) (src : list Z) (k : nat) (m' : gmap Z Z) : Prop := {
  cp_space : uspace m' root l;
  cp_pte : forall va, pte_at m' root va = pte_at m root va;
  cp_umem : forall va, umem m' root va =
    if decide (dstva <= va < dstva + k) then Some (default 0 (src !! Z.to_nat (va - dstva)) mod 256) else umem m root va;
  cp_frame : forall a, (forall va, uacc m root va = true -> uphys m root va <> a) -> m'.[a] = m.[a]
}.

Lemma copied_nil m root l dstva src : uspace m root l -> copied m root l dstva src 0 m.
Proof. intros Hus. split; [done..| |done]. intros va. by rewrite decide_False by lia. Qed.

Lemma copied_app m1 m2 m3 root l dstva src (n k : nat) :
  (n <= length src)%nat ->
  copied m1 root l dstva src n m2 -> copied m2 root l (dstva + n) (drop n src) k m3 -> copied m1 root l dstva src (n + k) m3.
Proof.
  intros Hn [S1 P1 U1 F1] [S2 P2 U2 F2]. split; [done|intros va; by rewrite P2| |].
  - intros va. rewrite U2, U1.
    destruct (decide (dstva + n <= va < dstva + n + k)).
    + rewrite (decide_True (P := dstva <= va < dstva + (n + k)%nat)) by lia. rewrite lookup_drop. do 4 f_equal. lia.
    + destruct (decide (dstva <= va < dstva + n)).
      * by rewrite decide_True by lia.
      * by rewrite decide_False by lia.
  - intros a Ha. rewrite F2, F1; [done|done|]. intros va. unfold uacc, uphys. rewrite !P1. apply Ha.
Qed.

(** The length of the first piece. *)
Lemma piece_len va (len : nat) : 0 <= va < 18446744073709551616 -> (0 < len)%nat ->
  exists n : nat, (0 < n <= len)%nat /\
    (if Z.of_nat len <? PGSIZE - (va - PGROUNDDOWN va) then Z.of_nat len else PGSIZE - (va - PGROUNDDOWN va)) = Z.of_nat n /\
    va mod PGSIZE + n <= PGSIZE /\ ((n < len)%nat -> va + n = PGROUNDDOWN va + PGSIZE).
Proof.
  intros Hva Hlen. destruct (rounddown_page va Hva) as [_ Hoff]. destruct (PGROUNDDOWN_bounds va Hva) as [_ Hb].
  destruct (Z.ltb_spec (Z.of_nat len) (PGSIZE - (va - PGROUNDDOWN va))).
  - exists len. split_and!; lia.
  - exists (Z.to_nat (PGSIZE - (va - PGROUNDDOWN va))). split_and!; lia.
Qed.

Lemma copyout_loop_spec (fuel : nat) root l dstva src Q w :
  0 <= dstva < 18446744073709551616 -> (length src < fuel)%nat -> uspace (k_mem (st w)) root l ->
  (forall r k m', copied (k_mem (st w)) root l dstva src k m' ->
     (r = 0 /\ k = length src \/ r = -1 /\ (k < length src)%nat /\ uacc (k_mem (st w)) root (dstva + k) = false) ->
     Q r (World (set_k_mem m' (st w)) (env w))) ->
  wp (copyout_loop fuel root dstva src) Q w.
Proof.
  revert dstva src w. induction fuel as [|fuel IH]; intros dstva src w Hva Hfuel Hus HQ; [lia|].
  cbn [copyout_loop]. destruct w as [s e]. cbn [st env] in *.
  assert (HQ' : forall r k, copied (k_mem s) root l dstva src k (k_mem s) ->
     (r = 0 /\ k = length src \/ r = -1 /\ (k < length src)%nat /\ uacc (k_mem s) root (dstva + k) = false) -> Q r (World s e)).
  { intros r k Hc Hr. replace s with (set_k_mem (k_mem s) s) by (by destruct s). by apply (HQ r k). }
  destruct (Z.ltb_spec 0 (length src)) as [Hpos|Hnil].
  2: { apply wp_ret, (HQ' 0 0%nat); [by apply copied_nil|left; split; [done|lia]]. }
  apply wp_bind, (wp_walkaddr_round root l); [done|apply Hus|]. cbn [st].
  destruct (uacc (k_mem s) root dstva) eqn:Ea.
  2: { cbn [Z.eqb]. apply wp_ret, (HQ' (-1) 0%nat); [by apply copied_nil|right; split_and!; [done|lia|by rewrite Z.add_0_r]]. }
  destruct (uacc_page _ _ _ _ Hus Ea) as [Hlt Hp0]. rewrite (proj2 (Z.eqb_neq _ 0)) by lia.
  destruct (piece_len dstva (length src)) as (n & Hn & -> & Hfit & Hnext); [done|lia|].
  rewrite Nat2Z.id. destruct (rounddown_page dstva Hva) as [_ ->]. fold (uphys (k_mem s) root dstva).
  apply wp_bind, wp_modify. cbn [st env].
  assert (Hlen : length (take n src) = n) by (rewrite length_take; lia).
  destruct (umem_write (k_mem s) root l dstva (take n src)) as (Hus2 & Hpte2 & Humem2 & Hfr2); [done|done|by rewrite Hlen|].
  rewrite Hlen in Humem2. generalize dependent (wr_bytes (k_mem s) (uphys (k_mem s) root dstva) (take n src)).
  intros m2 Hus2 Hpte2 Humem2 Hfr2.
  assert (Hc1 : copied (k_mem s) root l dstva src n m2).
  { split; [done..| |done]. intros va. rewrite Humem2. destruct (decide (dstva <= va < dstva + n)); [|done].
    rewrite lookup_take_lt by lia. done. }
  assert (Hstep : wp (copyout_loop fuel root (dstva + n) (drop n src)) Q (World (set_k_mem m2 s) e)).
  { apply IH; cbn [st env k_mem set_k_mem]; [|rewrite length_drop; lia|done|].
    { rewrite TRAPFRAME_val in *. unfold PGSIZE in *. Z.div_mod_to_equations. lia. }
    intros r k m' Hc Hres. apply (HQ r (n + k)%nat m'); [by apply (copied_app _ m2); [lia|..]|].
    rewrite length_drop in Hres. destruct Hres as [[-> ->]|(-> & Hk & Hno)]; [left; split; [done|lia]|right].
    split_and!; [done|lia|]. rewrite <- Hno. unfold uacc. rewrite Hpte2. f_equal; [|do 2 f_equal; lia].
    f_equal; [|do 2 f_equal; lia]. f_equal; f_equal; lia. }
  destruct (decide (n < length src)%nat) as [Hlast|Hlast].
  - rewrite u64_small by (destruct (PGROUNDDOWN_bounds dstva Hva); rewrite TRAPFRAME_val in *; unfold PGSIZE in *; lia).
    rewrite <- Hnext by lia. exact Hstep.
  - rewrite drop_ge in * by lia. destruct fuel; [lia|]. cbn [copyout_loop length] in *. exact Hstep.
Qed.

(** Bytes of user memory, as a list. *)
Definition uread (m : gmap Z Z) (root va : Z) (bs : list Z) : Prop :=
  forall i b, bs !! i = Some b -> umem m root (va + Z.of_nat i) = Some b.

Lemma uread_app m root va bs1 bs2 : uread m root va bs1 -> uread m root (va + length bs1) bs2 -> uread m root va (bs1 ++ bs2).
Proof.
  intros H1 H2 i b [Hi|[Hge Hi]]%lookup_app_Some; [by apply H1|].
  rewrite <- (H2 _ _ Hi). f_equal. lia.
Qed.

(** The bytes of one page. *)
Lemma umem_run m root va i : uacc m root va = true -> va mod PGSIZE + i < PGSIZE -> 0 <= i ->
  umem m root (va + i) = Some (m.[uphys m root va + i]).
Proof.
  intros Ha Hi Hi0. pose proof Ha as (Hr & Hv & Hu)%uacc_spec.
  assert ((va + i) / PGSIZE = va / PGSIZE) as Hpg by (unfold PGSIZE in *; Z.div_mod_to_equations; lia).
  unfold umem. assert (uacc m root (va + i) = true) as ->.
  { apply uacc_spec. rewrite (pte_at_page m root (va + i) va) by done. split_and!; [lia| |done|done].
    rewrite MAXVA_val in *. unfold PGSIZE in *. Z.div_mod_to_equations. lia. }
  do 2 f_equal. unfold uphys. rewrite (pte_at_page m root (va + i) va) by done.
  unfold PGSIZE in *. Z.div_mod_to_equations. lia.
Qed.

Lemma copyin_loop_spec (fuel len : nat) root l srcva Q w :
  0 <= srcva < 18446744073709551616 -> (len < fuel)%nat -> uspace (k_mem (st w)) root l ->
  (forall bs r, uread (k_mem (st w)) root srcva bs ->
     (r = 0 /\ length bs = len \/ r = -1 /\ (length bs < len)%nat /\ uacc (k_mem (st w)) root (srcva + length bs) = false) ->
     Q (bs, r) w) ->
  wp (copyin_loop fuel root srcva len) Q w.
Proof.
  revert srcva len Q. induction fuel as [|fuel IH]; intros srcva len Q Hva Hfuel Hus HQ; [lia|].
  cbn [copyin_loop]. destruct (Z.ltb_spec 0 len) as [Hpos|Hnil].
  2: { apply wp_ret, HQ; [by intros i b|left; split; [done|cbn; lia]]. }
  apply wp_bind, (wp_walkaddr_round root l); [done|apply Hus|].
  destruct (uacc (k_mem (st w)) root srcva) eqn:Ea.
  2: { cbn [Z.eqb]. apply wp_ret, HQ; [by intros i b|right; split_and!; [done|cbn; lia|cbn; by rewrite Z.add_0_r]]. }
  destruct (uacc_page _ _ _ _ Hus Ea) as [Hlt Hp0]. rewrite (proj2 (Z.eqb_neq _ 0)) by lia.
  destruct (piece_len srcva len) as (n & Hn & -> & Hfit & Hnext); [done|lia|].
  rewrite Nat2Z.id. destruct (rounddown_page srcva Hva) as [_ ->]. fold (uphys (k_mem (st w)) root srcva).
  apply wp_bind, wp_gets, wp_bind.
  assert (Hrd : uread (k_mem (st w)) root srcva (rd_bytes n (k_mem (st w)) (uphys (k_mem (st w)) root srcva))).
  { intros i b Hi. pose proof (lookup_lt_Some _ _ _ Hi) as Hlt'. rewrite length_rd_bytes in Hlt'.
    rewrite lookup_rd_bytes in Hi by done. simplify_eq. apply umem_run; [done|lia..]. }
  assert (Hlen := length_rd_bytes n (k_mem (st w)) (uphys (k_mem (st w)) root srcva)).
  generalize dependent (rd_bytes n (k_mem (st w)) (uphys (k_mem (st w)) root srcva)). intros bs0 Hrd Hlen.
  replace (Z.of_nat len - n) with (Z.of_nat (len - n)) by lia.
  assert (Hstep : wp (copyin_loop fuel root (srcva + n) (len - n)%nat) (fun r w' => wp (mret (bs0 ++ fst r, snd r)) Q w') w).
  { apply IH; [|lia|done|].
    { rewrite TRAPFRAME_val in *. unfold PGSIZE in *. Z.div_mod_to_equations. lia. }
    intros bs r Hbs Hres. apply wp_ret. cbn [fst snd]. apply HQ; [apply uread_app; [done|by rewrite Hlen]|].
    rewrite length_app. destruct Hres as [[-> Hk]|(-> & Hk & Hno)]; [left; split; [done|lia]|right].
    split_and!; [done|lia|]. rewrite <- Hno. f_equal. lia. }
  destruct (decide (n < len)%nat) as [Hlast|Hlast].
  - rewrite u64_small by (destruct (PGROUNDDOWN_bounds srcva Hva); rewrite TRAPFRAME_val in *; unfold PGSIZE in *; lia).
    rewrite <- Hnext by lia. exact Hstep.
  - assert ((len - n)%nat = 0%nat) as E0 by lia. rewrite E0 in Hstep |- *. destruct fuel; [lia|]. exact Hstep.
Qed.

(** What the inner loop of [copyinstr] finds in a page. *)
Lemma copyinstr_page_spec m p (n : nat) :
  let r := copyinstr_page n m p in
  (snd r = true -> exists k : nat, (k < n)%nat /\ fst r = rd_bytes k m p ++ [0] /\ m.[p + k] = 0 /\
     forall i : nat, (i < k)%nat -> m.[p + i] <> 0) /\
  (snd r = false -> fst r = rd_bytes n m p /\ forall i : nat, (i < n)%nat -> m.[p + i] <> 0).
Proof.
  revert p. induction n as [|n IH]; intros p; cbn [copyinstr_page].
  { split; [done|]. intros _. split; [done|]. lia. }
  destruct (Z.eqb_spec (m.[p]) 0) as [Hz|Hnz]; cbn [fst snd].
  - split; [|done]. intros _. exists 0%nat. rewrite Z.add_0_r. split_and!; [lia|done|done|lia].
  - destruct (IH (p + 1)) as [IH1 IH2]. split.
    + intros (k & Hk & -> & Hz & Hbefore)%IH1. exists (S k). split_and!; [lia|done| |].
      * rewrite <- Hz. f_equal. lia.
      * intros [|i] Hi; [by rewrite Z.add_0_r|]. specialize (Hbefore i ltac:(lia)).
        by replace (p + S i) with (p + 1 + i) by lia.
    + intros [-> Hall]%IH2. split; [done|]. intros [|i] Hi; [by rewrite Z.add_0_r|].
      specialize (Hall i ltac:(lia)). by replace (p + S i) with (p + 1 + i) by lia.
Qed.

Definition nonzero (bs : list Z) : Prop := Forall (fun b => b <> 0) bs.

(** What [copyinstr] delivers: a string with its terminator, or, on failure, the
    bytes before an inaccessible address or the limit. *)
Definition got_string (m : gmap Z Z) (root srcva : Z) (max : nat) (bs : list Z) (r : Z) : Prop :=
  (r = 0 /\ exists str, bs = str ++ [0] /\ nonzero str /\ (length str < max)%nat /\ uread m root srcva bs) \/
  (r = -1 /\ nonzero bs /\ (length bs <= max)%nat /\ uread m root srcva bs /\
   (length bs = max \/ uacc m root (srcva + length bs) = false)).

Lemma nonzero_rd_bytes n m p : (forall i : nat, (i < n)%nat -> m.[p + i] <> 0) -> nonzero (rd_bytes n m p).
Proof.
  intros Hi. apply Forall_lookup. intros i b Hb. pose proof (lookup_lt_Some _ _ _ Hb) as Hlt.
  rewrite length_rd_bytes in Hlt. rewrite lookup_rd_bytes in Hb by done. simplify_eq. by apply Hi.
Qed.

Lemma copyinstr_loop_spec (fuel max : nat) root l srcva Q w :
  0 <= srcva < 18446744073709551616 -> (max < fuel)%nat -> uspace (k_mem (st w)) root l ->
  (forall bs r, got_string (k_mem (st w)) root srcva max bs r -> Q (bs, r) w) ->
  wp (copyinstr_loop fuel root srcva max) Q w.
Proof.
  revert srcva max Q. induction fuel as [|fuel IH]; intros srcva max Q Hva Hfuel Hus HQ; [lia|].
  cbn [copyinstr_loop]. destruct (Z.ltb_spec 0 max) as [Hpos|Hnil].
  2: { apply wp_ret, HQ. right. split_and!; [done|constructor|cbn; lia|by intros i b|left; cbn; lia]. }
  apply wp_bind, (wp_walkaddr_round root l); [done|apply Hus|].
  destruct (uacc (k_mem (st w)) root srcva) eqn:Ea.
  2: { cbn [Z.eqb]. apply wp_ret, HQ. right. split_and!; [done|constructor|cbn; lia|by intros i b|right; cbn; by rewrite Z.add_0_r]. }
  destruct (uacc_page _ _ _ _ Hus Ea) as [Hlt Hp0]. rewrite (proj2 (Z.eqb_neq _ 0)) by lia.
  destruct (piece_len srcva max) as (n & Hn & -> & Hfit & Hnext); [done|lia|].
  rewrite Nat2Z.id. destruct (rounddown_page srcva Hva) as [_ ->]. fold (uphys (k_mem (st w)) root srcva).
  apply wp_bind, wp_get. set (m := k_mem (st w)) in *. set (p := uphys m root srcva) in *.
  destruct (copyinstr_page_spec m p n) as [Hyes Hno].
  assert (Hrd : forall k, (k <= n)%nat -> uread m root srcva (rd_bytes k m p)).
  { intros k Hk i b Hi. pose proof (lookup_lt_Some _ _ _ Hi) as Hlt'. rewrite length_rd_bytes in Hlt'.
    rewrite lookup_rd_bytes in Hi by done. simplify_eq. apply umem_run; [done|lia..]. }
  destruct (snd (copyinstr_page n m p)) eqn:Es.
  - destruct Hyes as (k & Hk & -> & Hz & Hbefore); [done|]. apply wp_ret, HQ. left. split; [done|].
    exists (rd_bytes k m p). rewrite length_rd_bytes. split_and!; [done|by apply nonzero_rd_bytes|lia|].
    apply uread_app; [apply Hrd; lia|]. rewrite length_rd_bytes. intros [|i] b Hb; [|done]. cbn in Hb. simplify_eq.
    rewrite Z.add_0_r, <- Hz. apply umem_run; [done|lia..].
  - destruct Hno as [-> Hall]; [done|]. apply wp_bind.
    assert (Hbs0 := Hrd n ltac:(lia)). assert (Hnz0 := nonzero_rd_bytes n m p Hall).
    assert (Hlen := length_rd_bytes n m p). generalize dependent (rd_bytes n m p). intros bs0 Hbs0 Hnz0 Hlen.
    replace (Z.of_nat max - n) with (Z.of_nat (max - n)) by lia.
    assert (Hstep : wp (copyinstr_loop fuel root (srcva + n) (max - n)%nat) (fun r w' => wp (mret (bs0 ++ fst r, snd r)) Q w') w).
    { apply IH; [|lia|done|].
      { rewrite TRAPFRAME_val in *. unfold PGSIZE in *. Z.div_mod_to_equations. lia. }
      intros bs r Hgot. apply wp_ret. cbn [fst snd]. apply HQ.
      destruct Hgot as [(-> & str & -> & Hstr & Hl & Hu)|(-> & Hbs & Hl & Hu & Hend)].
      - left. split; [done|]. exists (bs0 ++ str). rewrite <- app_assoc, length_app.
        split_and!; [done|by apply list.Forall_app|lia|]. apply uread_app; [done|by rewrite Hlen].
      - right. rewrite length_app. split_and!; [done|by apply list.Forall_app|lia|apply uread_app; [done|by rewrite Hlen]|].
        destruct Hend as [?|Hend]; [left; lia|right]. rewrite <- Hend. f_equal. lia. }
    destruct (decide (n < max)%nat) as [Hlast|Hlast].
    + rewrite u64_small by (destruct (PGROUNDDOWN_bounds srcva Hva); rewrite TRAPFRAME_val in *; unfold PGSIZE in *; lia).
      rewrite <- Hnext by lia. exact Hstep.
    + assert ((max - n)%nat = 0%nat) as E0 by lia. rewrite E0 in Hstep |- *. destruct fuel; [lia|]. exact Hstep.
Qed.

End Copy.

(** ** Unmapping *)

(** Entries after the pages [v0 .. v0+n-1] were unmapped. *)
Definition unmap_range (v0 n va e : Z) : Z := if decide (v0 <= va / PGSIZE < v0 + n) then 0 else e.

(** The physical pages behind them. *)
Definition upages (m : gmap Z Z) (root v0 : Z) (n : nat) : list Z :=
  (fun i : nat => PTE2PA (pte_at m root ((v0 + i) * PGSIZE))) <$> seq 0 n.

Lemma upages_cons m root v0 n :
  upages m root v0 (S n) = PTE2PA (pte_at m root (v0 * PGSIZE)) :: upages m root (v0 + 1) n.
Proof.
  unfold upages. cbn [seq fmap list_fmap]. rewrite Z.add_0_r. f_equal. rewrite <- fmap_S_seq, <- list_fmap_compose.
  apply list_fmap_ext. intros i x _. cbn. do 2 f_equal. lia.
Qed.

Lemma elem_of_upages m root v0 n pg : pg ∈ upages m root v0 n <->
  exists i : nat, (i < n)%nat /\ pg = PTE2PA (pte_at m root ((v0 + i) * PGSIZE)).
Proof.
  unfold upages. rewrite list_elem_of_fmap. split.
  - intros (i & -> & Hi%elem_of_seq). exists i. split; [lia|done].
  - intros (i & Hi & ->). exists i. split; [done|]. apply elem_of_seq. lia.
Qed.

Lemma upages_ext m m' root v0 n :
  (forall i : nat, (i < n)%nat -> pte_at m' root ((v0 + i) * PGSIZE) = pte_at m root ((v0 + i) * PGSIZE)) ->
  upages m' root v0 n = upages m root v0 n.
Proof.
  intros Hp. unfold upages. apply list_fmap_ext. intros i x Hi. apply lookup_seq in Hi as [-> Hi]. by rewrite Hp.
Qed.

(** What unmapping did to memory. *)
Record unmapped (m m' : gmap Z Z) (root v0 : Z) (n : nat) : Prop := {
  un_nodes : forall x, is_node m' root x <-> is_node m root x;
  un_pte : forall va, 0 <= va < MAXVA -> pte_at m' root va = unmap_range v0 n va (pte_at m root va);
  un_frame : forall a, (forall x, is_node m root x -> ~ in_page x a) ->
    (forall pg, pg ∈ upages m root v0 n -> ~ in_page pg a) -> m'.[a] = m.[a]
}.

Section Unmap.
Context `{KernelImageOk}.

(** Freeing the page behind [va] and clearing its entry keeps the invariant. *)
Lemma uspace_unmap m m1 root l va a :
  uspace m root l -> 0 <= va < TRAPFRAME -> valid (pte_at m root va) = true -> pte_addr m root va = Some a ->
  let pa := PTE2PA (pte_at m root va) in
  (forall b, ~ in_page pa b -> m1.[b] = m.[b]) ->
  uspace (st64 m1 a 0) root (pa :: l) /\ unmapped m (st64 m1 a 0) root (va / PGSIZE) 1 /\
  (forall b, (forall x, is_node (st64 m1 a 0) root x -> ~ in_page x b) -> (st64 m1 a 0).[b] = m1.[b]).
Proof.
  intros Hus Hva Hv Haddr pa Hm1. destruct (us_page _ _ _ Hus va Hva Hv) as (Hok & Hnl & Hnn & Hleaf).
  fold pa in Hok, Hnl, Hnn. pose proof (us_wf _ _ _ Hus) as Hwf.
  assert (Hag : forall x b, is_node m root x -> in_page x b -> m1.[b] = m.[b]).
  { intros x b Hx Hb. apply Hm1. destruct (wf_page _ _ _ Hwf x Hx) as [[Hxa _] _]. destruct Hok.
    apply (page_disjoint x pa); [done|done|by intros ->|done]. }
  assert (Hwf1 : pt_wf m1 root (pa :: l)).
  { apply (pt_wf_ext m); [done|]. destruct Hwf as [W1 W2 W3 W4]. constructor; [|done..]. intros x Hx.
    destruct (W1 x Hx). split; [done|]. apply not_elem_of_cons. split; [by intros ->|done]. }
  assert (Haddr1 : pte_addr m1 root va = Some a).
  { rewrite <- Haddr. unfold pte_addr. by rewrite (pt_node_ext m m1) by (done || apply short_va_path). }
  rewrite TRAPFRAME_val, ?MAXVA_val in *.
  destruct (pt_step_store m1 root (pa :: l) va a 0) as [Hwf2 Hstep]; [done|rewrite MAXVA_val; unfold PGSIZE in *; lia|done|done|].
  assert (Hnodes : forall x, is_node (st64 m1 a 0) root x <-> is_node m root x).
  { intros x. rewrite (step_nodes _ _ _ _ _ Hstep), elem_of_nil, (is_node_ext m m1) by done. naive_solver. }
  assert (Hpte : forall va', 0 <= va' < MAXVA ->
    pte_at (st64 m1 a 0) root va' = unmap_range (va / PGSIZE) 1%nat va' (pte_at m root va')).
  { intros va' Hva'. rewrite (step_pte _ _ _ _ _ Hstep), (pte_at_ext m m1) by done. unfold unmap_range.
    destruct (decide (va / PGSIZE = va' / PGSIZE)); [by rewrite decide_True by lia|by rewrite decide_False by lia]. }
  assert (Hother : forall va', 0 <= va' < TRAPFRAME -> valid (pte_at (st64 m1 a 0) root va') = true ->
    pte_at (st64 m1 a 0) root va' = pte_at m root va' /\ valid (pte_at m root va') = true /\ va / PGSIZE <> va' / PGSIZE).
  { intros va' Hva'. rewrite Hpte by (rewrite MAXVA_val, TRAPFRAME_val in *; unfold PGSIZE in *; lia). unfold unmap_range.
    destruct (decide (va / PGSIZE <= va' / PGSIZE < va / PGSIZE + 1%nat)); [done|]. intros ?. split_and!; [done|done|lia]. }
  split_and!.
  - constructor; [done| | |].
    + intros va' Ha'. apply (us_user _ _ _ Hus). apply uacc_spec in Ha' as (Hr & Hv' & Hu). apply uacc_spec.
      rewrite Hpte in Hv', Hu by done. unfold unmap_range in *. destruct (decide _); done.
    + intros va' Hva' Hv'. destruct (Hother va') as (-> & Hv2 & Hne); [done..|]. rewrite Hnodes.
      destruct (us_page _ _ _ Hus va') as (? & ? & ? & ?); [rewrite TRAPFRAME_val in *; lia|done|]. split_and!; [done| |done|done].
      apply not_elem_of_cons. split; [|done]. intros Heq. apply Hne.
      apply (us_inj _ _ _ Hus); rewrite ?TRAPFRAME_val in *; done.
    + intros va1 va2 Hr1 Hr2 Hv1 Hv2. destruct (Hother va1) as (-> & ? & _); [done..|]. destruct (Hother va2) as (-> & ? & _); [done..|].
      by apply (us_inj _ _ _ Hus).
  - constructor; [done|done|]. intros b Hb1 Hb2. rewrite (step_frame _ _ _ _ _ Hstep) by (intros x Hx; by apply Hb1, Hnodes).
    apply Hm1, Hb2, elem_of_upages. exists 0%nat. split; [lia|]. unfold pa. rewrite Z.add_0_r. f_equal. apply pte_at_page.
    by rewrite Z.div_mul.
  - apply Hstep.
Qed.

Lemma unmap_range_ne v0 n va e : ~ (v0 <= va / PGSIZE < v0 + n) -> unmap_range v0 n va e = e.
Proof. intros Hn. unfold unmap_range. by rewrite decide_False. Qed.

Lemma page_in_range v0 i : 0 <= v0 -> 0 <= i -> (v0 + i + 1) * PGSIZE <= TRAPFRAME -> 0 <= (v0 + i) * PGSIZE < TRAPFRAME.
Proof. rewrite TRAPFRAME_val. unfold PGSIZE. lia. Qed.

Lemma trapframe_below : TRAPFRAME < MAXVA.
Proof. reflexivity. Qed.

Lemma unmapped_cons m1 m2 m3 root v0 (n : nat) : 0 <= v0 -> (v0 + S n) * PGSIZE <= TRAPFRAME ->
  unmapped m1 m2 root v0 1 -> unmapped m2 m3 root (v0 + 1) n -> unmapped m1 m3 root v0 (S n).
Proof.
  intros Hv0 Hlim [N1 P1 F1] [N2 P2 F2]. pose proof trapframe_below as Htb.
  assert (Hup : upages m2 root (v0 + 1) n = upages m1 root (v0 + 1) n).
  { apply upages_ext. intros i Hi. pose proof (page_in_range v0 (1 + i) ltac:(lia) ltac:(lia)) as Hr.
    replace (v0 + 1 + i) with (v0 + (1 + i)) by lia. rewrite P1.
    - apply unmap_range_ne. rewrite Z.div_mul by done. lia.
    - unfold PGSIZE in *. lia. }
  constructor.
  - intros x. by rewrite N2.
  - intros va Hva. rewrite P2, P1 by done. unfold unmap_range.
    destruct (decide (v0 + 1 <= va / PGSIZE < v0 + 1 + n)), (decide (v0 <= va / PGSIZE < v0 + 1%nat)),
      (decide (v0 <= va / PGSIZE < v0 + S n)); (done || lia).
  - intros a Ha Hpg. rewrite upages_cons in Hpg. rewrite F2, F1; [done|done| | |].
    + intros pg. rewrite upages_cons. cbn. rewrite list_elem_of_singleton. intros ->. apply Hpg. by left.
    + intros x Hx. by apply Ha, N1.
    + intros pg Hin. rewrite Hup in Hin. apply Hpg. by right.
Qed.

Lemma uvmunmap_loop_free (n fuel : nat) root l v0 Q w :
  (n < fuel)%nat -> 0 <= v0 -> (v0 + n) * PGSIZE <= TRAPFRAME ->
  kmem_ready (st w) -> freelist_ok (k_mem (st w)) (k_freelist (st w)) l -> uspace (k_mem (st w)) root l ->
  (forall i : nat, (i < n)%nat -> valid (pte_at (k_mem (st w)) root ((v0 + i) * PGSIZE)) = true) ->
  (forall s', kmem_rel (st w) s' ->
     let l' := reverse (upages (k_mem (st w)) root v0 n) ++ l in
     freelist_ok (k_mem s') (k_freelist s') l' -> uspace (k_mem s') root l' ->
     unmapped (k_mem (st w)) (k_mem s') root v0 n -> Q tt (World s' (env w))) ->
  wp (uvmunmap_loop fuel root (v0 * PGSIZE) ((v0 + n) * PGSIZE) true) Q w.
Proof.
  revert fuel v0 l w. induction n as [|n IH]; intros fuel v0 l w Hfuel Hv0 Hlim Hr Hfl Hus Hv HQ;
    (destruct fuel as [|fuel]; [lia|]); cbn [uvmunmap_loop].
  - rewrite (proj2 (Z.ltb_ge _ _)) by lia. apply wp_ret. destruct w as [s e]. apply HQ; [done|done|done|].
    constructor; [done| |done]. intros va Hva. by rewrite unmap_range_ne by lia.
  - pose proof (page_in_range v0 0 ltac:(lia) ltac:(lia) ltac:(unfold PGSIZE in *; lia)) as Hr0. rewrite Z.add_0_r in Hr0.
    specialize (Hv 0%nat ltac:(lia)) as Hv0'. rewrite Z.add_0_r in Hv0'.
    rewrite (proj2 (Z.ltb_lt _ _)) by (unfold PGSIZE; lia). pose proof trapframe_below as Htb.
    apply wp_bind, wp_walk_lookup; [lia|].
    destruct (pte_addr (k_mem (st w)) root (v0 * PGSIZE)) as [a|] eqn:Ea; [|unfold pte_at in Hv0'; by rewrite Ea in Hv0'].
    cbn [default id]. pose proof (pte_addr_pos _ _ _ _ _ (us_wf _ _ _ Hus) Ea).
    rewrite (proj2 (Z.eqb_neq a 0)) by lia. apply wp_bind. unfold load64. apply wp_gets.
    assert (ld64 (k_mem (st w)) a = pte_at (k_mem (st w)) root (v0 * PGSIZE)) as -> by (unfold pte_at; by rewrite Ea).
    rewrite valid_land, Hv0'. cbn [negb].
    destruct (us_page _ _ _ Hus _ Hr0 Hv0') as (Hok & Hnl & _ & Hleaf). rewrite (proj2 (Z.eqb_neq _ _) Hleaf).
    cbn [when]. apply wp_bind, (wp_kfree _ l); [done..|]. intros m1 Hfl1 Hm1. unfold store64. apply wp_bind, wp_modify.
    cbn [st env k_mem kmem_upd set_k_mem].
    destruct (uspace_unmap (k_mem (st w)) m1 root l (v0 * PGSIZE) a) as (Hus2 & Hun & Hfr); [done..|].
    rewrite Z.div_mul in Hun by done.
    assert (Hfl2 : freelist_ok (st64 m1 a 0) (PTE2PA (pte_at (k_mem (st w)) root (v0 * PGSIZE)))
                     (PTE2PA (pte_at (k_mem (st w)) root (v0 * PGSIZE)) :: l)).
    { apply (freelist_frame m1 _ root); [done|apply Hus2|done]. }
    set (pa := PTE2PA (pte_at (k_mem (st w)) root (v0 * PGSIZE))) in *.
    set (s2 := set_k_mem (st64 m1 a 0) (kmem_upd m1 pa (st w))).
    assert (Hs2 : kmem_rel (st w) s2) by (apply kmem_rel_mem, kmem_rel_upd).
    rewrite u64_small by (rewrite TRAPFRAME_val in *; unfold PGSIZE in *; lia).
    replace (v0 * PGSIZE + PGSIZE) with ((v0 + 1) * PGSIZE) by lia.
    replace (v0 + S n) with (v0 + 1 + n) by lia.
    apply (IH fuel (v0 + 1) (pa :: l)); cbn [st env]; [lia|lia|lia|by eapply kmem_rel_ready|exact Hfl2|exact Hus2| |].
    { intros i Hi. cbn [k_mem s2 set_k_mem]. rewrite (un_pte _ _ _ _ _ Hun).
      - rewrite unmap_range_ne by (rewrite Z.div_mul by done; lia).
        replace (v0 + 1 + i) with (v0 + S i) by lia. apply Hv. lia.
      - pose proof (page_in_range v0 (1 + i)). unfold PGSIZE in *. lia. }
    intros s' Hs'. cbn zeta. cbn [k_mem s2 set_k_mem]. intros Hfl' Hus' Hun'.
    assert (Hup : upages (st64 m1 a 0) root (v0 + 1) n = upages (k_mem (st w)) root (v0 + 1) n).
    { apply upages_ext. intros i Hi. rewrite (un_pte _ _ _ _ _ Hun).
      - apply unmap_range_ne. rewrite Z.div_mul by done. lia.
      - pose proof (page_in_range v0 (1 + i)). unfold PGSIZE in *. lia. }
    rewrite Hup in *.
    assert (Hl : reverse (upages (k_mem (st w)) root v0 (S n)) ++ l = reverse (upages (k_mem (st w)) root (v0 + 1) n) ++ pa :: l).
    { rewrite upages_cons, reverse_cons, <- app_assoc. done. }
    apply HQ; cbn zeta; rewrite ?Hl; [by etrans|done|done|]. by apply (unmapped_cons _ (st64 m1 a 0)).
Qed.

(** [uvmunmap(pagetable, va, npages, 1)] of mapped user pages. *)
Lemma wp_uvmunmap_free (n : nat) root l v0 Q w :
  0 <= v0 -> (v0 + n) * PGSIZE <= TRAPFRAME ->
  kmem_ready (st w) -> freelist_ok (k_mem (st w)) (k_freelist (st w)) l -> uspace (k_mem (st w)) root l ->
  (forall i : nat, (i < n)%nat -> valid (pte_at (k_mem (st w)) root ((v0 + i) * PGSIZE)) = true) ->
  (forall s', kmem_rel (st w) s' ->
     let l' := reverse (upages (k_mem (st w)) root v0 n) ++ l in
     freelist_ok (k_mem s') (k_freelist s') l' -> uspace (k_mem s') root l' ->
     unmapped (k_mem (st w)) (k_mem s') root v0 n -> Q tt (World s' (env w))) ->
  wp (uvmunmap root (v0 * PGSIZE) n true) Q w.
Proof.
  intros Hv0 Hlim Hr Hfl Hus Hv HQ. unfold uvmunmap. rewrite Z.mod_mul by done. cbn [negb Z.eqb].
  rewrite u64_small by (rewrite TRAPFRAME_val in *; unfold PGSIZE in *; lia).
  replace (v0 * PGSIZE + n * PGSIZE) with ((v0 + n) * PGSIZE) by lia.
  apply (uvmunmap_loop_free n _ root l); try done.
  unfold PGSIZE. Z.div_mod_to_equations. lia.
Qed.

Lemma PGROUNDUP_page v : 0 <= v -> v * PGSIZE <= MAXVA -> PGROUNDUP (v * PGSIZE) = v * PGSIZE.
Proof.
  rewrite MAXVA_val. intros Hv Hlim. rewrite PGROUNDUP_spec by (unfold PGSIZE in *; lia).
  unfold PGSIZE. Z.div_mod_to_equations. lia.
Qed.

(** [uvmdealloc] between page boundaries. *)
Lemma wp_uvmdealloc (n : nat) root l v0 Q w :
  0 <= v0 -> (v0 + n) * PGSIZE <= TRAPFRAME ->
  kmem_ready (st w) -> freelist_ok (k_mem (st w)) (k_freelist (st w)) l -> uspace (k_mem (st w)) root l ->
  (forall i : nat, (i < n)%nat -> valid (pte_at (k_mem (st w)) root ((v0 + i) * PGSIZE)) = true) ->
  (forall s', kmem_rel (st w) s' ->
     let l' := reverse (upages (k_mem (st w)) root v0 n) ++ l in
     freelist_ok (k_mem s') (k_freelist s') l' -> uspace (k_mem s') root l' ->
     unmapped (k_mem (st w)) (k_mem s') root v0 n -> Q (v0 * PGSIZE) (World s' (env w))) ->
  wp (uvmdealloc root ((v0 + n) * PGSIZE) (v0 * PGSIZE)) Q w.
Proof.
  intros Hv0 Hlim Hr Hfl Hus Hv HQ. unfold uvmdealloc. pose proof trapframe_below.
  destruct n as [|n].
  { rewrite Z.add_0_r. rewrite (proj2 (Z.leb_le _ _)) by lia. apply wp_ret. destruct w as [s e]. apply HQ; [done|done|done|].
    constructor; [done| |done]. intros va Hva. by rewrite unmap_range_ne by lia. }
  rewrite (proj2 (Z.leb_gt _ _)) by (unfold PGSIZE; lia).
  rewrite !PGROUNDUP_page by (unfold PGSIZE in *; lia). rewrite (proj2 (Z.ltb_lt _ _)) by (unfold PGSIZE; lia).
  replace (((v0 + S n) * PGSIZE - v0 * PGSIZE) / PGSIZE) with (Z.of_nat (S n)) by (unfold PGSIZE; Z.div_mod_to_equations; lia).
  rewrite s32_small by (rewrite TRAPFRAME_val in *; unfold PGSIZE in *; lia). cbn [when].
  apply wp_bind, (wp_uvmunmap_free (S n) root l); [done..|]. intros s' Hs' l' Hfl' Hus' Hun. apply wp_ret. by apply HQ.
Qed.

End Unmap.
