(* ===== verification/UserSpace.v ===== *)
(** * Growing, copying and freeing address spaces

    [uvmalloc], [uvmcopy], [freewalk] and [uvmfree] of vm.c on the address
    spaces of [UserMem]: what a process gains, that a failed call gives back
    what it took, and that no page is lost or shared. *)

From S2P Require Import Prelude State KString Spinlock Kalloc Vm PageTable UserMem.

(** ** Adding a page *)

(** From [m0] with free pages [l0], the table at [root] gained nodes and the
    virtual pages [v0 .. v0+k-1], with permissions [perm] and contents [data],
    all taken from [l0], of which [l] is left. *)
Record grown `{KernelImage} (root v0 : Z) (perm data : Z -> Z) (m0 : gmap Z Z) (l0 : list Z) (k : nat)
    (m : gmap Z Z) (l : list Z) : Prop := {
  gr_space : uspace m root l;
  gr_pte : forall va, 0 <= va < MAXVA -> ~ (v0 <= va / PGSIZE < v0 + k) -> pte_at m root va = pte_at m0 root va;
  gr_new : forall va, v0 <= va / PGSIZE < v0 + k ->
    valid (pte_at m root va) = true /\ PTE_FLAGS (pte_at m root va) = Z.lor (perm (va / PGSIZE)) PTE_V /\
    (PTE2PA (pte_at m root va) ∈ l0);
  gr_data : forall va, v0 <= va / PGSIZE < v0 + k -> m.[uphys m root va] = data va;
  gr_frame : forall a, (forall x, is_node m0 root x -> ~ in_page x a) -> (forall x, x ∈ l0 -> ~ in_page x a) -> m.[a] = m0.[a];
  gr_free : forall x, x ∈ l -> x ∈ l0;
  gr_nodes : forall x, is_node m0 root x -> is_node m root x;
  gr_nodes' : forall x, is_node m root x -> is_node m0 root x \/ x ∈ l0;
  gr_all : forall x, x ∈ l0 -> x ∈ l \/ is_node m root x \/ x ∈ upages m root v0 k
}.

(** A failed attempt: the translations are those of [m0] again, and every page
    of [l0] is free again or has become a node of the table. *)
Record restored `{KernelImage} (root : Z) (m0 : gmap Z Z) (l0 : list Z) (m : gmap Z Z) (l : list Z) : Prop := {
  re_space : uspace m root l;
  re_pte : forall va, 0 <= va < MAXVA -> pte_at m root va = pte_at m0 root va;
  re_frame : forall a, (forall x, is_node m0 root x -> ~ in_page x a) -> (forall x, x ∈ l0 -> ~ in_page x a) -> m.[a] = m0.[a];
  re_free : forall x, x ∈ l -> x ∈ l0;
  re_nodes : forall x, is_node m0 root x -> is_node m root x;
  re_nodes' : forall x, is_node m root x -> is_node m0 root x \/ x ∈ l0;
  re_all : forall x, x ∈ l0 -> x ∈ l \/ is_node m root x
}.

Section Grow.
Context `{KernelImageOk}.

(** Permissions of a user page. *)
Definition uperm_ok (perm : Z) : Prop := 0 <= perm < 1024 /\ Z.lor perm PTE_V <> PTE_V.

(** The free list after linking nodes and mapping the page [mem]. *)
Lemma uspace_map m m' root l taken l' mem v0 (k : nat) perm :
  uspace m root (mem :: l) -> NoDup (mem :: l) -> l = taken ++ l' -> pt_wf m' root l' ->
  pt_step m m' root taken (map_range v0 k mem perm) -> (k <= 1)%nat -> 0 <= v0 -> (v0 + 1) * PGSIZE <= TRAPFRAME ->
  page_ok mem -> uperm_ok perm -> uspace m' root l'.
Proof.
  intros Hus Hnd Hl Hwf' Hstep Hk Hv0 Hlim Hok [Hperm Hleaf]. pose proof trapframe_below as Htb.
  apply list.NoDup_cons in Hnd as [Hnin Hnd]. pose proof (page_pa_ok mem Hok) as Hpa.
  assert (Hsub : forall x, x ∈ l' -> x ∈ l) by (intros x Hx; rewrite Hl; apply elem_of_app; by right).
  assert (Hmn : ~ is_node m' root mem).
  { intros [Hm|Ht]%(step_nodes _ _ _ _ _ Hstep).
    - destruct (wf_page _ _ _ (us_wf _ _ _ Hus) mem Hm) as [_ []]. by left.
    - apply Hnin. rewrite Hl. apply elem_of_app. by left. }
  assert (Hcase : forall va, 0 <= va < MAXVA ->
    (v0 <= va / PGSIZE < v0 + k /\ pte_at m' root va = leaf_pte mem perm /\ va / PGSIZE = v0) \/
    (pte_at m' root va = pte_at m root va)).
  { intros va Hva. rewrite (step_pte _ _ _ _ _ Hstep) by done. unfold map_range.
    destruct (decide (v0 <= va / PGSIZE < v0 + k)); [left|by right]. split_and!; [lia|lia| |lia].
    replace (va / PGSIZE - v0) with 0 by lia. by rewrite Z.mul_0_l, Z.add_0_r. }
  assert (Hold : forall va, 0 <= va < TRAPFRAME -> valid (pte_at m root va) = true ->
    page_ok (PTE2PA (pte_at m root va)) /\ PTE2PA (pte_at m root va) <> mem /\ (PTE2PA (pte_at m root va) ∉ l') /\
    ~ is_node m' root (PTE2PA (pte_at m root va)) /\ PTE_FLAGS (pte_at m root va) <> PTE_V).
  { intros va Hva Hv. destruct (us_page _ _ _ Hus va Hva Hv) as (H1 & H2 & H3 & H4).
    apply not_elem_of_cons in H2 as [H2 H2']. split_and!; [done|done|auto| |done].
    intros [Hn|Ht]%(step_nodes _ _ _ _ _ Hstep); [done|]. apply H2'. rewrite Hl. apply elem_of_app. by left. }
  assert (Hrng : forall va, 0 <= va < TRAPFRAME -> 0 <= va < MAXVA) by (intros; lia).
  constructor; [done| | |].
  - intros va Ha. pose proof Ha as (Hr & Hv & Hu)%uacc_spec. destruct (Hcase va Hr) as [(_ & _ & Hva)|Heq].
    + rewrite TRAPFRAME_val in *. unfold PGSIZE in *. Z.div_mod_to_equations. lia.
    + apply (us_user _ _ _ Hus), uacc_spec. by rewrite <- Heq.
  - intros va Hva Hv. destruct (Hcase va (Hrng va Hva)) as [(_ & Heq & _)|Heq]; rewrite Heq in *.
    + rewrite leaf_pte_pa, leaf_pte_flags by done. split_and!; [done|auto|done|done].
    + destruct (Hold va) as (? & ? & ? & ? & ?); done.
  - intros va1 va2 H1 H2 Hv1 Hv2.
    destruct (Hcase va1 (Hrng va1 H1)) as [(_ & E1 & P1)|E1], (Hcase va2 (Hrng va2 H2)) as [(_ & E2 & P2)|E2]; rewrite E1, E2 in *.
    + intros _. lia.
    + rewrite leaf_pte_pa by done. intros Heq. destruct (Hold va2) as (_ & [] & _); done.
    + rewrite leaf_pte_pa by done. intros Heq. destruct (Hold va1) as (_ & [] & _); done.
    + by apply (us_inj _ _ _ Hus).
Qed.

(** A failed mapping only added nodes; the page [mem] is still nobody's. *)
Lemma uspace_nodes m m' root l taken l' mem f :
  uspace m root (mem :: l) -> NoDup (mem :: l) -> l = taken ++ l' -> pt_wf m' root l' ->
  pt_step m m' root taken f -> (forall va, 0 <= va < MAXVA -> f va (pte_at m root va) = pte_at m root va) ->
  uspace m' root (mem :: l').
Proof.
  intros Hus Hnd Hl Hwf' Hstep Hf. pose proof trapframe_below as Htb.
  apply list.NoDup_cons in Hnd as [Hnin Hnd].
  assert (Hpte : forall va, 0 <= va < MAXVA -> pte_at m' root va = pte_at m root va).
  { intros va Hva. by rewrite (step_pte _ _ _ _ _ Hstep), Hf. }
  assert (Hsub : forall x, x ∈ mem :: l' -> x ∈ mem :: l).
  { intros x [->|Hx]%elem_of_cons; [by left|right]. rewrite Hl. apply elem_of_app. by right. }
  assert (Htk : forall x, x ∈ taken -> x ∈ mem :: l) by (intros x Hx; right; rewrite Hl; apply elem_of_app; by left).
  constructor.
  - destruct Hwf' as [W1 W2 W3 W4]. constructor; [|done..]. intros x Hx. destruct (W1 x Hx) as [Hok Hxl]. split; [done|].
    apply not_elem_of_cons. split; [|done]. intros ->. apply (step_nodes _ _ _ _ _ Hstep) in Hx as [Hx|Hx].
    + destruct (wf_page _ _ _ (us_wf _ _ _ Hus) mem Hx) as [_ []]. by left.
    + apply Hnin. rewrite Hl. apply elem_of_app. by left.
  - intros va Ha. apply (us_user _ _ _ Hus). pose proof Ha as (Hr & _)%uacc_spec.
    unfold uacc in *. by rewrite <- Hpte.
  - intros va Hva. rewrite Hpte by lia. intros Hv. destruct (us_page _ _ _ Hus va Hva Hv) as (H1 & H2 & H3 & H4).
    split_and!; [done|by intros ?%Hsub| |done]. intros [Hn|Ht]%(step_nodes _ _ _ _ _ Hstep); [done|]. by apply H2, Htk.
  - intros va1 va2 H1 H2. rewrite !Hpte by lia. by apply (us_inj _ _ _ Hus).
Qed.

(** [mappages] of one fresh page [mem] at virtual page [v]. *)
Lemma wp_map_fresh root l mem v perm Q w :
  0 <= v -> (v + 1) * PGSIZE <= TRAPFRAME -> uperm_ok perm -> page_ok mem -> NoDup (mem :: l) ->
  kmem_ready (st w) -> freelist_ok (k_mem (st w)) (k_freelist (st w)) l -> uspace (k_mem (st w)) root (mem :: l) ->
  valid (pte_at (k_mem (st w)) root (v * PGSIZE)) = false ->
  (forall s' taken l', kmem_rel (st w) s' -> l = taken ++ l' -> freelist_ok (k_mem s') (k_freelist s') l' ->
     uspace (k_mem s') root l' -> pt_step (k_mem (st w)) (k_mem s') root taken (map_range v 1 mem perm) ->
     Q 0 (World s' (env w))) ->
  (forall s', kmem_rel (st w) s' -> freelist_ok (k_mem s') (k_freelist s') [] -> uspace (k_mem s') root [mem] ->
     pt_step (k_mem (st w)) (k_mem s') root l (fun _ e => e) -> Q (-1) (World s' (env w))) ->
  wp (mappages root (v * PGSIZE) PGSIZE mem perm) Q w.
Proof.
  intros Hv Hlim Hperm Hok Hnd Hr Hfl Hus Hun HQ1 HQ2. pose proof trapframe_below as Htb. pose proof (page_pa_ok mem Hok) as Hpa.
  assert (Hpg : (v * PGSIZE + PGSIZE - 1) / PGSIZE = v) by (unfold PGSIZE; Z.div_mod_to_equations; lia).
  apply (wp_mappages root (v * PGSIZE) PGSIZE mem perm l); try done; rewrite ?Hpg, ?Z.div_mul by done.
  - unfold PGSIZE. lia.
  - unfold PGSIZE in *. lia.
  - pose proof (page_ok_range mem Hok). unfold PHYSTOP, KERNBASE, PGSIZE in *. lia.
  - apply Hperm.
  - apply (pt_wf_avoid _ _ (mem :: l)); [intros x Hx; by right|apply Hus].
  - intros va' Hva'. rewrite (pte_at_page _ _ va' (v * PGSIZE)); [done|]. rewrite Z.div_mul by done. lia.
  - replace (v - v + 1) with 1 by lia.
    intros r s' Hs' (taken & l' & k & Hl & Hfl' & Hwf' & Hstep & [[-> ->]|(-> & Hk & ->)]).
    + apply (HQ1 s' taken l'); [done..| |done].
      eapply (uspace_map (k_mem (st w)) _ root l taken l' mem v 1); try done.
    + rewrite app_nil_r in Hl. subst taken. assert (k = 0) as -> by lia.
      assert (Hz : forall va e, map_range v 0 mem perm va e = e) by (intros; unfold map_range; by rewrite decide_False by lia).
      apply HQ2; [done|done| |].
      * eapply (uspace_nodes (k_mem (st w)) _ root l l []); [done|done|by rewrite app_nil_r|done|exact Hstep|]. intros va _. apply Hz.
      * eapply pt_step_ext; [|exact Hstep]. intros va e _. apply Hz.
Qed.

Lemma in_own_page pg va : pg mod PGSIZE = 0 -> in_page pg (pg + va mod PGSIZE).
Proof. apply in_page_mod. Qed.

Lemma grown_nil root v0 perm data m l : uspace m root l -> grown root v0 perm data m l 0 m l.
Proof. intros Hus. constructor; try done; try (intros; lia); naive_solver. Qed.

(** One more page. *)
Lemma grown_step root v0 perm data m0 l0 (k : nat) m mem l1 m1 m' taken l' :
  0 <= v0 -> (v0 + k + 1) * PGSIZE <= TRAPFRAME -> 0 <= perm (v0 + k) < 1024 ->
  grown root v0 perm data m0 l0 k m (mem :: l1) -> page_ok mem -> NoDup (mem :: l1) ->
  (forall b, ~ in_page mem b -> m1.[b] = m.[b]) ->
  (forall va, va / PGSIZE = v0 + k -> m1.[mem + va mod PGSIZE] = data va) ->
  l1 = taken ++ l' -> uspace m' root l' -> pt_step m1 m' root taken (map_range (v0 + k) 1 mem (perm (v0 + k))) ->
  grown root v0 perm data m0 l0 (S k) m' l'.
Proof.
  intros Hv0 Hlim Hperm [G1 G2 G3 G4 G5 G6 G7 G8 G9] Hok Hnd Hm1 Hdata Hl Hus' Hstep.
  pose proof trapframe_below as Htb. pose proof (page_pa_ok mem Hok) as Hpa. destruct (Hok) as [Hal _].
  assert (Hnn : forall x, is_node m root x -> x <> mem).
  { intros x Hx ->. destruct (wf_page _ _ _ (us_wf _ _ _ G1) mem Hx) as [_ []]. by left. }
  assert (Hag : forall x a, is_node m root x -> in_page x a -> m1.[a] = m.[a]).
  { intros x a Hx Ha. apply Hm1. destruct (wf_page _ _ _ (us_wf _ _ _ G1) x Hx) as [[Hxa _] _].
    apply (page_disjoint x mem); [done|done|by apply Hnn|done]. }
  assert (Hpte1 : forall va, pte_at m1 root va = pte_at m root va) by (intros va; by apply pte_at_ext).
  assert (Hnode : forall x, is_node m' root x <-> is_node m root x \/ x ∈ taken).
  { intros x. by rewrite (step_nodes _ _ _ _ _ Hstep), (is_node_ext m m1). }
  assert (Hpte' : forall va, 0 <= va < MAXVA -> pte_at m' root va =
            if decide (va / PGSIZE = v0 + k) then leaf_pte mem (perm (v0 + k)) else pte_at m root va).
  { intros va Hva. rewrite (step_pte _ _ _ _ _ Hstep), Hpte1 by done. rewrite <- map_range_one.
    destruct (decide (va / PGSIZE = v0 + k)); [by rewrite decide_True|by rewrite decide_False]. }
  assert (Hrng : forall va, v0 <= va / PGSIZE < v0 + S k -> 0 <= va < TRAPFRAME).
  { intros va Hva. rewrite TRAPFRAME_val in *. unfold PGSIZE in *. Z.div_mod_to_equations. lia. }
  assert (Hkeep : forall va, 0 <= va < TRAPFRAME -> valid (pte_at m' root va) = true ->
            m'.[uphys m' root va] = m1.[uphys m' root va]).
  { intros va Hva Hv. destruct (us_page _ _ _ Hus' va Hva Hv) as ([Hpga _] & _ & Hpgn & _).
    apply (step_frame _ _ _ _ _ Hstep). intros x Hx Hin. destruct (wf_page _ _ _ (us_wf _ _ _ Hus') x Hx) as [[Hxa _] _].
    eapply (page_disjoint x _ _ Hxa Hpga); [|exact Hin|by apply in_own_page]. by intros ->. }
  assert (Htk : forall x, x ∈ taken -> x ∈ l0) by (intros x Hx; apply G6; right; rewrite Hl; apply elem_of_app; by left).
  constructor; [done| | | | | | | |].
  - intros va Hva Hno. rewrite Hpte', decide_False by (done || lia). apply G2; [done|lia].
  - intros va Hva. rewrite Hpte' by (pose proof (Hrng va Hva); lia). destruct (decide (va / PGSIZE = v0 + k)) as [Hpg|].
    + rewrite leaf_pte_valid, leaf_pte_flags, leaf_pte_pa, Hpg by done. split_and!; [done|done|]. apply G6. by left.
    + apply G3. lia.
  - intros va Hva. pose proof (Hrng va Hva) as Hva'.
    assert (Hv' : valid (pte_at m' root va) = true).
    { rewrite Hpte' by lia. destruct (decide _); [apply leaf_pte_valid|apply G3; lia]. }
    rewrite Hkeep by done. unfold uphys. rewrite Hpte' by lia. destruct (decide (va / PGSIZE = v0 + k)) as [Hpg|Hne].
    + rewrite leaf_pte_pa by done. by apply Hdata.
    + rewrite Hm1; [apply G4; lia|]. destruct (G3 va) as (Hv & _); [lia|].
      destruct (us_page _ _ _ G1 va Hva' Hv) as ([Hpga _] & Hpgl & _). apply not_elem_of_cons in Hpgl as [Hpgm _].
      intros Hin. by apply (page_disjoint _ mem _ Hpga Hal Hpgm (in_own_page _ va Hpga)).
  - intros a Ha1 Ha2. rewrite (step_frame _ _ _ _ _ Hstep), Hm1, G5; [done|done|done| |].
    + apply Ha2, G6. by left.
    + intros x [Hx|Hx]%Hnode; [|by apply Ha2, Htk]. destruct (G8 x Hx); auto.
  - intros x Hx. apply G6. right. rewrite Hl. apply elem_of_app. by right.
  - intros x Hx. apply Hnode. left. auto.
  - intros x [Hx|Hx]%Hnode; auto.
  - intros x Hx.
    assert (Hnew : forall i : nat, (i < S k)%nat -> pte_at m' root ((v0 + i) * PGSIZE) =
              if decide (i = k) then leaf_pte mem (perm (v0 + k)) else pte_at m root ((v0 + i) * PGSIZE)).
    { intros i Hi. rewrite Hpte' by (pose proof (Hrng ((v0 + i) * PGSIZE)) as Hr; rewrite Z.div_mul in Hr by done; lia).
      rewrite Z.div_mul by done. destruct (decide (v0 + i = v0 + k)); [by rewrite decide_True by lia|by rewrite decide_False by lia]. }
    destruct (G9 x Hx) as [[->|Hx1]%elem_of_cons|[Hx1|(i & Hi & ->)%elem_of_upages]].
    + right; right. apply elem_of_upages. exists k. split; [lia|]. rewrite Hnew, decide_True by lia. by rewrite leaf_pte_pa.
    + rewrite Hl in Hx1. apply elem_of_app in Hx1 as [Ht|Hx1]; [right; left; apply Hnode; by right|by left].
    + right; left. apply Hnode. by left.
    + right; right. apply elem_of_upages. exists i. split; [lia|]. by rewrite Hnew, decide_False by lia.
Qed.

Lemma grown_upages root v0 perm data m0 l0 (k : nat) m l pg :
  grown root v0 perm data m0 l0 k m l -> pg ∈ upages m root v0 k -> pg ∈ l0.
Proof.
  intros Hg (i & Hi & ->)%elem_of_upages. apply (gr_new _ _ _ _ _ _ _ _ _ Hg). rewrite Z.div_mul by done. lia.
Qed.

(** Unmapping what was added restores the address space. *)
Lemma grown_undo root v0 perm data m0 l0 (k : nat) m l m' :
  0 <= v0 -> (forall va, v0 <= va / PGSIZE < v0 + k -> pte_at m0 root va = 0) ->
  grown root v0 perm data m0 l0 k m l -> unmapped m m' root v0 k -> uspace m' root (reverse (upages m root v0 k) ++ l) ->
  restored root m0 l0 m' (reverse (upages m root v0 k) ++ l).
Proof.
  intros Hv0 Hz Hg [U1 U2 U3] Hus'. pose proof Hg as [G1 G2 G3 G4 G5 G6 G7 G8 G9]. constructor; [done| | | | | |].
  - intros va Hva. rewrite U2 by done. unfold unmap_range. destruct (decide (v0 <= va / PGSIZE < v0 + k)); [by rewrite Hz|by apply G2].
  - intros a Ha1 Ha2. rewrite U3, G5; [done|done|done| |].
    + intros x Hx. destruct (G8 x Hx); auto.
    + intros pg Hpg. apply Ha2. by eapply grown_upages.
  - intros x [Hx|Hx]%elem_of_app; [|auto]. rewrite elem_of_reverse in Hx. by eapply grown_upages.
  - intros x Hx. apply U1. auto.
  - intros x Hx. apply G8, U1, Hx.
  - intros x Hx. rewrite elem_of_app, elem_of_reverse, U1. destruct (G9 x Hx) as [?|[?|?]]; auto.
Qed.

(** Returning the page that could not be mapped. *)
Lemma grown_give_back root v0 perm data m0 l0 (k : nat) m mem l1 m1 m2 m3 :
  grown root v0 perm data m0 l0 k m (mem :: l1) -> page_ok mem -> NoDup (mem :: l1) ->
  (forall b, ~ in_page mem b -> m1.[b] = m.[b]) -> pt_step m1 m2 root l1 (fun _ e => e) -> uspace m2 root [mem] ->
  (forall b, ~ in_page mem b -> m3.[b] = m2.[b]) ->
  0 <= v0 -> (v0 + k) * PGSIZE <= TRAPFRAME ->
  grown root v0 perm data m0 l0 k m3 [mem].
Proof.
  intros [G1 G2 G3 G4 G5 G6 G7 G8 G9] Hok Hnd Hm1 Hstep Hus2 Hm3 Hv0 Hlim. pose proof trapframe_below as Htb. destruct Hok as [Hal _].
  assert (Hdis : forall m l, uspace m root l -> mem ∈ l -> forall x a, is_node m root x -> in_page x a -> ~ in_page mem a).
  { intros mm l Hus Hl x a Hx Ha. destruct (wf_page _ _ _ (us_wf _ _ _ Hus) x Hx) as [[Hxa _] Hxl].
    apply (page_disjoint x mem); [done|done|by intros ->|done]. }
  assert (Hag1 : forall x a, is_node m root x -> in_page x a -> m1.[a] = m.[a]).
  { intros x a Hx Ha. eapply Hm1, Hdis; [exact G1|by left|done..]. }
  assert (Hag3 : forall x a, is_node m2 root x -> in_page x a -> m3.[a] = m2.[a]).
  { intros x a Hx Ha. eapply Hm3, Hdis; [exact Hus2|by left|done..]. }
  assert (Hpte : forall va, 0 <= va < MAXVA -> pte_at m3 root va = pte_at m root va).
  { intros va Hva. by rewrite (pte_at_ext m2 m3), (step_pte _ _ _ _ _ Hstep), (pte_at_ext m m1). }
  assert (Hnode : forall x, is_node m3 root x <-> is_node m root x \/ x ∈ l1).
  { intros x. by rewrite (is_node_ext m2 m3), (step_nodes _ _ _ _ _ Hstep), (is_node_ext m m1). }
  assert (Hus3 : uspace m3 root [mem]) by (by apply (uspace_frame m2)).
  assert (Hrng : forall va, v0 <= va / PGSIZE < v0 + k -> 0 <= va < TRAPFRAME).
  { intros va Hva. rewrite TRAPFRAME_val in *. unfold PGSIZE in *. Z.div_mod_to_equations. lia. }
  constructor; [done| | | | | | | |].
  - intros va Hva Hno. rewrite Hpte by done. by apply G2.
  - intros va Hva. rewrite Hpte by (pose proof (Hrng va Hva); lia). by apply G3.
  - intros va Hva. pose proof (Hrng va Hva) as Hva'. unfold uphys. rewrite Hpte by lia. destruct (G3 va Hva) as (Hv & _).
    destruct (us_page _ _ _ G1 va Hva' Hv) as ([Hpga _] & Hpgl & _). apply not_elem_of_cons in Hpgl as [Hpgm Hpgl].
    assert (Hin := in_own_page _ va Hpga). assert (Hnm := page_disjoint _ mem _ Hpga Hal Hpgm Hin).
    assert (Hv3 : valid (pte_at m3 root va) = true) by (by rewrite Hpte by lia).
    destruct (us_page _ _ _ Hus3 va Hva' Hv3) as (_ & _ & Hn3 & _). rewrite Hpte in Hn3 by lia.
    rewrite Hm3 by done. rewrite (step_frame _ _ _ _ _ Hstep); [rewrite Hm1 by done; by apply G4|].
    intros x Hx Hinx. apply (is_node_ext m2 m3 root Hag3) in Hx.
    destruct (wf_page _ _ _ (us_wf _ _ _ Hus3) x Hx) as [[Hxa _] _].
    eapply (page_disjoint x _ _ Hxa Hpga); [|exact Hinx|exact Hin]. by intros ->.
  - intros a Ha1 Ha2. assert (~ in_page mem a) by (apply Ha2, G6; by left).
    rewrite Hm3 by done. rewrite (step_frame _ _ _ _ _ Hstep); [by rewrite Hm1, G5 by done|].
    intros x Hx. apply (is_node_ext m2 m3 root Hag3), Hnode in Hx as [Hx|Hx]; [destruct (G8 x Hx); auto|apply Ha2, G6; by right].
  - intros x ->%list_elem_of_singleton. apply G6. by left.
  - intros x Hx. apply Hnode. left. auto.
  - intros x [Hx|Hx]%Hnode; [auto|]. right. apply G6. by right.
  - intros x Hx. rewrite Hnode. assert (Hup : upages m3 root v0 k = upages m root v0 k).
    { apply upages_ext. intros i Hi. apply Hpte. pose proof (Hrng ((v0 + i) * PGSIZE)) as Hr. rewrite Z.div_mul in Hr by done. lia. }
    rewrite Hup. destruct (G9 x Hx) as [[->|?]%elem_of_cons|[?|?]]; [left; by left|auto..].
Qed.

Lemma grown_valid root v0 perm data m0 l0 (k : nat) m l (i : nat) :
  grown root v0 perm data m0 l0 k m l -> (i < k)%nat -> valid (pte_at m root ((v0 + i) * PGSIZE)) = true.
Proof. intros Hg Hi. apply (gr_new _ _ _ _ _ _ _ _ _ Hg). rewrite Z.div_mul by done. lia. Qed.

(** Filling a fresh page. *)
Lemma fresh_fill root s m2 mem l1 m1 fl1 :
  uspace (k_mem s) root (mem :: l1) -> page_ok mem -> mem ∉ l1 -> freelist_ok m1 fl1 l1 ->
  (forall b, ~ in_page mem b -> m1.[b] = (k_mem s).[b]) -> (forall b, ~ in_page mem b -> m2.[b] = (k_mem s).[b]) ->
  uspace m2 root (mem :: l1) /\ freelist_ok m2 fl1 l1 /\ (forall va, pte_at m2 root va = pte_at (k_mem s) root va).
Proof.
  intros Hus Hok Hnin [Hf1 Hf2] Hm1 Hm2.
  assert (Hag : forall x a, is_node (k_mem s) root x -> in_page x a -> m2.[a] = (k_mem s).[a]).
  { intros x a Hxn Ha. apply Hm2. destruct (wf_page _ _ _ (us_wf _ _ _ Hus) x Hxn) as [[Hxa _] Hxl].
    destruct Hok. apply (page_disjoint x mem); [done|done|intros ->; apply Hxl; by left|done]. }
  split_and!; [by apply (uspace_frame (k_mem s))| |intros va; by apply pte_at_ext].
  split; [|done]. apply (fl_rep_ext m1); [|done]. intros q a Hq Ha.
  assert (~ in_page mem a).
  { apply fl_rep_ok in Hf1. rewrite list.Forall_forall in Hf1. destruct (Hf1 q Hq), Hok.
    apply (page_disjoint q mem); [done|done|by intros ->|done]. }
  by rewrite Hm1, Hm2.
Qed.

(** ** uvmalloc *)

Definition uvm_perm (xperm : Z) : Z := Z.lor (Z.lor PTE_R PTE_U) xperm.

Lemma uvm_perm_ok xperm : 0 <= xperm < 1024 -> uperm_ok (uvm_perm xperm).
Proof.
  intros Hx. split; [by apply (lor_bound _ _ 10)|]. unfold uvm_perm. intros Heq.
  apply (f_equal (fun x => Z.testbit x 1)) in Heq. rewrite !Z.lor_spec in Heq. done.
Qed.

(** The address space [root] and the allocator are usable in state [s]. *)
Definition space_ready (s : kst) (root : Z) (l : list Z) : Prop :=
  kmem_ready s /\ freelist_ok (k_mem s) (k_freelist s) l /\ uspace (k_mem s) root l.

(** The error path of [uvmalloc]. *)
Lemma wp_uvmalloc_undo root v0 perm data s0 l0 (k : nat) l s e Q :
  0 <= v0 -> (v0 + k) * PGSIZE <= TRAPFRAME ->
  (forall va, v0 <= va / PGSIZE < v0 + k -> pte_at (k_mem s0) root va = 0) ->
  kmem_ready s0 -> kmem_rel s0 s -> freelist_ok (k_mem s) (k_freelist s) l ->
  grown root v0 perm data (k_mem s0) l0 k (k_mem s) l ->
  (forall s' l', kmem_rel s0 s' -> freelist_ok (k_mem s') (k_freelist s') l' ->
     restored root (k_mem s0) l0 (k_mem s') l' -> Q 0 (World s' e)) ->
  wp (uvmdealloc root ((v0 + k) * PGSIZE) (v0 * PGSIZE);; mret 0) Q (World s e).
Proof.
  intros Hv0 Hlim Hz Hr Hrel Hfl Hg HQ. apply wp_bind, (wp_uvmdealloc k root l); cbn [st env]; try done.
  - by eapply kmem_rel_ready.
  - apply Hg.
  - intros i Hi. by eapply grown_valid.
  - intros s' Hs' Hfl' Hus' Hun. eapply wp_ret, HQ; [by etrans|exact Hfl'|]. by eapply grown_undo.
Qed.

Lemma uvmalloc_loop_spec (fuel N k : nat) root v0 newsz xperm s0 l0 s l e Q :
  (N < fuel + k)%nat -> (k <= N)%nat -> 0 <= v0 -> (v0 + N) * PGSIZE <= TRAPFRAME -> 0 <= xperm < 1024 ->
  (v0 + N - 1) * PGSIZE < newsz <= (v0 + N) * PGSIZE ->
  (forall va, v0 <= va / PGSIZE < v0 + N -> pte_at (k_mem s0) root va = 0) ->
  kmem_ready s0 -> kmem_rel s0 s -> freelist_ok (k_mem s) (k_freelist s) l ->
  grown root v0 (fun _ => uvm_perm xperm) (fun _ => 0) (k_mem s0) l0 k (k_mem s) l ->
  (forall s' l', kmem_rel s0 s' -> freelist_ok (k_mem s') (k_freelist s') l' ->
     grown root v0 (fun _ => uvm_perm xperm) (fun _ => 0) (k_mem s0) l0 N (k_mem s') l' -> Q newsz (World s' e)) ->
  (forall s' l', kmem_rel s0 s' -> freelist_ok (k_mem s') (k_freelist s') l' ->
     restored root (k_mem s0) l0 (k_mem s') l' -> Q 0 (World s' e)) ->
  wp (uvmalloc_loop fuel root (v0 * PGSIZE) ((v0 + k) * PGSIZE) newsz xperm) Q (World s e).
Proof.
  revert k s l. induction fuel as [|fuel IH]; intros k s l Hfuel Hk Hv0 Hlim Hx Hsz Hz Hr Hrel Hfl Hg HQ1 HQ2; [lia|].
  cbn [uvmalloc_loop]. destruct (Z.ltb_spec ((v0 + k) * PGSIZE) newsz) as [Hlt|Hge].
  2: { assert (k = N) as -> by (unfold PGSIZE in *; lia). apply wp_ret. by apply (HQ1 s l). }
  assert (Hk' : (k < N)%nat) by (unfold PGSIZE in *; lia).
  assert (Hlimk : (v0 + k + 1) * PGSIZE <= TRAPFRAME) by (unfold PGSIZE in *; lia).
  pose proof trapframe_below as Htb.
  assert (Hready : kmem_ready s) by (by eapply kmem_rel_ready).
  apply wp_bind, (wp_kalloc l); [done..|]. destruct l as [|mem l1].
  { apply (wp_uvmalloc_undo root v0 (fun _ => uvm_perm xperm) (fun _ => 0) s0 l0 k []); try done;
      [unfold PGSIZE in *; lia|intros va Hva; apply Hz; lia|]. etrans; [exact Hrel|apply kmem_rel_upd]. }
  intros m1 fl1 Hok Hnin Hfl1 Hm1. pose proof (page_ok_range mem Hok) as [Hpos _].
  assert (Hnd : NoDup (mem :: l1)) by (by destruct Hfl).
  rewrite (proj2 (Z.eqb_neq mem 0)) by lia. unfold clear_page. rewrite (proj2 (Z.eqb_neq mem 0)) by lia.
  apply wp_bind, wp_modify, wp_bind. cbn [st env k_mem kmem_upd set_k_mem].
  assert (Hm2 : forall b, (memset m1 mem 0 PGSIZE).[b] = if decide (in_page mem b) then 0 else (k_mem s).[b]).
  { intros b. rewrite memset_page, Hm1. by destruct (decide (in_page mem b)). }
  generalize dependent (memset m1 mem 0 PGSIZE). intros m2 Hm2.
  assert (Hout : forall b, ~ in_page mem b -> m2.[b] = (k_mem s).[b]) by (intros b Hb; by rewrite Hm2, decide_False).
  destruct (fresh_fill root s m2 mem l1 m1 fl1) as (Hus2 & Hfl2 & Hpte2); [apply Hg|done..| |done|].
  { intros b Hb. by rewrite Hm1, decide_False. }
  set (s2 := set_k_mem m2 (kmem_upd m1 fl1 s)).
  assert (Hrel2 : kmem_rel s0 s2) by (etrans; [exact Hrel|]; apply kmem_rel_mem, kmem_rel_upd).
  fold (uvm_perm xperm). apply (wp_map_fresh root l1 mem (v0 + k)); cbn [st env k_mem s2 set_k_mem]; try done;
    [lia|by apply uvm_perm_ok| | |].
  { rewrite Hpte2, (gr_pte _ _ _ _ _ _ _ _ _ Hg).
    - rewrite Hz; [done|]. rewrite Z.div_mul by done. lia.
    - unfold PGSIZE in *. lia.
    - rewrite Z.div_mul by done. lia. }
  - intros s' taken l' Hs' Hl Hfl' Hus' Hstep. cbn [negb Z.eqb].
    rewrite u64_small by (rewrite TRAPFRAME_val in *; unfold PGSIZE in *; lia).
    replace ((v0 + k) * PGSIZE + PGSIZE) with ((v0 + S k) * PGSIZE) by lia.
    apply (IH (S k) s' l'); try done; [lia|by etrans|].
    eapply (grown_step root v0 _ _ _ _ k (k_mem s) mem l1 m2); try done.
    + by apply uvm_perm_ok.
    + intros va Hva. rewrite Hm2, decide_True; [done|]. destruct Hok. by apply in_page_mod.
  - intros s' Hs' Hfl' Hus' Hstep. cbn [negb Z.eqb].
    apply wp_bind, (wp_kfree mem []); cbn [st env]; [exact (kmem_rel_ready _ _ Hs' (kmem_rel_ready _ _ Hrel2 Hr))|done|done|by intros ?%elem_of_nil|].
    intros m3 Hfl3 Hm3.
    apply (wp_uvmalloc_undo root v0 (fun _ => uvm_perm xperm) (fun _ => 0) s0 l0 k [mem]); try done.
    + unfold PGSIZE in *. lia.
    + intros va Hva. apply Hz. lia.
    + etrans; [exact Hrel2|]. etrans; [exact Hs'|apply kmem_rel_upd].
    + eapply (grown_give_back root v0 _ _ _ _ k (k_mem s) mem l1 m2 (k_mem s')); try done. unfold PGSIZE in *. lia.
Qed.

(** Number of pages between two sizes. *)
Definition pages_between (oldsz newsz : Z) : nat := Z.to_nat (PGROUNDUP newsz / PGSIZE - PGROUNDUP oldsz / PGSIZE).

Lemma PGROUNDUP_trap sz : 0 <= sz <= TRAPFRAME ->
  exists v, PGROUNDUP sz = v * PGSIZE /\ 0 <= v /\ v * PGSIZE <= TRAPFRAME /\ (v - 1) * PGSIZE < sz <= v * PGSIZE.
Proof.
  intros Hsz. rewrite TRAPFRAME_val in *. exists ((sz + PGSIZE - 1) / PGSIZE).
  rewrite PGROUNDUP_spec by (unfold PGSIZE in *; lia). split; [done|]. unfold PGSIZE in *. Z.div_mod_to_equations. lia.
Qed.

Lemma wp_uvmalloc root oldsz newsz xperm l Q w :
  0 <= oldsz <= newsz -> newsz <= TRAPFRAME -> 0 <= xperm < 1024 -> space_ready (st w) root l ->
  (forall va, PGROUNDUP oldsz <= va < PGROUNDUP newsz -> pte_at (k_mem (st w)) root va = 0) ->
  (forall s' l', kmem_rel (st w) s' -> freelist_ok (k_mem s') (k_freelist s') l' ->
     grown root (PGROUNDUP oldsz / PGSIZE) (fun _ => uvm_perm xperm) (fun _ => 0) (k_mem (st w)) l
       (pages_between oldsz newsz) (k_mem s') l' -> Q newsz (World s' (env w))) ->
  (forall s' l', kmem_rel (st w) s' -> freelist_ok (k_mem s') (k_freelist s') l' ->
     restored root (k_mem (st w)) l (k_mem s') l' -> Q 0 (World s' (env w))) ->
  wp (uvmalloc root oldsz newsz xperm) Q w.
Proof.
  intros Hsz Hlim Hx (Hr & Hfl & Hus) Hz HQ1 HQ2. unfold uvmalloc. rewrite (proj2 (Z.ltb_ge _ _)) by lia.
  destruct (PGROUNDUP_trap oldsz) as (v0 & E0 & P0 & L0 & B0); [lia|].
  destruct (PGROUNDUP_trap newsz) as (v1 & E1 & P1 & L1 & B1); [lia|].
  unfold pages_between in HQ1. rewrite E0, E1 in *. rewrite !Z.div_mul in * by done.
  assert (Hv : v0 <= v1) by (unfold PGSIZE in *; lia).
  destruct w as [s e]. cbn [st env] in *.
  replace (v0 * PGSIZE) with ((v0 + 0%nat) * PGSIZE) at 3 by lia.
  apply (uvmalloc_loop_spec _ (Z.to_nat (v1 - v0)) 0 root v0 newsz xperm s l s l); try done.
  - unfold PGSIZE in *. Z.div_mod_to_equations. lia.
  - lia.
  - rewrite TRAPFRAME_val in *. unfold PGSIZE in *. lia.
  - unfold PGSIZE in *. lia.
  - intros va Hva. apply Hz. unfold PGSIZE in *. Z.div_mod_to_equations. lia.
  - by apply grown_nil.
Qed.

End Grow.

(** An empty table is an address space. *)
Lemma uspace_empty `{KernelImage} m root l : pt_wf m root l -> (forall va, pte_at m root va = 0) -> uspace m root l.
Proof.
  intros Hwf Hz. constructor; [done|..].
  - intros va (_ & Hv & _)%uacc_spec. by rewrite Hz in Hv.
  - intros va _. by rewrite Hz.
  - intros va va' _ _ Hv. by rewrite Hz in Hv.
Qed.

Lemma uspace_avoid `{KernelImage} m root l l' : (forall x, x ∈ l' -> x ∈ l) -> uspace m root l -> uspace m root l'.
Proof.
  intros Hl [H1 H2 H3 H4]. constructor; [by eapply pt_wf_avoid|done| |done].
  intros va Hva Hv. destruct (H3 va Hva Hv) as (? & ? & ? & ?). split_and!; [done|auto|done|done].
Qed.


(** The machine after the empty table has grown by two pages. *)
Definition demo_sz : Z := 8192.
Definition kst_user : kst := final kst0 (@uvmalloc demo_image demo_root 0 demo_sz PTE_W (World kst_table [])).

Lemma kst_table_space : @space_ready demo_image kst_table demo_root demo_free.
Proof. destruct kst_table_ok as (Hr & Hfl & Hwf & Hz). split_and!; [done|done|by apply uspace_empty]. Qed.


Definition demo_perm (_ : Z) : Z := uvm_perm PTE_W.
Definition demo_data (_ : Z) : Z := 0.

Lemma kst_user_ok : exists l,
  @space_ready demo_image kst_user demo_root l /\
  @grown demo_image demo_root 0 demo_perm demo_data (k_mem kst_table) demo_free 2 (k_mem kst_user) l.
Proof.
  assert (Hres : result (@uvmalloc demo_image demo_root 0 demo_sz PTE_W (World kst_table [])) = Some demo_sz) by (vm_compute; reflexivity).
  apply (wp_result (@uvmalloc demo_image demo_root 0 demo_sz PTE_W) (fun r s => r = demo_sz -> exists l,
    @space_ready demo_image s demo_root l /\
    @grown demo_image demo_root 0 demo_perm demo_data (k_mem kst_table) demo_free 2 (k_mem s) l) kst0 _ _ Hres); [|done].
  clear Hres. destruct kst_table_ok as (Hr & Hfl & Hwf & Hz).
  apply (@wp_uvmalloc demo_image demo_image_ok demo_root 0 demo_sz PTE_W demo_free).
  - done.
  - vm_compute; discriminate.
  - done.
  - apply kst_table_space.
  - intros va _; apply Hz.
  - intros s' l' Hs' Hfl' Hg _. exists l'. split; [|exact Hg]. split_and!; [by eapply kmem_rel_ready|done|apply Hg].
  - done.
Qed.
#[global] Opaque kst_user.

(** ** uvmcopy *)

(** The pages that make up an address space: its table and its memory. *)
Definition footprint (m : gmap Z Z) (root x : Z) : Prop :=
  is_node m root x \/ exists va, 0 <= va < TRAPFRAME /\ valid (pte_at m root va) = true /\ x = PTE2PA (pte_at m root va).

(** Its pages are pages, and none is free. *)
Lemma footprint_page `{KernelImage} m root l x : uspace m root l -> footprint m root x -> x mod PGSIZE = 0 /\ (x ∉ l).
Proof.
  intros Hus [Hx|(va & Hva & Hv & ->)].
  - by destruct (wf_page _ _ _ (us_wf _ _ _ Hus) x Hx) as [[? _] ?].
  - by destruct (us_page _ _ _ Hus va Hva Hv) as ([? _] & ? & _).
Qed.

(** A change outside the pages of an address space does not affect it. *)
Lemma footprint_frame `{KernelImage} m m' root l :
  uspace m root l -> (forall a, (exists x, footprint m root x /\ in_page x a) -> m'.[a] = m.[a]) ->
  uspace m' root l /\ (forall va, pte_at m' root va = pte_at m root va) /\
  (forall va, umem m' root va = umem m root va) /\ (forall x, footprint m' root x <-> footprint m root x).
Proof.
  intros Hus Hm.
  assert (Hag : forall x a, is_node m root x -> in_page x a -> m'.[a] = m.[a]).
  { intros x a Hx Ha. apply Hm. exists x. split; [by left|done]. }
  assert (Hpte : forall va, pte_at m' root va = pte_at m root va) by (intros va; by apply pte_at_ext).
  split_and!; [by apply (uspace_frame m)|done| |].
  - intros va. unfold umem, uacc, uphys. rewrite Hpte.
    destruct ((0 <=? va) && (va <? MAXVA) && valid (pte_at m root va) && user_bit (pte_at m root va)) eqn:E; [|done].
    f_equal. apply Hm. pose proof (us_user _ _ _ Hus va E) as Hlt. apply uacc_spec in E as (Hr & Hv & _).
    destruct (us_page _ _ _ Hus va) as ([Hal _] & _); [lia|done|].
    exists (PTE2PA (pte_at m root va)). split; [right; exists va; split_and!; (done || lia)|by apply in_page_mod].
  - intros x. unfold footprint. rewrite (is_node_ext m m') by done. by setoid_rewrite Hpte.
Qed.

Section Copy.
Context `{KernelImageOk}.

(** [old] is the parent's space, [new] the child's, in memory [m0] with free pages [l0]. *)
Record copying (m0 : gmap Z Z) (l0 : list Z) (old new : Z) (N : nat) : Prop := {
  co_old : uspace m0 old l0;
  co_new : uspace m0 new l0;
  co_free : Forall page_ok l0;
  co_sep : forall x, footprint m0 old x -> ~ is_node m0 new x;
  co_valid : forall i : nat, (i < N)%nat -> valid (pte_at m0 old (i * PGSIZE)) = true;
  co_empty : forall va, 0 <= va / PGSIZE < N -> pte_at m0 new va = 0
}.

Definition copy_perm (m0 : gmap Z Z) (old v : Z) : Z := PTE_FLAGS (pte_at m0 old (v * PGSIZE)).
Definition copy_data (m0 : gmap Z Z) (old va : Z) : Z := m0.[uphys m0 old va].

(** While the child grows, the parent's space stays as it was. *)
Lemma parent_kept m0 l0 old new (N : nat) m :
  copying m0 l0 old new N ->
  (forall a, (forall x, is_node m0 new x -> ~ in_page x a) -> (forall x, x ∈ l0 -> ~ in_page x a) -> m.[a] = m0.[a]) ->
  (forall a, (exists x, footprint m0 old x /\ in_page x a) -> m.[a] = m0.[a]) /\
  (forall va, pte_at m old va = pte_at m0 old va).
Proof.
  intros [Ho Hn Hfree Hsep _ _] Hg. rewrite list.Forall_forall in Hfree.
  pose proof (fun x => footprint_page m0 old l0 x Ho) as Hfp.
  assert (Hm : forall a, (exists x, footprint m0 old x /\ in_page x a) -> m.[a] = m0.[a]).
  { intros a (x & Hx & Hin). destruct (Hfp x Hx) as [Hxa Hxl]. apply Hg.
    - intros y Hy. destruct (wf_page _ _ _ (us_wf _ _ _ Hn) y Hy) as [[Hya _] _].
      apply (page_disjoint x y); [done|done| |done]. intros ->. by apply (Hsep y).
    - intros y Hy. destruct (Hfree y Hy) as [Hya _]. apply (page_disjoint x y); [done|done|by intros ->|done]. }
  split; [done|]. intros va. apply pte_at_ext. intros x a Hx Ha. apply Hm. exists x. split; [by left|done].
Qed.

Lemma copy_perm_ok m0 l0 old new (N k : nat) : copying m0 l0 old new N -> (k < N)%nat -> N * PGSIZE <= TRAPFRAME ->
  uperm_ok (copy_perm m0 old k) /\ Z.lor (copy_perm m0 old k) PTE_V = copy_perm m0 old k.
Proof.
  intros Hc Hk Hlim. pose proof (co_valid _ _ _ _ _ Hc k Hk) as Hv.
  destruct (us_page _ _ _ (co_old _ _ _ _ _ Hc) (k * PGSIZE)) as (_ & _ & _ & Hleaf); [unfold PGSIZE in *; lia|done|].
  fold (copy_perm m0 old k) in Hleaf.
  assert (Hlor : Z.lor (copy_perm m0 old k) PTE_V = copy_perm m0 old k).
  { unfold copy_perm, PTE_FLAGS. apply Z.bits_inj'. intros i Hi. rewrite Z.lor_spec, !Z.land_spec.
    destruct (decide (i = 0)) as [->|].
    - rewrite valid_testbit in Hv. by rewrite Hv.
    - replace (Z.testbit PTE_V i) with false; [by rewrite orb_false_r|]. symmetry. apply Z.bits_above_log2; [done|cbn; lia]. }
  split; [|done]. split; [|by rewrite Hlor]. unfold copy_perm. rewrite PTE_FLAGS_mod. apply Z.mod_pos_bound. done.
Qed.

(** The error path of [uvmcopy]. *)
Lemma wp_uvmcopy_undo s0 l0 old new (N k : nat) l s e Q :
  copying (k_mem s0) l0 old new N -> (k <= N)%nat -> N * PGSIZE <= TRAPFRAME ->
  kmem_ready s0 -> kmem_rel s0 s -> freelist_ok (k_mem s) (k_freelist s) l ->
  grown new 0 (copy_perm (k_mem s0) old) (copy_data (k_mem s0) old) (k_mem s0) l0 k (k_mem s) l ->
  (forall s' l', kmem_rel s0 s' -> freelist_ok (k_mem s') (k_freelist s') l' ->
     restored new (k_mem s0) l0 (k_mem s') l' -> Q (-1) (World s' e)) ->
  wp (uvmunmap new 0 (k * PGSIZE / PGSIZE) true;; mret (-1)) Q (World s e).
Proof.
  intros Hc Hk Hlim Hr Hrel Hfl Hg HQ. rewrite Z.div_mul by done.
  change (uvmunmap new 0 k true) with (uvmunmap new (0 * PGSIZE) k true).
  apply wp_bind, (wp_uvmunmap_free k new l); cbn [st env]; try done.
  - unfold PGSIZE in *. lia.
  - by eapply kmem_rel_ready.
  - apply Hg.
  - intros i Hi. by eapply grown_valid.
  - intros s' Hs' Hfl' Hus' Hun. eapply wp_ret, HQ; [by etrans|exact Hfl'|].
    eapply grown_undo; [done| |exact Hg|exact Hun|exact Hus']. intros va Hva. apply (co_empty _ _ _ _ _ Hc). lia.
Qed.

Lemma uvmcopy_loop_spec (fuel N k : nat) old new sz s0 l0 s l e Q :
  (N < fuel + k)%nat -> (k <= N)%nat -> N * PGSIZE <= TRAPFRAME -> (N - 1) * PGSIZE < sz <= N * PGSIZE ->
  copying (k_mem s0) l0 old new N ->
  kmem_ready s0 -> kmem_rel s0 s -> freelist_ok (k_mem s) (k_freelist s) l ->
  grown new 0 (copy_perm (k_mem s0) old) (copy_data (k_mem s0) old) (k_mem s0) l0 k (k_mem s) l ->
  (forall s' l', kmem_rel s0 s' -> freelist_ok (k_mem s') (k_freelist s') l' ->
     grown new 0 (copy_perm (k_mem s0) old) (copy_data (k_mem s0) old) (k_mem s0) l0 N (k_mem s') l' -> Q 0 (World s' e)) ->
  (forall s' l', kmem_rel s0 s' -> freelist_ok (k_mem s') (k_freelist s') l' ->
     restored new (k_mem s0) l0 (k_mem s') l' -> Q (-1) (World s' e)) ->
  wp (uvmcopy_loop fuel old new (k * PGSIZE) sz) Q (World s e).
Proof.
  revert k s l. induction fuel as [|fuel IH]; intros k s l Hfuel Hk Hlim Hsz Hc Hr Hrel Hfl Hg HQ1 HQ2; [lia|].
  cbn [uvmcopy_loop]. destruct (Z.ltb_spec (k * PGSIZE) sz) as [Hlt|Hge].
  2: { assert (k = N) as -> by (unfold PGSIZE in *; lia). apply wp_ret. by apply (HQ1 s l). }
  assert (Hk' : (k < N)%nat) by (unfold PGSIZE in *; lia). pose proof trapframe_below as Htb.
  destruct (parent_kept (k_mem s0) l0 old new N (k_mem s) Hc (gr_frame _ _ _ _ _ _ _ _ _ Hg)) as [Hkept Hpte].
  pose proof (co_valid _ _ _ _ _ Hc k Hk') as Hv.
  destruct (us_page _ _ _ (co_old _ _ _ _ _ Hc) (k * PGSIZE)) as (Hpok & Hpl & _ & _); [unfold PGSIZE in *; lia|done|].
  assert (Hwf0 : pt_wf (k_mem s) old l0).
  { apply (pt_wf_ext (k_mem s0)); [|apply (co_old _ _ _ _ _ Hc)]. intros x a Hx Ha. apply Hkept. exists x. split; [by left|done]. }
  apply wp_bind, wp_walk_lookup; [unfold PGSIZE in *; lia|]. cbn [st].
  destruct (pte_addr (k_mem s) old (k * PGSIZE)) as [pte|] eqn:Ea.
  2: { rewrite <- Hpte in Hv. unfold pte_at in Hv. by rewrite Ea in Hv. }
  cbn [default id]. pose proof (pte_addr_pos _ _ _ _ _ Hwf0 Ea). rewrite (proj2 (Z.eqb_neq pte 0)) by lia.
  apply wp_bind. unfold load64. apply wp_gets. cbn [st].
  assert (ld64 (k_mem s) pte = pte_at (k_mem s0) old (k * PGSIZE)) as -> by (rewrite <- Hpte; unfold pte_at; by rewrite Ea).
  rewrite valid_land, Hv. cbn [negb].
  set (pa := PTE2PA (pte_at (k_mem s0) old (k * PGSIZE))) in *.
  fold (copy_perm (k_mem s0) old k). destruct (copy_perm_ok _ _ _ _ _ k Hc Hk' Hlim) as [Hperm Hlor].
  apply wp_bind, (wp_kalloc l); [by eapply kmem_rel_ready|done|]. destruct l as [|mem l1].
  { apply (wp_uvmcopy_undo s0 l0 old new N k []); try done. etrans; [exact Hrel|apply kmem_rel_upd]. }
  intros m1 fl1 Hok Hnin Hfl1 Hm1. pose proof (page_ok_range mem Hok) as [Hpos _].
  assert (Hnd : NoDup (mem :: l1)) by (by destruct Hfl).
  rewrite (proj2 (Z.eqb_neq mem 0)) by lia.
  apply wp_bind, wp_modify, wp_bind. cbn [st env k_mem kmem_upd set_k_mem].
  assert (Hmem0 : mem ∈ l0) by (apply (gr_free _ _ _ _ _ _ _ _ _ Hg); by left).
  assert (Hm2 : forall b, (memmove m1 mem pa PGSIZE).[b] =
            if decide (in_page mem b) then (k_mem s0).[pa + (b - mem)] else (k_mem s).[b]).
  { intros b. rewrite memmove_rd by done. unfold in_page. destruct (decide (mem <= b < mem + PGSIZE)) as [Hin|Hout].
    - assert (Hpin : in_page pa (pa + (b - mem))) by (unfold in_page; lia).
      rewrite Hm1, decide_False.
      + apply Hkept. exists pa. split; [|done]. right. exists (k * PGSIZE). split_and!; [unfold PGSIZE in *; lia..|done|done].
      + destruct Hpok, Hok. apply (page_disjoint pa mem); [done|done|by intros Heq; apply Hpl; rewrite Heq|done].
    - rewrite Hm1. by rewrite decide_False. }
  generalize dependent (memmove m1 mem pa PGSIZE). intros m2 Hm2.
  assert (Hout : forall b, ~ in_page mem b -> m2.[b] = (k_mem s).[b]) by (intros b Hb; by rewrite Hm2, decide_False).
  destruct (fresh_fill new s m2 mem l1 m1 fl1) as (Hus2 & Hfl2 & Hpte2); [apply Hg|done..| |done|].
  { intros b Hb. by rewrite Hm1, decide_False. }
  set (s2 := set_k_mem m2 (kmem_upd m1 fl1 s)).
  assert (Hrel2 : kmem_rel s0 s2) by (etrans; [exact Hrel|]; apply kmem_rel_mem, kmem_rel_upd).
  apply (wp_map_fresh new l1 mem k); cbn [st env k_mem s2 set_k_mem]; try done;
    [lia|unfold PGSIZE in *; lia|exact (kmem_rel_ready _ _ Hrel2 Hr)| | |].
  { rewrite Hpte2, (gr_pte _ _ _ _ _ _ _ _ _ Hg); [|unfold PGSIZE in *; lia|rewrite Z.div_mul by done; lia].
    rewrite (co_empty _ _ _ _ _ Hc); [done|]. rewrite Z.div_mul by done. lia. }
  - intros s' taken l' Hs' Hl Hfl' Hus' Hstep. cbn [negb Z.eqb].
    rewrite u64_small by (rewrite TRAPFRAME_val in *; unfold PGSIZE in *; lia).
    replace (k * PGSIZE + PGSIZE) with (S k * PGSIZE) by lia.
    apply (IH (S k) s' l'); try done; [lia|by etrans|].
    eapply (grown_step new 0 _ _ _ _ k (k_mem s) mem l1 m2); try done.
    + unfold PGSIZE in *. lia.
    + apply Hperm.
    + intros va Hva. rewrite Hm2, decide_True by (destruct Hok; by apply in_page_mod).
      unfold copy_data, uphys. rewrite (pte_at_page _ _ va (k * PGSIZE)) by (rewrite Z.div_mul by done; lia). fold pa.
      f_equal. lia.
  - intros s' Hs' Hfl' Hus' Hstep. cbn [negb Z.eqb].
    apply wp_bind, (wp_kfree mem []); cbn [st env];
      [exact (kmem_rel_ready _ _ Hs' (kmem_rel_ready _ _ Hrel2 Hr))|done|done|by intros ?%elem_of_nil|].
    intros m3 Hfl3 Hm3. apply (wp_uvmcopy_undo s0 l0 old new N k [mem]); try done.
    + etrans; [exact Hrel2|]. etrans; [exact Hs'|apply kmem_rel_upd].
    + eapply (grown_give_back new 0 _ _ _ _ k (k_mem s) mem l1 m2 (k_mem s')); try done. unfold PGSIZE in *. lia.
Qed.

Lemma wp_uvmcopy old new sz l Q w (N := Z.to_nat (PGROUNDUP sz / PGSIZE)) :
  0 <= sz <= TRAPFRAME -> copying (k_mem (st w)) l old new N ->
  kmem_ready (st w) -> freelist_ok (k_mem (st w)) (k_freelist (st w)) l ->
  (forall s' l', kmem_rel (st w) s' -> freelist_ok (k_mem s') (k_freelist s') l' ->
     grown new 0 (copy_perm (k_mem (st w)) old) (copy_data (k_mem (st w)) old) (k_mem (st w)) l N (k_mem s') l' ->
     Q 0 (World s' (env w))) ->
  (forall s' l', kmem_rel (st w) s' -> freelist_ok (k_mem s') (k_freelist s') l' ->
     restored new (k_mem (st w)) l (k_mem s') l' -> Q (-1) (World s' (env w))) ->
  wp (uvmcopy old new sz) Q w.
Proof.
  intros Hsz Hc Hr Hfl HQ1 HQ2. unfold uvmcopy. destruct (PGROUNDUP_trap sz Hsz) as (v & E & Hv & Hlim & Hb).
  unfold N in *. rewrite E, Z.div_mul in * by done. destruct w as [s e]. cbn [st env] in *.
  match goal with |- wp (uvmcopy_loop ?f _ _ _ _) _ _ =>
    change (uvmcopy_loop f old new 0 sz) with (uvmcopy_loop f old new (0%nat * PGSIZE) sz) end.
  apply (uvmcopy_loop_spec _ (Z.to_nat v) 0 old new sz s l s l); try done.
  - unfold PGSIZE in *. Z.div_mod_to_equations. lia.
  - lia.
  - rewrite Z2Nat.id by done. done.
  - rewrite Z2Nat.id by done. done.
  - apply grown_nil, Hc.
Qed.

(** The child's memory after a successful copy. *)
Lemma child_umem m0 l0 old new (N : nat) m l va :
  copying m0 l0 old new N -> N * PGSIZE <= TRAPFRAME ->
  grown new 0 (copy_perm m0 old) (copy_data m0 old) m0 l0 N m l -> 0 <= va < N * PGSIZE ->
  umem m new va = umem m0 old va.
Proof.
  intros Hc Hlim Hg Hva. pose proof trapframe_below as Htb. set (k := Z.to_nat (va / PGSIZE)).
  assert (Hk : va / PGSIZE = k /\ (k < N)%nat) by (unfold k, PGSIZE in *; Z.div_mod_to_equations; lia).
  destruct Hk as [Hpg HkN]. destruct (gr_new _ _ _ _ _ _ _ _ _ Hg va) as (Hv & Hf & _); [lia|].
  destruct (copy_perm_ok _ _ _ _ _ k Hc HkN Hlim) as [_ Hlor]. rewrite Hpg, Hlor in Hf.
  pose proof (co_valid _ _ _ _ _ Hc k HkN) as Hv0.
  assert (Hp0 : pte_at m0 old (k * PGSIZE) = pte_at m0 old va) by (apply pte_at_page; rewrite Z.div_mul by done; lia).
  unfold copy_perm in Hf. rewrite Hp0 in *.
  assert (Hu : user_bit (pte_at m new va) = user_bit (pte_at m0 old va)).
  { unfold user_bit. do 2 f_equal. replace PTE_U with (Z.land 1023 PTE_U) by done.
    rewrite !Z.land_assoc. unfold PTE_FLAGS in Hf. by rewrite Hf. }
  unfold umem, uacc. rewrite Hv, Hv0, Hu. destruct ((0 <=? va) && (va <? MAXVA) && true && user_bit (pte_at m0 old va)); [|done].
  f_equal. rewrite (gr_data _ _ _ _ _ _ _ _ _ Hg) by lia. done.
Qed.

(** A fresh table [new] next to the address space [old], as [fork] has them. *)
Definition beside (old : Z) (N : nat) (new : Z) (s : kst) : Prop := exists l,
  kmem_ready s /\ freelist_ok (k_mem s) (k_freelist s) l /\ copying (k_mem s) l old new N /\
  forall va, pte_at (k_mem s) new va = 0.

Lemma uvmcreate_beside old (N : nat) l s e :
  kmem_ready s -> freelist_ok (k_mem s) (k_freelist s) l -> uspace (k_mem s) old l ->
  (forall i : nat, (i < N)%nat -> valid (pte_at (k_mem s) old (i * PGSIZE)) = true) ->
  wp uvmcreate (fun new w' => new <> 0 -> beside old N new (st w')) (World s e).
Proof.
  intros Hr Hfl Hus Hv. apply (wp_uvmcreate l); [done|done|done|].
  intros new l' s' Hl Hs' Hfl' Hok Hnin Hwf Hm _. cbn [st] in *.
  pose proof (fun x => footprint_page (k_mem s) old l x Hus) as Hnf.
  destruct (footprint_frame (k_mem s) (k_mem s') old l) as (Hus' & Hpte & _ & Hfp); [done| |].
  { intros a (x & Hx & Hin). rewrite Hm, decide_False; [done|]. destruct (Hnf x Hx) as [Hxa Hxl]. destruct Hok.
    apply (page_disjoint x new); [done|done| |done]. intros ->. apply Hxl. rewrite Hl. by left. }
  destruct (zero_table (k_mem s') new) as (Hnodes & Hz & _); [intros a Ha; by rewrite Hm, decide_True|].
  exists l'. split_and!; [by eapply kmem_rel_ready|done| |done]. constructor.
  - eapply uspace_avoid; [|exact Hus']. intros x Hx. rewrite Hl. by right.
  - by apply uspace_empty.
  - destruct Hfl' as [Hrep _]. by apply fl_rep_ok in Hrep.
  - intros x Hx%Hfp ->%Hnodes. destruct (Hnf _ Hx) as [_ []]. rewrite Hl. by left.
  - intros i Hi. rewrite Hpte. by apply Hv.
  - intros va _. apply Hz.
Qed.

(** The child shares no page with the parent. *)
Lemma copy_disjoint m0 l0 old new (N : nat) perm data m l x :
  copying m0 l0 old new N -> (forall va, 0 <= va < TRAPFRAME -> pte_at m0 new va = 0) ->
  grown new 0 perm data m0 l0 N m l -> footprint m0 old x -> ~ footprint m new x.
Proof.
  intros Hc Hfresh Hg Hx. pose proof trapframe_below as Htb.
  destruct (footprint_page m0 old l0 x (co_old _ _ _ _ _ Hc) Hx) as [_ Hxl].
  intros [Hn|(va & Hva & Hv & ->)].
  - destruct (gr_nodes' _ _ _ _ _ _ _ _ _ Hg x Hn); [by apply (co_sep _ _ _ _ _ Hc x)|done].
  - destruct (decide (0 <= va / PGSIZE < 0 + N)) as [Hin|Hout].
    + by destruct (gr_new _ _ _ _ _ _ _ _ _ Hg va Hin) as (_ & _ & ?).
    + rewrite (gr_pte _ _ _ _ _ _ _ _ _ Hg) in Hv by (done || lia). by rewrite Hfresh in Hv.
Qed.

End Copy.


(** A second, empty table beside the grown one. *)
Definition demo_new : Z := PHYSTOP - 6 * PGSIZE.
Definition kst_two : kst := final kst0 (uvmcreate (World kst_user [])).

Lemma kst_two_ok : @beside demo_image demo_root 2 demo_new kst_two.
Proof.
  assert (Hres : result (uvmcreate (World kst_user [])) = Some demo_new) by (vm_compute; reflexivity).
  apply (wp_result uvmcreate (fun r s => r <> 0 -> @beside demo_image demo_root 2 r s) kst0 _ _ Hres); [|done]. clear Hres.
  destruct kst_user_ok as (l & (Hr & Hfl & Hus) & Hg).
  apply (@uvmcreate_beside demo_image demo_image_ok demo_root 2 l kst_user []); [exact Hr|exact Hfl|exact Hus|].
  intros i Hi. by apply (@grown_valid demo_image demo_root 0 demo_perm demo_data _ _ 2 (k_mem kst_user) l i Hg).
Qed.
#[global] Opaque kst_two.

