(* ===== verification/FreeWalk.v ===== *)
(** * Freeing an address space

    [freewalk] and [uvmfree] of vm.c: every page of the table and of the user
    memory returns to the free list, once. *)

From S2P Require Import Prelude State KString Spinlock Kalloc Vm PageTable UserMem UserSpace.

(** ** The nodes of a table as a list *)

(** All paths of at most [lvl] indices. *)
Fixpoint paths (lvl : nat) : list (list Z) :=
  [] :: match lvl with
        | O => []
        | S lvl => flat_map (fun i : nat => cons (Z.of_nat i) <$> paths lvl) (seq 0 512)
        end.

Definition nodes (lvl : nat) (m : gmap Z Z) (x : Z) : list Z := omap (pt_node m x) (paths lvl).

Definition child_nodes (lvl : nat) (m : gmap Z Z) (x : Z) (i : nat) : list Z :=
  match child m x i with Some y => nodes lvl m y | None => [] end.

Lemma nodes_O m x : nodes 0 m x = [x].
Proof. done. Qed.

Lemma nodes_S lvl m x : nodes (S lvl) m x = x :: flat_map (child_nodes lvl m x) (seq 0 512).
Proof.
  unfold nodes. cbn [paths omap list_omap pt_node]. f_equal.
  induction (seq 0 512) as [|i is' IH]; [done|]. cbn [flat_map]. rewrite omap_app, IH. f_equal.
  unfold child_nodes, nodes. clear IH. destruct (child m x i) as [y|] eqn:E.
  - induction (paths lvl) as [|p ps IHp]; [done|]. cbn [fmap list_fmap omap list_omap pt_node]. rewrite E. cbn [mbind option_bind].
    fold (omap (M := list) (pt_node m x)). destruct (pt_node m y p); cbn; by rewrite IHp.
  - induction (paths lvl) as [|p ps IHp]; [done|]. cbn [fmap list_fmap omap list_omap pt_node]. rewrite E. cbn. apply IHp.
Qed.

Lemma elem_of_flat_map {A B} (f : A -> list B) l y : y ∈ flat_map f l <-> exists x, x ∈ l /\ y ∈ f x.
Proof.
  induction l as [|x l IH]; cbn.
  - rewrite elem_of_nil. split; [done|]. intros (? & ?%elem_of_nil & _). done.
  - rewrite elem_of_app, IH. setoid_rewrite elem_of_cons. naive_solver.
Qed.

Lemma elem_of_paths lvl p : p ∈ paths lvl <-> (length p <= lvl)%nat /\ Forall idx_ok p.
Proof.
  revert p. induction lvl as [|lvl IH]; intros p; cbn [paths]; rewrite elem_of_cons.
  - rewrite elem_of_nil. destruct p; cbn; split; intros; [split; [lia|constructor]|by left|naive_solver|lia].
  - rewrite elem_of_flat_map. split.
    + intros [->|(i & Hi%elem_of_seq & (q & -> & Hq)%list_elem_of_fmap)]; [split; [cbn; lia|constructor]|].
      apply IH in Hq as [Hl Hf]. split; [cbn; lia|]. constructor; [unfold idx_ok; lia|done].
    + intros [Hl Hf]. destruct p as [|i p]; [by left|right]. apply list.Forall_cons in Hf as [Hi Hf]. unfold idx_ok in Hi.
      exists (Z.to_nat i). split; [apply elem_of_seq; lia|]. apply list_elem_of_fmap. exists p. rewrite Z2Nat.id by lia.
      split; [done|]. apply IH. cbn in Hl. split; [lia|done].
Qed.

Lemma NoDup_paths lvl : NoDup (paths lvl).
Proof.
  induction lvl as [|lvl IH]; cbn [paths]; [constructor; [by intros ?%elem_of_nil|constructor]|].
  constructor.
  - rewrite elem_of_flat_map. intros (i & _ & (q & Hq & _)%list_elem_of_fmap). done.
  - pose proof (NoDup_seq 0 512) as Hnd. revert Hnd. generalize (seq 0 512). intros is' Hnd.
    induction is' as [|i is' IHi]; cbn; [constructor|]. apply list.NoDup_cons in Hnd as [Hni Hnd]. apply list.NoDup_app. split_and!; [| |apply IHi, Hnd].
    + by apply (NoDup_fmap_2 _).
    + intros q (q' & -> & _)%list_elem_of_fmap (j & Hj & (q'' & Hq & _)%list_elem_of_fmap)%elem_of_flat_map.
      injection Hq as Hij _. assert (i = j) as -> by lia. done.
Qed.

Lemma NoDup_omap {A B} (f : A -> option B) l : NoDup l ->
  (forall x y z, x ∈ l -> y ∈ l -> f x = Some z -> f y = Some z -> x = y) -> NoDup (omap f l).
Proof.
  induction l as [|x l IH]; intros Hnd Hinj; cbn; [constructor|]. apply list.NoDup_cons in Hnd as [Hni Hnd].
  assert (NoDup (omap f l)) as Hl by (apply IH; [done|]; intros a b c Ha Hb; apply Hinj; by right).
  destruct (f x) as [z|] eqn:E; [|done]. constructor; [|done].
  intros (y & Hy & Hfy)%list_elem_of_omap. apply Hni. by rewrite (Hinj x y z) by (done || (by left) || by right).
Qed.

Lemma elem_of_nodes m root x : x ∈ nodes 2 m root <-> is_node m root x.
Proof.
  unfold nodes, is_node, short. rewrite list_elem_of_omap. setoid_rewrite elem_of_paths. naive_solver.
Qed.

Lemma NoDup_nodes `{KernelImage} m root l : pt_wf m root l -> NoDup (nodes 2 m root).
Proof.
  intros Hwf. apply NoDup_omap; [apply NoDup_paths|]. intros p q x Hp%elem_of_paths Hq%elem_of_paths. by apply (wf_inj _ _ _ Hwf).
Qed.

(** ** freewalk *)

(** Below [x] are [lvl] more levels of directories, then only empty entries. *)
Fixpoint dir_ok (lvl : nat) (m : gmap Z Z) (x : Z) : Prop :=
  match lvl with
  | O => forall i, idx_ok i -> valid (ld64 m (x + 8 * i)) = false
  | S lvl => forall i, idx_ok i -> valid (ld64 m (x + 8 * i)) = true ->
      Z.land (ld64 m (x + 8 * i)) 14 = 0 /\ dir_ok lvl m (PTE2PA (ld64 m (x + 8 * i)))
  end.

Lemma flat_map_ext' {A B} (f g : A -> list B) l : (forall x, x ∈ l -> f x = g x) -> flat_map f l = flat_map g l.
Proof.
  induction l as [|x l IH]; intros Hfg; cbn; [done|]. rewrite Hfg by (by left). f_equal. apply IH. intros y Hy. apply Hfg. by right.
Qed.

Lemma subtree_ext lvl m m' x :
  (forall y a, y ∈ nodes lvl m x -> in_page y a -> m'.[a] = m.[a]) ->
  nodes lvl m' x = nodes lvl m x /\ (dir_ok lvl m x -> dir_ok lvl m' x).
Proof.
  revert x. induction lvl as [|lvl IH]; intros x Hm.
  - split; [done|]. intros Hd i Hi. rewrite <- (Hd i Hi). f_equal. apply slot_ext; [done|]. intros a Ha. apply (Hm x); [by left|done].
  - rewrite nodes_S in Hm. assert (Hslot : forall i, idx_ok i -> ld64 m' (x + 8 * i) = ld64 m (x + 8 * i)).
    { intros i Hi. apply slot_ext; [done|]. intros a Ha. apply (Hm x); [by left|done]. }
    assert (Hsub : forall (i : nat) y, (i < 512)%nat -> child m x i = Some y ->
      nodes lvl m' y = nodes lvl m y /\ (dir_ok lvl m y -> dir_ok lvl m' y)).
    { intros i y Hi Hy. apply IH. intros z a Hz. apply Hm. right. apply elem_of_flat_map. exists i.
      split; [apply elem_of_seq; lia|]. unfold child_nodes. by rewrite Hy. }
    split.
    + rewrite !nodes_S. f_equal. apply flat_map_ext'. intros i Hi%elem_of_seq. unfold child_nodes.
      rewrite (child_slot m' m) by (apply Hslot; unfold idx_ok; lia).
      destruct (child m x i) as [y|] eqn:E; [|done]. apply (Hsub i); [lia|done].
    + cbn [dir_ok]. intros Hd i Hi. rewrite Hslot by done. intros Hv. destruct (Hd i Hi Hv) as [H1 H2]. split; [done|].
      unfold idx_ok in Hi. apply (Hsub (Z.to_nat i)); [lia| |done]. rewrite Z2Nat.id by lia. unfold child. by rewrite Hv.
Qed.

Section FreeWalk.
Context `{KernelImageOk}.

(** What [freewalk] on the subtree with pages [ns] promises. *)
Definition freed (s : kst) (ns l : list Z) (s' : kst) : Prop :=
  kmem_rel s s' /\ (exists l', freelist_ok (k_mem s') (k_freelist s') l' /\ l' ≡ₚ ns ++ l) /\
  (forall a, (forall y, y ∈ ns -> ~ in_page y a) -> (k_mem s').[a] = (k_mem s).[a]).

(** Loop state: entries below [i] of page [x] are done. *)
Record fw_inv (lvl : nat) (x : Z) (s : kst) (l : list Z) (i : nat) (s' : kst) : Prop := {
  fw_rel : kmem_rel s s';
  fw_list : exists l', freelist_ok (k_mem s') (k_freelist s') l' /\ l' ≡ₚ flat_map (child_nodes lvl (k_mem s) x) (seq 0 i) ++ l;
  fw_frame : forall a, ~ in_page x a ->
    (forall y, y ∈ flat_map (child_nodes lvl (k_mem s) x) (seq 0 i) -> ~ in_page y a) -> (k_mem s').[a] = (k_mem s).[a];
  fw_slots : forall j : nat, (i <= j < 512)%nat -> ld64 (k_mem s') (x + 8 * j) = ld64 (k_mem s) (x + 8 * j)
}.

Lemma freelist_other m m' fl l x : freelist_ok m fl l -> x ∉ l -> x mod PGSIZE = 0 ->
  (forall a, ~ in_page x a -> m'.[a] = m.[a]) -> freelist_ok m' fl l.
Proof.
  intros [Hf Hnd] Hx Hal Hm. split; [|done]. apply (fl_rep_ext m); [|done]. intros q a Hq Ha. symmetry. apply Hm.
  apply fl_rep_ok in Hf. rewrite list.Forall_forall in Hf. destruct (Hf q Hq). apply (page_disjoint q x); [done|done|by intros ->|done].
Qed.

Lemma seq_split_at (i n : nat) : (i < n)%nat -> seq 0 n = seq 0 i ++ i :: seq (S i) (n - S i).
Proof. intros Hi. replace n with (i + S (n - S i))%nat at 1 by lia. by rewrite seq_app. Qed.

(** The pages of entry [i] are apart from the page itself, the earlier entries
    and the free list. *)
Lemma fw_disjoint lvl m x l (i : nat) : NoDup (nodes (S lvl) m x ++ l) -> (i < 512)%nat ->
  NoDup (child_nodes lvl m x i ++ flat_map (child_nodes lvl m x) (seq 0 i) ++ l) /\
  (x ∉ child_nodes lvl m x i ++ flat_map (child_nodes lvl m x) (seq 0 i) ++ l).
Proof.
  rewrite nodes_S. intros Hnd Hi. rewrite (seq_split_at i 512 Hi), flat_map_app in Hnd. cbn [flat_map app] in Hnd.
  apply list.NoDup_cons in Hnd as [Hx Hnd]. set (A := flat_map _ (seq 0 i)) in *. set (C := child_nodes lvl m x i) in *.
  set (B := flat_map _ (seq (S i) _)) in *. assert (Hp : (A ++ C ++ B) ++ l ≡ₚ B ++ (C ++ A ++ l)).
  { rewrite <- !app_assoc. rewrite (Permutation_app_comm A). rewrite <- !app_assoc.
    rewrite (Permutation_app_comm C (B ++ l ++ A)), <- !app_assoc.
    f_equiv. rewrite (Permutation_app_comm l (A ++ C)), (Permutation_app_comm A C), <- !app_assoc. done. }
  rewrite Hp in Hnd. apply list.NoDup_app in Hnd as (_ & _ & Hnd). split; [done|]. intros Hin. apply Hx. rewrite Hp.
  apply elem_of_app. by right.
Qed.

(** An entry that is not a directory is passed over. *)
Lemma fw_skip lvl x s l (i : nat) s' : fw_inv lvl x s l i s' -> child (k_mem s) x i = None -> fw_inv lvl x s l (S i) s'.
Proof.
  intros [H1 H2 H3 H4] Hc.
  assert (Hf : flat_map (child_nodes lvl (k_mem s) x) (seq 0 (S i)) = flat_map (child_nodes lvl (k_mem s) x) (seq 0 i)).
  { rewrite seq_S, flat_map_app. cbn. unfold child_nodes at 2. rewrite Hc. by rewrite !app_nil_r. }
  constructor; [done|by rewrite Hf|by rewrite Hf|]. intros j Hj. apply H4. lia.
Qed.

(** A directory entry is freed and cleared. *)
Lemma fw_free lvl x s l (i : nat) s1 s2 y : (i < 512)%nat -> x mod PGSIZE = 0 ->
  NoDup (nodes (S lvl) (k_mem s) x ++ l) -> Forall page_ok (nodes (S lvl) (k_mem s) x) ->
  child (k_mem s) x i = Some y -> fw_inv lvl x s l i s1 ->
  (forall l1, freelist_ok (k_mem s1) (k_freelist s1) l1 -> l1 ≡ₚ flat_map (child_nodes lvl (k_mem s) x) (seq 0 i) ++ l ->
     freed s1 (nodes lvl (k_mem s) y) l1 s2) ->
  fw_inv lvl x s l (S i) (set_k_mem (st64 (k_mem s2) (x + 8 * i) 0) s2).
Proof.
  intros Hi Hxa Hnd Hok Hy [F1 (l1 & Hl1 & Hp1) F3 F4] Hfreed.
  destruct (fw_disjoint lvl (k_mem s) x l i Hnd Hi) as [Hnd' Hx'].
  destruct (Hfreed l1 Hl1 Hp1) as (R2 & (l2 & Hl2 & Hp2) & Fr2).
  assert (Hcn : child_nodes lvl (k_mem s) x i = nodes lvl (k_mem s) y) by (unfold child_nodes; by rewrite Hy).
  assert (Hf : flat_map (child_nodes lvl (k_mem s) x) (seq 0 (S i)) =
               flat_map (child_nodes lvl (k_mem s) x) (seq 0 i) ++ nodes lvl (k_mem s) y).
  { rewrite seq_S, flat_map_app. cbn. by rewrite Hcn, app_nil_r. }
  rewrite Hcn in *. rewrite nodes_S in Hok. apply list.Forall_cons in Hok as [_ Hok]. rewrite list.Forall_forall in Hok.
  assert (Hoky : forall z, z ∈ nodes lvl (k_mem s) y -> page_ok z).
  { intros z Hz. apply Hok, elem_of_flat_map. exists i. split; [apply elem_of_seq; lia|]. by rewrite Hcn. }
  assert (Hst : forall a, ~ in_page x a -> (st64 (k_mem s2) (x + 8 * i) 0).[a] = (k_mem s2).[a]).
  { intros a Ha. apply st64_frame. destruct (decide (x + 8 * i <= a < x + 8 * i + 8)) as [Hin|]; [|lia].
    apply slot_in_page in Hin; [done|unfold idx_ok; lia]. }
  constructor; cbn [k_mem k_freelist set_k_mem].
  - apply kmem_rel_mem. by etrans.
  - exists l2. split; [|rewrite Hp2, Hp1, Hf, app_assoc, (Permutation_app_comm (nodes _ _ _)); done].
    eapply freelist_other; [exact Hl2| |exact Hxa|done]. rewrite Hp2, Hp1. done.
  - intros a Hxa' Ha. rewrite Hf in Ha. rewrite Hst, Fr2, F3; [done|done| |by intros z Hz; apply Ha, elem_of_app; right|done].
    intros z Hz. apply Ha, elem_of_app. by left.
  - intros j Hj. rewrite slot_store_ne; [|done|done|unfold idx_ok; lia..|right; lia].
    rewrite <- (F4 j) by lia. apply slot_ext; [unfold idx_ok; lia|]. intros a Ha. apply Fr2. intros z Hz.
    destruct (Hoky z Hz) as [Hza _]. apply (page_disjoint x z); [done|done| |done]. intros ->. apply Hx', elem_of_app. by left.
Qed.

(** The specification of [freewalk] with [lvl] levels below. *)
Definition freewalk_ok (lvl : nat) : Prop := forall x l Q w,
  kmem_ready (st w) -> freelist_ok (k_mem (st w)) (k_freelist (st w)) l -> dir_ok lvl (k_mem (st w)) x ->
  NoDup (nodes lvl (k_mem (st w)) x ++ l) -> Forall page_ok (nodes lvl (k_mem (st w)) x) ->
  (forall s', freed (st w) (nodes lvl (k_mem (st w)) x) l s' -> Q tt (World s' (env w))) ->
  wp (freewalk (S lvl) x) Q w.

(** The loop body of [freewalk] on page [x]. *)
Definition fw_body (levels : nat) (x : Z) (i : nat) : K (option unit) :=
  pte ← load64 (x + 8 * i);
  (if valid pte && (Z.land pte (Z.lor (Z.lor PTE_R PTE_W) PTE_X) =? 0) then
     freewalk levels (PTE2PA pte);; store64 (x + 8 * i) 0
   else if valid pte then panic "freewalk: leaf" else mret tt);;
  mret None.

Lemma freewalk_unfold levels x : freewalk (S levels) x = (foreach (seq 0 512) (fw_body levels x);; kfree x).
Proof. done. Qed.

Lemma fw_entry lvl x l s s1 e (k : nat) Q :
  freewalk_ok lvl -> kmem_ready s -> page_ok x -> dir_ok (S lvl) (k_mem s) x ->
  NoDup (nodes (S lvl) (k_mem s) x ++ l) -> Forall page_ok (nodes (S lvl) (k_mem s) x) ->
  (k < 512)%nat -> fw_inv lvl x s l k s1 ->
  (forall s2, fw_inv lvl x s l (S k) s2 -> Q None (World s2 e)) ->
  wp (fw_body (S lvl) x k) Q (World s1 e).
Proof.
  intros IH Hr [Hxa _] Hd Hnd Hok Hk Hinv HQ. unfold fw_body. apply wp_bind. unfold load64. apply wp_gets. cbn [st].
  rewrite (fw_slots _ _ _ _ _ _ Hinv) by lia. change (Z.lor (Z.lor PTE_R PTE_W) PTE_X) with 14.
  destruct (valid (ld64 (k_mem s) (x + 8 * k))) eqn:Ev; cbn [andb].
  2: { apply wp_bind, wp_ret, wp_ret, HQ, fw_skip; [done|]. unfold child. by rewrite Ev. }
  destruct (Hd k) as [Hdir Hdsub]; [unfold idx_ok; lia|done|]. rewrite Hdir. cbn [Z.eqb].
  assert (Hy : child (k_mem s) x k = Some (PTE2PA (ld64 (k_mem s) (x + 8 * k)))) by (unfold child; by rewrite Ev).
  set (y := PTE2PA (ld64 (k_mem s) (x + 8 * k))) in *.
  destruct (fw_disjoint lvl (k_mem s) x l k Hnd Hk) as [Hnd' Hx'].
  assert (Hcn : child_nodes lvl (k_mem s) x k = nodes lvl (k_mem s) y) by (unfold child_nodes; by rewrite Hy).
  rewrite Hcn in Hnd', Hx'. destruct (fw_list _ _ _ _ _ _ Hinv) as (l1 & Hl1 & Hp1).
  assert (Hall : forall z, z ∈ nodes (S lvl) (k_mem s) x -> z mod PGSIZE = 0).
  { intros z Hz. rewrite list.Forall_forall in Hok. by destruct (Hok z Hz). }
  assert (Hin : forall z (j : nat), (j < 512)%nat -> z ∈ child_nodes lvl (k_mem s) x j -> z ∈ nodes (S lvl) (k_mem s) x).
  { intros z j Hj Hz. rewrite nodes_S. right. apply elem_of_flat_map. exists j. split; [apply elem_of_seq; lia|done]. }
  destruct (subtree_ext lvl (k_mem s) (k_mem s1) y) as [Hns Hdo].
  { intros z a Hz Ha. assert (Hzx : z ∈ nodes (S lvl) (k_mem s) x) by (apply (Hin z k); [done|by rewrite Hcn]).
    apply (fw_frame _ _ _ _ _ _ Hinv).
    - apply (page_disjoint z x); [by apply Hall|done| |done]. intros ->. apply Hx', elem_of_app. by left.
    - intros z' Hz'. apply (page_disjoint z z'); [by apply Hall| | |done].
      + apply elem_of_flat_map in Hz' as (j & Hj%elem_of_seq & Hz'). apply Hall, (Hin z' j); [lia|done].
      + intros ->. apply list.NoDup_app in Hnd' as (_ & Hd' & _). apply (Hd' z' Hz), elem_of_app. by left. }
  apply wp_bind, wp_bind, (IH y l1); cbn [st env]; rewrite ?Hns.
  - eapply kmem_rel_ready; [apply Hinv|done].
  - done.
  - by apply Hdo.
  - by rewrite Hp1.
  - rewrite list.Forall_forall in Hok |- *. intros z Hz. apply Hok, (Hin z k); [done|by rewrite Hcn].
  - intros s2 Hfreed. unfold store64. apply wp_modify, wp_ret, HQ. cbn [st].
    apply (fw_free lvl x s l k s1 s2 y); try done. intros l1' Hl1' Hp1'.
    destruct Hfreed as (R & (l2 & Hl2 & Hp2) & Hfr). split_and!; [done| |done]. exists l2. split; [done|].
    by rewrite Hp2, Hp1, Hp1'.
Qed.

Lemma freewalk_leaf : freewalk_ok 0.
Proof.
  intros x l Q w Hr Hfl Hd Hnd Hok HQ. rewrite nodes_O in *.
  apply list.Forall_cons in Hok as [Hx _]. apply list.NoDup_cons in Hnd as [Hxl _].
  rewrite freewalk_unfold. apply wp_bind.
  apply (wp_foreach _ (fun todo w' => w' = w /\ exists i, todo = seq i (512 - i) /\ (i <= 512)%nat)).
  - split; [done|]. exists 0%nat. split; [done|lia].
  - intros i todo w' (-> & k & Htodo & Hk). destruct (512 - k)%nat as [|n] eqn:En; simpl in Htodo; [done|]. injection Htodo as -> ->.
    unfold fw_body, load64. apply wp_bind, wp_gets. rewrite (Hd k) by (unfold idx_ok; lia). cbn [andb].
    apply wp_bind, wp_ret, wp_ret. split; [done|]. exists (S k). split; [f_equal; lia|lia].
  - intros w' (-> & _). apply (wp_kfree x l); [done..|]. intros m' Hfl' Hm'. apply HQ. split_and!; [apply kmem_rel_upd| |].
    + exists (x :: l). by split.
    + intros a Ha. apply Hm', Ha. by left.
Qed.

Lemma freewalk_spec lvl : freewalk_ok lvl.
Proof.
  induction lvl as [|lvl IH]; [apply freewalk_leaf|]. intros x l Q w Hr Hfl Hd Hnd Hok HQ.
  assert (page_ok x) as Hx by (rewrite nodes_S in Hok; by apply list.Forall_cons in Hok as [? _]).
  rewrite freewalk_unfold. apply wp_bind.
  apply (wp_foreach _ (fun todo w' => env w' = env w /\ exists i, todo = seq i (512 - i) /\ (i <= 512)%nat /\ fw_inv lvl x (st w) l i (st w'))).
  - split; [done|]. exists 0%nat. split_and!; [done|lia|]. constructor; [done|by exists l|done|done].
  - intros i todo [s1 e1] (He & k & Htodo & Hk & Hinv). cbn [st env] in *. subst e1.
    destruct (512 - k)%nat as [|n] eqn:En; simpl in Htodo; [done|]. injection Htodo as -> ->.
    apply (fw_entry lvl x l (st w)); try done; [lia|]. intros s2 Hinv2. split; [done|].
    exists (S k). split_and!; [f_equal; lia|lia|done].
  - intros [s1 e1] (He & k & Htodo & Hk & Hinv). cbn [st env] in *. subst e1.
    assert (k = 512)%nat as -> by (destruct (512 - k)%nat eqn:En; [lia|done]).
    destruct Hinv as [F1 (l1 & Hl1 & Hp1) F3 _]. rewrite nodes_S in *.
    apply (wp_kfree x l1); cbn [st env]; [by eapply kmem_rel_ready|done|done| |].
    + rewrite Hp1. by apply list.NoDup_cons in Hnd as [? _].
    + intros m' Hfl' Hm'. apply HQ. split_and!; [etrans; [exact F1|apply kmem_rel_upd]| |].
      * exists (x :: l1). split; [exact Hfl'|]. by rewrite Hp1.
      * intros a Ha. cbn [k_mem kmem_upd set_k_mem]. rewrite Hm', F3; [done| |intros y Hy; apply Ha; by right|]; apply Ha; by left.
Qed.

(** ** uvmfree *)

(** The address with the given indices. *)
Definition va_of (i j k : Z) : Z := ((i * 512 + j) * 512 + k) * PGSIZE.

Lemma va_of_spec i j k : 0 <= i < 256 -> idx_ok j -> idx_ok k ->
  0 <= va_of i j k < MAXVA /\ va_path (va_of i j k) = [i; j] /\ PX 0 (va_of i j k) = k.
Proof.
  unfold idx_ok, va_of, va_path. rewrite MAXVA_val, !PX_val by lia. unfold PGSIZE. simpl Z.pow. intros Hi Hj Hk.
  split_and!; [lia|lia|f_equal; [|f_equal]|]; Z.div_mod_to_equations; lia.
Qed.

(** A table without valid leaves is what [freewalk] expects. *)
Lemma table_dir_ok m root l : pt_wf m root l -> (forall va, 0 <= va < MAXVA -> valid (pte_at m root va) = false) -> dir_ok 2 m root.
Proof.
  intros Hwf Hno i Hi Hvi.
  assert (Hn1 : pt_node m root [i] = Some (PTE2PA (ld64 m (root + 8 * i)))) by (cbn; unfold child; by rewrite Hvi).
  assert (Hs1 : short [i]) by (split; [cbn; lia|by apply list.Forall_singleton]).
  pose proof (wf_low _ _ _ Hwf [i] _ Hs1 Hn1) as Hlow. cbn in Hlow.
  split; [by apply (wf_dir _ _ _ Hwf [] root); [cbn; lia|apply short_nil|..]|].
  set (x1 := PTE2PA (ld64 m (root + 8 * i))) in *. intros j Hj Hvj.
  assert (Hn2 : pt_node m root [i; j] = Some (PTE2PA (ld64 m (x1 + 8 * j)))).
  { assert (Hc : child m root i = Some x1) by (unfold child; by rewrite Hvi). cbn [pt_node]. rewrite Hc. cbn.
    unfold child. by rewrite Hvj. }
  split; [by apply (wf_dir _ _ _ Hwf [i] x1)|]. intros k Hk.
  destruct (va_of_spec i j k) as (Hr & Hp & H0'); [unfold idx_ok in *; lia|done..|].
  specialize (Hno _ Hr). unfold pte_at, pte_addr in Hno. rewrite Hp, Hn2, H0' in Hno. exact Hno.
Qed.

End FreeWalk.

(** C19: [uvmfree] of an address space whose pages are exactly those below [sz]
    returns all of them, and all pages of the table, to the free list, each once,
    loses none, and touches no other memory. *)
Theorem uvmfree_correct `{KernelImageOk} root sz l w :
  0 <= sz <= TRAPFRAME -> space_ready (st w) root l ->
  (forall va, 0 <= va < PGROUNDUP sz -> valid (pte_at (k_mem (st w)) root va) = true) ->
  (forall va, PGROUNDUP sz <= va < MAXVA -> valid (pte_at (k_mem (st w)) root va) = false) ->
  wp (uvmfree root sz) (fun _ w' => exists l',
    freelist_ok (k_mem (st w')) (k_freelist (st w')) l' /\ kmem_ready (st w') /\
    (forall x, x ∈ l' <-> x ∈ l \/ footprint (k_mem (st w)) root x) /\
    (forall a, (forall x, footprint (k_mem (st w)) root x -> ~ in_page x a) -> (k_mem (st w')).[a] = (k_mem (st w)).[a])) w.
Proof.
  intros Hsz (Hr & Hfl & Hus) Hin Hout. destruct (PGROUNDUP_trap sz Hsz) as (v & E & Hv & Hlim & Hb).
  set (N := Z.to_nat v). assert (HN : Z.of_nat N = v) by (unfold N; lia). rewrite E in *. pose proof trapframe_below as Htb.
  set (l1 := reverse (upages (k_mem (st w)) root 0 N) ++ l).
  assert (Hup : forall x, x ∈ upages (k_mem (st w)) root 0 N <->
    exists va, 0 <= va < TRAPFRAME /\ valid (pte_at (k_mem (st w)) root va) = true /\ x = PTE2PA (pte_at (k_mem (st w)) root va)).
  { intros x. rewrite elem_of_upages. split.
    - intros (i & Hi & ->). exists ((0 + i) * PGSIZE). split_and!; [unfold PGSIZE in *; lia..| |done]. apply Hin. unfold PGSIZE in *. lia.
    - intros (va & Hva & Hvv & ->). destruct (decide (va < v * PGSIZE)) as [Hlt|Hge]; [|rewrite Hout in Hvv by lia; done].
      exists (Z.to_nat (va / PGSIZE)). split; [unfold PGSIZE in *; Z.div_mod_to_equations; lia|]. f_equal. apply pte_at_page.
      rewrite Z.div_mul by done. unfold PGSIZE in *. Z.div_mod_to_equations. lia. }
  unfold uvmfree. rewrite E, Z.div_mul by done.
  assert (Hun : forall Q, (forall s', kmem_rel (st w) s' -> freelist_ok (k_mem s') (k_freelist s') l1 -> uspace (k_mem s') root l1 ->
      unmapped (k_mem (st w)) (k_mem s') root 0 N -> Q tt (World s' (env w))) ->
    wp (when (0 <? sz) (uvmunmap root 0 v true)) Q w).
  { intros Q HQ. destruct (Z.ltb_spec 0 sz) as [Hpos|Hz]; cbn [when].
    - rewrite <- HN. apply (wp_uvmunmap_free N root l 0); try done; [unfold PGSIZE in *; lia|].
      intros i Hi. apply Hin. unfold PGSIZE in *. lia.
    - assert (N = 0)%nat as E0 by (unfold PGSIZE in *; lia). unfold l1 in *. rewrite E0 in *. apply wp_ret. destruct w as [s e].
      apply HQ; [done..|]. constructor; [done| |done]. intros va Hva. by rewrite unmap_range_ne by lia. }
  apply wp_bind, Hun. intros s1 Hs1 Hfl1 Hus1 Hunm.
  apply (freewalk_spec 2 root l1); cbn [st env].
  - by eapply kmem_rel_ready.
  - done.
  - apply (table_dir_ok _ _ l1); [apply Hus1|]. intros va Hva. rewrite (un_pte _ _ _ _ _ Hunm) by done. unfold unmap_range.
    destruct (decide (0 <= va / PGSIZE < 0 + N)) as [|Hno]; [done|]. apply Hout. unfold PGSIZE in *. Z.div_mod_to_equations. lia.
  - apply list.NoDup_app. split_and!; [by eapply NoDup_nodes, Hus1| |by destruct Hfl1].
    intros x Hx%elem_of_nodes. by destruct (wf_page _ _ _ (us_wf _ _ _ Hus1) x Hx).
  - apply list.Forall_forall. intros x Hx%elem_of_nodes. by destruct (wf_page _ _ _ (us_wf _ _ _ Hus1) x Hx).
  - intros s2 (Hs2 & (l2 & Hl2 & Hp2) & Hfr2). exists l2. split_and!; [done|by do 2 (eapply kmem_rel_ready; [done|])| |].
    + intros x. rewrite Hp2. unfold l1. rewrite !elem_of_app, elem_of_reverse, elem_of_nodes, Hup, (un_nodes _ _ _ _ _ Hunm).
      unfold footprint. tauto.
    + intros a Ha. rewrite Hfr2; [|intros y Hy%elem_of_nodes; apply Ha; left; by apply (un_nodes _ _ _ _ _ Hunm)].
      apply (un_frame _ _ _ _ _ Hunm); [intros x Hx; apply Ha; by left|]. intros pg Hpg%Hup. apply Ha. by right.
Qed.

Lemma uvmfree_correct_witness :
  wp (@uvmfree demo_image demo_root demo_sz) (fun _ w' => exists l',
    @freelist_ok demo_image (k_mem (st w')) (k_freelist (st w')) l' /\ demo_root ∈ l') (World kst_user []).
Proof.
  destruct kst_user_ok as (l & Hs & Hg). destruct kst_table_ok as (_ & _ & _ & Hz).
  assert (Hpg : PGROUNDUP demo_sz = 2 * PGSIZE) by (vm_compute; reflexivity). eapply wp_mono.
  - apply (@uvmfree_correct demo_image demo_image_ok demo_root demo_sz l (World kst_user [])).
    + split; vm_compute; discriminate.
    + exact Hs.
    + rewrite Hpg. intros va Hva. apply (gr_new _ _ _ _ _ _ _ _ _ Hg). unfold PGSIZE in *. Z.div_mod_to_equations. lia.
    + rewrite Hpg. intros va Hva. cbn [st]. rewrite (gr_pte _ _ _ _ _ _ _ _ _ Hg), Hz.
      * reflexivity.
      * unfold PGSIZE in *. lia.
      * unfold PGSIZE in *. Z.div_mod_to_equations. lia.
  - intros u w' (l' & Hfl & _ & Hl & _). exists l'. split; [exact Hfl|]. apply Hl. right. left. apply root_is_node.
Defined.
