(* ===== verification/UserCopy.v ===== *)
(** * Copies between kernel and user memory

    The theorems about [copyout], [copyin] and [copyinstr] of vm.c, from the
    loop specifications of [UserMem]. *)

From S2P Require Import Prelude State KString Spinlock Kalloc Vm PageTable UserMem UserSpace.

Section UserCopy.
Context `{KernelImageOk}.

Lemma wp_copyout root l dstva src Q w :
  0 <= dstva < 18446744073709551616 -> uspace (k_mem (st w)) root l ->
  (forall r k m', copied (k_mem (st w)) root l dstva src k m' ->
     (r = 0 /\ k = length src \/ r = -1 /\ (k < length src)%nat /\ uacc (k_mem (st w)) root (dstva + k) = false) ->
     Q r (World (set_k_mem m' (st w)) (env w))) ->
  wp (copyout root dstva src) Q w.
Proof. intros Hva Hus HQ. unfold copyout. by apply (copyout_loop_spec _ root l); [|lia|..]. Qed.

Lemma wp_copyin root l srcva (len : nat) Q w :
  0 <= srcva < 18446744073709551616 -> uspace (k_mem (st w)) root l ->
  (forall bs r, uread (k_mem (st w)) root srcva bs ->
     (r = 0 /\ length bs = len \/ r = -1 /\ (length bs < len)%nat /\ uacc (k_mem (st w)) root (srcva + length bs) = false) ->
     Q (bs, r) w) ->
  wp (copyin root srcva len) Q w.
Proof. intros Hva Hus HQ. unfold copyin. by apply (copyin_loop_spec _ len root l); [|lia|..]. Qed.

Lemma wp_copyinstr root l srcva (max : nat) Q w :
  0 <= srcva < 18446744073709551616 -> uspace (k_mem (st w)) root l ->
  (forall bs r, got_string (k_mem (st w)) root srcva max bs r -> Q (bs, r) w) ->
  wp (copyinstr root srcva max) Q w.
Proof. intros Hva Hus HQ. unfold copyinstr. by apply (copyinstr_loop_spec _ max root l); [|lia|..]. Qed.

(** A terminator and a nonzero byte cannot be at the same address. *)
Lemma uread_nonzero_end m root va str bs b :
  uread m root va (str ++ [0]) -> uread m root va bs -> nonzero bs -> bs !! length str = Some b -> False.
Proof.
  intros Hs Hb Hnz Hl. assert ((str ++ [0]) !! length str = Some 0) as Hz by apply list_lookup_middle, eq_refl.
  apply Hs in Hz. pose proof (Forall_lookup_1 _ _ _ _ Hnz Hl) as Hne. apply Hb in Hl. congruence.
Qed.

Lemma string_unique m root va s1 s2 : nonzero s1 -> nonzero s2 ->
  uread m root va (s1 ++ [0]) -> uread m root va (s2 ++ [0]) -> s1 = s2.
Proof.
  intros Hn1 Hn2 H1 H2.
  assert (Hpre : forall s, uread m root va (s ++ [0]) -> uread m root va s).
  { intros s Hs i b Hi. by apply Hs, lookup_app_l_Some. }
  assert (Hlen : forall s s', uread m root va (s ++ [0]) -> uread m root va (s' ++ [0]) -> nonzero s' -> ~ (length s < length s')%nat).
  { intros s s' Hs Hs' Hn Hlt. destruct (lookup_lt_is_Some_2 s' (length s) Hlt) as [b Hb]. by apply (uread_nonzero_end m root va s s' b); auto. }
  assert (length s1 = length s2) as Hl by (pose proof (Hlen s1 s2 H1 H2 Hn2); pose proof (Hlen s2 s1 H2 H1 Hn1); lia).
  apply list_eq_same_length with (length s1); [done|done|]. intros i x y Hi Hx%(Hpre s1 H1) Hy%(Hpre s2 H2). congruence.
Qed.

End UserCopy.

(** C14: [copyout] writes user memory only: on success exactly the bytes of the
    buffer at the destination, on failure a prefix up to the first address user
    code may not touch.  No other user byte, no page table entry and no byte
    outside the pages user code can touch changes, wherever the destination
    points. *)
Theorem copyout_correct `{KernelImageOk} root l dstva src w :
  0 <= dstva < 18446744073709551616 -> uspace (k_mem (st w)) root l ->
  wp (copyout root dstva src) (fun r w' => exists k m',
    st w' = set_k_mem m' (st w) /\
    (r = 0 /\ k = length src \/ r = -1 /\ (k < length src)%nat /\ uacc (k_mem (st w)) root (dstva + k) = false) /\
    (forall va, umem m' root va =
       if decide (dstva <= va < dstva + k) then Some (default 0 (src !! Z.to_nat (va - dstva)) mod 256)
       else umem (k_mem (st w)) root va) /\
    (forall va, pte_at m' root va = pte_at (k_mem (st w)) root va) /\
    (forall a, (forall va, uacc (k_mem (st w)) root va = true -> uphys (k_mem (st w)) root va <> a) ->
       m'.[a] = (k_mem (st w)).[a])) w.
Proof.
  intros Hva Hus. apply (wp_copyout root l); [done..|]. intros r k m' [H1 H2 H3 H4] Hr. by exists k, m'.
Qed.



(** On the machine with two user pages. *)
Lemma demo_acc va : 0 <= va < demo_sz -> uacc (k_mem kst_user) demo_root va = true.
Proof.
  intros Hva. destruct kst_user_ok as (l & _ & Hg). apply uacc_spec.
  destruct (gr_new _ _ _ _ _ _ _ _ _ Hg va) as (Hv & Hf & _); [unfold demo_sz, PGSIZE in *; Z.div_mod_to_equations; lia|].
  split_and!; [lia|unfold demo_sz in *; rewrite MAXVA_val; unfold PGSIZE; lia|done|].
  intros Hz. apply (f_equal (fun x => Z.land x PTE_U)) in Hf. unfold PTE_FLAGS in Hf. rewrite <- Z.land_assoc in Hf.
  change (Z.land 1023 PTE_U) with PTE_U in Hf. rewrite Hz in Hf. clear -Hf. vm_compute in Hf. discriminate Hf.
Qed.

Lemma copyout_correct_witness :
  wp (copyout demo_root 4095 [1; 2]) (fun r w' => r = 0 -> umem (k_mem (st w')) demo_root 4096 = Some 2) (World kst_user []).
Proof.
  destruct kst_user_ok as (l & (_ & _ & Hus) & _). eapply wp_mono.
  - apply (@copyout_correct demo_image demo_image_ok demo_root l 4095 [1; 2] (World kst_user [])); [lia|exact Hus].
  - intros r w' (k & m' & -> & [[-> ->]|[-> _]] & Hm & _); [intros _|discriminate]. cbn. by rewrite Hm.
Defined.


