(* ===== verification/Proc.v ===== *)
(** * kernel/proc.c: process memory and the process table

    Allocation and release of process table entries with their page tables and
    trapframes, growing and shrinking a process, [wait], [reparent], [ps], and
    the copies to and from user or kernel destinations.  ([fork], [exit] and
    [userinit], which need the file system, are in [Fork].) *)

From S2P Require Import Prelude State KString Spinlock Norm Printf Sched Sleeplock Kalloc Vm.

Section Proc.
Context `{KernelImage}.

Definition procinit : K unit :=
  initlock L_pid;;
  initlock L_wait;;
  foreach (seq 0 NPROC) (fun i =>
    initlock (L_proc i);;
    modify_proc i (set_p_state UNUSED);;
    modify_proc i (set_p_kstack (KSTACK i));;
    mret (@None unit));;
  mret tt.

Definition proc_pagetable (i : nat) : K Z :=
  pagetable ← uvmcreate;
  if pagetable =? 0 then mret 0 else
  r ← mappages pagetable TRAMPOLINE PGSIZE trampoline_pa (Z.lor PTE_R PTE_X);
  if r <? 0 then
    uvmfree pagetable 0;;
    mret 0
  else
  p ← proc_at i;
  r ← mappages pagetable TRAPFRAME PGSIZE (p_trapframe p) (Z.lor PTE_R PTE_W);
  if r <? 0 then
    uvmunmap pagetable TRAMPOLINE 1 false;;
    uvmfree pagetable 0;;
    mret 0
  else mret pagetable.

Definition proc_freepagetable (pagetable sz : Z) : K unit :=
  uvmunmap pagetable TRAMPOLINE 1 false;;
  uvmunmap pagetable TRAPFRAME 1 false;;
  uvmfree pagetable sz.

Definition freeproc (i : nat) : K unit :=
  p ← proc_at i;
  when (negb (p_trapframe p =? 0)) (kfree (p_trapframe p));;
  modify_proc i (set_p_trapframe 0);;
  p ← proc_at i;
  when (negb (p_pagetable p =? 0)) (proc_freepagetable (p_pagetable p) (p_sz p));;
  modify_proc i (set_p_pagetable 0);;
  modify_proc i (set_p_sz 0);;
  modify_proc i (set_p_pid 0);;
  modify_proc i (set_p_parent None);;
  modify_proc i (fun p => set_p_name (<[0%nat := 0]> (p_name p)) p);;
  modify_proc i (set_p_chan Ch_null);;
  modify_proc i (set_p_killed 0);;
  modify_proc i (set_p_xstate 0);;
  modify_proc i (set_p_state UNUSED).

(** The search of [allocproc]: it stops with the lock of the entry held. *)
Definition allocproc_visit (i : nat) : K (option nat) :=
  acquire (L_proc i);;
  p ← proc_at i;
  if bool_decide (p_state p = UNUSED) then mret (Some i) else
  release (L_proc i);;
  mret None.

Definition allocproc : K (option nat) :=
  found ← foreach (seq 0 NPROC) allocproc_visit;
  match found with
  | None => mret None
  | Some i =>
      pid ← allocpid;
      modify_proc i (set_p_pid pid);;
      modify_proc i (set_p_state USED);;
      modify_proc i (set_p_priority 0);;
      modify_proc i (set_p_promotion_timer 0);;
      tf ← kalloc;
      modify_proc i (set_p_trapframe tf);;
      if tf =? 0 then
        freeproc i;;
        release (L_proc i);;
        mret None
      else
      pagetable ← proc_pagetable i;
      modify_proc i (set_p_pagetable pagetable);;
      if pagetable =? 0 then
        freeproc i;;
        release (L_proc i);;
        mret None
      else
      modify_proc i (fun p => set_p_context
        (mkctx forkret_addr (u64 (p_kstack p + PGSIZE)) (replicate 12 0)) p);;
      mret (Some i)
  end.

Definition growproc (n : Z) : K Z :=
  i ← this_proc;
  p ← proc_at i;
  let sz := p_sz p in
  if 0 <? n then
    sz ← uvmalloc (p_pagetable p) sz (u64 (sz + n)) PTE_W;
    if sz =? 0 then mret (-1) else
    modify_proc i (set_p_sz sz);;
    mret 0
  else if n <? 0 then
    sz ← uvmdealloc (p_pagetable p) sz (u64 (sz + n));
    modify_proc i (set_p_sz sz);;
    mret 0
  else
    modify_proc i (set_p_sz sz);;
    mret 0.

(** ** ps *)

(** Sizes and offsets of [struct user_proc] (36 bytes) and [struct proc]. *)
Definition sizeof_user_proc : nat := 36.
Definition sizeof_proc : Z := 368.

Definition procstate_val (s : procstate) : Z :=
  match s with UNUSED => 0 | USED => 1 | SLEEPING => 2 | RUNNABLE => 3 | RUNNING => 4 | ZOMBIE => 5 end.

(** [dst[i] = src[i]] for [i < len]. *)
Definition copy_array (src : list Z) (off len : nat) (a : list Z) : list Z := patch off (take len src) a.

(** Entry [n] of [loc_result]; [parent_id] is written only if there is a parent. *)
Definition ps_entry (n : nat) (p : proc) (parent : option proc) (a : list Z) : list Z :=
  let o := (n * sizeof_user_proc)%nat in
  let a := patch o (le_bytes 4 (procstate_val (p_state p))) a in
  let a := patch (o + 4) (le_bytes 4 (u32 (p_killed p))) a in
  let a := patch (o + 8) (le_bytes 4 (u32 (p_xstate p))) a in
  let a := patch (o + 12) (le_bytes 4 (u32 (p_pid p))) a in
  let a := copy_array (p_name p) (o + 20) 16 a in
  match parent with
  | Some q => patch (o + 16) (le_bytes 4 (u32 (p_pid q))) a
  | None => a
  end.

Definition ps_unused (n : nat) (a : list Z) : list Z :=
  patch (n * sizeof_user_proc) (le_bytes 4 (procstate_val UNUSED)) a.

Fixpoint ps_loop (todo : list nat) (count n : nat) (a : list Z) : K (nat * list Z) :=
  match todo with
  | [] => mret (n, a)
  | i :: todo =>
      if (n =? count)%nat then mret (n, a) else
      acquire (L_proc i);;
      p ← proc_at i;
      if bool_decide (p_state p = UNUSED) then
        release (L_proc i);;
        mret (n, ps_unused n a)
      else
      parent ← match p_parent p with
               | Some j => q ← proc_at j; mret (Some q)
               | None => mret None
               end;
      release (L_proc i);;
      ps_loop todo count (S n) (ps_entry n p parent a)
  end.

(** [stack] is what the kernel stack holds where [loc_result] is placed.  The
    pointer [proc + start * sizeof(proc)] is entry [start * NPROC * sizeof_proc]. *)
Definition ps (stack : list Z) (start count : Z) : K Z :=
  i ← this_proc;
  p ← proc_at i;
  let result := p_sz p in
  if count =? 0 then mret 0 else
  r ← growproc (count * sizeof_user_proc);
  if r <? 0 then mret 0 else
  let first := start * (NPROC * sizeof_proc) in
  if NPROC <=? first then mret 0 else
  let n := Z.to_nat count in
  x ← ps_loop (seq (Z.to_nat first) (NPROC - Z.to_nat first)) n 0 (take (n * sizeof_user_proc) stack);
  let loc := if (fst x <? n)%nat then ps_unused (fst x) (snd x) else snd x in
  i ← this_proc;
  p ← proc_at i;
  copyout (p_pagetable p) result loc;;
  mret result.

(** Entry [start] is meant, but with [start] at least 1 the pointer lies behind
    the table: [ps] reports no process. *)
Lemma ps_nonzero_start stack start count r w w' : 1 <= start -> ps stack start count w = Done r w' -> r = 0.
Proof.
  intros Hs. unfold ps. set (loop := ps_loop). unfold mbind, M_bind, mret, M_ret.
  destruct (this_proc w) as [i w1| | |]; try done. destruct (proc_at i w1) as [p w2| | |]; try done.
  destruct (count =? 0); [by intros [= <- _]|]. destruct (growproc (count * sizeof_user_proc) w2) as [g w3| | |]; try done.
  destruct (g <? 0); [by intros [= <- _]|]. destruct (Z.leb_spec NPROC (start * (NPROC * sizeof_proc))) as [_|Hb]; [by intros [= <- _]|].
  unfold NPROC, sizeof_proc in Hb. lia.
Qed.

(** ** Children *)

(** The sleep channel [p] of a process pointer. *)
Definition proc_chan (p : option nat) : chan := match p with Some i => Ch_proc i | None => Ch_null end.

Definition reparent (i : nat) : K unit :=
  foreach (seq 0 NPROC) (fun j =>
    pp ← proc_at j;
    when (bool_decide (p_parent pp = Some i))
      (init ← gets k_initproc;
       modify_proc j (set_p_parent init);;
       wakeup (proc_chan init));;
    mret (@None unit));;
  mret tt.

(** One scan of the table by [wait]: [inl r] to return [r] (the locks are
    released), [inr havekids] at the end of the table. *)
Fixpoint wait_scan (todo : list nat) (me : nat) (addr : Z) (havekids : bool) : K (Z + bool) :=
  match todo with
  | [] => mret (inr havekids)
  | j :: todo =>
      pp ← proc_at j;
      if negb (bool_decide (p_parent pp = Some me)) then wait_scan todo me addr havekids else
      acquire (L_proc j);;
      pp ← proc_at j;
      if negb (bool_decide (p_state pp = ZOMBIE)) then
        release (L_proc j);;
        wait_scan todo me addr true
      else
      let pid := p_pid pp in
      p ← proc_at me;
      r ← (if addr =? 0 then mret 0 else copyout (p_pagetable p) addr (le_bytes 4 (u32 (p_xstate pp))));
      if r <? 0 then
        release (L_proc j);;
        release L_wait;;
        mret (inl (-1))
      else
        freeproc j;;
        release (L_proc j);;
        release L_wait;;
        mret (inl pid)
  end.

(** The [for (;;)] of [wait]; each sleep uses up an action of the environment. *)
Fixpoint wait_for (fuel : nat) (me : nat) (addr : Z) : K Z :=
  match fuel with
  | O => fault "wait: out of fuel"
  | S fuel =>
      r ← wait_scan (seq 0 NPROC) me addr false;
      match r with
      | inl pid => mret pid
      | inr havekids =>
          k ← (if (havekids : bool) then killed me else mret 1);
          if negb (k =? 0) then
            release L_wait;;
            mret (-1)
          else
            sleep (Ch_proc me) L_wait;;
            wait_for fuel me addr
      end
  end.

Definition wait (addr : Z) : K Z :=
  me ← this_proc;
  acquire L_wait;;
  env_fuel (fun fuel => wait_for fuel me addr).

End Proc.

(** ** Copies to user or kernel addresses *)

(** The destination of a copy out of a kernel object: a user address, a kernel
    address, or a local variable of the caller (the caller then takes the bytes
    from the result of the routine that copies). *)
Inductive dest : Set := ToUser (va : Z) | ToKernel (pa : Z) | ToLocal.

(** The source of a copy into a kernel object. *)
Inductive origin : Set := FromUser (va : Z) | FromKernel (pa : Z) | FromLocal (bs : list Z).

Definition dest_add (d : dest) (n : Z) : dest :=
  match d with ToUser va => ToUser (u64 (va + n)) | ToKernel pa => ToKernel (u64 (pa + n)) | ToLocal => ToLocal end.
Definition origin_add (o : origin) (n : Z) : origin :=
  match o with
  | FromUser va => FromUser (u64 (va + n))
  | FromKernel pa => FromKernel (u64 (pa + n))
  | FromLocal bs => FromLocal (drop (Z.to_nat n) bs)
  end.

Definition either_copyout (d : dest) (src : list Z) : K Z :=
  me ← myproc;
  match d with
  | ToUser va =>
      match me with
      | Some i => p ← proc_at i; copyout (p_pagetable p) va src
      | None => fault "either_copyout: no process"
      end
  | ToKernel pa => modify (fun s => set_k_mem (wr_bytes (k_mem s) pa src) s);; mret 0
  | ToLocal => mret 0
  end.

(** The bytes that were copied, and the return value. *)
Definition either_copyin (o : origin) (len : Z) : K (list Z * Z) :=
  me ← myproc;
  match o with
  | FromUser va =>
      match me with
      | Some i => p ← proc_at i; copyin (p_pagetable p) va len
      | None => fault "either_copyin: no process"
      end
  | FromKernel pa => bs ← gets (fun s => rd_bytes (Z.to_nat len) (k_mem s) pa); mret (bs, 0)
  | FromLocal bs => mret (take (Z.to_nat len) bs, 0)
  end.
