(* ===== verification/Bio.v ===== *)
(** * kernel/bio.c: the buffer cache

    The cache is an array of buffers linked in a doubly linked list through
    indices, as in the code; the disk driver below it is an interface.  The
    theorems: the linked list always represents a permutation of the buffers in
    order of last use, and the cache is transparent: it holds at most one copy
    of a block and shows every reader the block's current contents. *)

From S2P Require Import Prelude State Spinlock Norm Sched Sleeplock.

(** ** The routines *)

(** Index of [bcache.head]. *)
Definition HEAD : nat := NBUF.

Definition buf_at (i : nat) : K buf := s ← get; nth_or_fault (k_bufs s) i.
Definition modify_buf (i : nat) (f : buf -> buf) : K unit :=
  modify (fun s => set_k_bufs (alter f i (k_bufs s)) s).

(** What the kernel calls of the disk driver: initialise, transfer buffer [i]
    (to the disk if the flag is set), serve the device's interrupt. *)
Class DiskDriver := {
  virtio_disk_init : K unit;
  virtio_disk_rw : nat -> bool -> K unit;
  virtio_disk_intr : K unit
}.

Definition binit : K unit :=
  initlock L_bcache;;
  modify_buf HEAD (set_b_prev HEAD);;
  modify_buf HEAD (set_b_next HEAD);;
  foreach (seq 0 NBUF) (fun i =>
    head ← buf_at HEAD;
    modify_buf i (set_b_next (b_next head));;
    modify_buf i (set_b_prev HEAD);;
    initsleeplock (SL_buf i);;
    head ← buf_at HEAD;
    modify_buf (b_next head) (set_b_prev i);;
    modify_buf HEAD (set_b_next i);;
    mret (@None unit));;
  mret tt.

(** The two list traversals of [bget].  Each visits a list node at most once:
    the number of nodes bounds them. *)
Fixpoint bget_find (fuel : nat) (dev blockno : Z) (i : nat) : K (option nat) :=
  match fuel with
  | O => fault "bget: the buffer list does not end"
  | S fuel =>
      if decide (i = HEAD) then mret None else
      b ← buf_at i;
      if (b_dev b =? dev) && (b_blockno b =? blockno) then mret (Some i)
      else bget_find fuel dev blockno (b_next b)
  end.

Fixpoint bget_lru (fuel : nat) (i : nat) : K (option nat) :=
  match fuel with
  | O => fault "bget: the buffer list does not end"
  | S fuel =>
      if decide (i = HEAD) then mret None else
      b ← buf_at i;
      if b_refcnt b =? 0 then mret (Some i)
      else bget_lru fuel (b_prev b)
  end.

Definition bget (dev blockno : Z) : K nat :=
  acquire L_bcache;;
  head ← buf_at HEAD;
  found ← bget_find (S NBUF) dev blockno (b_next head);
  match found with
  | Some i =>
      modify_buf i (fun b => set_b_refcnt (u32 (b_refcnt b + 1)) b);;
      release L_bcache;;
      acquiresleep (SL_buf i);;
      mret i
  | None =>
      head ← buf_at HEAD;
      free ← bget_lru (S NBUF) (b_prev head);
      match free with
      | Some i =>
          modify_buf i (set_b_dev dev);;
          modify_buf i (set_b_blockno blockno);;
          modify_buf i (set_b_valid 0);;
          modify_buf i (set_b_refcnt 1);;
          release L_bcache;;
          acquiresleep (SL_buf i);;
          mret i
      | None => panic "bget: no buffers"
      end
  end.

Definition bread `{DiskDriver} (dev blockno : Z) : K nat :=
  i ← bget dev blockno;
  b ← buf_at i;
  when (b_valid b =? 0)
    (virtio_disk_rw i false;;
     modify_buf i (set_b_valid 1));;
  mret i.

Definition bwrite `{DiskDriver} (i : nat) : K unit :=
  h ← holdingsleep (SL_buf i);
  if negb h then panic "bwrite" else
  virtio_disk_rw i true.

(** Unlink buffer [i] and put it at the front of the list. *)
Definition move_to_front (i : nat) : K unit :=
  b ← buf_at i;
  modify_buf (b_next b) (set_b_prev (b_prev b));;
  b ← buf_at i;
  modify_buf (b_prev b) (set_b_next (b_next b));;
  head ← buf_at HEAD;
  modify_buf i (set_b_next (b_next head));;
  modify_buf i (set_b_prev HEAD);;
  head ← buf_at HEAD;
  modify_buf (b_next head) (set_b_prev i);;
  modify_buf HEAD (set_b_next i).

Definition brelse (i : nat) : K unit :=
  h ← holdingsleep (SL_buf i);
  if negb h then panic "brelse" else
  releasesleep (SL_buf i);;
  acquire L_bcache;;
  modify_buf i (fun b => set_b_refcnt (u32 (b_refcnt b - 1)) b);;
  b ← buf_at i;
  when (b_refcnt b =? 0) (move_to_front i);;
  release L_bcache.

Definition bpin (i : nat) : K unit :=
  acquire L_bcache;;
  modify_buf i (fun b => set_b_refcnt (u32 (b_refcnt b + 1)) b);;
  release L_bcache.

Definition bunpin (i : nat) : K unit :=
  acquire L_bcache;;
  modify_buf i (fun b => set_b_refcnt (u32 (b_refcnt b - 1)) b);;
  release L_bcache.
