(* ===== verification/LruList.v ===== *)
(** * The list of buffers of kernel/bio.c

    [bcache.head], [prev] and [next] implement a sequence of buffers, most
    recently used first.  [linked bs l] says that the pointers of the buffers
    [bs] represent the sequence [l]; the lemmas give what the pointer updates of
    [binit] and [brelse] and the traversals of [bget] do to the sequence. *)

From S2P Require Import Prelude State Spinlock Norm Sched Sleeplock Bio.

(** ** Chains of pointers *)

Definition upd (f : nat -> nat) (i x : nat) : nat -> nat := fun k => if decide (k = i) then x else f k.

(** Following [f] from [a] visits [l] and then [b]. *)
Fixpoint chain (f : nat -> nat) (a : nat) (l : list nat) (b : nat) : Prop :=
  match l with
  | [] => f a = b
  | x :: l => f a = x /\ chain f x l b
  end.

(** The last element of [a :: l]. *)
Fixpoint final_of (a : nat) (l : list nat) : nat :=
  match l with [] => a | x :: l => final_of x l end.

Lemma upd_eq f i x : upd f i x i = x.
Proof. unfold upd. by rewrite decide_True. Qed.
Lemma upd_ne f i x k : k <> i -> upd f i x k = f k.
Proof. intros H. unfold upd. by rewrite decide_False. Qed.

Lemma final_of_elem a l : final_of a l ∈ a :: l.
Proof. revert a. induction l as [|x l IH]; intros a; cbn; [by left|]. right. apply IH. Qed.

Lemma final_of_snoc a l x : final_of a (l ++ [x]) = x.
Proof. revert a. induction l as [|y l IH]; intros a; cbn; [done|]. apply IH. Qed.

Lemma chain_ext f g a l b : (forall x, x ∈ a :: l -> f x = g x) -> chain f a l b -> chain g a l b.
Proof.
  revert a. induction l as [|x l IH]; intros a Hfg; cbn.
  - by rewrite Hfg by (by left).
  - rewrite (Hfg a) by (by left). intros [? H]. split; [done|]. apply IH; [|done]. intros y Hy. apply Hfg. by right.
Qed.

Lemma chain_upd_frame f a l b i x : i ∉ a :: l -> chain f a l b -> chain (upd f i x) a l b.
Proof. intros Hi. apply chain_ext. intros y Hy. rewrite upd_ne; [done|]. by intros ->. Qed.

Lemma chain_app f a l1 x l2 b : chain f a (l1 ++ x :: l2) b <-> chain f a l1 x /\ chain f x l2 b.
Proof. revert a. induction l1 as [|y l1 IH]; intros a; cbn; [done|]. rewrite IH. by rewrite (assoc and). Qed.

Lemma chain_final f a l b : chain f a l b -> f (final_of a l) = b.
Proof. revert a. induction l as [|x l IH]; intros a; cbn; [done|]. intros [_ H]. by apply IH. Qed.

Lemma chain_first f a l b : chain f a l b -> f a = hd b l.
Proof. destruct l; cbn; [done|]. by intros [? _]. Qed.

(** Redirecting the last pointer. *)
Lemma chain_retarget f a l b y : NoDup (a :: l) -> chain f a l b -> chain (upd f (final_of a l) y) a l y.
Proof.
  revert a. induction l as [|x l IH]; intros a Hnd; cbn [chain final_of].
  - intros _. apply upd_eq.
  - intros [Ha H]. apply list.NoDup_cons in Hnd as [Hnin Hnd]. split; [|by apply IH].
    rewrite upd_ne; [done|]. intros ->. apply Hnin, final_of_elem.
Qed.

(** Taking [i] out. *)
Lemma chain_remove f a l1 i l2 b : NoDup (a :: l1 ++ i :: l2) -> chain f a (l1 ++ i :: l2) b ->
  chain (upd f (final_of a l1) (f i)) a (l1 ++ l2) b.
Proof.
  intros Hnd [H1 H2]%chain_app. change (a :: l1 ++ i :: l2) with ((a :: l1) ++ i :: l2) in Hnd.
  apply list.NoDup_app in Hnd as (Hnd1 & Hdis & Hnd2). destruct l2 as [|y l2]; cbn in H2.
  - rewrite app_nil_r, H2. by eapply chain_retarget.
  - destruct H2 as [-> H2]. apply chain_app. split; [by eapply chain_retarget|].
    apply chain_upd_frame; [|done]. intros Hin. apply (Hdis _ (final_of_elem a l1)). by right.
Qed.

(** Putting [i] first, and last. *)
Lemma chain_push f a l b i : a <> i -> i ∉ l -> a ∉ l -> chain f a l b -> chain (upd (upd f i (f a)) a i) a (i :: l) b.
Proof.
  intros Hai Hil Hal H. split; [apply upd_eq|]. destruct l as [|x l]; cbn in *.
  - by rewrite upd_ne, upd_eq.
  - destruct H as [<- H]. split; [by rewrite upd_ne, upd_eq|]. by do 2 (apply chain_upd_frame; [done|]).
Qed.

Lemma chain_snoc f a l b i : NoDup (a :: l ++ [i]) -> chain f a l b ->
  chain (upd (upd f i b) (final_of a l) i) a (l ++ [i]) b.
Proof.
  intros Hnd H. change (a :: l ++ [i]) with ((a :: l) ++ [i]) in Hnd. apply list.NoDup_app in Hnd as (Hnd1 & Hdis & _).
  assert (Hi : i ∉ a :: l) by (intros Hin; apply (Hdis i Hin); by left).
  apply chain_app. split.
  - eapply chain_retarget; [done|]. by apply chain_upd_frame.
  - cbn. rewrite upd_ne, upd_eq; [done|]. intros ->. apply Hi, final_of_elem.
Qed.

(** ** The pointers of the buffers *)

Definition nxt (bs : list buf) (i : nat) : nat := default O (b_next <$> bs !! i).
Definition prv (bs : list buf) (i : nat) : nat := default O (b_prev <$> bs !! i).

(** The pointers of [bs] represent the sequence [l]. *)
Definition linked (bs : list buf) (l : list nat) : Prop :=
  chain (nxt bs) HEAD l HEAD /\ chain (prv bs) HEAD (rev l) HEAD.

(** A buffer without its pointers. *)
Definition unlink (b : buf) : buf := set_b_next O (set_b_prev O b).

Lemma nxt_alter_next j x bs k : (j < length bs)%nat -> nxt (alter (set_b_next x) j bs) k = upd (nxt bs) j x k.
Proof.
  intros Hj. unfold nxt, upd. case_decide as H.
  - subst. destruct (lookup_lt_is_Some_2 bs j Hj) as [b Hb]. by rewrite list_lookup_alter_eq, Hb.
  - by rewrite list_lookup_alter_ne.
Qed.
Lemma prv_alter_prev j x bs k : (j < length bs)%nat -> prv (alter (set_b_prev x) j bs) k = upd (prv bs) j x k.
Proof.
  intros Hj. unfold prv, upd. case_decide as H.
  - subst. destruct (lookup_lt_is_Some_2 bs j Hj) as [b Hb]. by rewrite list_lookup_alter_eq, Hb.
  - by rewrite list_lookup_alter_ne.
Qed.

Lemma prv_alter_prev_ne (j : nat) x bs k : k <> j -> prv (alter (set_b_prev x) j bs) k = prv bs k.
Proof. intros Hj. unfold prv. rewrite list_lookup_alter_ne; [done|]. congruence. Qed.

Lemma alter_field {A} (p : buf -> A) (f : buf -> buf) (j : nat) (bs : list buf) (k : nat) : (forall b, p (f b) = p b) ->
  p <$> alter f j bs !! k = p <$> bs !! k.
Proof.
  intros Hp. destruct (decide (j = k)) as [->|]; [|by rewrite list_lookup_alter_ne].
  rewrite list_lookup_alter_eq. destruct (bs !! k); cbn; [by rewrite Hp|done].
Qed.
Lemma nxt_alter f j bs k : (forall b, b_next (f b) = b_next b) -> nxt (alter f j bs) k = nxt bs k.
Proof. intros Hf. unfold nxt. by rewrite alter_field. Qed.
Lemma prv_alter f j bs k : (forall b, b_prev (f b) = b_prev b) -> prv (alter f j bs) k = prv bs k.
Proof. intros Hf. unfold prv. by rewrite alter_field. Qed.

Lemma linked_alter f j bs l : (forall b, b_next (f b) = b_next b) -> (forall b, b_prev (f b) = b_prev b) ->
  linked bs l -> linked (alter f j bs) l.
Proof.
  intros Hn Hp [H1 H2]. split; (eapply chain_ext; [|done]); intros; symmetry; [by apply nxt_alter|by apply prv_alter].
Qed.

Lemma unlink_alter f (j : nat) (bs : list buf) : (forall b, unlink (f b) = unlink b) -> unlink <$> alter f j bs = unlink <$> bs.
Proof. intros Hf. apply list_eq. intros k. rewrite !list_lookup_fmap. by apply alter_field. Qed.

(** The updates of [move_to_front], as a function of the buffers. *)
Definition unlinked (i : nat) (bs : list buf) : list buf :=
  alter (set_b_next (nxt bs i)) (prv bs i) (alter (set_b_prev (prv bs i)) (nxt bs i) bs).
Definition pushed (i : nat) (bs : list buf) : list buf :=
  alter (set_b_next i) HEAD (alter (set_b_prev i) (nxt bs HEAD)
    (alter (set_b_prev HEAD) i (alter (set_b_next (nxt bs HEAD)) i bs))).

Lemma chain_last_rev f l1 i l2 : chain f HEAD (rev (l1 ++ i :: l2)) HEAD -> f i = final_of HEAD l1.
Proof.
  rewrite rev_app_distr. cbn. rewrite <- app_assoc. cbn. intros [_ H]%chain_app. apply chain_first in H as ->.
  destruct l1 as [|x l1 _] using rev_ind; [done|]. by rewrite rev_app_distr, final_of_snoc.
Qed.

Lemma linked_ends bs l1 i l2 : linked bs (l1 ++ i :: l2) ->
  prv bs i = final_of HEAD l1 /\ nxt bs i = final_of HEAD (rev l2).
Proof.
  intros [H1 H2]. split; [by eapply chain_last_rev|].
  apply (chain_last_rev (nxt bs) (rev l2) i (rev l1)).
  rewrite rev_app_distr. cbn. by rewrite !rev_involutive, <- app_assoc.
Qed.

Lemma linked_in_range (bs : list buf) l i : Forall (fun x => x < length bs)%nat (HEAD :: l) -> i ∈ HEAD :: l -> (i < length bs)%nat.
Proof. rewrite list.Forall_forall. auto. Qed.

Lemma elem_of_rev (x : nat) l : x ∈ rev l <-> x ∈ l.
Proof. by rewrite <- (Permutation_rev l). Qed.

Lemma NoDup_cons_rev (a : nat) l : NoDup (a :: l) -> NoDup (a :: rev l).
Proof. intros H. rewrite !list.NoDup_cons in H |- *. by rewrite <- (Permutation_rev l). Qed.

Lemma linked_unlinked bs l1 i l2 : NoDup (HEAD :: l1 ++ i :: l2) -> Forall (fun x => x < length bs)%nat (HEAD :: l1 ++ i :: l2) ->
  linked bs (l1 ++ i :: l2) -> linked (unlinked i bs) (l1 ++ l2).
Proof.
  intros Hnd Hin Hl. destruct (linked_ends _ _ _ _ Hl) as [Hp Hn]. destruct Hl as [H1 H2].
  assert (Hp' : prv bs i ∈ HEAD :: l1 ++ i :: l2).
  { rewrite Hp. change (HEAD :: l1 ++ i :: l2) with ((HEAD :: l1) ++ i :: l2). apply elem_of_app. left. apply final_of_elem. }
  assert (Hn' : nxt bs i ∈ HEAD :: l1 ++ i :: l2).
  { rewrite Hn. pose proof (final_of_elem HEAD (rev l2)) as H. apply elem_of_cons in H as [->|H]; [by left|].
    rewrite elem_of_rev in H. right. apply elem_of_app. right. by right. }
  assert (forall x, x ∈ HEAD :: l1 ++ i :: l2 -> (x < length bs)%nat) as Hr by (intros x Hx; exact (linked_in_range _ _ _ Hin Hx)).
  unfold unlinked. split.
  - apply (chain_ext (upd (nxt bs) (final_of HEAD l1) (nxt bs i))); [|by apply chain_remove]. intros x _.
    rewrite nxt_alter_next by (rewrite length_alter; by apply Hr). unfold upd. rewrite Hp.
    case_decide; [done|]. by rewrite nxt_alter.
  - rewrite rev_app_distr in H2 |- *. cbn [rev] in H2. rewrite <- app_assoc in H2. cbn [app] in H2.
    apply (chain_ext (upd (prv bs) (final_of HEAD (rev l2)) (prv bs i))); [|apply chain_remove; [|done]].
    + intros x _. rewrite prv_alter by done. rewrite prv_alter_prev by (by apply Hr). by rewrite Hn.
    + apply NoDup_cons_rev in Hnd. rewrite rev_app_distr in Hnd. cbn in Hnd. by rewrite <- app_assoc in Hnd.
Qed.

Lemma linked_pushed bs l i : NoDup (HEAD :: i :: l) -> Forall (fun x => x < length bs)%nat (HEAD :: i :: l) ->
  linked bs l -> linked (pushed i bs) (i :: l).
Proof.
  intros Hnd Hin [H1 H2]. assert (Hf : nxt bs HEAD = final_of HEAD (rev l)).
  { rewrite (chain_first _ _ _ _ H1). destruct l as [|x l]; [done|]. cbn. by rewrite final_of_snoc. }
  assert (Hf' : nxt bs HEAD ∈ HEAD :: i :: l).
  { rewrite Hf. pose proof (final_of_elem HEAD (rev l)) as H. apply elem_of_cons in H as [->|H]; [by left|].
    rewrite elem_of_rev in H. right. by right. }
  assert (forall x, x ∈ HEAD :: i :: l -> (x < length bs)%nat) as Hr by (intros x Hx; exact (linked_in_range _ _ _ Hin Hx)).
  unfold pushed. split.
  - apply list.NoDup_cons in Hnd as [Hh Hnd]. apply list.NoDup_cons in Hnd as [Hi Hnd].
    apply not_elem_of_cons in Hh as [Hne Hh]. apply (chain_ext (upd (upd (nxt bs) i (nxt bs HEAD)) HEAD i)); [|by apply chain_push]. intros x _.
    rewrite nxt_alter_next by (rewrite !length_alter; apply Hr; by left). unfold upd at 1 3.
    case_decide; [done|]. rewrite !nxt_alter by done. rewrite nxt_alter_next by (apply Hr; by right; left). done.
  - apply (chain_ext (upd (upd (prv bs) i HEAD) (final_of HEAD (rev l)) i)); [|apply chain_snoc; [|done]].
    + intros x _. rewrite prv_alter by done. rewrite prv_alter_prev by (rewrite !length_alter; by apply Hr).
      rewrite Hf. unfold upd at 1 3. case_decide; [done|].
      rewrite prv_alter_prev by (rewrite !length_alter; apply Hr; by right; left). unfold upd. case_decide; [done|].
      by rewrite prv_alter.
    + apply NoDup_cons_rev in Hnd. done.
Qed.

Lemma linked_move bs l1 i l2 : NoDup (HEAD :: l1 ++ i :: l2) -> Forall (fun x => x < length bs)%nat (HEAD :: l1 ++ i :: l2) ->
  linked bs (l1 ++ i :: l2) -> linked (pushed i (unlinked i bs)) (i :: l1 ++ l2).
Proof.
  intros Hnd Hin Hl.
  assert (Hp : HEAD :: l1 ++ i :: l2 ≡ₚ HEAD :: i :: l1 ++ l2) by (by rewrite <- Permutation_middle).
  apply linked_pushed.
  - by rewrite <- Hp.
  - unfold unlinked. rewrite !length_alter. by rewrite <- Hp.
  - by apply linked_unlinked.
Qed.

Lemma unlink_move i bs : unlink <$> pushed i (unlinked i bs) = unlink <$> bs.
Proof. unfold pushed, unlinked. by rewrite !unlink_alter. Qed.

(** ** The routines *)

Lemma wp_buf_at bs i b s e Q : bs !! i = Some b -> Q b (World (set_k_bufs bs s) e) -> wp (buf_at i) Q (World (set_k_bufs bs s) e).
Proof. intros Hb HQ. unfold buf_at. wp_step. wp_step. apply wp_nth with b; [exact Hb|exact HQ]. Qed.

Lemma wp_modify_buf f i bs s e Q :
  Q tt (World (set_k_bufs (alter f i bs) s) e) -> wp (modify_buf i f) Q (World (set_k_bufs bs s) e).
Proof. intros HQ. unfold modify_buf. wp_step. exact HQ. Qed.

Lemma nxt_lookup bs i b : bs !! i = Some b -> nxt bs i = b_next b.
Proof. intros H. unfold nxt. by rewrite H. Qed.
Lemma prv_lookup bs i b : bs !! i = Some b -> prv bs i = b_prev b.
Proof. intros H. unfold prv. by rewrite H. Qed.

Lemma wp_buf_read bs i s e Q : (i < length bs)%nat ->
  (forall b, bs !! i = Some b -> b_next b = nxt bs i -> b_prev b = prv bs i -> Q b (World (set_k_bufs bs s) e)) ->
  wp (buf_at i) Q (World (set_k_bufs bs s) e).
Proof.
  intros Hi HQ. destruct (lookup_lt_is_Some_2 bs i Hi) as [b Hb]. apply wp_buf_at with b; [done|].
  apply HQ; [done|by rewrite (nxt_lookup _ _ _ Hb)|by rewrite (prv_lookup _ _ _ Hb)].
Qed.

Lemma linked_neq bs l1 i l2 : NoDup (HEAD :: l1 ++ i :: l2) -> linked bs (l1 ++ i :: l2) -> nxt bs i <> i.
Proof.
  intros Hnd Hl. destruct (linked_ends _ _ _ _ Hl) as [_ ->]. intros E.
  pose proof (final_of_elem HEAD (rev l2)) as H. rewrite E in H. clear E.
  change (HEAD :: l1 ++ i :: l2) with ((HEAD :: l1) ++ i :: l2) in Hnd. apply list.NoDup_app in Hnd as (_ & Hd & Hnd).
  apply list.NoDup_cons in Hnd as [Hi _]. apply elem_of_cons in H as [->|H].
  - apply (Hd HEAD); left.
  - rewrite elem_of_rev in H. done.
Qed.

Lemma wp_move_to_front bs l1 i l2 s e Q :
  NoDup (HEAD :: l1 ++ i :: l2) -> Forall (fun x => x < length bs)%nat (HEAD :: l1 ++ i :: l2) -> linked bs (l1 ++ i :: l2) ->
  Q tt (World (set_k_bufs (pushed i (unlinked i bs)) s) e) -> wp (move_to_front i) Q (World (set_k_bufs bs s) e).
Proof.
  intros Hnd Hin Hl HQ. assert (Hi : (i < length bs)%nat).
  { rewrite list.Forall_forall in Hin. apply Hin. right. apply elem_of_app. right. by left. }
  assert (Hh : (HEAD < length bs)%nat) by (rewrite list.Forall_cons in Hin; apply Hin).
  pose proof (linked_neq _ _ _ _ Hnd Hl) as Hne. unfold move_to_front.
  wp_step. apply wp_buf_read; [done|]. intros b _ -> ->. wp_step. apply wp_modify_buf.
  wp_step. apply wp_buf_read; [by rewrite length_alter|]. intros b' _ -> ->.
  rewrite prv_alter_prev_ne, nxt_alter by done. wp_step. apply wp_modify_buf. fold (unlinked i bs).
  assert (Hlen : length (unlinked i bs) = length bs) by (unfold unlinked; by rewrite !length_alter).
  assert (Hhi : HEAD <> i) by (intros <-; apply list.NoDup_cons in Hnd as [Hnd _]; apply Hnd, elem_of_app; right; by left).
  wp_step. apply wp_buf_read; [by rewrite Hlen|]. intros b'' _ -> _. do 2 (wp_step; apply wp_modify_buf).
  wp_step. apply wp_buf_read; [by rewrite !length_alter, Hlen|]. intros h _ -> _.
  rewrite nxt_alter by done. rewrite nxt_alter_next, upd_ne by (done || by rewrite Hlen).
  wp_step. apply wp_modify_buf. apply wp_modify_buf. exact HQ.
Qed.

(** ** The traversals of [bget] *)

Lemma wp_bget_find dev blockno bs a l fuel s e Q :
  chain (nxt bs) a l HEAD -> Forall (fun x => x < length bs /\ x <> HEAD)%nat l -> (length l < fuel)%nat ->
  (forall r, match r with
             | Some i => i ∈ l /\ exists b, bs !! i = Some b /\ b_dev b = dev /\ b_blockno b = blockno
             | None => forall i b, i ∈ l -> bs !! i = Some b -> b_dev b = dev -> b_blockno b <> blockno
             end -> Q r (World (set_k_bufs bs s) e)) ->
  wp (bget_find fuel dev blockno (nxt bs a)) Q (World (set_k_bufs bs s) e).
Proof.
  revert a fuel Q. induction l as [|x l IH]; intros a [|fuel] Q Hc Hl Hf HQ; try (cbn in Hf; lia); cbn in Hc |- *.
  - rewrite Hc, decide_True by done. apply HQ. intros i b Hi. by apply elem_of_nil in Hi.
  - destruct Hc as [-> Hc]. apply list.Forall_cons in Hl as [[Hx Hxh] Hl]. rewrite decide_False by done.
    wp_step. apply wp_buf_read; [done|]. intros b Hb -> _. destruct ((b_dev b =? dev) && (b_blockno b =? blockno)) eqn:E.
    + bool_facts. apply HQ. split; [by left|]. by exists b.
    + apply IH; [done|done|cbn in Hf; lia|]. intros [i|] Hr; apply HQ.
      * destruct Hr as [Hi Hr]. split; [by right|done].
      * intros i b' [->|Hi]%elem_of_cons Hb'; [|by apply (Hr i)]. simplify_eq. bool_facts. destruct E; bool_facts; congruence.
Qed.

Lemma wp_bget_lru bs a l fuel s e Q :
  chain (prv bs) a l HEAD -> Forall (fun x => x < length bs /\ x <> HEAD)%nat l -> (length l < fuel)%nat ->
  (forall r, match r with
             | Some i => exists l1 l2, l = l1 ++ i :: l2 /\ (exists b, bs !! i = Some b /\ b_refcnt b = 0) /\
                 forall k b, k ∈ l1 -> bs !! k = Some b -> b_refcnt b <> 0
             | None => forall i b, i ∈ l -> bs !! i = Some b -> b_refcnt b <> 0
             end -> Q r (World (set_k_bufs bs s) e)) ->
  wp (bget_lru fuel (prv bs a)) Q (World (set_k_bufs bs s) e).
Proof.
  revert a fuel Q. induction l as [|x l IH]; intros a [|fuel] Q Hc Hl Hf HQ; try (cbn in Hf; lia); cbn in Hc |- *.
  - rewrite Hc, decide_True by done. apply HQ. intros i b Hi. by apply elem_of_nil in Hi.
  - destruct Hc as [-> Hc]. apply list.Forall_cons in Hl as [[Hx Hxh] Hl]. rewrite decide_False by done.
    wp_step. apply wp_buf_read; [done|]. intros b Hb _ ->. destruct (b_refcnt b =? 0) eqn:E; bool_facts.
    + apply HQ. exists [], l. split_and!; [done|by exists b|]. intros k b' Hk. by apply elem_of_nil in Hk.
    + apply IH; [done|done|cbn in Hf; lia|]. intros [i|] Hr; apply HQ.
      * destruct Hr as (l1 & l2 & -> & Hi & Hr). exists (x :: l1), l2. split_and!; [done|done|].
        intros k b' [->|Hk]%elem_of_cons Hb'; [by simplify_eq|by apply (Hr k)].
      * intros i b' [->|Hi]%elem_of_cons Hb'; [by simplify_eq|by apply (Hr i)].
Qed.
