(* ===== verification/Cache.v ===== *)
(** * The buffer cache implements a map of blocks in use

    The contract of kernel/bio.c: a client sees, for the one device the system
    mounts, the disk and the set of blocks in use, each with its contents, its
    number of references and its lock.  [bread], [bwrite], [brelse], [bpin] and
    [bunpin] act on that abstract state; which of the [NBUF] buffers hold which
    blocks, which unreferenced blocks are still cached, and their order, is
    invisible.  [cache_ok] relates the buffers to the abstract state. *)

From S2P Require Import Prelude State Spinlock Norm Sched Sleeplock Bio LruList.

(** ** The abstract state *)

(** A block in use: the buffer that holds it, its contents, the number of
    references, its sleep lock. *)
Record abuf := mkab { ab_idx : nat; ab_data : list Z; ab_refs : Z; ab_lock : option sleeplock }.

Definition disk_block (dk : gmap Z (list Z)) (n : Z) : list Z := default (replicate BSIZE 0) (dk !! n).

(** The current contents of block [n]. *)
Definition content (a : gmap Z abuf) (dk : gmap Z (list Z)) (n : Z) : list Z :=
  match a !! n with Some x => ab_data x | None => disk_block dk n end.

(** ** The invariant *)

(** A buffer at rest: it belongs to no device and is not in use, or it holds a
    valid block of device [d]; one without references is unlocked and clean. *)
Definition buf_ok (d : Z) (dk : gmap Z (list Z)) (lk : option sleeplock) (b : buf) : Prop :=
  b_disk b = 0 /\ length (b_data b) = BSIZE /\ 0 <= b_refcnt b < 4294967296 /\ 0 <= b_blockno b < 2147483648 /\
  ((b_dev b = d /\ b_valid b <> 0) \/ (b_dev b = 0 /\ b_refcnt b = 0)) /\
  (b_refcnt b = 0 -> lk = None /\ (b_dev b = d -> b_data b = disk_block dk (b_blockno b))).

Record cache_ok (d : Z) (bs : list buf) (dk : gmap Z (list Z)) (sl : gmap sleepid sleeplock) (l : list nat)
    (a : gmap Z abuf) : Prop := mkcache {
  co_len : length bs = S NBUF;
  co_perm : l ≡ₚ seq 0 NBUF;
  co_linked : linked bs l;
  co_buf : forall i b, (i < NBUF)%nat -> bs !! i = Some b -> buf_ok d dk (sl !! SL_buf i) b;
  co_unique : forall i j b c, (i < NBUF)%nat -> (j < NBUF)%nat -> bs !! i = Some b -> bs !! j = Some c ->
    b_dev b = d -> b_dev c = d -> b_blockno b = b_blockno c -> i = j;
  co_live : forall i b, (i < NBUF)%nat -> bs !! i = Some b -> b_refcnt b <> 0 ->
    a !! b_blockno b = Some (mkab i (b_data b) (b_refcnt b) (sl !! SL_buf i));
  co_live_inv : forall n x, a !! n = Some x -> exists b, (ab_idx x < NBUF)%nat /\ bs !! ab_idx x = Some b /\
    b_refcnt b <> 0 /\ b_blockno b = n;
  co_disk : forall n, length (disk_block dk n) = BSIZE
}.

Section Invariant.
Context (d : Z) (Hd : d <> 0).

Lemma buf_ok_live dk lk b : buf_ok d dk lk b -> b_refcnt b <> 0 -> b_dev b = d /\ b_valid b <> 0.
Proof. unfold buf_ok. intros (_ & _ & _ & _ & [?|[_ ?]] & _) ?; done. Qed.

Lemma co_index bs dk sl l a i : cache_ok d bs dk sl l a -> i ∈ l <-> (i < NBUF)%nat.
Proof. intros H. rewrite (co_perm _ _ _ _ _ _ H), elem_of_seq. lia. Qed.

Lemma co_nodup bs dk sl l a : cache_ok d bs dk sl l a -> NoDup (HEAD :: l).
Proof.
  intros H. apply list.NoDup_cons. split; [rewrite (co_index _ _ _ _ _ _ H); unfold HEAD; lia|].
  rewrite (co_perm _ _ _ _ _ _ H). apply NoDup_seq.
Qed.

Lemma co_range bs dk sl l a : cache_ok d bs dk sl l a -> Forall (fun x => x < length bs)%nat (HEAD :: l).
Proof.
  intros H. apply list.Forall_forall. rewrite (co_len _ _ _ _ _ _ H). intros x [->|Hx]%elem_of_cons; [unfold HEAD; lia|].
  apply (co_index _ _ _ _ _ _ H) in Hx. lia.
Qed.

(** The abstract state when buffer [i] goes from [b] to [b']. *)
Definition republish (i : nat) (b b' : buf) (lk' : option sleeplock) (a : gmap Z abuf) : gmap Z abuf :=
  let a := if b_refcnt b =? 0 then a else delete (b_blockno b) a in
  if b_refcnt b' =? 0 then a else <[b_blockno b' := mkab i (b_data b') (b_refcnt b') lk']> a.

(** The lock of buffer [i] becomes [lk], no other buffer's changes. *)
Definition relocked (i : nat) (lk : option sleeplock) (sl sl' : gmap sleepid sleeplock) : Prop :=
  forall k, sl' !! SL_buf k = if decide (k = i) then lk else sl !! SL_buf k.

Lemma republish_other i b b' lk' a n : b_refcnt b = 0 \/ n <> b_blockno b -> b_refcnt b' = 0 \/ n <> b_blockno b' ->
  republish i b b' lk' a !! n = a !! n.
Proof.
  intros H1 H2. unfold republish. destruct (b_refcnt b' =? 0) eqn:E', (b_refcnt b =? 0) eqn:E; bool_facts;
    destruct H1, H2; try done; rewrite ?lookup_insert_ne, ?lookup_delete_ne by done; done.
Qed.

Lemma co_live_dev bs dk sl l a i b : cache_ok d bs dk sl l a -> (i < NBUF)%nat -> bs !! i = Some b -> b_refcnt b <> 0 ->
  b_dev b = d /\ b_valid b <> 0.
Proof. intros H Hi Hb Hr. eapply buf_ok_live; [exact (co_buf _ _ _ _ _ _ H i b Hi Hb)|done]. Qed.

(** Two live buffers hold different blocks. *)
Lemma co_live_apart bs dk sl l a i j b c : cache_ok d bs dk sl l a -> (i < NBUF)%nat -> (j < NBUF)%nat -> j <> i ->
  bs !! i = Some b -> bs !! j = Some c -> b_refcnt c <> 0 -> b_refcnt b = 0 \/ b_blockno c <> b_blockno b.
Proof.
  intros H Hi Hj Hne Hb Hc Hr. destruct (decide (b_refcnt b = 0)) as [|Hr']; [by left|]. right. intros E. apply Hne.
  destruct (co_live_dev _ _ _ _ _ _ _ H Hi Hb Hr') as [Ed _]. destruct (co_live_dev _ _ _ _ _ _ _ H Hj Hc Hr) as [Ed' _].
  by apply (co_unique _ _ _ _ _ _ H j i c b).
Qed.

Lemma insert_cases {A} (bs : list A) i j x y : <[i := x]> bs !! j = Some y -> j = i /\ y = x \/ j <> i /\ bs !! j = Some y.
Proof. intros H. apply list_lookup_insert_Some in H as [(? & ? & ?)|[? ?]]; [left|right]; split; congruence. Qed.

Lemma linked_insert bs l i b b' : bs !! i = Some b -> b_next b' = b_next b -> b_prev b' = b_prev b ->
  linked bs l -> linked (<[i := b']> bs) l.
Proof.
  intros Hb Hn Hp [H1 H2]. assert (Hi : (i < length bs)%nat) by (by eapply lookup_lt_Some).
  split; (eapply chain_ext; [|done]); intros x _; unfold nxt, prv; destruct (decide (x = i)) as [->|];
    rewrite ?list_lookup_insert_eq, ?list_lookup_insert_ne, ?Hb by done; cbn; by rewrite ?Hn, ?Hp.
Qed.

(** One buffer changes; its block, if it belongs to the device, is in no other
    buffer. *)
Lemma cache_ok_update bs dk sl sl' l a i b b' lk' :
  cache_ok d bs dk sl l a -> (i < NBUF)%nat -> bs !! i = Some b -> b_next b' = b_next b -> b_prev b' = b_prev b ->
  buf_ok d dk lk' b' ->
  (forall j c, j <> i -> (j < NBUF)%nat -> bs !! j = Some c -> b_dev c = d -> b_dev b' = d -> b_blockno c <> b_blockno b') ->
  relocked i lk' sl sl' -> cache_ok d (<[i := b']> bs) dk sl' l (republish i b b' lk' a).
Proof.
  intros H Hi Hb Hn Hp Hok Hother Hsl.
  assert (Hlen : (i < length bs)%nat) by (rewrite (co_len _ _ _ _ _ _ H); lia).
  assert (Hother' : forall j c, j <> i -> (j < NBUF)%nat -> bs !! j = Some c -> b_refcnt c <> 0 ->
            republish i b b' lk' a !! b_blockno c = a !! b_blockno c).
  { intros j c Hj Hlj Hc Hr. apply republish_other; [exact (co_live_apart _ _ _ _ _ i j b c H Hi Hlj Hj Hb Hc Hr)|].
    destruct (decide (b_refcnt b' = 0)) as [|Hr']; [by left|]. right.
    apply (Hother j); [done..|exact (proj1 (co_live_dev _ _ _ _ _ _ _ H Hlj Hc Hr))|exact (proj1 (buf_ok_live _ _ _ Hok Hr'))]. }
  split.
  - rewrite length_insert. apply H.
  - apply H.
  - eapply linked_insert; [done..|apply H].
  - intros j c Hj [[-> ->]|[Hne Hc]]%insert_cases; rewrite Hsl; [by rewrite decide_True|rewrite decide_False by done].
    by apply (co_buf _ _ _ _ _ _ H).
  - intros j k c c' Hj Hk [[-> ->]|[Hne Hc]]%insert_cases [[-> ->]|[Hne' Hc']]%insert_cases E1 E2 E3; [done| | |].
    + by destruct (Hother k c').
    + by destruct (Hother j c).
    + by apply (co_unique _ _ _ _ _ _ H j k c c').
  - intros j c Hj [[-> ->]|[Hne Hc]]%insert_cases Hr; rewrite Hsl.
    + rewrite decide_True by done. unfold republish. apply Z.eqb_neq in Hr as ->. by rewrite lookup_insert_eq.
    + rewrite decide_False, (Hother' j) by done. by apply (co_live _ _ _ _ _ _ H).
  - assert (Hold : forall n x, a !! n = Some x -> b_refcnt b = 0 \/ n <> b_blockno b -> exists c, (ab_idx x < NBUF)%nat /\
              <[i := b']> bs !! ab_idx x = Some c /\ b_refcnt c <> 0 /\ b_blockno c = n).
    { intros n x Hx Hnb. destruct (co_live_inv _ _ _ _ _ _ H n x Hx) as (c & H1 & H2 & H3 & H4). exists c.
      rewrite list_lookup_insert_ne; [done|]. intros ->. destruct Hnb; congruence. }
    intros n x. unfold republish. destruct (b_refcnt b' =? 0) eqn:E'; destruct (b_refcnt b =? 0) eqn:E; bool_facts;
      intros Hx; try (apply lookup_insert_Some in Hx as [[<- <-]|[_ Hx]];
        [exists b'; cbn; by rewrite list_lookup_insert_eq|]); try (apply lookup_delete_Some in Hx as [? Hx]);
      apply Hold; auto.
  - apply H.
Qed.

Lemma unlink_lookup (bs bs' : list buf) (i : nat) b' : unlink <$> bs' = unlink <$> bs -> bs' !! i = Some b' -> exists b, bs !! i = Some b /\ unlink b' = unlink b.
Proof.
  intros Hu Hb'. apply (f_equal (lookup i)) in Hu. rewrite !list_lookup_fmap, Hb' in Hu. cbn in Hu.
  destruct (bs !! i) as [b|]; [|done]. exists b. split; [done|]. by apply (inj Some) in Hu.
Qed.

Lemma unlink_fields b b' : unlink b' = unlink b -> b_valid b' = b_valid b /\ b_disk b' = b_disk b /\ b_dev b' = b_dev b /\
  b_blockno b' = b_blockno b /\ b_refcnt b' = b_refcnt b /\ b_data b' = b_data b.
Proof. destruct b, b'. intros E. cbn in E. by simplify_eq. Qed.

(** The pointers change, not the buffers. *)
Lemma cache_ok_relink bs bs' dk sl l l' a : cache_ok d bs dk sl l a -> unlink <$> bs' = unlink <$> bs ->
  linked bs' l' -> l' ≡ₚ l -> cache_ok d bs' dk sl l' a.
Proof.
  intros H Hu Hl Hp.
  pose proof (fun i b' => unlink_lookup _ _ i b' Hu) as Hsame. pose proof (fun i b' => unlink_lookup _ _ i b' (eq_sym Hu)) as Hsame'.
  split.
  - apply (f_equal length) in Hu. rewrite !length_fmap in Hu. rewrite Hu. apply H.
  - rewrite Hp. apply H.
  - done.
  - intros i b' Hi (b & Hb & (E1 & E2 & E3 & E4 & E5 & E6)%unlink_fields)%Hsame. unfold buf_ok. rewrite E1, E2, E3, E4, E5, E6.
    by apply (co_buf _ _ _ _ _ _ H).
  - intros i j b' c' Hi Hj (b & Hb & (_ & _ & -> & -> & _)%unlink_fields)%Hsame (c & Hc & (_ & _ & -> & -> & _)%unlink_fields)%Hsame.
    by apply (co_unique _ _ _ _ _ _ H).
  - intros i b' Hi (b & Hb & (_ & _ & _ & -> & -> & ->)%unlink_fields)%Hsame. by apply (co_live _ _ _ _ _ _ H).
  - intros n x (b & H1 & (b' & Hb' & (_ & _ & _ & E1 & E2 & _)%unlink_fields)%Hsame' & H3)%(co_live_inv _ _ _ _ _ _ H). exists b'.
    by rewrite <- E1, <- E2.
  - apply H.
Qed.

(** A block in use is written back. *)
Lemma cache_ok_write bs dk sl l a i b : cache_ok d bs dk sl l a -> (i < NBUF)%nat -> bs !! i = Some b -> b_refcnt b <> 0 ->
  cache_ok d bs (<[b_blockno b := b_data b]> dk) sl l a.
Proof.
  intros H Hi Hb Hr. destruct H as [H1 H2 H3 H4 H5 H6 H7 H8]. split; try done; cycle 1.
  { intros n. unfold disk_block. rewrite lookup_insert. case_decide; [|apply H8]. apply (H4 i b Hi Hb). }
  intros j c Hj Hc. destruct (H4 j c Hj Hc) as (K1 & K2 & K3 & K4 & K5 & K6). split_and!; try done; try apply K3; try apply K4.
  intros Hz. destruct (K6 Hz) as [K7 K8]. split; [done|]. intros Hdev. rewrite (K8 Hdev). unfold disk_block.
  rewrite lookup_insert_ne; [done|]. intros E. destruct (decide (j = i)) as [->|Hne]; [congruence|]. apply Hne.
  apply (H5 j i c b); try done. exact (proj1 (buf_ok_live _ _ _ (H4 i b Hi Hb) Hr)).
Qed.

(** When not every buffer is in use, some buffer has no reference. *)
Lemma cache_ok_free bs dk sl l a : cache_ok d bs dk sl l a -> (size a < NBUF)%nat ->
  exists i b, (i < NBUF)%nat /\ bs !! i = Some b /\ b_refcnt b = 0.
Proof.
  intros H Hsz. set (P := fun i => exists b, bs !! i = Some b /\ b_refcnt b = 0).
  assert (forall i, Decision (P i)) as HdP.
  { intros i. unfold P. destruct (bs !! i) as [b|]; [|right; by intros (? & ? & _)].
    destruct (decide (b_refcnt b = 0)); [left; eauto|right; by intros (? & [= <-] & ?)]. }
  destruct (decide (Exists P (seq 0 NBUF))) as [(i & Hi & b & Hb & Hr)%list.Exists_exists|Hno].
  { exists i, b. apply elem_of_seq in Hi. split_and!; [lia|done|done]. }
  exfalso. assert (Hall : forall i, (i < NBUF)%nat -> exists b, bs !! i = Some b /\ b_refcnt b <> 0).
  { intros i Hi. destruct (lookup_lt_is_Some_2 bs i) as [b Hb]; [rewrite (co_len _ _ _ _ _ _ H); lia|]. exists b. split; [done|].
    intros Hr. apply Hno, list.Exists_exists. exists i. split; [apply elem_of_seq; lia|]. by exists b. }
  set (blk := fun i => default 0 (b_blockno <$> bs !! i)).
  assert (Hsub : list_to_set (blk <$> seq 0 NBUF) ⊆ dom a).
  { intros n. rewrite elem_of_list_to_set, list_elem_of_fmap. intros (i & -> & Hi). apply elem_of_seq in Hi.
    destruct (Hall i) as (b & Hb & Hr); [lia|]. apply elem_of_dom. unfold blk. rewrite Hb. cbn.
    rewrite (co_live _ _ _ _ _ _ H i b) by (done || lia). by eexists. }
  apply subseteq_size in Hsub. rewrite size_dom, size_list_to_set, length_fmap, length_seq in Hsub; [lia|].
  apply NoDup_fmap_2_strong; [|apply NoDup_seq]. intros i j Hi Hj E. apply elem_of_seq in Hi, Hj.
  assert (i < NBUF)%nat as Hi' by lia. assert (j < NBUF)%nat as Hj' by lia.
  destruct (Hall i Hi') as (b & Hb & Hr). destruct (Hall j Hj') as (c & Hc & Hr').
  unfold blk in E. rewrite Hb, Hc in E. cbn in E.
  destruct (co_live_dev _ _ _ _ _ _ _ H Hi' Hb Hr) as [Ed _]. destruct (co_live_dev _ _ _ _ _ _ _ H Hj' Hc Hr') as [Ed' _].
  apply (co_unique _ _ _ _ _ _ H i j b c); done.
Qed.

End Invariant.

(** When [NBUF] blocks are in use, every buffer has a reference. *)
Lemma cache_ok_full d bs dk sl l a : cache_ok d bs dk sl l a -> size a = NBUF ->
  forall k b, (k < NBUF)%nat -> bs !! k = Some b -> b_refcnt b <> 0.
Proof.
  intros H Hsz k b Hk Hb Hz. set (L := (fun p : Z * abuf => ab_idx (snd p)) <$> map_to_list a).
  assert (Hidx : forall n x, (n, x) ∈ map_to_list a -> exists c, (ab_idx x < NBUF)%nat /\ bs !! ab_idx x = Some c /\ b_refcnt c <> 0 /\ b_blockno c = n).
  { intros n x Hx. apply elem_of_map_to_list in Hx. exact (co_live_inv _ _ _ _ _ _ H n x Hx). }
  assert (Hnd : NoDup (k :: L)).
  { apply list.NoDup_cons. split.
    - intros Hin. apply list_elem_of_fmap in Hin as ([n x] & Ek & Hx). destruct (Hidx n x Hx) as (c & _ & Hc & Hr & _). cbn in Ek. congruence.
    - apply NoDup_fmap_2_strong; [|apply NoDup_map_to_list]. intros [n x] [m y] Hx Hy E. cbn in E.
      destruct (Hidx n x Hx) as (c & _ & Hc & _ & En). destruct (Hidx m y Hy) as (c' & _ & Hc' & _ & Em).
      assert (n = m) as -> by congruence. apply elem_of_map_to_list in Hx, Hy. congruence. }
  assert (Hsub : k :: L ⊆+ seq 0 NBUF).
  { apply NoDup_submseteq; [done|]. intros j [->|Hj]%elem_of_cons; apply elem_of_seq; [lia|].
    apply list_elem_of_fmap in Hj as ([n x] & -> & Hx). destruct (Hidx n x Hx) as (c & Hlt & _). cbn. lia. }
  apply submseteq_length in Hsub. unfold L in Hsub. cbn [length] in Hsub. rewrite length_fmap, length_map_to_list, Hsz, length_seq in Hsub. lia.
Qed.

(** ** The state below the cache *)

Definition vdisk0 : vdisk := dv_vdisk devst0.

(** Up to scheduling noise and the driver's own data. *)
Definition dnorm (s : kst) : kst := set_k_vdisk vdisk0 (norm s).

Definition is_buf_lock (l : sleepid) : bool := match l with SL_buf _ => true | _ => false end.

(** What the cache neither reads nor changes. *)
Definition outside (s : kst) : kst :=
  set_k_bufs [] (set_k_disk ∅ (set_k_dwrites []
    (set_k_sleeplocks (filter (fun p => is_buf_lock (fst p) = false) (k_sleeplocks s)) (dnorm s)))).

Lemma outside_norm s s' : norm s = norm s' -> outside s = outside s'.
Proof.
  intros H. unfold outside, dnorm. destruct (norm_fields _ _ H) as (_ & _ & _ & -> & _). by rewrite H.
Qed.

Lemma outside_calm i s s' : outside s = outside s' -> calm i s -> calm i s'.
Proof.
  intros H Hc. apply calm_norm. apply calm_norm in Hc. unfold calm, intr_ok in *.
  change (k_cpu (norm s)) with (k_cpu (outside s)) in Hc. change (k_sie (norm s)) with (k_sie (outside s)) in Hc.
  change (k_locks (norm s)) with (k_locks (outside s)) in Hc. change (k_procs (norm s)) with (k_procs (outside s)) in Hc.
  rewrite H in Hc. exact Hc.
Qed.

Lemma outside_cur_pid s s' : outside s = outside s' -> cur_pid s = cur_pid s'.
Proof.
  intros H. rewrite <- (cur_pid_norm s), <- (cur_pid_norm s').
  change (cur_pid (norm s)) with (cur_pid (outside s)). by rewrite H.
Qed.

Lemma outside_lock j lk bs s s' :
  norm s' = set_k_sleeplocks (<[SL_buf j := lk]> (k_sleeplocks s)) (set_k_bufs bs (norm s)) -> outside s' = outside s.
Proof.
  intros H. unfold outside, dnorm. rewrite H. change (k_sleeplocks s') with (k_sleeplocks (norm s')). rewrite H. cbn.
  rewrite map_filter_insert_False by done. by rewrite map_filter_delete_not by done.
Qed.

Lemma set_k_bufs_id s : set_k_bufs (k_bufs s) s = s.
Proof. by destruct s as [? ? ? ? ? ? ? ? ? [] ?]. Qed.

Lemma k_bufs_set B s : k_bufs (set_k_bufs B s) = B.
Proof. done. Qed.
Lemma k_disk_set B s : k_disk (set_k_bufs B s) = k_disk s.
Proof. done. Qed.
Lemma k_dwrites_set B s : k_dwrites (set_k_bufs B s) = k_dwrites s.
Proof. done. Qed.
Lemma k_sleeplocks_set B s : k_sleeplocks (set_k_bufs B s) = k_sleeplocks s.
Proof. done. Qed.
Lemma k_vdisk_set B s : k_vdisk (set_k_bufs B s) = k_vdisk s.
Proof. done. Qed.
Lemma outside_set B s : outside (set_k_bufs B s) = outside s.
Proof. done. Qed.

Lemma alter_insert {A} (f : A -> A) (i : nat) (xs : list A) x : xs !! i = Some x -> alter f i xs = <[i := f x]> xs.
Proof.
  intros Hx. apply list_eq. intros j. destruct (decide (i = j)) as [->|Hne].
  - rewrite list_lookup_alter_eq, Hx, list_lookup_insert_eq; [done|by eapply lookup_lt_Some].
  - by rewrite list_lookup_alter_ne, list_lookup_insert_ne.
Qed.

Lemma alter_alter {A} (f g : A -> A) (i : nat) (xs : list A) : alter f i (alter g i xs) = alter (f ∘ g) i xs.
Proof.
  apply list_eq. intros j. destruct (decide (i = j)) as [->|Hne].
  - rewrite !list_lookup_alter_eq. by destruct (xs !! j).
  - by rewrite !list_lookup_alter_ne.
Qed.

(** Entering a critical section of [L_bcache], working on the buffers, leaving. *)
Lemma wp_acquire_bcache i s e Q : calm i s ->
  Q tt (World (set_k_bufs (k_bufs s) (acquired L_bcache s)) e) -> wp (acquire L_bcache) Q (World s e).
Proof.
  intros Hc HQ. apply wp_acquire; [by eapply calm_lock_free|]. cbn [st env].
  change (k_bufs s) with (k_bufs (acquired L_bcache s)) in HQ. by rewrite set_k_bufs_id in HQ.
Qed.

Lemma wp_release_bcache i bs s e Q : calm i s -> (forall s', norm s' = set_k_bufs bs (norm s) -> Q tt (World s' e)) ->
  wp (release L_bcache) Q (World (set_k_bufs bs (acquired L_bcache s)) e).
Proof.
  intros Hc HQ. apply (wp_release_calm i L_bcache (set_k_bufs bs)); [inert_tac|done|]. apply HQ.
  by rewrite <- (norm_settle s).
Qed.

(** The buffer a miss recycles: [i] is the least recently used one that is not
    referenced. *)
Definition victim (bs : list buf) (l : list nat) (i : nat) : Prop :=
  exists l1 l2, l = l1 ++ i :: l2 /\ (exists b, bs !! i = Some b /\ b_refcnt b = 0) /\
    forall k b, k ∈ l2 -> bs !! k = Some b -> b_refcnt b <> 0.

(** ** The driver *)

(** What the cache relies on: with the driver idle and the environment ready to
    serve [n + 1] transfers, a transfer of buffer [j] comes to an end, has moved
    exactly the data of its block, and leaves the driver idle and the environment
    ready for [n] more.  Sector numbers are computed in 32 bits, so block numbers
    are below 2^31. *)
Class DiskDriverOk {D : DiskDriver} := {
  io_ready : nat -> nat -> list (kst -> kst) -> Prop;
  disk_idle : vdisk -> Prop;
  io_ready_less : forall i n e, io_ready i (S n) e -> io_ready i n e;
  rw_read : forall i n j b w (Q : unit -> world kst -> Prop),
    calm i (st w) -> disk_idle (k_vdisk (st w)) -> io_ready i (S n) (env w) ->
    (j < NBUF)%nat -> k_bufs (st w) !! j = Some b -> b_disk b = 0 -> 0 <= b_blockno b < 2147483648 ->
    (forall s' e', disk_idle (k_vdisk s') -> io_ready i n e' ->
       dnorm s' = set_k_bufs (<[j := set_b_data (disk_block (k_disk (st w)) (b_blockno b)) b]> (k_bufs (st w))) (dnorm (st w)) ->
       Q tt (World s' e')) ->
    wp (virtio_disk_rw j false) Q w;
  rw_write : forall i n j b w (Q : unit -> world kst -> Prop),
    calm i (st w) -> disk_idle (k_vdisk (st w)) -> io_ready i (S n) (env w) ->
    (j < NBUF)%nat -> k_bufs (st w) !! j = Some b -> b_disk b = 0 -> 0 <= b_blockno b < 2147483648 ->
    (forall s' e', disk_idle (k_vdisk s') -> io_ready i n e' ->
       dnorm s' = set_k_disk (<[b_blockno b := b_data b]> (k_disk (st w)))
                    (set_k_dwrites ((b_blockno b, b_data b) :: k_dwrites (st w)) (dnorm (st w))) ->
       Q tt (World s' e')) ->
    wp (virtio_disk_rw j true) Q w
}.

Section Operations.
Context (d : Z) (Hd : d <> 0).

Lemma co_traverse bs dk sl l a : cache_ok d bs dk sl l a -> Forall (fun x => x < length bs /\ x <> HEAD)%nat l.
Proof.
  intros H. apply list.Forall_forall. intros x Hx. apply (co_index _ _ _ _ _ _ _ H) in Hx.
  rewrite (co_len _ _ _ _ _ _ H). unfold HEAD. lia.
Qed.

Lemma co_head_range bs dk sl l a : cache_ok d bs dk sl l a -> (HEAD < length bs)%nat.
Proof. intros H. rewrite (co_len _ _ _ _ _ _ H). unfold HEAD. lia. Qed.

Lemma wp_bget_finish i j bs s e Q : calm i s -> k_sleeplocks s !! SL_buf j = None ->
  (forall s', norm s' = set_k_sleeplocks (<[SL_buf j := mksleep 1 (cur_pid s)]> (k_sleeplocks s)) (set_k_bufs bs (norm s)) ->
     Q j (World s' e)) ->
  wp (release L_bcache;; acquiresleep (SL_buf j);; mret j) Q (World (set_k_bufs bs (acquired L_bcache s)) e).
Proof.
  intros Hc Hl HQ. wp_step. apply (wp_release_bcache i); [done|]. intros s1 Hs1.
  destruct (norm_fields s1 (set_k_bufs bs s)) as (_ & _ & _ & Esl & _); [by rewrite Hs1|].
  wp_step. apply (wp_acquiresleep_calm i); cbn [st].
  - eapply calm_eq; [exact Hs1|]. by apply (calm_norm i s).
  - rewrite Esl. exact Hl.
  - intros s2 Hs2. wp_step. apply HQ. rewrite Hs2, Hs1, Esl, <- (cur_pid_norm s1), Hs1. by rewrite <- (cur_pid_norm s).
Qed.

Lemma wp_bget n i l a dk Q w : calm i (st w) -> cache_ok d (k_bufs (st w)) dk (k_sleeplocks (st w)) l a ->
  match a !! n with Some x => ab_lock x = None /\ ab_refs x + 1 < 4294967296 | None => (size a < NBUF)%nat end ->
  (forall j b b' s', (j < NBUF)%nat -> k_bufs (st w) !! j = Some b ->
     (b_dev b = d /\ b_blockno b = n /\ b' = set_b_refcnt (b_refcnt b + 1) b) \/
     ((forall k c, (k < NBUF)%nat -> k_bufs (st w) !! k = Some c -> b_dev c = d -> b_blockno c <> n) /\
      victim (k_bufs (st w)) l j /\ b' = set_b_refcnt 1 (set_b_valid 0 (set_b_blockno n (set_b_dev d b)))) ->
     norm s' = set_k_sleeplocks (<[SL_buf j := mksleep 1 (cur_pid (st w))]> (k_sleeplocks (st w)))
                 (set_k_bufs (<[j := b']> (k_bufs (st w))) (norm (st w))) ->
     Q j (World s' (env w))) ->
  wp (bget d n) Q w.
Proof.
  destruct w as [s e]. cbn [st env]. intros Hc H Hpre HQ. set (bs := k_bufs s) in *.
  pose proof (co_traverse _ _ _ _ _ H) as Htr. pose proof (co_head_range _ _ _ _ _ H) as Hh.
  destruct (co_linked _ _ _ _ _ _ H) as [Hnx Hpv].
  assert (Hlen : length l = NBUF) by (rewrite (co_perm _ _ _ _ _ _ H); apply length_seq).
  assert (Hlock : forall j b, (j < NBUF)%nat -> bs !! j = Some b -> b_dev b = d -> b_blockno b = n ->
            k_sleeplocks s !! SL_buf j = None /\ 0 <= b_refcnt b < 4294967295).
  { intros j b Hj Hb Ed En. destruct (co_buf _ _ _ _ _ _ H j b Hj Hb) as (_ & _ & Hr & _ & _ & Hz).
    destruct (decide (b_refcnt b = 0)) as [E|E]; [split; [by apply Hz|lia]|].
    pose proof (co_live _ _ _ _ _ _ H j b Hj Hb E) as Hx. rewrite En in Hx. rewrite Hx in Hpre. cbn in Hpre. split; [apply Hpre|lia]. }
  unfold bget. wp_step. apply (wp_acquire_bcache i); [done|]. fold bs.
  wp_step. apply wp_buf_read; [done|]. intros b0 _ -> _.
  wp_step. apply wp_bget_find with l; [done|done|lia|]. intros [j|] Hr.
  - destruct Hr as (Hj%(co_index _ _ _ _ _ _ _ H) & b & Hb & Ed & En). destruct (Hlock j b Hj Hb Ed En) as [Hl Hrc].
    wp_step. apply wp_modify_buf. rewrite (alter_insert _ _ _ _ Hb). rewrite u32_small by lia.
    apply (wp_bget_finish i); [done|done|]. intros s' Hs'. apply (HQ j b (set_b_refcnt (b_refcnt b + 1) b)); auto.
  - wp_step. apply wp_buf_read; [done|]. intros b1 _ _ ->.
    assert (Htr' : Forall (fun x => x < length bs /\ x <> HEAD)%nat (rev l)) by (by rewrite <- (Permutation_rev l)).
    wp_step. apply wp_bget_lru with (rev l); [done|done|rewrite length_rev; lia|]. intros [j|] Hlru.
    + destruct Hlru as (r1 & r2 & El & (b & Hb & Hz) & Hused).
      assert (Hv : victim bs l j).
      { exists (rev r2), (rev r1). split_and!; [|by exists b|].
        - apply (f_equal (@rev nat)) in El. rewrite rev_involutive, rev_app_distr in El. cbn in El. by rewrite <- app_assoc in El.
        - intros k c Hk. rewrite elem_of_rev in Hk. by apply Hused. }
      assert (Hj : (j < NBUF)%nat).
      { apply (co_index _ _ _ _ _ _ _ H). destruct Hv as (l1 & l2 & -> & _). apply elem_of_app. right. by left. }
      do 4 (wp_step; apply wp_modify_buf). rewrite !alter_alter, (alter_insert _ _ _ _ Hb).
      apply (wp_bget_finish i); [done|by apply (co_buf _ _ _ _ _ _ H j b Hj Hb)|]. intros s' Hs'.
      eapply (HQ j b); [done|done| |exact Hs']. right. split; [|done].
      intros k c Hk Hck Ed. apply (Hr k c); [by apply (co_index _ _ _ _ _ _ _ H)|done|done].
    + exfalso. assert (forall k b, (k < NBUF)%nat -> bs !! k = Some b -> b_refcnt b <> 0) as Hall.
      { intros k b Hk. apply Hlru. rewrite elem_of_rev. by apply (co_index _ _ _ _ _ _ _ H). }
      destruct (a !! n) as [x|] eqn:Ex.
      * destruct (co_live_inv _ _ _ _ _ _ H n x Ex) as (b & Hj & Hb & Hrc & En).
        destruct (Hr (ab_idx x) b); [by apply (co_index _ _ _ _ _ _ _ H)|done|exact (proj1 (co_live_dev _ _ _ _ _ _ _ _ H Hj Hb Hrc))|done].
      * destruct (cache_ok_free _ _ _ _ _ _ H Hpre) as (k & b & Hk & Hb & Hz). by apply (Hall k b).
Qed.

Context `{DiskDriverOk}.

(** The buffers represent [a], in the order [l] of last use. *)
Definition cache_rel (s : kst) (l : list nat) (a : gmap Z abuf) : Prop :=
  cache_ok d (k_bufs s) (k_disk s) (k_sleeplocks s) l a /\ disk_idle (k_vdisk s).

Definition refs (a : gmap Z abuf) (n : Z) : Z := match a !! n with Some x => ab_refs x | None => 0 end.

(** Block [n] can be taken: not locked, or not in use with a buffer to spare. *)
Definition available (a : gmap Z abuf) (n : Z) : Prop :=
  match a !! n with Some x => ab_lock x = None /\ ab_refs x + 1 < 4294967296 | None => (size a < NBUF)%nat end.

(** The state outside the cache is the same. *)
Definition quiet (s s' : kst) : Prop := outside s' = outside s /\ k_disk s' = k_disk s /\ k_dwrites s' = k_dwrites s.

Lemma dnorm_fields s t : dnorm s = dnorm t ->
  k_bufs s = k_bufs t /\ k_disk s = k_disk t /\ k_dwrites s = k_dwrites t /\ k_sleeplocks s = k_sleeplocks t /\ outside s = outside t.
Proof.
  intros E. split_and!; [exact (f_equal k_bufs E)|exact (f_equal k_disk E)|exact (f_equal k_dwrites E)|exact (f_equal k_sleeplocks E)|].
  unfold outside. change (k_sleeplocks s) with (k_sleeplocks (dnorm s)). change (k_sleeplocks t) with (k_sleeplocks (dnorm t)). by rewrite E.
Qed.

Lemma dnorm_bufs B s s' : dnorm s' = set_k_bufs B (dnorm s) ->
  k_bufs s' = B /\ k_sleeplocks s' = k_sleeplocks s /\ quiet s s'.
Proof. intros E. by destruct (dnorm_fields s' (set_k_bufs B s) E) as (? & ? & ? & ? & ?). Qed.

Lemma co_cached bs dk sl l a j b : cache_ok d bs dk sl l a -> (j < NBUF)%nat -> bs !! j = Some b -> b_dev b = d ->
  content a dk (b_blockno b) = b_data b /\ refs a (b_blockno b) = b_refcnt b /\ (forall x, a !! b_blockno b = Some x -> j = ab_idx x).
Proof.
  intros Hok Hj Hb Ed. unfold content, refs. destruct (decide (b_refcnt b = 0)) as [E|E].
  - assert (Hnone : a !! b_blockno b = None).
    { destruct (a !! b_blockno b) as [x|] eqn:Ex; [|done]. destruct (co_live_inv _ _ _ _ _ _ Hok _ x Ex) as (c & H1 & H2 & H3 & H4).
      destruct (co_live_dev _ _ _ _ _ _ _ _ Hok H1 H2 H3) as [Ed' _].
      assert (ab_idx x = j) by (by apply (co_unique _ _ _ _ _ _ Hok (ab_idx x) j c b)). congruence. }
    rewrite Hnone. destruct (co_buf _ _ _ _ _ _ Hok j b Hj Hb) as (_ & _ & _ & _ & _ & Hz).
    split_and!; [symmetry; by apply Hz|done|done].
  - rewrite (co_live _ _ _ _ _ _ Hok j b Hj Hb E). split_and!; [done|done|]. by intros x [= <-].
Qed.

Lemma co_uncached bs dk sl l a n : cache_ok d bs dk sl l a ->
  (forall k c, (k < NBUF)%nat -> bs !! k = Some c -> b_dev c = d -> b_blockno c <> n) -> a !! n = None.
Proof.
  intros Hok Hno. destruct (a !! n) as [x|] eqn:Ex; [|done]. destruct (co_live_inv _ _ _ _ _ _ Hok _ x Ex) as (c & H1 & H2 & H3 & H4).
  destruct (co_live_dev _ _ _ _ _ _ _ _ Hok H1 H2 H3) as [Ed' _]. by destruct (Hno (ab_idx x) c).
Qed.

Lemma relocked_insert j lk sl : relocked j (Some lk) sl (<[SL_buf j := lk]> sl).
Proof.
  intros k. case_decide as E; [subst; apply lookup_insert_eq|]. rewrite lookup_insert_ne; [done|]. congruence.
Qed.
Lemma relocked_delete j sl : relocked j None sl (delete (SL_buf j) sl).
Proof.
  intros k. case_decide as E; [subst; apply lookup_delete_eq|]. rewrite lookup_delete_ne; [done|]. congruence.
Qed.
Lemma relocked_same j sl : relocked j (sl !! SL_buf j) sl sl.
Proof. intros k. by case_decide; subst. Qed.

(** A cached block is taken. *)
Lemma cache_ok_hit bs dk sl l a j b lk : cache_ok d bs dk sl l a -> (j < NBUF)%nat -> bs !! j = Some b -> b_dev b = d ->
  b_refcnt b + 1 < 4294967296 ->
  cache_ok d (<[j := set_b_refcnt (b_refcnt b + 1) b]> bs) dk (<[SL_buf j := lk]> sl) l
    (<[b_blockno b := mkab j (content a dk (b_blockno b)) (refs a (b_blockno b) + 1) (Some lk)]> a).
Proof.
  intros Hok Hj Hb Ed Hr. destruct (co_cached _ _ _ _ _ _ _ Hok Hj Hb Ed) as (-> & -> & _).
  destruct (co_buf _ _ _ _ _ _ Hok j b Hj Hb) as (K1 & K2 & K3 & K4 & K5 & K6).
  set (b' := set_b_refcnt (b_refcnt b + 1) b).
  assert (Ha : republish j b b' (Some lk) a = <[b_blockno b := mkab j (b_data b) (b_refcnt b + 1) (Some lk)]> a).
  { unfold republish. cbn. destruct (b_refcnt b + 1 =? 0) eqn:E; bool_facts; [lia|].
    destruct (b_refcnt b =? 0); [done|]. by rewrite insert_delete_eq. }
  rewrite <- Ha. apply cache_ok_update with sl; try done.
  - split_and!; cbn; try done; try lia.
  - intros k c Hk Hkn Hc E1 E2 E3. apply Hk. by apply (co_unique _ _ _ _ _ _ Hok k j c b).
  - apply relocked_insert.
Qed.

(** An unreferenced buffer is given to a block that is not cached. *)
Lemma cache_ok_miss bs dk sl l a j b n lk : cache_ok d bs dk sl l a -> (j < NBUF)%nat -> bs !! j = Some b -> b_refcnt b = 0 ->
  0 <= n < 2147483648 ->
  (forall k c, (k < NBUF)%nat -> bs !! k = Some c -> b_dev c = d -> b_blockno c <> n) ->
  cache_ok d (<[j := set_b_valid 1 (set_b_data (disk_block dk n) (set_b_refcnt 1 (set_b_valid 0 (set_b_blockno n (set_b_dev d b)))))]> bs)
    dk (<[SL_buf j := lk]> sl) l (<[n := mkab j (content a dk n) (refs a n + 1) (Some lk)]> a).
Proof.
  intros Hok Hj Hb Hz Hn Hno. pose proof (co_disk _ _ _ _ _ _ Hok n) as Hlen. unfold content, refs. rewrite (co_uncached _ _ _ _ _ _ Hok Hno).
  destruct (co_buf _ _ _ _ _ _ Hok j b Hj Hb) as (K1 & K2 & K3 & K4 & K5 & K6).
  set (b' := set_b_valid 1 _).
  assert (Ha : republish j b b' (Some lk) a = <[n := mkab j (disk_block dk n) (0 + 1) (Some lk)]> a).
  { unfold republish. by rewrite Hz. }
  rewrite <- Ha. apply cache_ok_update with sl; try done.
  - split_and!; cbn; try done; try lia.
  - intros k c _ Hk Hc E1 _. by apply (Hno k c).
  - apply relocked_insert.
Qed.

Lemma wp_buf_lookup j b (Q : buf -> world kst -> Prop) w : k_bufs (st w) !! j = Some b -> Q b w -> wp (buf_at j) Q w.
Proof. intros Hb HQ. unfold buf_at. do 2 wp_step. by apply wp_nth with b. Qed.

Lemma locked_fields j lk B s s1 :
  norm s1 = set_k_sleeplocks (<[SL_buf j := lk]> (k_sleeplocks s)) (set_k_bufs B (norm s)) ->
  k_bufs s1 = B /\ k_sleeplocks s1 = <[SL_buf j := lk]> (k_sleeplocks s) /\ k_vdisk s1 = k_vdisk s /\ quiet s s1.
Proof.
  intros E. split_and!; [exact (f_equal k_bufs E)|exact (f_equal k_sleeplocks E)|exact (f_equal k_vdisk E)|].
  split_and!; [exact (outside_lock _ _ _ _ _ E)|exact (f_equal k_disk E)|exact (f_equal k_dwrites E)].
Qed.

Lemma wp_bread n i m l a Q w : calm i (st w) -> cache_rel (st w) l a -> io_ready i (S m) (env w) ->
  0 <= n < 2147483648 -> available a n ->
  (forall j s' e', cache_rel s' l (<[n := mkab j (content a (k_disk (st w)) n) (refs a n + 1) (Some (mksleep 1 (cur_pid (st w))))]> a) ->
     quiet (st w) s' -> io_ready i m e' -> (forall x, a !! n = Some x -> j = ab_idx x) -> Q j (World s' e')) ->
  wp (bread d n) Q w.
Proof.
  destruct w as [s e]. cbn [st env]. intros Hc [Hok Hidle] Hio Hn Hav HQ. unfold bread. wp_step.
  apply (wp_bget n i l a (k_disk s)); [done..|]. cbn [st env]. intros j b b' s1 Hj Hb Hb' Hs1.
  destruct (locked_fields _ _ _ _ _ Hs1) as (Ebs & Esl & Evd & Eout & Edk & Edw).
  assert (Hb1 : k_bufs s1 !! j = Some b').
  { rewrite Ebs. apply list_lookup_insert_eq. by eapply lookup_lt_Some. }
  destruct (co_buf _ _ _ _ _ _ Hok j b Hj Hb) as (K1 & K2 & K3 & K4 & K5 & K6).
  wp_step. apply (wp_buf_lookup j b'); [done|]. destruct Hb' as [(Ed & En & ->)|(Hno & Hv & ->)].
  - cbn [b_valid set_b_refcnt]. destruct K5 as [[_ Hval]|[? _]]; [|congruence]. apply Z.eqb_neq in Hval as ->.
    unfold when. do 2 wp_step. destruct (co_cached _ _ _ _ _ _ _ Hok Hj Hb Ed) as (_ & Er & Hx). rewrite En in Hx, Er.
    apply HQ; [|done|by apply io_ready_less|done]. split; [|by rewrite Evd].
    rewrite Ebs, Esl, Edk. rewrite <- En at 1 2 3. apply cache_ok_hit; try done. rewrite <- Er. unfold refs.
    unfold available in Hav. destruct (a !! n); [apply Hav|lia].
  - cbn [b_valid set_b_refcnt set_b_valid]. rewrite Z.eqb_refl. unfold when. wp_step. wp_step.
    assert (Hcalm1 : calm i s1) by (by eapply outside_calm; [symmetry; exact Eout|]).
    assert (Hz : b_refcnt b = 0).
    { destruct Hv as (l1 & l2 & _ & (c & Hcj & Hz) & _). rewrite Hb in Hcj. by simplify_eq. }
    eapply (rw_read i m j); [done|by cbn; rewrite Evd|done|done|exact Hb1|done|done|]. cbn [st env].
    intros s2 e2 Hidle2 Hio2 Hs2. unfold modify_buf. do 2 wp_step. cbn [st env].
    match type of Hs2 with _ = set_k_bufs ?B _ => set (B2 := B) in Hs2 end.
    destruct (dnorm_bufs _ _ _ Hs2) as (Fbs & Fsl & Fout & Fdk & Fdw).
    apply HQ; [|unfold quiet; rewrite outside_set, k_disk_set, k_dwrites_set; split_and!|done|by rewrite (co_uncached _ _ _ _ _ _ Hok Hno)].
    + split; [|done]. rewrite k_bufs_set, k_disk_set, k_sleeplocks_set, Fbs, Fdk, Fsl, Edk, Esl.
      unfold B2.
      rewrite (alter_insert _ _ _ _ (list_lookup_insert_eq _ _ _ (lookup_lt_Some _ _ _ Hb1))), list_insert_insert_eq.
      rewrite Ebs, list_insert_insert_eq. rewrite Edk. by apply cache_ok_miss.
    + by rewrite Fout.
    + by rewrite Fdk.
    + by rewrite Fdw.
Qed.

(** The buffer of a block in use. *)
Lemma co_entry bs dk sl l a n x : cache_ok d bs dk sl l a -> a !! n = Some x -> exists b,
  (ab_idx x < NBUF)%nat /\ bs !! ab_idx x = Some b /\ b_dev b = d /\ b_valid b <> 0 /\ b_blockno b = n /\ b_data b = ab_data x /\
  b_refcnt b = ab_refs x /\ 0 < ab_refs x < 4294967296 /\ sl !! SL_buf (ab_idx x) = ab_lock x /\
  b_disk b = 0 /\ length (b_data b) = BSIZE /\ 0 <= n < 2147483648.
Proof.
  intros Hok Hx. destruct (co_live_inv _ _ _ _ _ _ Hok n x Hx) as (b & Hj & Hb & Hr & En). exists b.
  destruct (co_live_dev _ _ _ _ _ _ _ _ Hok Hj Hb Hr) as [Ed Hv].
  destruct (co_buf _ _ _ _ _ _ Hok _ b Hj Hb) as (K1 & K2 & K3 & K4 & _ & _).
  pose proof (co_live _ _ _ _ _ _ Hok _ b Hj Hb Hr) as Hl. rewrite En, Hx in Hl.
  destruct x as [j v r lk]. cbn in *. injection Hl as -> -> ->. split_and!; done || lia.
Qed.

(** A block in use changes: contents, references, lock. *)
Lemma cache_ok_entry bs dk sl sl' l a n x b v r lk : cache_ok d bs dk sl l a -> a !! n = Some x -> bs !! ab_idx x = Some b ->
  length v = BSIZE -> 0 < r < 4294967296 -> relocked (ab_idx x) lk sl sl' ->
  cache_ok d (<[ab_idx x := set_b_refcnt r (set_b_data v b)]> bs) dk sl' l (<[n := mkab (ab_idx x) v r lk]> a).
Proof.
  intros Hok Hx Hb Hv Hr Hsl. destruct (co_entry _ _ _ _ _ _ _ Hok Hx) as (b0 & Hj & Hb0 & Ed & Hval & En & _ & Erc & Hrx & Hlk & Hdisk & _ & Hn).
  rewrite Hb in Hb0. injection Hb0 as <-. set (b' := set_b_refcnt r (set_b_data v b)).
  assert (Ha : republish (ab_idx x) b b' lk a = <[n := mkab (ab_idx x) v r lk]> a).
  { unfold republish. cbn. rewrite Erc, En. destruct (r =? 0) eqn:E1; [bool_facts; lia|].
    destruct (ab_refs x =? 0) eqn:E2; [bool_facts; lia|]. by rewrite insert_delete_eq. }
  rewrite <- Ha. apply cache_ok_update with sl; try done.
  - split_and!; cbn; try done; lia.
  - intros k c Hk Hkn Hc E1 E2 E3. apply Hk. by apply (co_unique _ _ _ _ _ _ Hok k (ab_idx x) c b).
Qed.

(** The last reference to a clean block is dropped. *)
Lemma cache_ok_drop bs dk sl sl' l a n x b : cache_ok d bs dk sl l a -> a !! n = Some x -> bs !! ab_idx x = Some b ->
  ab_data x = disk_block dk n -> relocked (ab_idx x) None sl sl' ->
  cache_ok d (<[ab_idx x := set_b_refcnt 0 b]> bs) dk sl' l (delete n a).
Proof.
  intros Hok Hx Hb Hcl Hsl. destruct (co_entry _ _ _ _ _ _ _ Hok Hx) as (b0 & Hj & Hb0 & Ed & Hval & En & Edata & Erc & Hrx & Hlk & Hdisk & Hlen & Hn).
  rewrite Hb in Hb0. injection Hb0 as <-. set (b' := set_b_refcnt 0 b).
  assert (Ha : republish (ab_idx x) b b' None a = delete n a).
  { unfold republish. cbn. rewrite Erc, En. destruct (ab_refs x =? 0) eqn:E2; [bool_facts; lia|done]. }
  rewrite <- Ha. apply cache_ok_update with sl; try done.
  - split_and!; cbn; try done; try lia; intros _; try split; try done; congruence.
  - intros k c Hk Hkn Hc E1 E2 E3. apply Hk. by apply (co_unique _ _ _ _ _ _ Hok k (ab_idx x) c b).
Qed.

Lemma norm_bufs B s s' : norm s' = set_k_bufs B (norm s) ->
  k_bufs s' = B /\ k_sleeplocks s' = k_sleeplocks s /\ k_vdisk s' = k_vdisk s /\ quiet s s'.
Proof.
  intros E. destruct (dnorm_bufs B s s') as (H1 & H2 & H3); [unfold dnorm; by rewrite E|].
  split_and!; try done; [exact (f_equal k_vdisk E)|apply H3..].
Qed.

(** Reading the buffer of a block in use. *)
Lemma wp_buf_live n x l a (Q : buf -> world kst -> Prop) w : cache_rel (st w) l a -> a !! n = Some x ->
  (forall b, b_data b = ab_data x -> b_blockno b = n -> length (b_data b) = BSIZE -> Q b w) -> wp (buf_at (ab_idx x)) Q w.
Proof.
  intros [Hok _] Hx HQ. destruct (co_entry _ _ _ _ _ _ _ Hok Hx) as (b & _ & Hb & _ & _ & En & Ed & _ & _ & _ & _ & Hlen & _).
  apply (wp_buf_lookup _ b); [done|]. by apply HQ.
Qed.

(** Writing it. *)
Lemma wp_buf_data n x f v l a (Q : unit -> world kst -> Prop) w : cache_rel (st w) l a -> a !! n = Some x ->
  (forall b, b_data b = ab_data x -> f b = set_b_data v b) -> length v = BSIZE ->
  (forall s', cache_rel s' l (<[n := mkab (ab_idx x) v (ab_refs x) (ab_lock x)]> a) -> quiet (st w) s' -> Q tt (World s' (env w))) ->
  wp (modify_buf (ab_idx x) f) Q w.
Proof.
  intros [Hok Hi] Hx Hf Hv HQ. destruct (co_entry _ _ _ _ _ _ _ Hok Hx) as (b & Hj & Hb & _ & _ & En & Ed & Erc & Hr & Hl & _).
  unfold modify_buf. wp_step. apply HQ; [|done]. split; [|done]. rewrite k_bufs_set, k_disk_set, k_sleeplocks_set.
  rewrite (alter_insert _ _ _ _ Hb), (Hf _ Ed). replace (set_b_data v b) with (set_b_refcnt (ab_refs x) (set_b_data v b)).
  - apply cache_ok_entry with (k_sleeplocks (st w)); try done. rewrite <- Hl. apply relocked_same.
  - rewrite <- Erc. by destruct b.
Qed.

(** A critical section that changes the reference count. *)
Lemma wp_refcnt n i x f r l a (Q : unit -> world kst -> Prop) w : calm i (st w) -> cache_rel (st w) l a -> a !! n = Some x ->
  (forall b, b_refcnt b = ab_refs x -> f b = set_b_refcnt r b) -> 0 < r < 4294967296 ->
  (forall s', cache_rel s' l (<[n := mkab (ab_idx x) (ab_data x) r (ab_lock x)]> a) -> quiet (st w) s' -> Q tt (World s' (env w))) ->
  wp (acquire L_bcache;; modify_buf (ab_idx x) f;; release L_bcache) Q w.
Proof.
  destruct w as [s e]. cbn [st env]. intros Hc [Hok Hi] Hx Hf Hrange HQ.
  destruct (co_entry _ _ _ _ _ _ _ Hok Hx) as (b & Hj & Hb & _ & _ & En & Ed & Erc & Hr & Hl & _ & Hlen & _).
  wp_step. apply (wp_acquire_bcache i); [done|]. wp_step. apply wp_modify_buf.
  apply (wp_release_bcache i); [done|]. intros s' (Ebs & Esl & Evd & Hq)%norm_bufs. apply HQ; [|done].
  split; [|by rewrite Evd]. destruct Hq as (_ & -> & _). rewrite Ebs, Esl, (alter_insert _ _ _ _ Hb), (Hf _ Erc).
  replace (set_b_refcnt r b) with (set_b_refcnt r (set_b_data (ab_data x) b)).
  - apply cache_ok_entry with (k_sleeplocks s); try done; [by rewrite <- Ed|]. rewrite <- Hl. apply relocked_same.
  - rewrite <- Ed. by destruct b.
Qed.

Lemma wp_bpin n i x l a (Q : unit -> world kst -> Prop) w : calm i (st w) -> cache_rel (st w) l a -> a !! n = Some x ->
  ab_refs x + 1 < 4294967296 ->
  (forall s', cache_rel s' l (<[n := mkab (ab_idx x) (ab_data x) (ab_refs x + 1) (ab_lock x)]> a) -> quiet (st w) s' ->
     Q tt (World s' (env w))) ->
  wp (bpin (ab_idx x)) Q w.
Proof.
  intros Hc Hrel Hx Hr HQ. destruct (co_entry _ _ _ _ _ _ _ (proj1 Hrel) Hx) as (_ & _ & _ & _ & _ & _ & _ & _ & Hr' & _).
  apply (wp_refcnt n i x _ (ab_refs x + 1) l a); try done; [|lia]. intros b Hb. by rewrite Hb, u32_small by lia.
Qed.

Lemma wp_bunpin n i x l a (Q : unit -> world kst -> Prop) w : calm i (st w) -> cache_rel (st w) l a -> a !! n = Some x ->
  1 < ab_refs x ->
  (forall s', cache_rel s' l (<[n := mkab (ab_idx x) (ab_data x) (ab_refs x - 1) (ab_lock x)]> a) -> quiet (st w) s' ->
     Q tt (World s' (env w))) ->
  wp (bunpin (ab_idx x)) Q w.
Proof.
  intros Hc Hrel Hx Hr HQ. destruct (co_entry _ _ _ _ _ _ _ (proj1 Hrel) Hx) as (_ & _ & _ & _ & _ & _ & _ & _ & Hr' & _).
  apply (wp_refcnt n i x _ (ab_refs x - 1) l a); try done; [|lia]. intros b Hb. by rewrite Hb, u32_small by lia.
Qed.

(** [bwrite]. *)
Lemma wp_bwrite n i m x l a (Q : unit -> world kst -> Prop) w : calm i (st w) -> cache_rel (st w) l a -> io_ready i (S m) (env w) ->
  a !! n = Some x -> ab_lock x = Some (mksleep 1 (cur_pid (st w))) ->
  (forall s' e', cache_rel s' l a -> outside s' = outside (st w) -> k_disk s' = <[n := ab_data x]> (k_disk (st w)) ->
     k_dwrites s' = (n, ab_data x) :: k_dwrites (st w) -> io_ready i m e' -> Q tt (World s' e')) ->
  wp (bwrite (ab_idx x)) Q w.
Proof.
  destruct w as [s e]. cbn [st env]. intros Hc [Hok Hi] Hio Hx Hlk HQ.
  destruct (co_entry _ _ _ _ _ _ _ Hok Hx) as (b & Hj & Hb & Edev & _ & En & Ed & Erc & Hr & Hl & Hdisk & Hlen & Hn).
  unfold bwrite. wp_step. apply (wp_holdingsleep_calm i); [done|unfold sleep_held; cbn; by rewrite Hl|]. cbn [st env].
  intros s1 Hs1. cbn [negb]. assert (Hc1 : calm i s1) by (by eapply outside_calm; [symmetry; apply outside_norm; exact Hs1|]).
  destruct (norm_bufs (k_bufs s) s s1) as (Ebs & Esl & Evd & Eout & Edk & Edw).
  { rewrite Hs1. change (k_bufs s) with (k_bufs (norm s)). by rewrite set_k_bufs_id. }
  apply (rw_write i m _ b); cbn [st env]; try done; [by rewrite Evd|by rewrite Ebs|by rewrite En|].
  intros s2 e2 Hi2 Hio2 Hs2. rewrite En, Ed in Hs2.
  destruct (dnorm_fields s2 (set_k_disk (<[n := ab_data x]> (k_disk s1)) (set_k_dwrites ((n, ab_data x) :: k_dwrites s1) s1)) Hs2)
    as (Fbs & Fdk & Fdw & Fsl & Fout). cbn in Fbs.
  apply HQ; [|rewrite Fout; exact Eout|rewrite Fdk; cbn; by rewrite <- Edk|rewrite Fdw; cbn; by rewrite <- Edw|done].
  split; [|done]. rewrite Fsl. change (k_bufs s2 = k_bufs s1) in Fbs. rewrite Fbs, Ebs.
  change (k_disk s2 = <[n := ab_data x]> (k_disk s1)) in Fdk. rewrite Fdk, Edk.
  change (k_sleeplocks _) with (k_sleeplocks s1). rewrite Esl, <- En, <- Ed. apply (cache_ok_write _ _ _ _ _ _ (ab_idx x)); try done. lia.
Qed.

Lemma unlocked_fields j s s1 : norm s1 = set_k_sleeplocks (delete (SL_buf j) (k_sleeplocks s)) (norm s) ->
  k_bufs s1 = k_bufs s /\ k_sleeplocks s1 = delete (SL_buf j) (k_sleeplocks s) /\ k_vdisk s1 = k_vdisk s /\ quiet s s1.
Proof.
  intros E. split_and!; [exact (f_equal k_bufs E)|exact (f_equal k_sleeplocks E)|exact (f_equal k_vdisk E)|].
  split_and!; [|exact (f_equal k_disk E)|exact (f_equal k_dwrites E)].
  unfold outside, dnorm. rewrite E. change (k_sleeplocks s1) with (k_sleeplocks (norm s1)). rewrite E. cbn.
  by rewrite map_filter_delete_not by done.
Qed.

Lemma quiet_trans s1 s2 s3 : quiet s1 s2 -> quiet s2 s3 -> quiet s1 s3.
Proof. intros (E1 & E2 & E3) (F1 & F2 & F3). split_and!; congruence. Qed.

Lemma quiet_calm i s s' : quiet s s' -> calm i s -> calm i s'.
Proof. intros (E & _). apply outside_calm. by symmetry. Qed.

(** The abstract effect of [brelse] and the order of last use after it. *)
Definition released (n : Z) (x : abuf) (a : gmap Z abuf) : gmap Z abuf :=
  if ab_refs x =? 1 then delete n a else <[n := mkab (ab_idx x) (ab_data x) (ab_refs x - 1) None]> a.
Definition used_last (x : abuf) (l : list nat) : list nat :=
  if ab_refs x =? 1 then ab_idx x :: filter (fun k => k <> ab_idx x) l else l.

Lemma filter_absent (j : nat) (l : list nat) : j ∉ l -> filter (fun k => k <> j) l = l.
Proof.
  induction l as [|k l IH]; intros Hj; [done|]. apply not_elem_of_cons in Hj as [Hne Hj].
  rewrite filter_cons_True by done. by rewrite IH.
Qed.

Lemma filter_out (j : nat) l1 l2 : NoDup (l1 ++ j :: l2) -> filter (fun k => k <> j) (l1 ++ j :: l2) = l1 ++ l2.
Proof.
  intros Hnd. apply list.NoDup_app in Hnd as (_ & H1 & Hnd). apply list.NoDup_cons in Hnd as [H2 _].
  rewrite list.filter_app, filter_cons_False by (intros H'; by apply H').
  rewrite !filter_absent; [done|done|]. intros Hj. by apply (H1 j); [|left].
Qed.

Lemma wp_brelse n i x l a (Q : unit -> world kst -> Prop) w : calm i (st w) -> cache_rel (st w) l a ->
  a !! n = Some x -> ab_lock x = Some (mksleep 1 (cur_pid (st w))) ->
  (ab_refs x = 1 -> ab_data x = disk_block (k_disk (st w)) n) ->
  (forall s', cache_rel s' (used_last x l) (released n x a) -> quiet (st w) s' -> Q tt (World s' (env w))) ->
  wp (brelse (ab_idx x)) Q w.
Proof.
  destruct w as [s e]. cbn [st env]. intros Hc [Hok Hi] Hx Hlk Hcl HQ.
  destruct (co_entry _ _ _ _ _ _ _ Hok Hx) as (b & Hj & Hb & Edev & _ & En & Ed & Erc & Hr & Hl & Hdisk & Hlen & Hn).
  unfold brelse. wp_step. apply (wp_holdingsleep_calm i); [done|unfold sleep_held; cbn; by rewrite Hl|]. cbn [st env].
  intros s1 Hs1. cbn [negb].
  destruct (norm_bufs (k_bufs s) s s1) as (Ebs & Esl & Evd & Hq1).
  { rewrite Hs1. change (k_bufs s) with (k_bufs (norm s)). by rewrite set_k_bufs_id. }
  wp_step. apply (wp_releasesleep_calm i); [by eapply quiet_calm|]. cbn [st env]. intros s2 Hs2.
  destruct (unlocked_fields _ _ _ Hs2) as (Ebs2 & Esl2 & Evd2 & Hq2). rewrite Ebs in Ebs2. rewrite Evd in Evd2. rewrite Esl in Esl2.
  assert (Hq : quiet s s2) by (by eapply quiet_trans). assert (Hc2 : calm i s2) by (by eapply quiet_calm).
  wp_step. apply (wp_acquire_bcache i); [done|]. rewrite Ebs2. wp_step. apply wp_modify_buf.
  rewrite (alter_insert _ _ _ _ Hb), Erc, u32_small by lia.
  set (bs1 := <[ab_idx x := set_b_refcnt (ab_refs x - 1) b]> (k_bufs s)).
  wp_step. apply (wp_buf_at _ _ (set_b_refcnt (ab_refs x - 1) b)); [apply list_lookup_insert_eq; by eapply lookup_lt_Some|]. cbn [b_refcnt set_b_refcnt].
  assert (Hend : forall bs' l' a', cache_ok d bs' (k_disk s) (delete (SL_buf (ab_idx x)) (k_sleeplocks s)) l' a' ->
    l' = used_last x l -> a' = released n x a -> wp (release L_bcache) Q (World (set_k_bufs bs' (acquired L_bcache s2)) e)).
  { intros bs' l' a' Hok' -> ->. apply (wp_release_bcache i); [done|]. intros s' (Gbs & Gsl & Gvd & Hq3)%norm_bufs.
    apply HQ; [|by eapply quiet_trans]. split; [|by rewrite Gvd, Evd2]. destruct Hq3 as (_ & Gdk & _), Hq as (_ & Fdk & _).
    by rewrite Gbs, Gsl, Gdk, Fdk, Esl2. }
  unfold released, used_last in Hend. destruct (ab_refs x - 1 =? 0) eqn:E1; bool_facts; unfold when; wp_step.
  - rewrite (proj2 (Z.eqb_eq (ab_refs x) 1)) in Hend by lia.
    assert (Hok1 : cache_ok d bs1 (k_disk s) (delete (SL_buf (ab_idx x)) (k_sleeplocks s)) l (delete n a)).
    { unfold bs1. rewrite E1. apply cache_ok_drop with (k_sleeplocks s); try done; [apply Hcl; lia|apply relocked_delete]. }
    destruct (list_elem_of_split l (ab_idx x)) as (l1 & l2 & ->); [by apply (co_index _ _ _ _ _ _ _ Hok)|].
    pose proof (co_nodup _ _ _ _ _ _ Hok1) as Hnd. pose proof (co_range _ _ _ _ _ _ Hok1) as Hrg.
    apply wp_move_to_front with l1 l2; [done|done|apply Hok1|].
    eapply Hend; [|by rewrite filter_out by (by apply list.NoDup_cons in Hnd as [_ Hnd])|done].
    eapply cache_ok_relink; [exact Hok1|apply unlink_move|by apply linked_move; [..|apply Hok1]|]. by rewrite Permutation_middle.
  - destruct (ab_refs x =? 1) eqn:E2; bool_facts; [lia|]. eapply Hend; [|done..]. unfold bs1.
    replace (set_b_refcnt (ab_refs x - 1) b) with (set_b_refcnt (ab_refs x - 1) (set_b_data (ab_data x) b)).
    + apply cache_ok_entry with (k_sleeplocks s); try done; [by rewrite <- Ed|lia|apply relocked_delete].
    + rewrite <- Ed. by destruct b.
Qed.

End Operations.

(** ** Initialisation *)

(** The buffers before [binit]: no device, no reference. *)
Definition fresh_buf (d : Z) (b : buf) : Prop :=
  b_disk b = 0 /\ length (b_data b) = BSIZE /\ b_refcnt b = 0 /\ 0 <= b_blockno b < 2147483648 /\ b_dev b = 0.

Lemma linked_nil bs : bs !! HEAD <> None -> linked (alter (set_b_next HEAD) HEAD (alter (set_b_prev HEAD) HEAD bs)) [].
Proof.
  intros Hh. destruct (bs !! HEAD) as [b|] eqn:E; [|done]. unfold linked, nxt, prv. cbn [chain rev].
  by rewrite !list_lookup_alter_eq, E.
Qed.

Lemma wp_initsleeplock_fresh l (Q : unit -> world kst -> Prop) w :
  k_locks (st w) = ∅ -> k_sleeplocks (st w) = ∅ -> Q tt w -> wp (initsleeplock l) Q w.
Proof.
  destruct w as [[] e]. cbn. intros -> -> HQ. unfold initsleeplock, initlock. wp_steps. unfold set_sleeplock, sleeplock_of, set_lock. cbn.
  rewrite !delete_empty. cbn. exact HQ.
Qed.

(** The body of [binit]'s loop puts buffer [i] first. *)
Lemma wp_link_first bs i s e (Q : option unit -> world kst -> Prop) : (i < NBUF)%nat -> length bs = S NBUF ->
  k_locks s = ∅ -> k_sleeplocks s = ∅ -> Q None (World (set_k_bufs (pushed i bs) s) e) ->
  wp (head ← buf_at HEAD;
      modify_buf i (set_b_next (b_next head));;
      modify_buf i (set_b_prev HEAD);;
      initsleeplock (SL_buf i);;
      head ← buf_at HEAD;
      modify_buf (b_next head) (set_b_prev i);;
      modify_buf HEAD (set_b_next i);;
      mret (@None unit)) Q (World (set_k_bufs bs s) e).
Proof.
  intros Hi Hlen Hlk Hsl HQ. assert (Hh : (HEAD < length bs)%nat) by (rewrite Hlen; unfold HEAD; lia).
  wp_step. apply wp_buf_read; [done|]. intros h _ -> _. do 2 (wp_step; apply wp_modify_buf).
  wp_step. apply wp_initsleeplock_fresh; [done|done|].
  wp_step. apply wp_buf_read; [by rewrite !length_alter|]. intros h' _ -> _.
  rewrite nxt_alter by done. rewrite nxt_alter_next, upd_ne by (rewrite ?Hlen; unfold HEAD; lia).
  do 2 (wp_step; apply wp_modify_buf). wp_step. exact HQ.
Qed.

(** [binit] makes the buffers an empty cache, whose order of last use is that of
    the array, backwards. *)
Lemma wp_binit d (Q : unit -> world kst -> Prop) w : d <> 0 -> k_locks (st w) = ∅ -> k_sleeplocks (st w) = ∅ ->
  length (k_bufs (st w)) = S NBUF -> (forall i b, (i < NBUF)%nat -> k_bufs (st w) !! i = Some b -> fresh_buf d b) ->
  (forall n, length (disk_block (k_disk (st w)) n) = BSIZE) ->
  (forall bs, cache_ok d bs (k_disk (st w)) ∅ (rev (seq 0 NBUF)) ∅ ->
     (forall i b, (i < NBUF)%nat -> bs !! i = Some b -> b_dev b = 0) -> Q tt (World (set_k_bufs bs (st w)) (env w))) ->
  wp binit Q w.
Proof.
  destruct w as [s e]. cbn [st env]. intros Hd Hlk Hsl Hlen Hfresh Hdisk HQ. unfold binit. wp_step. unfold initlock. wp_step.
  assert (set_lock L_bcache (mkspin 0 None) s = s) as E.
  { destruct s. cbn in Hlk. subst. unfold set_lock. cbn. by rewrite delete_empty. }
  cbn [st env]. rewrite E. rewrite <- (set_k_bufs_id s) at 1. do 2 (wp_step; apply wp_modify_buf).
  set (bs0 := alter (set_b_next HEAD) HEAD (alter (set_b_prev HEAD) HEAD (k_bufs s))).
  wp_step. apply wp_foreach with (fun xs w => exists bs k, w = World (set_k_bufs bs s) e /\ xs = seq k (NBUF - k) /\ (k <= NBUF)%nat /\
     length bs = S NBUF /\ linked bs (rev (seq 0 k)) /\ unlink <$> bs = unlink <$> k_bufs s).
  - exists bs0, O. unfold bs0. rewrite !length_alter, !unlink_alter by done. split_and!; try done; [lia|]. apply linked_nil.
    destruct (lookup_lt_is_Some_2 (k_bufs s) HEAD) as [h ->]; [rewrite Hlen; unfold HEAD; lia|done].
  - intros i xs w (bs & k & -> & Hxs & Hk & Hl & Hlnk & Hu). destruct (NBUF - k)%nat as [|r] eqn:Er; [done|].
    cbn in Hxs. injection Hxs as -> ->. apply wp_link_first; [lia|done|done|done|].
    exists (pushed k bs), (S k). replace (NBUF - S k)%nat with r by lia. split_and!; [done|done|lia| | |].
    + unfold pushed. by rewrite !length_alter.
    + replace (rev (seq 0 (S k))) with (k :: rev (seq 0 k)) by (by rewrite seq_S, rev_app_distr).
      assert (Hsub : forall x, x ∈ rev (seq 0 k) -> (x < k)%nat).
      { intros x. rewrite elem_of_rev, elem_of_seq. lia. }
      apply linked_pushed; [|apply list.Forall_forall|done].
      * rewrite !list.NoDup_cons, not_elem_of_cons, <- (Permutation_rev (seq 0 k)), elem_of_seq, elem_of_seq. unfold HEAD.
        split_and!; [lia..|apply NoDup_seq].
      * rewrite Hl. unfold HEAD. intros x [->|[->|Hx%Hsub]%elem_of_cons]%elem_of_cons; lia.
    + unfold pushed. by rewrite !unlink_alter.
  - intros w (bs & k & -> & Hxs & Hk & Hl & Hlnk & Hu). wp_step.
    assert (k = NBUF) as -> by (destruct (NBUF - k)%nat eqn:E1; [lia|done]).
    assert (Hf : forall i b, (i < NBUF)%nat -> bs !! i = Some b -> fresh_buf d b).
    { intros i b Hi (b0 & Hb0 & (_ & E2 & E3 & E4 & E5 & E6)%unlink_fields)%(unlink_lookup _ _ _ _ Hu). unfold fresh_buf.
      rewrite E2, E3, E4, E5, E6. by apply (Hfresh i). }
    cbn [st env]. apply HQ; [|intros i b Hi Hb; apply (Hf i b Hi Hb)]. split; try done.
    + by rewrite <- (Permutation_rev (seq 0 NBUF)).
    + intros i b Hi Hb. destruct (Hf i b Hi Hb) as (K1 & K2 & K3 & K4 & K5). unfold buf_ok. rewrite K3.
      split_and!; try done; try lia. intros _. split; [done|]. congruence.
    + intros i j b c Hi Hj Hb Hc E1. destruct (Hf i b Hi Hb) as (_ & _ & _ & _ & K5). congruence.
    + intros i b Hi Hb Hr. destruct (Hf i b Hi Hb) as (_ & _ & K3 & _ & _). congruence.
Qed.
