(* ===== verification/CacheSpec.v ===== *)
(** * The buffer cache against its specification

    [acache] is what kernel/bio.c promises its clients: a disk, and the blocks in
    use with their contents, number of references and lock.  [cache_refines] is
    the refinement theorem: whatever sequence of cache operations a client
    performs, if the specification allows it, the routines carry it out, return
    the same data and leave the same disk.  The other theorems are about what the
    specification hides: which buffer a miss recycles, and what happens when there
    is none. *)

From S2P Require Import Prelude State Spinlock Norm Sched Sleeplock Bio LruList Cache.

(** ** The specification *)

Record acache := mkac {
  ac_live : gmap Z (list Z * Z * bool);   (* contents, references, locked by the client *)
  ac_disk : gmap Z (list Z);
  ac_writes : list (Z * list Z)
}.

Inductive cop :=
| Bread (n : Z) | Bset (n : Z) (v : list Z) | Bwrite (n : Z) | Brelse (n : Z) | Bpin (n : Z) | Bunpin (n : Z).

Definition acontent (A : acache) (n : Z) : list Z :=
  match ac_live A !! n with Some (v, _, _) => v | None => disk_block (ac_disk A) n end.

Definition set_live (n : Z) (x : list Z * Z * bool) (A : acache) : acache :=
  mkac (<[n := x]> (ac_live A)) (ac_disk A) (ac_writes A).

(** What an operation does, if it is allowed: a client locks a block once, drops
    its last reference only when the block is clean, and keeps at most [NBUF]
    blocks in use. *)
Definition astep (A : acache) (op : cop) : option acache :=
  match op with
  | Bread n =>
      if negb ((0 <=? n) && (n <? 2147483648)) then None else
      match ac_live A !! n with
      | Some (v, r, false) => if r + 1 <? 4294967296 then Some (set_live n (v, r + 1, true) A) else None
      | Some (_, _, true) => None
      | None => if (size (ac_live A) <? NBUF)%nat then Some (set_live n (acontent A n, 1, true) A) else None
      end
  | Bset n v =>
      match ac_live A !! n with
      | Some (_, r, true) => if (length v =? BSIZE)%nat then Some (set_live n (v, r, true) A) else None
      | _ => None
      end
  | Bwrite n =>
      match ac_live A !! n with
      | Some (v, _, true) => Some (mkac (ac_live A) (<[n := v]> (ac_disk A)) ((n, v) :: ac_writes A))
      | _ => None
      end
  | Brelse n =>
      match ac_live A !! n with
      | Some (v, r, true) =>
          if negb (r =? 1) then Some (set_live n (v, r - 1, false) A)
          else if bool_decide (v = disk_block (ac_disk A) n) then Some (mkac (delete n (ac_live A)) (ac_disk A) (ac_writes A))
          else None
      | _ => None
      end
  | Bpin n =>
      match ac_live A !! n with
      | Some (v, r, lk) => if r + 1 <? 4294967296 then Some (set_live n (v, r + 1, lk) A) else None
      | None => None
      end
  | Bunpin n =>
      match ac_live A !! n with
      | Some (v, r, lk) => if 1 <? r then Some (set_live n (v, r - 1, lk) A) else None
      | None => None
      end
  end.

(** The final state and the data the reads returned. *)
Fixpoint arun (A : acache) (ops : list cop) : option (acache * list (list Z)) :=
  match ops with
  | [] => Some (A, [])
  | op :: ops =>
      match astep A op with
      | None => None
      | Some A' =>
          match arun A' ops with
          | None => None
          | Some (A'', os) => Some (A'', match op with Bread n => acontent A n :: os | _ => os end)
          end
      end
  end.

(** ** The client of the routines *)

(** The buffer pointers the client got from [bread]. *)
Definition handle (h : gmap Z nat) (n : Z) : K nat :=
  match h !! n with Some j => mret j | None => fault "no buffer for the block" end.

Fixpoint client `{DiskDriver} (d : Z) (ops : list cop) (h : gmap Z nat) : K (list (list Z)) :=
  match ops with
  | [] => mret []
  | Bread n :: ops =>
      j ← bread d n;
      b ← buf_at j;
      os ← client d ops (<[n := j]> h);
      mret (b_data b :: os)
  | Bset n v :: ops => (j ← handle h n; modify_buf j (set_b_data v));; client d ops h
  | Bwrite n :: ops => (j ← handle h n; bwrite j);; client d ops h
  | Brelse n :: ops => (j ← handle h n; brelse j);; client d ops h
  | Bpin n :: ops => (j ← handle h n; bpin j);; client d ops h
  | Bunpin n :: ops => (j ← handle h n; bunpin j);; client d ops h
  end.

(** ** Refinement *)

Definition abs_buf (x : abuf) : list Z * Z * bool :=
  (ab_data x, ab_refs x, match ab_lock x with Some _ => true | None => false end).

Section Refinement.
Context `{DiskDriverOk} (d : Z) (Hd : d <> 0).

(** The routines' state represents [A], for the process that runs. *)
Definition crel (s : kst) (h : gmap Z nat) (A : acache) : Prop :=
  exists l a, cache_rel d s l a /\ ac_live A = abs_buf <$> a /\ ac_disk A = k_disk s /\ ac_writes A = k_dwrites s /\
    forall n x, a !! n = Some x -> h !! n = Some (ab_idx x) /\ (ab_lock x = None \/ ab_lock x = Some (mksleep 1 (cur_pid s))).

(** One block in use changes, or comes into use. *)
Lemma crel_update s s' h A n x l' a :
  cache_rel d s' l' (<[n := x]> a) -> quiet s s' ->
  (forall m y, a !! m = Some y -> h !! m = Some (ab_idx y) /\ (ab_lock y = None \/ ab_lock y = Some (mksleep 1 (cur_pid s)))) ->
  ac_live A = abs_buf <$> a -> ac_disk A = k_disk s -> ac_writes A = k_dwrites s ->
  (ab_lock x = None \/ ab_lock x = Some (mksleep 1 (cur_pid s))) ->
  crel s' (<[n := ab_idx x]> h) (set_live n (abs_buf x) A).
Proof.
  intros Hrel (Eout & Edk & Edw) Hh Hlive Hdk Hdw Hlk. exists l', (<[n := x]> a). unfold set_live. cbn.
  rewrite Hlive, Edk, Edw, <- fmap_insert. split_and!; try done. intros m y Hy. rewrite (outside_cur_pid _ _ Eout).
  apply lookup_insert_Some in Hy as [[<- <-]|[Hne Hy]]; [by rewrite lookup_insert_eq|].
  rewrite lookup_insert_ne by done. by apply Hh.
Qed.

(** The entry of a block the specification has in use. *)
Lemma crel_entry s h A n v r (lk : bool) : crel s h A -> ac_live A !! n = Some (v, r, lk) ->
  exists l a x, cache_rel d s l a /\ ac_live A = abs_buf <$> a /\ ac_disk A = k_disk s /\ ac_writes A = k_dwrites s /\
    (forall m y, a !! m = Some y -> h !! m = Some (ab_idx y) /\ (ab_lock y = None \/ ab_lock y = Some (mksleep 1 (cur_pid s)))) /\
    a !! n = Some x /\ h !! n = Some (ab_idx x) /\ ab_data x = v /\ ab_refs x = r /\
    ab_lock x = if lk then Some (mksleep 1 (cur_pid s)) else None.
Proof.
  intros (l & a & Hrel & Hlive & Hdk & Hdw & Hh) Hn. rewrite Hlive, lookup_fmap in Hn.
  destruct (a !! n) as [x|] eqn:Hx; [|done]. cbn in Hn. unfold abs_buf in Hn. injection Hn as Ev Er El.
  destruct (Hh n x Hx) as [Hhn Hlk]. exists l, a, x. split_and!; try done.
  destruct Hlk as [E|E]; rewrite E in El |- *; by subst lk.
Qed.

Lemma wp_handle h n j (Q : nat -> world kst -> Prop) w : h !! n = Some j -> Q j w -> wp (handle h n) Q w.
Proof. intros E HQ. unfold handle. by rewrite E. Qed.

(** Each operation does what the specification says. *)
Lemma step_bread i m n h A A1 (Q : nat -> world kst -> Prop) s e : astep A (Bread n) = Some A1 -> calm i s -> crel s h A -> io_ready i (S m) e ->
  (forall j s' e', crel s' (<[n := j]> h) A1 -> outside s' = outside s -> io_ready i m e' ->
     (exists b, k_bufs s' !! j = Some b /\ b_data b = acontent A n) -> Q j (World s' e')) ->
  wp (bread d n) Q (World s e).
Proof.
  cbn [astep]. destruct (negb _) eqn:Hrange; [done|]. bool_facts. intros Hstep Hc Hrel Hio HQ.
  destruct Hrel as (l & a & Hrel & Hlive & Hdk & Hdw & Hh).
  assert (Hcont : content a (k_disk s) n = acontent A n).
  { unfold content, acontent. rewrite Hlive, lookup_fmap, Hdk. by destruct (a !! n). }
  assert (Hav : available a n /\ A1 = set_live n (acontent A n, refs a n + 1, true) A).
  { unfold available, refs, acontent in *. rewrite Hlive, lookup_fmap in Hstep |- *. destruct (a !! n) as [x|] eqn:Hx; cbn [fmap option_fmap option_map abs_buf] in *.
    - destruct (ab_lock x); [done|]. destruct (ab_refs x + 1 <? 4294967296) eqn:E; [|done]. bool_facts. by simplify_eq.
    - rewrite map_size_fmap in Hstep. destruct (size a <? NBUF)%nat eqn:E; [|done]. apply Nat.ltb_lt in E. by simplify_eq. }
  destruct Hav as [Hav ->]. apply (wp_bread d Hd n i m l a); [done|done|done|lia|done|]. cbn [st].
  intros j s' e' Hrel' Hq Hio' Hj. apply HQ; [|apply Hq|done|].
  - rewrite <- Hcont. apply (crel_update s s' h A n (mkab j (content a (k_disk s) n) (refs a n + 1) (Some (mksleep 1 (cur_pid s)))) l a); try done. by right.
  - rewrite <- Hcont. destruct (co_entry _ _ _ _ _ _ _ _ (proj1 Hrel') (lookup_insert_eq _ _ _)) as (b & _ & Hb & _ & _ & _ & Ed & _).
    by exists b.
Qed.

(** The state after an operation on block [n] whose pointer the client has. *)
Lemma crel_step s s' h A n x y l' a : h !! n = Some (ab_idx x) -> ab_idx y = ab_idx x ->
  cache_rel d s' l' (<[n := y]> a) -> quiet s s' ->
  (forall m y, a !! m = Some y -> h !! m = Some (ab_idx y) /\ (ab_lock y = None \/ ab_lock y = Some (mksleep 1 (cur_pid s)))) ->
  ac_live A = abs_buf <$> a -> ac_disk A = k_disk s -> ac_writes A = k_dwrites s ->
  (ab_lock y = None \/ ab_lock y = Some (mksleep 1 (cur_pid s))) ->
  crel s' h (set_live n (abs_buf y) A).
Proof.
  intros Hn E. intros. rewrite <- (insert_id h n (ab_idx x) Hn), <- E. by eapply crel_update.
Qed.

Lemma step_bset n v h A A1 (Q : unit -> world kst -> Prop) s e : astep A (Bset n v) = Some A1 -> crel s h A ->
  (forall s', crel s' h A1 -> outside s' = outside s -> Q tt (World s' e)) ->
  wp (j ← handle h n; modify_buf j (set_b_data v)) Q (World s e).
Proof.
  cbn [astep]. destruct (ac_live A !! n) as [[[v0 r] []]|] eqn:Hn; try done.
  destruct (length v =? BSIZE)%nat eqn:Hv; [|done]. apply Nat.eqb_eq in Hv. intros [= <-] Hrel HQ.
  destruct (crel_entry _ _ _ _ _ _ _ Hrel Hn) as (l & a & x & Hc & Hlive & Hdk & Hdw & Hh & Hx & Hhn & _ & <- & Hlk).
  wp_step. apply wp_handle with (ab_idx x); [done|]. apply (wp_buf_data d n x _ v l a); [done..|]. intros s' Hc' Hq. apply HQ; [|apply Hq].
  replace (v, ab_refs x, true) with (abs_buf (mkab (ab_idx x) v (ab_refs x) (ab_lock x))) by (unfold abs_buf; cbn; by rewrite Hlk).
  eapply (crel_step s s' h A n x); try done. cbn. rewrite Hlk. by right.
Qed.

Lemma step_bwrite i m n h A A1 (Q : unit -> world kst -> Prop) s e : astep A (Bwrite n) = Some A1 -> calm i s -> crel s h A -> io_ready i (S m) e ->
  (forall s' e', crel s' h A1 -> outside s' = outside s -> io_ready i m e' -> Q tt (World s' e')) ->
  wp (j ← handle h n; bwrite j) Q (World s e).
Proof.
  cbn [astep]. destruct (ac_live A !! n) as [[[v r] []]|] eqn:Hn; try done. intros [= <-] Hcalm Hrel Hio HQ.
  destruct (crel_entry _ _ _ _ _ _ _ Hrel Hn) as (l & a & x & Hc & Hlive & Hdk & Hdw & Hh & Hx & Hhn & <- & _ & Hlk).
  wp_step. apply wp_handle with (ab_idx x); [done|]. apply (wp_bwrite d n i m x l a); [done..|]. cbn [st].
  intros s' e' Hc' Eout Edk Edw Hio'. apply HQ; [|done|done]. exists l, a. cbn. rewrite Edk, Edw, Hdk, Hdw. split_and!; try done.
  intros m' y Hy. rewrite (outside_cur_pid _ _ Eout). by apply Hh.
Qed.

Lemma step_brelse i n h A A1 (Q : unit -> world kst -> Prop) s e : astep A (Brelse n) = Some A1 -> calm i s -> crel s h A ->
  (forall s', crel s' h A1 -> outside s' = outside s -> Q tt (World s' e)) ->
  wp (j ← handle h n; brelse j) Q (World s e).
Proof.
  cbn [astep]. destruct (ac_live A !! n) as [[[v r] []]|] eqn:Hn; try done. intros Hstep Hcalm Hrel HQ.
  destruct (crel_entry _ _ _ _ _ _ _ Hrel Hn) as (l & a & x & Hc & Hlive & Hdk & Hdw & Hh & Hx & Hhn & <- & <- & Hlk).
  wp_step. apply wp_handle with (ab_idx x); [done|]. apply (wp_brelse d n i x l a); [done..| |]; cbn [st].
  { intros E. rewrite E in Hstep. cbn in Hstep. case_bool_decide; [|done]. congruence. }
  intros s' Hc' Hq. apply HQ; [|apply Hq]. unfold released, used_last in Hc'. destruct (ab_refs x =? 1) eqn:Er; cbn in Hstep.
  - case_bool_decide; [|done]. injection Hstep as <-. exists (ab_idx x :: filter (fun k => k <> ab_idx x) l), (delete n a). destruct Hq as (Eout & Edk & Edw). cbn.
    rewrite Edk, Edw, Hdk, Hdw, Hlive, fmap_delete. split_and!; try done. intros m y [_ Hy]%lookup_delete_Some.
    rewrite (outside_cur_pid _ _ Eout). by apply Hh.
  - injection Hstep as <-. change (ab_data x, ab_refs x - 1, false) with (abs_buf (mkab (ab_idx x) (ab_data x) (ab_refs x - 1) None)).
    eapply (crel_step s s' h A n x); try done. by left.
Qed.

Lemma step_bpin i n h A A1 (Q : unit -> world kst -> Prop) s e : astep A (Bpin n) = Some A1 -> calm i s -> crel s h A ->
  (forall s', crel s' h A1 -> outside s' = outside s -> Q tt (World s' e)) ->
  wp (j ← handle h n; bpin j) Q (World s e).
Proof.
  cbn [astep]. destruct (ac_live A !! n) as [[[v r] lk]|] eqn:Hn; try done. destruct (r + 1 <? 4294967296) eqn:E; [|done]. bool_facts.
  intros [= <-] Hcalm Hrel HQ.
  destruct (crel_entry _ _ _ _ _ _ _ Hrel Hn) as (l & a & x & Hc & Hlive & Hdk & Hdw & Hh & Hx & Hhn & <- & <- & Hlk).
  wp_step. apply wp_handle with (ab_idx x); [done|]. apply (wp_bpin d n i x l a); [done..|]. intros s' Hc' Hq. apply HQ; [|apply Hq].
  replace (ab_data x, ab_refs x + 1, lk) with (abs_buf (mkab (ab_idx x) (ab_data x) (ab_refs x + 1) (ab_lock x)))
    by (unfold abs_buf; cbn; rewrite Hlk; by destruct lk).
  eapply (crel_step s s' h A n x); try done. cbn. rewrite Hlk. destruct lk; [by right|by left].
Qed.

Lemma step_bunpin i n h A A1 (Q : unit -> world kst -> Prop) s e : astep A (Bunpin n) = Some A1 -> calm i s -> crel s h A ->
  (forall s', crel s' h A1 -> outside s' = outside s -> Q tt (World s' e)) ->
  wp (j ← handle h n; bunpin j) Q (World s e).
Proof.
  cbn [astep]. destruct (ac_live A !! n) as [[[v r] lk]|] eqn:Hn; try done. destruct (1 <? r) eqn:E; [|done]. bool_facts.
  intros [= <-] Hcalm Hrel HQ.
  destruct (crel_entry _ _ _ _ _ _ _ Hrel Hn) as (l & a & x & Hc & Hlive & Hdk & Hdw & Hh & Hx & Hhn & <- & <- & Hlk).
  wp_step. apply wp_handle with (ab_idx x); [done|]. apply (wp_bunpin d n i x l a); [done..|]. intros s' Hc' Hq. apply HQ; [|apply Hq].
  replace (ab_data x, ab_refs x - 1, lk) with (abs_buf (mkab (ab_idx x) (ab_data x) (ab_refs x - 1) (ab_lock x)))
    by (unfold abs_buf; cbn; rewrite Hlk; by destruct lk).
  eapply (crel_step s s' h A n x); try done. cbn. rewrite Hlk. destruct lk; [by right|by left].
Qed.

Lemma client_runs i ops A h A' os s e : arun A ops = Some (A', os) -> calm i s -> crel s h A -> io_ready i (length ops) e ->
  wp (client d ops h) (fun os' w' => os' = os /\ outside (st w') = outside s /\ exists h', crel (st w') h' A') (World s e).
Proof.
  revert A h os s e. induction ops as [|op ops IH]; intros A h os s e Hrun Hc Hrel Hio.
  { cbn in Hrun. injection Hrun as <- <-. cbn [client]. wp_step. split_and!; [done|done|]. by exists h. }
  cbn [arun] in Hrun. destruct (astep A op) as [A1|] eqn:Hstep; [|done].
  destruct (arun A1 ops) as [[A2 os1]|] eqn:Hrun1; [|done]. injection Hrun as <- <-.
  cbn [length] in Hio. pose proof (io_ready_less _ _ _ Hio) as Hio'.
  assert (Hnext : forall h1 s1 e1, crel s1 h1 A1 -> outside s1 = outside s -> io_ready i (length ops) e1 ->
    wp (client d ops h1) (fun os' w' => os' = os1 /\ outside (st w') = outside s /\ exists h', crel (st w') h' A2) (World s1 e1)).
  { intros h1 s1 e1 Hrel1 Eout Hio1. eapply wp_mono; [eapply (IH A1 h1); try done; by eapply outside_calm|].
    cbn. intros os' w'. by rewrite Eout. }
  destruct op as [n|n v|n|n|n|n]; cbn [client]; wp_step.
  - eapply step_bread; [done..|]. intros j s' e' Hrel' Eout Hio1 (b & Hb & Ed). wp_step. apply (wp_buf_lookup j b); [done|].
    wp_step. eapply wp_mono; [by apply Hnext|]. intros os' w' (-> & Ho & Hr). wp_step. by rewrite Ed.
  - eapply step_bset; [done..|]. intros s' Hrel' Eout. by apply Hnext.
  - eapply step_bwrite; [done..|]. intros s' e' Hrel' Eout Hio1. by apply Hnext.
  - eapply step_brelse; [done..|]. intros s' Hrel' Eout. by apply Hnext.
  - eapply step_bpin; [done..|]. intros s' Hrel' Eout. by apply Hnext.
  - eapply step_bunpin; [done..|]. intros s' Hrel' Eout. by apply Hnext.
Qed.

(** C3: the buffer cache refines its specification.  Whatever sequence of
    [bread], [bwrite], [brelse], [bpin], [bunpin] and writes into held buffers a
    process performs, if the specification allows it, every call returns, each
    [bread] gives the block's current contents, the disk and the sequence of disk
    writes are those of the specification, and nothing outside the cache
    changes. *)
Theorem cache_refines i ops A h A' os s e : arun A ops = Some (A', os) -> calm i s -> crel s h A -> io_ready i (length ops) e ->
  wp (client d ops h) (fun os' w' => os' = os /\ outside (st w') = outside s /\ exists h', crel (st w') h' A') (World s e).
Proof. exact (client_runs i ops A h A' os s e). Qed.

(** C37: a block that is not cached is put in the least recently used buffer
    without references: every buffer used less recently is in use.  The buffer
    taken is given to the block and locked; all others keep their contents. *)
Theorem bget_recycles_lru i n l a s e : calm i s -> cache_rel d s l a -> a !! n = None -> (size a < NBUF)%nat ->
  (forall k c, (k < NBUF)%nat -> k_bufs s !! k = Some c -> b_dev c = d -> b_blockno c <> n) ->
  wp (bget d n) (fun j w' => victim (k_bufs s) l j /\ (exists b, k_bufs (st w') !! j = Some b /\
       b_dev b = d /\ b_blockno b = n /\ b_valid b = 0 /\ b_refcnt b = 1) /\ sleep_held (SL_buf j) (st w') /\
       forall k, k <> j -> k_bufs (st w') !! k = k_bufs s !! k) (World s e).
Proof.
  intros Hc [Hok _] Hn Hsz Hno. apply (wp_bget d n i l a (k_disk s)); [done|done|by rewrite Hn|]. cbn [st env].
  intros j b b' s' Hj Hb Hb' Hs'. destruct (locked_fields _ _ _ _ _ Hs') as (Ebs & Esl & _ & Eout & _).
  destruct Hb' as [(Ed & En & _)|(_ & Hv & ->)]; [by destruct (Hno j b)|]. split_and!; [done| | |].
  - eexists. rewrite Ebs, list_lookup_insert_eq by (by eapply lookup_lt_Some). done.
  - unfold sleep_held. by rewrite Esl, lookup_insert_eq, (outside_cur_pid _ _ Eout).
  - intros k Hk. by rewrite Ebs, list_lookup_insert_ne.
Qed.

(** With [NBUF] blocks in use, [bread] of any other block panics. *)
Theorem bread_no_buffers i n l a s e : calm i s -> cache_rel d s l a -> size a = NBUF -> a !! n = None ->
  bread d n (World s e) = Panic "bget: no buffers".
Proof.
  intros Hc [Hok _] Hsz Hn. unfold bread. apply panic_bind. unfold bget.
  assert (Hall : forall k c, (k < NBUF)%nat -> k_bufs s !! k = Some c -> b_refcnt c <> 0 /\ b_blockno c <> n).
  { intros k c Hk Hc'. pose proof (cache_ok_full _ _ _ _ _ _ Hok Hsz k c Hk Hc') as Hr. split; [done|]. intros E.
    pose proof (co_live _ _ _ _ _ _ Hok k c Hk Hc' Hr) as Hl. congruence. }
  pose proof (co_traverse _ _ _ _ _ _ Hok) as Htr. pose proof (co_head_range _ _ _ _ _ _ Hok) as Hh.
  destruct (co_linked _ _ _ _ _ _ Hok) as [Hnx Hpv].
  assert (Hlen : length l = NBUF) by (rewrite (co_perm _ _ _ _ _ _ Hok); apply length_seq).
  apply bind_panic, (wp_acquire_bcache i); [done|]. apply bind_panic, wp_buf_read; [done|]. intros b0 _ -> _.
  apply bind_panic, wp_bget_find with l; [done|done|lia|]. intros [j|] Hr.
  { destruct Hr as (Hj%(co_index _ _ _ _ _ _ _ Hok) & b & Hb & _ & En). by destruct (Hall j b Hj Hb). }
  apply bind_panic, wp_buf_read; [done|]. intros b1 _ _ ->.
  apply bind_panic, wp_bget_lru with (rev l); [done|by rewrite <- (Permutation_rev l)|rewrite length_rev; lia|].
  intros [j|] Hlru; [|done]. exfalso. destruct Hlru as (r1 & r2 & El & (b & Hb & Hz) & _).
  destruct (Hall j b); [|done..]. apply (co_index _ _ _ _ _ _ _ Hok). rewrite <- elem_of_rev, El. apply elem_of_app. right. by left.
Qed.

End Refinement.

(** ** An instance *)

(** A disk that answers at once. *)
Definition ideal_disk : DiskDriver := {|
  virtio_disk_init := mret tt;
  virtio_disk_rw := fun j write =>
    b ← buf_at j;
    if (write : bool)
    then modify (fun s => set_k_disk (<[b_blockno b := b_data b]> (k_disk s)) (set_k_dwrites ((b_blockno b, b_data b) :: k_dwrites s) s))
    else s ← get; modify_buf j (fun b => set_b_data (disk_block (k_disk s) (b_blockno b)) b);
  virtio_disk_intr := mret tt
|}.

#[local] Existing Instance ideal_disk.

#[export] Program Instance ideal_disk_ok : @DiskDriverOk ideal_disk := {|
  io_ready := fun _ _ _ => True;
  disk_idle := fun _ => True
|}.
Next Obligation. done. Qed.
Next Obligation.
  intros i n j b [s e] Q _ _ _ Hj Hb _ _ HQ. cbn [virtio_disk_rw ideal_disk st env] in *. wp_step. apply (wp_buf_lookup j b); [done|].
  wp_step. wp_step. unfold modify_buf. wp_step. apply HQ; [done|done|]. cbn [st]. by rewrite (alter_insert _ _ _ _ Hb).
Qed.
Next Obligation.
  intros i n j b [s e] Q _ _ _ Hj Hb _ _ HQ. cbn [virtio_disk_rw ideal_disk st env] in *. wp_step. apply (wp_buf_lookup j b); [done|].
  wp_step. by apply HQ.
Qed.

(** The state at boot with process 0 running, and after [binit]. *)
Definition kst_boot : kst := set_k_cpu (mkcpu (Some O) 0 false) kst0.
Definition kst_binit : kst := final kst_boot (binit (World kst_boot [])).

Lemma binit_boot : exists bs, kst_binit = set_k_bufs bs kst_boot /\ cache_ok 1 bs ∅ ∅ (rev (seq 0 NBUF)) ∅ /\
  forall i b, (i < NBUF)%nat -> bs !! i = Some b -> b_dev b = 0.
Proof.
  unfold kst_binit. apply (wp_final binit (fun s => exists bs, s = set_k_bufs bs kst_boot /\ cache_ok 1 bs ∅ ∅ (rev (seq 0 NBUF)) ∅ /\
    forall i b, (i < NBUF)%nat -> bs !! i = Some b -> b_dev b = 0)).
  apply (wp_binit 1); try done.
  - intros i b Hi Hb. apply lookup_replicate in Hb as [-> _]. done.
  - cbn. intros bs Hok Hdev. by exists bs.
Qed.

Lemma kst_binit_rel : cache_rel 1 kst_binit (rev (seq 0 NBUF)) ∅.
Proof. destruct binit_boot as (bs & -> & Hok & _). by split. Qed.

Lemma kst_binit_calm : calm 0 kst_binit.
Proof.
  destruct binit_boot as (bs & -> & Hok & _). unfold calm, intr_ok. cbn [kst_boot k_cpu set_k_bufs set_k_fs set_k_cpu c_noff c_proc].
  split_and!; [lia|lia|done|done|unfold NPROC; lia|done|done].
Qed.

#[global] Opaque kst_binit.

Lemma cache_refines_witness :
  wp (client 1 [Bread 5; Bset 5 (replicate BSIZE 7); Bwrite 5; Brelse 5; Bread 5] ∅)
    (fun os _ => os = [replicate BSIZE 0; replicate BSIZE 7]) (World kst_binit []).
Proof.
  assert (Hrun : exists A', arun (mkac ∅ (k_disk kst_binit) (k_dwrites kst_binit))
            [Bread 5; Bset 5 (replicate BSIZE 7); Bwrite 5; Brelse 5; Bread 5] =
          Some (A', [replicate BSIZE 0; replicate BSIZE 7])).
  { destruct binit_boot as (bs & -> & _). cbn [k_disk]. eexists. vm_compute. reflexivity. }
  destruct Hrun as [A' Hrun].
  eapply wp_mono; [apply (cache_refines 1 ltac:(done) 0 _ _ ∅ A' _ kst_binit [] Hrun kst_binit_calm); [|done]|].
  - exists (rev (seq 0 NBUF)), ∅. split_and!; [apply kst_binit_rel|by rewrite fmap_empty|done|done|done].
  - intros os w' (-> & _). done.
Defined.

Lemma bget_recycles_lru_witness :
  wp (bget 1 5) (fun j w' => victim (k_bufs kst_binit) (rev (seq 0 NBUF)) j /\ sleep_held (SL_buf j) (st w')) (World kst_binit []).
Proof.
  eapply wp_mono; [apply (bget_recycles_lru 1 0 5 (rev (seq 0 NBUF)) ∅ kst_binit [] kst_binit_calm kst_binit_rel eq_refl)|].
  - rewrite map_size_empty. unfold NBUF. lia.
  - destruct binit_boot as (bs & -> & _ & Hdev). intros k c Hk Hc E. by rewrite (Hdev k c Hk Hc) in E.
  - intros j w' (Hv & _ & Hl & _). exact (conj Hv Hl).
Defined.

(** Thirty blocks are taken. *)
Definition kst_full : kst :=
  final kst_binit (client 1 (Bread <$> (Z.of_nat <$> seq 1 NBUF)) ∅ (World kst_binit [])).

Lemma kst_full_rel : calm 0 kst_full /\ exists l a, cache_rel 1 kst_full l a /\ size a = NBUF /\ a !! 0 = None.
Proof.
  unfold kst_full. set (ops := Bread <$> (Z.of_nat <$> seq 1 NBUF)).
  apply (wp_final (client 1 ops ∅) (fun s => calm 0 s /\ exists l a, cache_rel 1 s l a /\ size a = NBUF /\ a !! 0 = None)).
  assert (Hrun : exists A' os, arun (mkac ∅ (k_disk kst_binit) (k_dwrites kst_binit)) ops = Some (A', os) /\
            size (ac_live A') = NBUF /\ ac_live A' !! 0 = None).
  { destruct binit_boot as (bs & -> & _). cbn [k_disk]. eexists _, _. split; [vm_compute; reflexivity|]. by vm_compute. }
  destruct Hrun as (A' & os & Hrun & Hsz & Hnone).
  eapply wp_mono; [apply (client_runs 1 ltac:(done) 0 _ _ ∅ A' _ kst_binit [] Hrun kst_binit_calm); [|done]|].
  - exists (rev (seq 0 NBUF)), ∅. split_and!; [apply kst_binit_rel|by rewrite fmap_empty|done|done|done].
  - intros os' w' (_ & Eout & h & l & a & Hrel & Hlive & _).
    split; [eapply outside_calm; [symmetry; exact Eout|apply kst_binit_calm]|]. exists l, a.
    rewrite Hlive, map_size_fmap in Hsz. rewrite Hlive, lookup_fmap in Hnone. clear -Hrel Hsz Hnone. destruct (a !! 0); [discriminate|]. exact (conj Hrel (conj Hsz eq_refl)).
Qed.

#[global] Opaque kst_full.

Lemma bread_no_buffers_witness : bread 1 0 (World kst_full []) = Panic "bget: no buffers".
Proof.
  destruct kst_full_rel as (Hc & l & a & Hrel & Hsz & Hn). exact (bread_no_buffers 1 0 0 l a kst_full [] Hc Hrel Hsz Hn).
Defined.
