(* ===== verification/Blocks.v ===== *)
(** * Reasoning above the buffer cache

    The rules the log and the file system use: [cst] describes a state by its
    part outside the cache, the blocks in use, the disk and the disk writes so
    far, and each routine of kernel/bio.c is a transformation of that
    description. *)

From S2P Require Import Prelude State Spinlock Norm Sched Sleeplock Bio LruList Cache.

Section Blocks.
Context `{DiskDriverOk} (d : Z) (Hd : d <> 0) (i : nat).

(** The running process's lock on a buffer. *)
Definition my_lock (o : kst) : option sleeplock := Some (mksleep 1 (cur_pid o)).

Record cst (o : kst) (a : gmap Z abuf) (dk : gmap Z (list Z)) (ws : list (Z * list Z)) (s : kst) : Prop := mkcst {
  cst_calm : calm i s;
  cst_rel : exists l, cache_rel d s l a;
  cst_out : outside s = o;
  cst_disk : k_disk s = dk;
  cst_writes : k_dwrites s = ws
}.

Lemma outside_outside_pid s : cur_pid (outside s) = cur_pid s.
Proof. rewrite <- (cur_pid_norm s). done. Qed.

Lemma cst_pid o a dk ws s : cst o a dk ws s -> cur_pid s = cur_pid o.
Proof. intros Hs. by rewrite <- (cst_out _ _ _ _ _ Hs), outside_outside_pid. Qed.

Lemma cst_quiet o a a' dk ws s s' l : cst o a dk ws s -> cache_rel d s' l a' -> quiet s s' -> cst o a' dk ws s'.
Proof.
  intros [Hc _ Ho Hdk Hws] Hrel Hq. pose proof (quiet_calm _ _ _ Hq Hc) as Hc'. destruct Hq as (E1 & E2 & E3).
  split; [done|by exists l|congruence..].
Qed.

(** The parts of the state outside the cache that its clients read. *)
Lemma cst_log o a dk ws s : cst o a dk ws s -> k_log s = k_log o.
Proof. intros Hs. by rewrite <- (cst_out _ _ _ _ _ Hs). Qed.

(** Changing a field of the log's memory image. *)
Lemma cst_set_log g o a dk ws s : cst o a dk ws s -> cst (set_k_log g o) a dk ws (set_k_log g s).
Proof. intros [Hc [l Hrel] Ho Hdk Hws]. split; [exact Hc|exists l; exact Hrel|by rewrite <- Ho|exact Hdk|exact Hws]. Qed.

Lemma io_ready_add k m e : io_ready i (k + m) e -> io_ready i m e.
Proof. induction k as [|k IH]; [done|]. intros Hr. apply IH. by apply io_ready_less. Qed.

Lemma io_ready_le k m e : (m <= k)%nat -> io_ready i k e -> io_ready i m e.
Proof. intros Hle Hr. apply (io_ready_add (k - m)). by replace (k - m + m)%nat with k by lia. Qed.

(** ** The routines *)

Lemma blk_bread n m o a dk ws (Q : nat -> world kst -> Prop) s e :
  cst o a dk ws s -> io_ready i (S m) e -> 0 <= n < 2147483648 -> available a n ->
  (forall x s' e', ab_data x = content a dk n -> ab_refs x = refs a n + 1 -> ab_lock x = my_lock o ->
     (forall y, a !! n = Some y -> ab_idx x = ab_idx y) ->
     cst o (<[n := x]> a) dk ws s' -> io_ready i m e' -> Q (ab_idx x) (World s' e')) ->
  wp (bread d n) Q (World s e).
Proof.
  intros Hs Hio Hn Hav HQ. destruct (cst_rel _ _ _ _ _ Hs) as [l Hrel].
  apply (wp_bread d Hd n i m l a); try done; [apply Hs|]. cbn [st]. intros j s' e' Hrel' Hq Hio' Hj.
  rewrite (cst_disk _ _ _ _ _ Hs), (cst_pid _ _ _ _ _ Hs) in Hrel'.
  apply (HQ (mkab j (content a dk n) (refs a n + 1) (my_lock o))); try done. by eapply cst_quiet.
Qed.

Lemma blk_read n x o a dk ws (Q : buf -> world kst -> Prop) s e : cst o a dk ws s -> a !! n = Some x ->
  (forall b, b_data b = ab_data x -> b_blockno b = n -> length (ab_data x) = BSIZE -> Q b (World s e)) ->
  wp (buf_at (ab_idx x)) Q (World s e).
Proof.
  intros Hs Hx HQ. destruct (cst_rel _ _ _ _ _ Hs) as [l Hrel]. apply (wp_buf_live d n x l a); [done|done|].
  intros b E1 E2 E3. apply HQ; [done|done|by rewrite <- E1].
Qed.

Lemma blk_write n x f v o a dk ws (Q : unit -> world kst -> Prop) s e : cst o a dk ws s -> a !! n = Some x ->
  (forall b, b_data b = ab_data x -> f b = set_b_data v b) -> length v = BSIZE ->
  (forall s', cst o (<[n := mkab (ab_idx x) v (ab_refs x) (ab_lock x)]> a) dk ws s' -> Q tt (World s' e)) ->
  wp (modify_buf (ab_idx x) f) Q (World s e).
Proof.
  intros Hs Hx Hf Hv HQ. destruct (cst_rel _ _ _ _ _ Hs) as [l Hrel]. apply (wp_buf_data d n x f v l a); [done..|].
  intros s' Hrel' Hq. apply HQ. by eapply cst_quiet.
Qed.

Lemma blk_bwrite n m x o a dk ws (Q : unit -> world kst -> Prop) s e : cst o a dk ws s -> io_ready i (S m) e -> a !! n = Some x ->
  ab_lock x = my_lock o ->
  (forall s' e', cst o a (<[n := ab_data x]> dk) ((n, ab_data x) :: ws) s' -> io_ready i m e' -> Q tt (World s' e')) ->
  wp (bwrite (ab_idx x)) Q (World s e).
Proof.
  intros Hs Hio Hx Hlk HQ. destruct (cst_rel _ _ _ _ _ Hs) as [l Hrel].
  apply (wp_bwrite d n i m x l a); cbn [st]; try done; [apply Hs|by rewrite (cst_pid _ _ _ _ _ Hs)|]. cbn [st].
  intros s' e' Hrel' Eout Edk Edw Hio'. destruct Hs as [Hc _ Ho Hdk Hws]. apply HQ; [|done].
  split; [by eapply outside_calm|by exists l|congruence..].
Qed.

Lemma blk_brelse n x o a dk ws (Q : unit -> world kst -> Prop) s e : cst o a dk ws s -> a !! n = Some x -> ab_lock x = my_lock o ->
  (ab_refs x = 1 -> ab_data x = disk_block dk n) ->
  (forall s', cst o (released n x a) dk ws s' -> Q tt (World s' e)) -> wp (brelse (ab_idx x)) Q (World s e).
Proof.
  intros Hs Hx Hlk Hcl HQ. destruct (cst_rel _ _ _ _ _ Hs) as [l Hrel].
  apply (wp_brelse d n i x l a); cbn [st]; try done; [apply Hs|by rewrite (cst_pid _ _ _ _ _ Hs)|by rewrite (cst_disk _ _ _ _ _ Hs)|].
  intros s' Hrel' Hq. apply HQ. by eapply cst_quiet.
Qed.

Lemma blk_bpin n x o a dk ws (Q : unit -> world kst -> Prop) s e : cst o a dk ws s -> a !! n = Some x -> ab_refs x + 1 < 4294967296 ->
  (forall s', cst o (<[n := mkab (ab_idx x) (ab_data x) (ab_refs x + 1) (ab_lock x)]> a) dk ws s' -> Q tt (World s' e)) ->
  wp (bpin (ab_idx x)) Q (World s e).
Proof.
  intros Hs Hx Hr HQ. destruct (cst_rel _ _ _ _ _ Hs) as [l Hrel]. apply (wp_bpin d n i x l a); try done; [apply Hs|].
  intros s' Hrel' Hq. apply HQ. by eapply cst_quiet.
Qed.

Lemma blk_bunpin n x o a dk ws (Q : unit -> world kst -> Prop) s e : cst o a dk ws s -> a !! n = Some x -> 1 < ab_refs x ->
  (forall s', cst o (<[n := mkab (ab_idx x) (ab_data x) (ab_refs x - 1) (ab_lock x)]> a) dk ws s' -> Q tt (World s' e)) ->
  wp (bunpin (ab_idx x)) Q (World s e).
Proof.
  intros Hs Hx Hr HQ. destruct (cst_rel _ _ _ _ _ Hs) as [l Hrel]. apply (wp_bunpin d n i x l a); try done; [apply Hs|].
  intros s' Hrel' Hq. apply HQ. by eapply cst_quiet.
Qed.

Lemma cst_entry o a dk ws s n x : cst o a dk ws s -> a !! n = Some x ->
  0 < ab_refs x < 4294967296 /\ length (ab_data x) = BSIZE /\ 0 <= n < 2147483648.
Proof.
  intros Hs Hx. destruct (cst_rel _ _ _ _ _ Hs) as [l [Hok _]].
  destruct (co_entry _ _ _ _ _ _ _ _ Hok Hx) as (b & _ & _ & _ & _ & _ & <- & _ & Hr & _ & _ & Hlen & Hn). done.
Qed.

(** Every block in use and every block of the disk is a full block. *)
Lemma cst_length o a dk ws s n : cst o a dk ws s -> length (content a dk n) = BSIZE.
Proof.
  intros Hs. destruct (cst_rel _ _ _ _ _ Hs) as [l [Hok _]]. rewrite (cst_disk _ _ _ _ _ Hs) in Hok. unfold content.
  destruct (a !! n) as [x|] eqn:Hx; [|apply (co_disk _ _ _ _ _ _ Hok)].
  destruct (co_entry _ _ _ _ _ _ _ _ Hok Hx) as (b & _ & _ & _ & _ & _ & <- & _ & _ & _ & _ & Hlen & _). done.
Qed.

End Blocks.
