(* ===== verification/Log.v ===== *)
(** * kernel/log.c: the write-ahead log

    Transactions over the buffer cache.  The crash theorem: whatever block write
    of a commit is the last that reaches the disk, recovery at the next start
    produces the disk before the transaction or the disk after it. *)

From S2P Require Import Prelude State Spinlock Norm Sched Sleeplock Bio.

Section Log.
Context `{DiskDriver}.

Definition modify_log (f : logst -> logst) : K unit := modify (fun s => set_k_log (f (k_log s)) s).
Definition the_log : K logst := gets k_log.

(** The header block is read as an array of words: word [i] of a block. *)
Definition word (bs : list Z) (i : nat) : Z := get_le 4 (4 * i) bs.
(** Storing a word in a block. *)
Definition set_word (i : nat) (v : Z) (bs : list Z) : list Z := patch (4 * i) (le_bytes 4 v) bs.

(** [lh->block[i]] is word [i + 1] of the header block, [lh->n] word 0; both are
    [int]s. *)
Definition hdr_n (bs : list Z) : Z := s32 (word bs 0).
Definition hdr_block (bs : list Z) (i : nat) : Z := s32 (word bs (S i)).

(** [log.lh.block[i] = v] for an index computed at run time. *)
Definition set_log_block (i : Z) (v : Z) : K unit :=
  if (i <? 0) || (LOGSIZE <=? i) then fault "log.lh.block: index out of range" else
  modify_log (fun g => set_lg_block (<[Z.to_nat i := v]> (lg_block g)) g).
Definition log_block (i : Z) : K Z :=
  if (i <? 0) then fault "log.lh.block: index out of range" else
  g ← the_log; nth_or_fault (lg_block g) (Z.to_nat i).

Definition install_step (recovering : bool) (tail : nat) : K (option unit) :=
  g ← the_log;
  lbuf ← bread (u32 (lg_dev g)) (u32 (lg_start g + tail + 1));
  bno ← log_block tail;
  dbuf ← bread (u32 (lg_dev g)) (u32 bno);
  l ← buf_at lbuf;
  modify_buf dbuf (set_b_data (b_data l));;
  bwrite dbuf;;
  when (negb recovering) (bunpin dbuf);;
  brelse lbuf;;
  brelse dbuf;;
  mret None.

(** The loop bound [log.lh.n] does not change while the loop runs. *)
Definition install_trans (recovering : bool) : K unit :=
  g ← the_log;
  foreach (seq 0 (Z.to_nat (lg_n g))) (install_step recovering);;
  mret tt.

Definition read_head : K unit :=
  g ← the_log;
  i ← bread (u32 (lg_dev g)) (u32 (lg_start g));
  b ← buf_at i;
  modify_log (set_lg_n (hdr_n (b_data b)));;
  foreach (seq 0 (Z.to_nat (hdr_n (b_data b)))) (fun k =>
    set_log_block k (hdr_block (b_data b) k);;
    mret (@None unit));;
  brelse i.

Definition write_head : K unit :=
  g ← the_log;
  i ← bread (u32 (lg_dev g)) (u32 (lg_start g));
  modify_buf i (fun b => set_b_data (set_word 0 (lg_n g) (b_data b)) b);;
  foreach (seq 0 (Z.to_nat (lg_n g))) (fun k =>
    v ← log_block k;
    modify_buf i (fun b => set_b_data (set_word (S k) v (b_data b)) b);;
    mret (@None unit));;
  bwrite i;;
  brelse i.

Definition recover_from_log : K unit :=
  read_head;;
  install_trans true;;
  modify_log (set_lg_n 0);;
  write_head.

Definition sizeof_logheader : Z := 4 + 4 * LOGSIZE.

Definition initlog (dev : Z) (sb : superblock) : K unit :=
  if BSIZE <=? sizeof_logheader then panic "initlog: too big logheader" else
  initlock L_log;;
  modify_log (set_lg_start (s32 (sb_logstart sb)));;
  modify_log (set_lg_size (s32 (sb_nlog sb)));;
  modify_log (set_lg_dev dev);;
  recover_from_log.

(** The [while (1)] of [begin_op]; each sleep uses up an action of the
    environment. *)
Fixpoint begin_op_loop (fuel : nat) : K unit :=
  match fuel with
  | O => fault "begin_op: out of fuel"
  | S fuel =>
      g ← the_log;
      if negb (lg_committing g =? 0) then
        sleep Ch_log L_log;;
        begin_op_loop fuel
      else if LOGSIZE <? lg_n g + (lg_outstanding g + 1) * MAXOPBLOCKS then
        sleep Ch_log L_log;;
        begin_op_loop fuel
      else
        modify_log (set_lg_outstanding (lg_outstanding g + 1));;
        release L_log
  end.

Definition begin_op : K unit :=
  acquire L_log;;
  env_fuel begin_op_loop.

Definition write_log_step (tail : nat) : K (option unit) :=
  g ← the_log;
  to ← bread (u32 (lg_dev g)) (u32 (lg_start g + tail + 1));
  bno ← log_block tail;
  from ← bread (u32 (lg_dev g)) (u32 bno);
  f ← buf_at from;
  modify_buf to (set_b_data (b_data f));;
  bwrite to;;
  brelse from;;
  brelse to;;
  mret None.

Definition write_log : K unit :=
  g ← the_log;
  foreach (seq 0 (Z.to_nat (lg_n g))) write_log_step;;
  mret tt.

Definition commit : K unit :=
  g ← the_log;
  when (0 <? lg_n g)
    (write_log;;
     write_head;;
     install_trans false;;
     modify_log (set_lg_n 0);;
     write_head).

Definition end_op : K unit :=
  acquire L_log;;
  modify_log (fun g => set_lg_outstanding (lg_outstanding g - 1) g);;
  g ← the_log;
  if negb (lg_committing g =? 0) then panic "log.committing" else
  let do_commit := lg_outstanding g =? 0 in
  (if (do_commit : bool) then modify_log (set_lg_committing 1) else wakeup Ch_log);;
  release L_log;;
  when do_commit
    (commit;;
     acquire L_log;;
     modify_log (set_lg_committing 0);;
     wakeup Ch_log;;
     release L_log).

(** The absorption search of [log_write]: the first [i < n] with
    [log.lh.block[i] == blockno] (compared as [uint]s), else [n]. *)
Fixpoint absorb (blocks : list Z) (n : nat) (blockno : Z) : nat :=
  match n, blocks with
  | S n, x :: blocks => if u32 x =? blockno then 0%nat else S (absorb blocks n blockno)
  | _, _ => 0%nat
  end.

Definition log_write (b : nat) : K unit :=
  acquire L_log;;
  g ← the_log;
  if (LOGSIZE <=? lg_n g) || (lg_size g - 1 <=? lg_n g) then panic "too big a transaction" else
  if lg_outstanding g <? 1 then panic "log_write outside of trans" else
  x ← buf_at b;
  let i := Z.of_nat (absorb (lg_block g) (Z.to_nat (lg_n g)) (b_blockno x)) in
  set_log_block i (s32 (b_blockno x));;
  when (i =? lg_n g)
    (bpin b;;
     modify_log (fun g => set_lg_n (lg_n g + 1) g));;
  release L_log.

End Log.
