(* ===== verification/LogSpec.v ===== *)
(** * The write-ahead log is crash safe

    [replay] is the logical disk: what the home blocks hold once the log on disk
    has been installed.  [commit] performs a sequence of block writes; the theorem
    is that after every prefix of it the logical disk is either the one before the
    transaction or the one after it, and that [recover_from_log], itself
    interruptible at every write, turns the logical disk into the real one. *)

From S2P Require Import Prelude State Spinlock Norm Sched Sleeplock Bio LruList Cache Blocks Log.

(** ** The header block *)

Lemma length_set_word k v bs : (4 * k + 4 <= length bs)%nat -> length (set_word k v bs) = length bs.
Proof. intros Hk. unfold set_word. apply length_patch. by rewrite length_le_bytes. Qed.

Lemma word_set_eq k v bs : (4 * k + 4 <= length bs)%nat -> word (set_word k v bs) k = u32 v.
Proof. intros Hk. unfold word, set_word. by rewrite get_le_patch_eq. Qed.

Lemma word_set_ne j k v bs : j <> k -> (4 * k + 4 <= length bs)%nat -> word (set_word k v bs) j = word bs j.
Proof. intros Hne Hk. unfold word, set_word. apply get_le_patch_ne; rewrite length_le_bytes; lia. Qed.

(** The header of a log of the blocks [B], written over [old]. *)
Fixpoint set_blocks (k : nat) (B : list Z) (bs : list Z) : list Z :=
  match B with
  | [] => bs
  | b :: B => set_blocks (S k) B (set_word (S k) b bs)
  end.
Definition header (B : list Z) (old : list Z) : list Z := set_blocks 0 B (set_word 0 (length B) old).

Lemma length_set_blocks k B bs : (4 * (k + length B) + 4 <= length bs)%nat -> length (set_blocks k B bs) = length bs.
Proof.
  revert k bs. induction B as [|b B IH]; intros k bs Hk; cbn [set_blocks length] in *; [done|].
  rewrite IH; rewrite length_set_word; lia.
Qed.

Lemma word_set_blocks_low k B bs j : (j <= k)%nat -> (4 * (k + length B) + 4 <= length bs)%nat -> word (set_blocks k B bs) j = word bs j.
Proof.
  revert k bs. induction B as [|b B IH]; intros k bs Hj Hk; cbn [set_blocks length] in *; [done|].
  rewrite IH, word_set_ne; rewrite ?length_set_word; lia || done.
Qed.

Lemma word_set_blocks k B bs j b : B !! j = Some b -> (4 * (k + length B) + 4 <= length bs)%nat ->
  word (set_blocks k B bs) (S (k + j)) = u32 b.
Proof.
  revert k bs j. induction B as [|c B IH]; intros k bs j Hj Hk; cbn [set_blocks length] in *; [done|].
  destruct j as [|j]; cbn in Hj.
  - injection Hj as ->. rewrite word_set_blocks_low by (rewrite ?length_set_word; lia).
    replace (S (k + 0)) with (S k) by lia. apply word_set_eq. lia.
  - replace (S (k + S j)) with (S (S k + j)) by lia. apply IH; [done|]. rewrite length_set_word; lia.
Qed.

Lemma length_header B old : (4 * length B + 4 <= length old)%nat -> length (header B old) = length old.
Proof. intros Hk. unfold header. rewrite length_set_blocks; rewrite length_set_word; lia. Qed.

Lemma hdr_n_header B old : (4 * length B + 4 <= length old)%nat -> length B < 2147483648 -> hdr_n (header B old) = length B.
Proof.
  intros Hk HB. unfold hdr_n, header. rewrite word_set_blocks_low, word_set_eq by (rewrite ?length_set_word; lia).
  rewrite u32_small, s32_small by lia. done.
Qed.

Lemma header_empty old : length old = BSIZE -> hdr_n (header [] old) = 0.
Proof. intros E. apply (hdr_n_header []); [rewrite E; cbn; unfold BSIZE; lia|done]. Qed.

Lemma hdr_block_header B old k b : B !! k = Some b -> 0 <= b < 2147483648 -> (4 * length B + 4 <= length old)%nat ->
  hdr_block (header B old) k = b.
Proof.
  intros Hb Hr Hk. unfold hdr_block, header. rewrite (word_set_blocks 0 B _ k b) by (rewrite ?length_set_word; done || lia).
  rewrite u32_small, s32_small by lia. done.
Qed.

(** ** The logical disk *)

(** The disk after a sequence of block writes, the first one first. *)
Definition written (ws : list (Z * list Z)) (dk : gmap Z (list Z)) : gmap Z (list Z) :=
  foldl (fun dk w => <[fst w := snd w]> dk) dk ws.

(** The blocks the header on disk lists. *)
Definition disk_log (start : Z) (dk : gmap Z (list Z)) : list Z :=
  hdr_block (disk_block dk start) <$> seq 0 (Z.to_nat (hdr_n (disk_block dk start))).

(** What installing blocks [B], copied from the log from slot [k] on, makes of
    block [n]: the last copy wins. *)
Fixpoint installed (start : Z) (dk : gmap Z (list Z)) (k : nat) (B : list Z) (n : Z) (v : list Z) : list Z :=
  match B with
  | [] => v
  | b :: B => installed start dk (S k) B n (if b =? n then disk_block dk (start + 1 + k) else v)
  end.

Definition replay (start : Z) (dk : gmap Z (list Z)) (n : Z) : list Z :=
  installed start dk 0 (disk_log start dk) n (disk_block dk n).

Lemma installed_ext start dk dk' k B n v : (forall j : nat, (j < length B)%nat -> disk_block dk (start + 1 + (k + j)%nat) = disk_block dk' (start + 1 + (k + j)%nat)) ->
  installed start dk k B n v = installed start dk' k B n v.
Proof.
  revert k v. induction B as [|b B IH]; intros k v Hd; cbn [installed]; [done|].
  assert (disk_block dk (start + 1 + k) = disk_block dk' (start + 1 + k)) as ->.
  { specialize (Hd O ltac:(cbn; lia)). by rewrite Nat.add_0_r in Hd. }
  apply IH. intros j Hj. replace (S k + j)%nat with (k + S j)%nat by lia. apply Hd. cbn. lia.
Qed.

Lemma installed_notin start dk k B n v : n ∉ B -> installed start dk k B n v = v.
Proof.
  revert k v. induction B as [|b B IH]; intros k v Hn; cbn [installed]; [done|]. apply not_elem_of_cons in Hn as [Hne Hn].
  destruct (b =? n) eqn:E; bool_facts; [congruence|by apply IH].
Qed.

Lemma installed_in start dk k B n v v' : n ∈ B -> installed start dk k B n v = installed start dk k B n v'.
Proof.
  revert k v v'. induction B as [|b B IH]; intros k v v' Hn; cbn [installed]; [by apply elem_of_nil in Hn|].
  destruct (b =? n) eqn:E; bool_facts; [done|]. apply IH. apply elem_of_cons in Hn as [->|Hn]; done.
Qed.

(** Log slots that hold the values [f]. *)
Lemma installed_value start dk (f : Z -> list Z) k B n v :
  (forall (j : nat) b, B !! j = Some b -> disk_block dk (start + 1 + (k + j)%nat) = f b) ->
  installed start dk k B n v = if decide (n ∈ B) then f n else v.
Proof.
  revert k v. induction B as [|b B IH]; intros k v Hf; cbn [installed]; [by rewrite decide_False by apply not_elem_of_nil|].
  rewrite IH by (intros j c Hj; replace (S k + j)%nat with (k + S j)%nat by lia; by apply Hf).
  pose proof (Hf O b eq_refl) as Hb. rewrite Nat.add_0_r in Hb. destruct (b =? n) eqn:E; bool_facts; subst.
  - rewrite (decide_True (P := n ∈ n :: B)) by (by left). case_decide; done.
  - case_decide as H1; [by rewrite decide_True by (by right)|]. rewrite decide_False; [done|]. intros [->|?]%elem_of_cons; done.
Qed.

(** The header lists [B]. *)
Lemma disk_log_header start dk B old : disk_block dk start = header B old -> (4 * length B + 4 <= length old)%nat -> length B < 2147483648 ->
  Forall (fun b => 0 <= b < 2147483648) B -> disk_log start dk = B.
Proof.
  intros Hh Hl HB Hr. unfold disk_log. rewrite Hh, hdr_n_header, Nat2Z.id by done. apply list_eq. intros k.
  rewrite list_lookup_fmap. destruct (B !! k) as [b|] eqn:Hb.
  - rewrite lookup_seq_lt by (by eapply lookup_lt_Some). cbn. f_equal. apply hdr_block_header; [done| |done].
    rewrite list.Forall_forall in Hr. apply Hr. by eapply list_elem_of_lookup_2.
  - rewrite lookup_seq_ge; [done|]. by apply lookup_ge_None in Hb.
Qed.

(** ** The routines *)

Section Code.
Context `{DiskDriverOk} (d : Z) (Hd : d <> 0) (i : nat).

(** The log's description in memory: the device, where the log is, room for the
    listed blocks. *)
Record log_geom (g : logst) : Prop := {
  lgm_dev : u32 (lg_dev g) = d;
  lgm_start : 0 <= lg_start g /\ lg_start g + LOGSIZE + 1 < 2147483648;
  lgm_len : length (lg_block g) = LOGSIZE;
  lgm_n : 0 <= lg_n g <= LOGSIZE;
  lgm_fit : lg_n g < lg_size g <= LOGSIZE + 1
}.

(** A block outside the log area. *)
Definition home (g : logst) (n : Z) : Prop := 0 <= n < 2147483648 /\ (n < lg_start g \/ lg_start g + lg_size g <= n).

(** The blocks of the transaction. *)
Definition listed (g : logst) : list Z := take (Z.to_nat (lg_n g)) (lg_block g).

Lemma wp_the_log o a dk ws s e (Q : logst -> world kst -> Prop) : cst d i o a dk ws s -> Q (k_log o) (World s e) -> wp the_log Q (World s e).
Proof. intros Hs HQ. unfold the_log. wp_step. cbn [st]. by rewrite (cst_log _ _ _ _ _ _ _ Hs). Qed.

Lemma wp_log_block (k : nat) b o a dk ws s e (Q : Z -> world kst -> Prop) : cst d i o a dk ws s -> lg_block (k_log o) !! k = Some b ->
  Q b (World s e) -> wp (log_block k) Q (World s e).
Proof.
  intros Hs Hb HQ. unfold log_block. destruct (Z.of_nat k <? 0) eqn:E; bool_facts; [lia|]. wp_step.
  apply (wp_the_log _ _ _ _ _ _ _ Hs). rewrite Nat2Z.id. by apply wp_nth with b.
Qed.

Lemma length_listed g : log_geom g -> length (listed g) = Z.to_nat (lg_n g).
Proof. intros [_ _ Gl Gn _]. unfold listed. rewrite length_take, Gl. lia. Qed.

(** A block in use, read and given back: the blocks in use are the same again. *)
Lemma restore_entry n (x : abuf) (a : gmap Z abuf) : a !! n = Some x -> ab_lock x = None -> <[n := mkab (ab_idx x) (ab_data x) (ab_refs x) None]> a = a.
Proof. intros Hx Hl. apply insert_id. rewrite Hx. f_equal. destruct x; cbn in *; by subst. Qed.

Lemma wp_write_log_step (k : nat) b x m o a dk ws s e (Q : option unit -> world kst -> Prop) :
  let g := k_log o in let t := lg_start g + 1 + k in
  cst d i o a dk ws s -> io_ready i (3 + m) e -> log_geom g -> (k < LOGSIZE)%nat -> lg_block g !! k = Some b ->
  0 <= b < 2147483648 -> b <> t -> a !! b = Some x -> ab_lock x = None -> ab_refs x + 1 < 4294967296 ->
  a !! t = None -> (size a < NBUF)%nat ->
  (forall s' e', cst d i o a (<[t := ab_data x]> dk) ((t, ab_data x) :: ws) s' -> io_ready i m e' -> Q None (World s' e')) ->
  wp (write_log_step k) Q (World s e).
Proof.
  intros g t Hs Hio [Gd Gs Gl Gn Gf] Hk Hb Hbr Hbt Hx Hlk Hrf Ht Hsz HQ.
  destruct (cst_entry _ _ _ _ _ _ _ _ _ Hs Hx) as (Hrpos & _). unfold write_log_step. wp_step.
  apply (wp_the_log _ _ _ _ _ _ _ Hs). fold g. rewrite Gd.
  replace (u32 (lg_start g + Z.of_nat k + 1)) with t by (unfold t; rewrite u32_small; lia).
  wp_step. eapply (blk_bread d Hd i t (2 + m)); [done|done|unfold t; lia|unfold available; by rewrite Ht|].
  intros y s1 e1 Ey1 Ey2 Ey3 _ Hs1 Hio1. wp_step. apply (wp_log_block k b _ _ _ _ _ _ _ Hs1 Hb). rewrite u32_small by lia.
  wp_step. assert (Hx1 : <[t := y]> a !! b = Some x) by (by rewrite lookup_insert_ne).
  eapply (blk_bread d Hd i b (1 + m)); [done|done|done|unfold available; by rewrite Hx1|].
  intros z s2 e2 Ez1 Ez2 Ez3 Ez4 Hs2 Hio2. unfold content, refs in Ez1, Ez2. rewrite Hx1 in Ez1, Ez2.
  wp_step. eapply (blk_read d i b z); [done|apply lookup_insert_eq|]. intros bf Ebf _ Hlen.
  wp_step. eapply (blk_write d i t y); [exact Hs2|by rewrite lookup_insert_ne, lookup_insert_eq by done|done|by rewrite Ebf|].
  intros s3 Hs3. rewrite Ebf, Ez1 in Hs3.
  set (y' := mkab (ab_idx y) (ab_data x) (ab_refs y) (ab_lock y)) in Hs3. change (ab_idx y) with (ab_idx y').
  wp_step. eapply (blk_bwrite d i t m y'); [exact Hs3|done|apply lookup_insert_eq|done|]. intros s4 e4 Hs4 Hio4. cbn [ab_data y'] in Hs4.
  wp_step. eapply (blk_brelse d i b z); [exact Hs4|by rewrite lookup_insert_ne, lookup_insert_eq by done|done|rewrite Ez2; lia|].
  intros s5 Hs5. unfold released in Hs5. destruct (ab_refs z =? 1) eqn:E; bool_facts; [lia|].
  wp_step. change (ab_idx y) with (ab_idx y').
  eapply (blk_brelse d i t y'); [exact Hs5|by rewrite lookup_insert_ne, lookup_insert_eq by done|done| |].
  { intros _. unfold disk_block. by rewrite lookup_insert_eq. }
  intros s6 Hs6. wp_step. apply HQ; [|done]. replace a with (released t y' (<[b := mkab (ab_idx z) (ab_data z) (ab_refs z - 1) None]> (<[t := y']> (<[b := z]> (<[t := y]> a))))); [exact Hs6|].
  unfold released. assert (Ey : ab_refs y' = 1) by (cbn [y' ab_refs]; rewrite Ey2; unfold refs; by rewrite Ht).
  rewrite Ey, Z.eqb_refl.
  apply map_eq. intros n. destruct (decide (n = t)) as [->|Hnt]; [by rewrite lookup_delete_eq|].
  rewrite lookup_delete_ne by done. destruct (decide (n = b)) as [->|Hnb].
  - rewrite lookup_insert_eq, Hx. f_equal. rewrite Ez1, Ez2, (Ez4 x Hx1). destruct x; cbn in *. subst. f_equal. lia.
  - by rewrite !lookup_insert_ne by done.
Qed.

(** A reference is dropped from a block whose contents are now [v]. *)
Definition unpinned (n : Z) (x : abuf) (v : list Z) (a : gmap Z abuf) : gmap Z abuf :=
  if ab_refs x =? 1 then delete n a else <[n := mkab (ab_idx x) v (ab_refs x - 1) None]> a.

Lemma wp_install_commit (k : nat) b x m o a dk ws s e (Q : option unit -> world kst -> Prop) :
  let g := k_log o in let t := lg_start g + 1 + k in let v := disk_block dk t in
  cst d i o a dk ws s -> io_ready i (3 + m) e -> log_geom g -> (k < LOGSIZE)%nat -> lg_block g !! k = Some b ->
  0 <= b < 2147483648 -> b <> t -> a !! b = Some x -> ab_lock x = None -> ab_refs x + 1 < 4294967296 ->
  a !! t = None -> (size a < NBUF)%nat ->
  (forall s' e', cst d i o (unpinned b x v a) (<[b := v]> dk) ((b, v) :: ws) s' -> io_ready i m e' -> Q None (World s' e')) ->
  wp (install_step false k) Q (World s e).
Proof.
  intros g t v Hs Hio [Gd Gs Gl Gn Gf] Hk Hb Hbr Hbt Hx Hlk Hrf Ht Hsz HQ.
  destruct (cst_entry _ _ _ _ _ _ _ _ _ Hs Hx) as (Hrpos & _). unfold install_step. wp_step.
  apply (wp_the_log _ _ _ _ _ _ _ Hs). fold g. rewrite Gd.
  replace (u32 (lg_start g + Z.of_nat k + 1)) with t by (unfold t; rewrite u32_small; lia).
  wp_step. eapply (blk_bread d Hd i t (2 + m)); [done|done|unfold t; lia|unfold available; by rewrite Ht|].
  intros y s1 e1 Ey1 Ey2 Ey3 _ Hs1 Hio1. unfold content, refs in Ey1, Ey2. rewrite Ht in Ey1, Ey2. fold v in Ey1.
  wp_step. apply (wp_log_block k b _ _ _ _ _ _ _ Hs1 Hb). rewrite u32_small by lia.
  wp_step. assert (Hx1 : <[t := y]> a !! b = Some x) by (by rewrite lookup_insert_ne).
  eapply (blk_bread d Hd i b (1 + m)); [done|done|done|unfold available; by rewrite Hx1|].
  intros z s2 e2 Ez1 Ez2 Ez3 Ez4 Hs2 Hio2. unfold content, refs in Ez1, Ez2. rewrite Hx1 in Ez1, Ez2.
  wp_step. eapply (blk_read d i t y); [done|by rewrite lookup_insert_ne, lookup_insert_eq by done|]. intros bl Ebl _ Hlen.
  wp_step. eapply (blk_write d i b z); [exact Hs2|apply lookup_insert_eq|done|by rewrite Ebl|].
  intros s3 Hs3. rewrite Ebl, Ey1 in Hs3.
  set (z' := mkab (ab_idx z) v (ab_refs z) (ab_lock z)) in Hs3. change (ab_idx z) with (ab_idx z').
  wp_step. eapply (blk_bwrite d i b m z'); [exact Hs3|done|apply lookup_insert_eq|done|]. intros s4 e4 Hs4 Hio4. cbn [ab_data z'] in Hs4.
  unfold when. cbn [negb]. wp_step. eapply (blk_bunpin d i b z'); [exact Hs4|apply lookup_insert_eq|cbn; lia|]. intros s5 Hs5.
  wp_step. eapply (blk_brelse d i t y); [exact Hs5|by rewrite !lookup_insert_ne, lookup_insert_eq by done|done| |].
  { intros _. rewrite Ey1. unfold v, disk_block. by rewrite lookup_insert_ne. }
  intros s6 Hs6. unfold released in Hs6. rewrite Ey2 in Hs6. change (0 + 1 =? 1) with true in Hs6. cbv iota in Hs6.
  cbn [ab_idx ab_data ab_refs ab_lock z'] in Hs6. set (z'' := mkab (ab_idx z) v (ab_refs z - 1) (ab_lock z)) in Hs6.
  wp_step. change (ab_idx z') with (ab_idx z'').
  eapply (blk_brelse d i b z''); [exact Hs6|by rewrite lookup_delete_ne, lookup_insert_eq by done|done| |].
  { intros _. unfold disk_block. by rewrite lookup_insert_eq. }
  intros s7 Hs7. wp_step. apply HQ; [|done]. unfold unpinned. unfold released in Hs7. cbn [ab_idx ab_data ab_refs z''] in Hs7.
  rewrite Ez2, (Ez4 x Hx1) in Hs7. replace (ab_refs x + 1 - 1) with (ab_refs x) in Hs7 by lia.
  match goal with _ : cst _ _ _ ?A1 _ _ s7 |- cst _ _ _ ?A2 _ _ s7 => replace A2 with A1; [exact Hs7|] end.
  apply map_eq. intros n. destruct (ab_refs x =? 1); destruct (decide (n = b)) as [->|Hnb];
    rewrite ?lookup_delete_eq, ?lookup_insert_eq by done; try done;
    rewrite ?(lookup_delete_ne _ b), ?(lookup_insert_ne _ b) by done;
    (destruct (decide (n = t)) as [->|Hnt]; [by rewrite lookup_delete_eq|by rewrite lookup_delete_ne, !lookup_insert_ne by done]).
Qed.


Lemma wp_install_recover (k : nat) b m o a dk ws s e (Q : option unit -> world kst -> Prop) :
  let g := k_log o in let t := lg_start g + 1 + k in let v := disk_block dk t in
  cst d i o a dk ws s -> io_ready i (3 + m) e -> log_geom g -> (k < LOGSIZE)%nat -> lg_block g !! k = Some b ->
  0 <= b < 2147483648 -> b <> t -> a !! b = None -> a !! t = None -> (S (size a) < NBUF)%nat ->
  (forall s' e', cst d i o a (<[b := v]> dk) ((b, v) :: ws) s' -> io_ready i m e' -> Q None (World s' e')) ->
  wp (install_step true k) Q (World s e).
Proof.
  intros g t v Hs Hio [Gd Gs Gl Gn Gf] Hk Hb Hbr Hbt Hx Ht Hsz HQ. unfold install_step. wp_step.
  apply (wp_the_log _ _ _ _ _ _ _ Hs). fold g. rewrite Gd.
  replace (u32 (lg_start g + Z.of_nat k + 1)) with t by (unfold t; rewrite u32_small; lia).
  wp_step. eapply (blk_bread d Hd i t (2 + m)); [done|done|unfold t; lia|unfold available; rewrite Ht; lia|].
  intros y s1 e1 Ey1 Ey2 Ey3 _ Hs1 Hio1. unfold content, refs in Ey1, Ey2. rewrite Ht in Ey1, Ey2. fold v in Ey1.
  wp_step. apply (wp_log_block k b _ _ _ _ _ _ _ Hs1 Hb). rewrite u32_small by lia.
  wp_step. assert (Hx1 : <[t := y]> a !! b = None) by (by rewrite lookup_insert_ne).
  eapply (blk_bread d Hd i b (1 + m)); [done|done|done| |].
  { unfold available. rewrite Hx1, map_size_insert_None by done. lia. }
  intros z s2 e2 Ez1 Ez2 Ez3 _ Hs2 Hio2. unfold content, refs in Ez1, Ez2. rewrite Hx1 in Ez1, Ez2.
  wp_step. eapply (blk_read d i t y); [done|by rewrite lookup_insert_ne, lookup_insert_eq by done|]. intros bl Ebl _ Hlen.
  wp_step. eapply (blk_write d i b z); [exact Hs2|apply lookup_insert_eq|done|by rewrite Ebl|].
  intros s3 Hs3. rewrite Ebl, Ey1 in Hs3.
  set (z' := mkab (ab_idx z) v (ab_refs z) (ab_lock z)) in Hs3. change (ab_idx z) with (ab_idx z').
  wp_step. eapply (blk_bwrite d i b m z'); [exact Hs3|done|apply lookup_insert_eq|done|]. intros s4 e4 Hs4 Hio4. cbn [ab_data z'] in Hs4.
  unfold when. cbn [negb]. wp_step. wp_step.
  wp_step. eapply (blk_brelse d i t y); [exact Hs4|by rewrite !lookup_insert_ne, lookup_insert_eq by done|done| |].
  { intros _. rewrite Ey1. unfold v, disk_block. by rewrite lookup_insert_ne. }
  intros s5 Hs5. unfold released in Hs5. rewrite Ey2 in Hs5. change (0 + 1 =? 1) with true in Hs5. cbv iota in Hs5.
  wp_step. eapply (blk_brelse d i b z'); [exact Hs5|by rewrite lookup_delete_ne, lookup_insert_eq by done|done| |].
  { intros _. unfold disk_block. by rewrite lookup_insert_eq. }
  intros s6 Hs6. wp_step. apply HQ; [|done]. unfold released in Hs6. cbn [ab_refs z'] in Hs6. rewrite Ez2 in Hs6.
  change (0 + 1 =? 1) with true in Hs6. cbv iota in Hs6.
  match goal with _ : cst _ _ _ ?A1 _ _ s6 |- cst _ _ _ ?A2 _ _ s6 => replace A2 with A1; [exact Hs6|] end.
  apply map_eq. intros n. destruct (decide (n = b)) as [->|Hnb]; [by rewrite lookup_delete_eq|rewrite lookup_delete_ne by done].
  destruct (decide (n = t)) as [->|Hnt]; [by rewrite lookup_delete_eq|by rewrite lookup_delete_ne, !lookup_insert_ne by done].
Qed.

(** [write_head]: the header block gets the listed blocks. *)
Lemma wp_write_head m o a dk ws s e (Q : unit -> world kst -> Prop) :
  let g := k_log o in let h := header (listed g) (disk_block dk (lg_start g)) in
  cst d i o a dk ws s -> io_ready i (2 + m) e -> log_geom g -> a !! lg_start g = None -> (size a < NBUF)%nat ->
  (forall s' e', cst d i o a (<[lg_start g := h]> dk) ((lg_start g, h) :: ws) s' -> io_ready i m e' -> Q tt (World s' e')) ->
  wp write_head Q (World s e).
Proof.
  intros g h Hs Hio Hg Ht Hsz HQ. pose proof Hg as [Gd Gs Gl Gn Gf]. unfold write_head. wp_step.
  apply (wp_the_log _ _ _ _ _ _ _ Hs). fold g. rewrite Gd, u32_small by lia.
  wp_step. eapply (blk_bread d Hd i (lg_start g) (1 + m)); [done|done|lia|unfold available; by rewrite Ht|].
  intros y s1 e1 Ey1 Ey2 Ey3 _ Hs1 Hio1. unfold content, refs in Ey1, Ey2. rewrite Ht in Ey1, Ey2.
  assert (Hlen : length (disk_block dk (lg_start g)) = BSIZE).
  { pose proof (cst_length _ _ _ _ _ _ _ (lg_start g) Hs) as E. unfold content in E. by rewrite Ht in E. }
  wp_step. eapply (blk_write d i _ y); [exact Hs1|apply lookup_insert_eq|intros bf Ebf; by rewrite Ebf| |].
  { rewrite length_set_word; rewrite Ey1, Hlen; [done|unfold BSIZE; lia]. }
  intros s2 Hs2. rewrite insert_insert_eq in Hs2.
  wp_step. apply wp_foreach_seq with (fun k w => exists s' v, w = World s' e1 /\
    length v = BSIZE /\ cst d i o (<[lg_start g := mkab (ab_idx y) v (ab_refs y) (ab_lock y)]> a) dk ws s' /\
    set_blocks k (drop k (listed g)) v = h).
  - exists s2, (set_word 0 (lg_n g) (ab_data y)). rewrite drop_0. split_and!; [done| |done|].
    + rewrite length_set_word; rewrite Ey1, Hlen; [done|unfold BSIZE; lia].
    + unfold h, header. rewrite length_listed, Ey1 by done. by rewrite Z2Nat.id by lia.
  - intros k w Hk (s' & v & -> & Hv & Hs' & Hset).
    destruct (lookup_lt_is_Some_2 (listed g) k) as [b Hb]; [rewrite length_listed by done; lia|].
    assert (Hb' : lg_block g !! k = Some b) by (unfold listed in Hb; by rewrite lookup_take_lt in Hb by lia).
    wp_step. eapply wp_log_block; [exact Hs'|exact Hb'|]. wp_step. change (ab_idx y) with (ab_idx (mkab (ab_idx y) v (ab_refs y) (ab_lock y))).
    eapply (blk_write d i (lg_start g)); [exact Hs'|apply lookup_insert_eq|intros bf Ebf; by rewrite Ebf| |]; cbn [ab_data].
    { rewrite length_set_word; rewrite Hv; [done|unfold BSIZE, LOGSIZE in *; lia]. }
    intros s3 Hs3. cbn [ab_idx ab_refs ab_lock] in Hs3. rewrite insert_insert_eq in Hs3. wp_step.
    exists s3, (set_word (S k) b v). split_and!; [done| |done|].
    + rewrite length_set_word; rewrite Hv; [done|unfold BSIZE, LOGSIZE in *; lia].
    + by rewrite (drop_S _ _ _ Hb) in Hset.
  - intros w (s' & v & -> & Hv & Hs' & Hset).
    rewrite drop_ge in Hset by (rewrite length_listed; [lia|done]). cbn [set_blocks] in Hset. subst v.
    set (z := mkab (ab_idx y) h (ab_refs y) (ab_lock y)) in Hs'. change (ab_idx y) with (ab_idx z).
    wp_step. eapply (blk_bwrite d i _ m z); [exact Hs'|done|apply lookup_insert_eq|done|]. intros s3 e3 Hs3 Hio3. cbn [ab_data z] in Hs3.
    eapply (blk_brelse d i _ z); [exact Hs3|apply lookup_insert_eq|done|intros _; unfold disk_block; by rewrite lookup_insert_eq|].
    intros s4 Hs4. apply HQ; [|done]. unfold released in Hs4. cbn [ab_refs z] in Hs4. rewrite Ey2 in Hs4.
    change (0 + 1 =? 1) with true in Hs4. cbv iota in Hs4. by rewrite delete_insert_id in Hs4.
Qed.

(** ** Commit *)

(** The blocks in use when a transaction is committed. *)
Record tx_ok (g : logst) (a : gmap Z abuf) : Prop := {
  tx_nodup : NoDup (listed g);
  tx_pinned : forall b, b ∈ listed g -> home g b /\ exists x, a !! b = Some x /\ ab_lock x = None /\ ab_refs x + 1 < 4294967296;
  tx_area : forall n, lg_start g <= n < lg_start g + lg_size g -> a !! n = None;
  tx_room : (size a < NBUF)%nat
}.

(** The value a transaction gives to a block. *)
Definition new_value (a : gmap Z abuf) (n : Z) : list Z := match a !! n with Some x => ab_data x | None => [] end.

(** The four groups of writes of a commit. *)
Definition log_writes (g : logst) (a : gmap Z abuf) : list (Z * list Z) :=
  imap (fun k b => (lg_start g + 1 + k, new_value a b)) (listed g).
Definition install_writes (g : logst) (a : gmap Z abuf) : list (Z * list Z) := (fun b => (b, new_value a b)) <$> listed g.

Lemma written_app ws ws' dk : written (ws ++ ws') dk = written ws' (written ws dk).
Proof. unfold written. apply foldl_app. Qed.

Lemma written_snoc ws w dk : written (ws ++ [w]) dk = <[fst w := snd w]> (written ws dk).
Proof. by rewrite written_app. Qed.

Lemma written_other ws dk n : n ∉ ws.*1 -> disk_block (written ws dk) n = disk_block dk n.
Proof.
  revert dk. induction ws as [|[m v] ws IH]; intros dk Hn; [done|]. rewrite fmap_cons, not_elem_of_cons in Hn. destruct Hn as [Hne Hn].
  cbn. change (foldl _ ?x ws) with (written ws x). rewrite IH by done. unfold disk_block. by rewrite lookup_insert_ne.
Qed.

Lemma listed_block g k b : log_geom g -> listed g !! k = Some b -> lg_block g !! k = Some b /\ (k < LOGSIZE)%nat /\ (k < Z.to_nat (lg_n g))%nat.
Proof.
  intros Hg Hb. pose proof (lookup_lt_Some _ _ _ Hb) as Hk. rewrite length_listed in Hk by done. destruct Hg as [_ _ Gl Gn _].
  unfold listed in Hb. rewrite lookup_take_lt in Hb by done. split_and!; [done|lia|done].
Qed.

Lemma wp_write_log m o a dk ws s e (Q : unit -> world kst -> Prop) :
  let g := k_log o in let W := log_writes g a in
  cst d i o a dk ws s -> log_geom g -> tx_ok g a -> io_ready i (3 * Z.to_nat (lg_n g) + m) e ->
  (forall s' e', cst d i o a (written W dk) (rev W ++ ws) s' -> io_ready i m e' -> Q tt (World s' e')) ->
  wp write_log Q (World s e).
Proof.
  intros g W Hs Hg Htx Hio HQ. unfold write_log. wp_step. apply (wp_the_log _ _ _ _ _ _ _ Hs). fold g. wp_step.
  assert (HW : length W = Z.to_nat (lg_n g)) by (unfold W, log_writes; rewrite length_imap; by apply length_listed).
  apply wp_foreach_seq with (fun k w => exists s' e', w = World s' e' /\
    cst d i o a (written (take k W) dk) (rev (take k W) ++ ws) s' /\ io_ready i (3 * (Z.to_nat (lg_n g) - k) + m) e').
  - exists s, e. by rewrite Nat.sub_0_r.
  - intros k w Hk (s' & e' & -> & Hs' & Hio').
    destruct (lookup_lt_is_Some_2 (listed g) k) as [b Hb]; [rewrite length_listed by done; lia|].
    destruct (listed_block _ _ _ Hg Hb) as (Hb' & Hk' & Hkn).
    destruct (tx_pinned _ _ Htx b (list_elem_of_lookup_2 _ _ _ Hb)) as ([Hbr Hbh] & x & Hx & Hlk & Hrf).
    eapply (wp_write_log_step k b x (3 * (Z.to_nat (lg_n g) - S k) + m)); [exact Hs'| |done|done|done|done| |done|done|done| |apply Htx|].
    + eapply io_ready_le; [|exact Hio']. lia.
    + fold g. destruct Hg. lia.
    + apply (tx_area _ _ Htx). fold g. destruct Hg. lia.
    + fold g. intros s'' e'' Hs'' Hio''. exists s'', e''.
      assert (HWk : W !! k = Some (lg_start g + 1 + k, ab_data x)).
      { unfold W, log_writes. rewrite list_lookup_imap, Hb. cbn. unfold new_value. by rewrite Hx. }
      split_and!; [done| |done]. by rewrite (take_S_r _ _ _ HWk), written_snoc, rev_app_distr.
  - intros w (s' & e' & -> & Hs' & Hio'). wp_step. rewrite take_ge in Hs' by lia. apply HQ; [done|]. eapply io_ready_le; [|exact Hio']. lia.
Qed.

(** The blocks in use after the transaction's references have been dropped. *)
Definition unpin (a : gmap Z abuf) (n : Z) : gmap Z abuf :=
  match a !! n with Some x => unpinned n x (ab_data x) a | None => a end.
Definition unpin_all (B : list Z) (a : gmap Z abuf) : gmap Z abuf := foldl unpin a B.

Lemma unpin_other a n m : n <> m -> unpin a n !! m = a !! m.
Proof.
  intros Hne. unfold unpin, unpinned. destruct (a !! n) as [x|]; [|done].
  destruct (ab_refs x =? 1); [by rewrite lookup_delete_ne|by rewrite lookup_insert_ne].
Qed.

Lemma unpin_all_other B a n : n ∉ B -> unpin_all B a !! n = a !! n.
Proof.
  revert a. induction B as [|b B IH]; intros a Hn; [done|]. apply not_elem_of_cons in Hn as [Hne Hn].
  cbn. change (foldl unpin ?x B) with (unpin_all B x). rewrite IH by done. by apply unpin_other.
Qed.

Lemma size_unpin_all B a : (size (unpin_all B a) <= size a)%nat.
Proof.
  revert a. induction B as [|b B IH]; intros a; [done|]. cbn. change (foldl unpin ?x B) with (unpin_all B x).
  etrans; [apply IH|]. unfold unpin. destruct (a !! b) as [x|] eqn:Hx; [|done]. unfold unpinned.
  destruct (ab_refs x =? 1); [rewrite map_size_delete, Hx; lia|by rewrite map_size_insert_Some by (by eexists)].
Qed.

Lemma wp_install_trans m o a dk ws s e (Q : unit -> world kst -> Prop) :
  let g := k_log o in let W := install_writes g a in
  cst d i o a dk ws s -> log_geom g -> tx_ok g a -> io_ready i (3 * Z.to_nat (lg_n g) + m) e ->
  (forall (k : nat) b, listed g !! k = Some b -> disk_block dk (lg_start g + 1 + k) = new_value a b) ->
  (forall s' e', cst d i o (unpin_all (listed g) a) (written W dk) (rev W ++ ws) s' -> io_ready i m e' -> Q tt (World s' e')) ->
  wp (install_trans false) Q (World s e).
Proof.
  intros g W Hs Hg Htx Hio Hlog HQ. unfold install_trans. wp_step. apply (wp_the_log _ _ _ _ _ _ _ Hs). fold g. wp_step.
  assert (HB : length (listed g) = Z.to_nat (lg_n g)) by (by apply length_listed).
  assert (HW : length W = Z.to_nat (lg_n g)) by (unfold W, install_writes; by rewrite length_fmap).
  apply wp_foreach_seq with (fun k w => exists s' e', w = World s' e' /\
    cst d i o (unpin_all (take k (listed g)) a) (written (take k W) dk) (rev (take k W) ++ ws) s' /\
    io_ready i (3 * (Z.to_nat (lg_n g) - k) + m) e').
  - exists s, e. by rewrite Nat.sub_0_r.
  - intros k w Hk (s' & e' & -> & Hs' & Hio').
    destruct (lookup_lt_is_Some_2 (listed g) k) as [b Hb]; [lia|].
    destruct (listed_block _ _ _ Hg Hb) as (Hb' & Hk' & Hkn).
    destruct (tx_pinned _ _ Htx b (list_elem_of_lookup_2 _ _ _ Hb)) as ([Hbr Hbh] & x & Hx & Hlk & Hrf).
    assert (Harea : lg_start g <= lg_start g + 1 + k < lg_start g + lg_size g) by (destruct Hg; lia).
    assert (Hfar : lg_start g + 1 + k ∉ take k (listed g)).
    { intros Hin. apply elem_of_take in Hin as (j & Hj & _). apply list_elem_of_lookup_2 in Hj.
      destruct (tx_pinned _ _ Htx _ Hj) as ([_ Hh] & _). lia. }
    assert (Hfresh : b ∉ take k (listed g)).
    { intros Hin. apply elem_of_take in Hin as (j & Hj & Hlt). pose proof (NoDup_lookup _ _ _ _ (tx_nodup _ _ Htx) Hb Hj). lia. }
    assert (Hv : disk_block (written (take k W) dk) (lg_start g + 1 + k) = ab_data x).
    { rewrite written_other.
      - rewrite (Hlog k b Hb). unfold new_value. by rewrite Hx.
      - unfold W, install_writes. rewrite <- fmap_take, <- list_fmap_compose. cbn. by rewrite list_fmap_id. }
    eapply (wp_install_commit k b x (3 * (Z.to_nat (lg_n g) - S k) + m)); [exact Hs'| |done|done|done|done|fold g; lia| |done|done| | |].
    + eapply io_ready_le; [|exact Hio']. lia.
    + by rewrite unpin_all_other.
    + rewrite unpin_all_other by done. by apply (tx_area _ _ Htx).
    + eapply Nat.le_lt_trans; [apply size_unpin_all|apply Htx].
    + fold g. rewrite Hv. intros s'' e'' Hs'' Hio''. exists s'', e''.
      assert (HWk : W !! k = Some (b, ab_data x)).
      { unfold W, install_writes. rewrite list_lookup_fmap, Hb. cbn. unfold new_value. by rewrite Hx. }
      split_and!; [done| |done]. rewrite (take_S_r _ _ _ HWk), (take_S_r _ _ _ Hb), written_snoc, rev_app_distr.
      unfold unpin_all. rewrite foldl_app. cbn. change (foldl unpin a ?l) with (unpin_all l a).
      unfold unpin. by rewrite unpin_all_other, Hx.
  - intros w (s' & e' & -> & Hs' & Hio'). wp_step. rewrite !take_ge in Hs' by lia. apply HQ; [done|]. eapply io_ready_le; [|exact Hio']. lia.
Qed.

(** The header before, in and after the commit. *)
Definition commit_header (g : logst) (dk : gmap Z (list Z)) : list Z := header (listed g) (disk_block dk (lg_start g)).

Definition commit_writes (g : logst) (a : gmap Z abuf) (dk : gmap Z (list Z)) : list (Z * list Z) :=
  (log_writes g a ++ [(lg_start g, commit_header g dk)]) ++
  (install_writes g a ++ [(lg_start g, header [] (commit_header g dk))]).

Lemma listed_not_area g a n : tx_ok g a -> lg_start g <= n < lg_start g + lg_size g -> n ∉ listed g.
Proof. intros Htx Hn Hin. destruct (tx_pinned _ _ Htx n Hin) as ([_ Hh] & _). lia. Qed.

Lemma log_writes_blocks g a n : log_geom g -> n ∈ (log_writes g a).*1 -> lg_start g < n < lg_start g + lg_size g.
Proof.
  intros Hg Hn. unfold log_writes in Hn. rewrite list_elem_of_fmap in Hn. destruct Hn as ([m v] & -> & Hin). cbn.
  apply list_elem_of_lookup in Hin as [k Hk]. rewrite list_lookup_imap in Hk. destruct (listed g !! k) as [b|] eqn:Hb; [|done].
  cbn in Hk. injection Hk as <- _. destruct (listed_block _ _ _ Hg Hb) as (_ & _ & Hkn). destruct Hg. lia.
Qed.

Lemma install_writes_blocks g a : (install_writes g a).*1 = listed g.
Proof. unfold install_writes. rewrite <- list_fmap_compose. cbn. apply list_fmap_id. Qed.

Lemma log_writes_read g a dk (k : nat) b : log_geom g -> listed g !! k = Some b ->
  disk_block (written (log_writes g a) dk) (lg_start g + 1 + k) = new_value a b.
Proof.
  intros Hg Hb. set (W := log_writes g a).
  assert (HWk : W !! k = Some (lg_start g + 1 + k, new_value a b)) by (unfold W, log_writes; rewrite list_lookup_imap, Hb; done).
  rewrite <- (take_drop_middle _ _ _ HWk), written_app. cbn [written foldl fst snd].
  change (foldl _ ?x (drop (S k) W)) with (written (drop (S k) W) x). rewrite written_other.
  - unfold disk_block. by rewrite lookup_insert_eq.
  - rewrite list_elem_of_fmap. intros ([m v] & E & Hin). cbn in E. apply list_elem_of_lookup in Hin as [j Hj].
    rewrite lookup_drop in Hj. unfold W, log_writes in Hj. rewrite list_lookup_imap in Hj.
    destruct (listed g !! (S k + j)%nat); [|done]. cbn in Hj. injection Hj as E' _. lia.
Qed.

Lemma wp_commit m o a dk ws s e (Q : unit -> world kst -> Prop) :
  let g := k_log o in let W := commit_writes g a dk in
  cst d i o a dk ws s -> log_geom g -> tx_ok g a -> 0 < lg_n g -> io_ready i (6 * Z.to_nat (lg_n g) + 4 + m) e ->
  (forall s' e', cst d i (set_k_log (set_lg_n 0 g) o) (unpin_all (listed g) a) (written W dk) (rev W ++ ws) s' -> io_ready i m e' ->
     Q tt (World s' e')) ->
  wp commit Q (World s e).
Proof.
  intros g W Hs Hg Htx Hn Hio HQ. pose proof Hg as [Gd Gs Gl Gn Gf].
  assert (Hstart : lg_start g <= lg_start g < lg_start g + lg_size g) by lia.
  assert (Hhdr : lg_start g ∉ (log_writes g a).*1) by (intros Hin%(log_writes_blocks _ _ _ Hg); lia).
  unfold commit. wp_step. apply (wp_the_log _ _ _ _ _ _ _ Hs). fold g.
  destruct (0 <? lg_n g) eqn:E; bool_facts; [|lia]. unfold when. wp_step.
  eapply (wp_write_log (3 * Z.to_nat (lg_n g) + 4 + m)); [exact Hs|done|done|eapply io_ready_le; [|exact Hio]; fold g; lia|]. fold g.
  intros s1 e1 Hs1 Hio1. wp_step.
  eapply (wp_write_head (3 * Z.to_nat (lg_n g) + 2 + m)); [exact Hs1|eapply io_ready_le; [|exact Hio1]; lia|done|by apply (tx_area _ _ Htx)|apply Htx|]. fold g.
  rewrite (written_other _ _ _ Hhdr). fold (commit_header g dk). intros s2 e2 Hs2 Hio2. wp_step.
  rewrite <- (written_snoc _ (lg_start g, commit_header g dk)) in Hs2.
  eapply (wp_install_trans (2 + m)); [exact Hs2|done|done|eapply io_ready_le; [|exact Hio2]; fold g; lia| |]; fold g.
  { intros k b Hb. rewrite written_snoc. cbn [fst snd]. unfold disk_block at 1.
    rewrite lookup_insert_ne by lia. by apply log_writes_read. }
  intros s3 e3 Hs3 Hio3. wp_step. unfold modify_log. wp_step. cbn [st env]. rewrite (cst_log _ _ _ _ _ _ _ Hs3). fold g.
  set (o' := set_k_log (set_lg_n 0 g) o). assert (Eo' : k_log o' = set_lg_n 0 g) by done.
  apply (cst_set_log _ _ (set_lg_n 0 g)) in Hs3. fold o' in Hs3.
  eapply (wp_write_head m); [exact Hs3|exact Hio3| | | |].
  all: rewrite ?Eo'.
  - by split; cbn; try done; lia.
  - cbn. rewrite unpin_all_other by (by eapply listed_not_area). by apply (tx_area _ _ Htx).
  - eapply Nat.le_lt_trans; [apply size_unpin_all|apply Htx].
  - change (lg_start (set_lg_n 0 g)) with (lg_start g). change (listed (set_lg_n 0 g)) with (@nil Z).
    assert (Eh : disk_block (written (install_writes g a) (written (log_writes g a ++ [(lg_start g, commit_header g dk)]) dk)) (lg_start g) =
                 commit_header g dk).
    { rewrite written_other by (rewrite install_writes_blocks; by eapply listed_not_area).
      rewrite written_snoc. unfold disk_block. by rewrite lookup_insert_eq. }
    rewrite Eh. intros s4 e4 Hs4 Hio4. apply HQ; [|done]. unfold W, commit_writes.
    rewrite written_app, (written_snoc (install_writes g a)). cbn [fst snd].
    rewrite !rev_app_distr. cbn [rev app]. rewrite <- !app_assoc. exact Hs4.
Qed.

(** The disk after the transaction. *)
Definition after_tx (g : logst) (a : gmap Z abuf) (dk : gmap Z (list Z)) (n : Z) : list Z :=
  if decide (n ∈ listed g) then new_value a n else disk_block dk n.

Lemma home_not_area g n : home g n -> ~ (lg_start g <= n < lg_start g + lg_size g).
Proof. intros [_ Hh]. lia. Qed.

Lemma written_take_other (j : nat) ws dk n : n ∉ ws.*1 -> disk_block (written (take j ws) dk) n = disk_block dk n.
Proof.
  intros Hn. apply written_other. intros Hin. apply Hn. rewrite list_elem_of_fmap in Hin |- *. destruct Hin as (w & -> & Hin).
  exists w. split; [done|]. apply elem_of_take in Hin as (k & Hk & _). by eapply list_elem_of_lookup_2.
Qed.

Lemma disk_block_insert_eq dk n v : disk_block (<[n := v]> dk) n = v.
Proof. unfold disk_block. by rewrite lookup_insert_eq. Qed.
Lemma disk_block_insert_ne dk n m v : n <> m -> disk_block (<[n := v]> dk) m = disk_block dk m.
Proof. intros Hne. unfold disk_block. by rewrite lookup_insert_ne. Qed.

(** An empty log. *)
Lemma replay_empty start dk n : hdr_n (disk_block dk start) = 0 -> replay start dk n = disk_block dk n.
Proof. intros E. unfold replay, disk_log. by rewrite E. Qed.

Section Atomic.
Context (g : logst) (a : gmap Z abuf) (dk : gmap Z (list Z)).
Context (Hg : log_geom g) (Htx : tx_ok g a) (Hlen : length (disk_block dk (lg_start g)) = BSIZE).

Let h := commit_header g dk.
Let dk1 := written (log_writes g a ++ [(lg_start g, h)]) dk.

Lemma start_in_area : lg_start g <= lg_start g < lg_start g + lg_size g.
Proof. destruct Hg. lia. Qed.

Lemma listed_fits : (4 * length (listed g) + 4 <= BSIZE)%nat /\ length (listed g) < 2147483648 /\ Forall (fun b => 0 <= b < 2147483648) (listed g).
Proof.
  rewrite length_listed by done. pose proof (lgm_n _ Hg) as Hn. unfold BSIZE, LOGSIZE in *. split_and!; [lia|lia|].
  apply list.Forall_forall. intros b Hb. apply (tx_pinned _ _ Htx b Hb).
Qed.

Lemma log_unaffected n : home g n -> n ∉ (log_writes g a).*1.
Proof. intros Hn Hin. apply (home_not_area _ _ Hn). apply log_writes_blocks in Hin; [lia|done]. Qed.

(** Before the header is written. *)
Lemma replay_before (j : nat) n : hdr_n (disk_block dk (lg_start g)) = 0 -> home g n ->
  replay (lg_start g) (written (take j (log_writes g a)) dk) n = disk_block dk n.
Proof.
  intros Hz Hn. rewrite replay_empty.
  - apply written_take_other. by apply log_unaffected.
  - rewrite written_take_other; [done|]. intros Hin. apply log_writes_blocks in Hin; [lia|done].
Qed.

Lemma dk1_header : disk_block dk1 (lg_start g) = h.
Proof. unfold dk1. rewrite written_snoc. apply disk_block_insert_eq. Qed.

Lemma dk1_slot (k : nat) b : listed g !! k = Some b -> disk_block dk1 (lg_start g + 1 + k) = new_value a b.
Proof.
  intros Hb. unfold dk1. rewrite written_snoc. cbn [fst snd]. rewrite disk_block_insert_ne by lia. by apply log_writes_read.
Qed.

Lemma dk1_home n : home g n -> disk_block dk1 n = disk_block dk n.
Proof.
  intros Hn. unfold dk1. rewrite written_snoc. cbn [fst snd]. rewrite disk_block_insert_ne.
  - apply written_other. by apply log_unaffected.
  - intros <-. by apply (home_not_area _ _ Hn), start_in_area.
Qed.

(** From then on until the installation is complete. *)
Lemma replay_after (j : nat) n : home g n -> replay (lg_start g) (written (take j (install_writes g a)) dk1) n = after_tx g a dk n.
Proof.
  intros Hn. destruct listed_fits as (H1 & H2 & H3). set (dk2 := written (take j (install_writes g a)) dk1).
  assert (Harea : forall m, lg_start g <= m < lg_start g + lg_size g -> disk_block dk2 m = disk_block dk1 m).
  { intros m Hm. apply written_take_other. rewrite install_writes_blocks. by eapply listed_not_area. }
  assert (Hlog : disk_log (lg_start g) dk2 = listed g).
  { eapply disk_log_header; [rewrite Harea by apply start_in_area; apply dk1_header|by rewrite Hlen|done|done]. }
  unfold replay. rewrite Hlog, (installed_value _ _ (new_value a)).
  - unfold after_tx. case_decide as Hin; [done|]. unfold dk2. rewrite written_take_other by (by rewrite install_writes_blocks). by apply dk1_home.
  - intros k b Hb. cbn [Nat.add]. rewrite Harea; [by apply dk1_slot|]. destruct (listed_block _ _ _ Hg Hb) as (_ & _ & ?). destruct Hg. lia.
Qed.

(** The home blocks once it is. *)
Lemma installed_home n : home g n -> disk_block (written (install_writes g a) dk1) n = after_tx g a dk n.
Proof.
  intros Hn. unfold after_tx. case_decide as Hin.
  - clear Hn. unfold install_writes. pose proof (tx_nodup _ _ Htx) as Hnd. revert Hin Hnd. generalize dk1. induction (listed g) as [|b B IH]; intros dk0 Hin Hnd.
    { by apply elem_of_nil in Hin. }
    apply list.NoDup_cons in Hnd as [Hb Hnd]. cbn. change (foldl _ ?x ?l) with (written l x).
    apply elem_of_cons in Hin as [->|Hin]; [|by apply IH].
    rewrite written_other; [apply disk_block_insert_eq|]. rewrite <- list_fmap_compose. cbn. by rewrite list_fmap_id.
  - rewrite written_other by (by rewrite install_writes_blocks). by apply dk1_home.
Qed.

(** Every point of the commit. *)
Lemma commit_points (j : nat) : hdr_n (disk_block dk (lg_start g)) = 0 ->
  (forall n, home g n -> replay (lg_start g) (written (take j (commit_writes g a dk)) dk) n = disk_block dk n) \/
  (forall n, home g n -> replay (lg_start g) (written (take j (commit_writes g a dk)) dk) n = after_tx g a dk n).
Proof.
  intros Hz. unfold commit_writes. fold h.
  destruct (decide (j <= length (log_writes g a))%nat) as [H1|H1].
  { left. intros n Hn. rewrite take_app_le by (rewrite length_app; cbn; lia). rewrite take_app_le by done. by apply replay_before. }
  right. intros n Hn. rewrite take_app_ge by (rewrite length_app; cbn; lia). rewrite written_app. fold dk1.
  set (j' := (j - _)%nat). destruct (decide (j' <= length (install_writes g a))%nat) as [H2|H2].
  { rewrite take_app_le by done. by apply replay_after. }
  rewrite take_ge by (rewrite length_app; cbn; lia). rewrite written_snoc. cbn [fst snd].
  rewrite replay_empty.
  - rewrite disk_block_insert_ne; [by apply installed_home|]. intros <-. by apply (home_not_area _ _ Hn), start_in_area.
  - rewrite disk_block_insert_eq. destruct listed_fits as (H3 & H4 & _). apply (hdr_n_header []); [|done]. unfold h, commit_header.
    rewrite length_header; rewrite Hlen; [|lia]. cbn. unfold BSIZE. lia.
Qed.

Lemma commit_final n : home g n -> disk_block (written (commit_writes g a dk) dk) n = after_tx g a dk n.
Proof.
  intros Hn. unfold commit_writes. fold h. rewrite written_app. fold dk1. rewrite written_snoc. cbn [fst snd].
  rewrite disk_block_insert_ne; [by apply installed_home|]. intros <-. by apply (home_not_area _ _ Hn), start_in_area.
Qed.
End Atomic.

(** ** Recovery *)

(** The header on disk is one [write_head] could have written. *)
Definition log_on_disk_ok (g : logst) (dk : gmap Z (list Z)) : Prop :=
  0 <= hdr_n (disk_block dk (lg_start g)) <= LOGSIZE /\ hdr_n (disk_block dk (lg_start g)) < lg_size g /\
  Forall (home g) (disk_log (lg_start g) dk).

(** The log's memory image once the header has been read. *)
Definition read_log (g : logst) (dk : gmap Z (list Z)) (g' : logst) : Prop :=
  lg_n g' = hdr_n (disk_block dk (lg_start g)) /\ listed g' = disk_log (lg_start g) dk /\ lg_dev g' = lg_dev g /\
  lg_start g' = lg_start g /\ lg_size g' = lg_size g /\ length (lg_block g') = length (lg_block g).

Lemma wp_read_head m o dk ws s e (Q : unit -> world kst -> Prop) :
  let g := k_log o in
  cst d i o ∅ dk ws s -> io_ready i (S m) e -> log_geom g -> log_on_disk_ok g dk ->
  (forall g' s' e', read_log g dk g' -> cst d i (set_k_log g' o) ∅ dk ws s' -> io_ready i m e' -> Q tt (World s' e')) ->
  wp read_head Q (World s e).
Proof.
  intros g Hs Hio Hg (Hn & Hsz & Hh) HQ. pose proof Hg as [Gd Gs Gl Gn Gf]. unfold read_head. wp_step.
  apply (wp_the_log _ _ _ _ _ _ _ Hs). fold g. rewrite Gd, u32_small by lia.
  wp_step. eapply (blk_bread d Hd i (lg_start g) m); [done|done|lia|unfold available; rewrite lookup_empty, map_size_empty; unfold NBUF; lia|].
  intros y s1 e1 Ey1 Ey2 Ey3 _ Hs1 Hio1. unfold content, refs in Ey1, Ey2. rewrite lookup_empty in Ey1, Ey2.
  wp_step. eapply (blk_read d i _ y); [exact Hs1|apply lookup_insert_eq|]. intros bl Ebl _ _. rewrite Ebl, Ey1.
  set (H0 := disk_block dk (lg_start g)) in *. set (N := Z.to_nat (hdr_n H0)).
  wp_step. unfold modify_log. wp_step. cbn [st env]. rewrite (cst_log _ _ _ _ _ _ _ Hs1). fold g.
  apply (cst_set_log _ _ (set_lg_n (hdr_n H0) g)) in Hs1.
  wp_step. apply wp_foreach_seq with (fun k w => exists s' B, w = World s' e1 /\ length B = LOGSIZE /\
    take k B = hdr_block H0 <$> seq 0 k /\
    cst d i (set_k_log (set_lg_block B (set_lg_n (hdr_n H0) g)) o) (<[lg_start g := y]> ∅) dk ws s').
  - exists (set_k_log (set_lg_n (hdr_n H0) g) s1), (lg_block g). split_and!; [done|done|done|].
    replace (set_lg_block (lg_block g) (set_lg_n (hdr_n H0) g)) with (set_lg_n (hdr_n H0) g) by (by destruct g). exact Hs1.
  - intros k w Hk (s' & B & -> & HB & Htake & Hs'). wp_step. unfold set_log_block.
    destruct ((Z.of_nat k <? 0) || (LOGSIZE <=? Z.of_nat k)) eqn:E; [apply orb_true_iff in E; destruct E; bool_facts; lia|].
    unfold modify_log. wp_step. cbn [st env]. rewrite (cst_log _ _ _ _ _ _ _ Hs'), Nat2Z.id. wp_step.
    exists (set_k_log (set_lg_block (<[k := hdr_block H0 k]> B) (set_lg_n (hdr_n H0) g)) s'), (<[k := hdr_block H0 k]> B).
    split_and!; [done|by rewrite length_insert| |].
    + rewrite (take_S_r _ k (hdr_block H0 k)) by (apply list_lookup_insert_eq; lia). rewrite take_insert_ge by lia.
      by rewrite Htake, seq_S, fmap_app.
    + eapply cst_set_log in Hs'. exact Hs'.
  - intros w (s' & B & -> & HB & Htake & Hs'). eapply (blk_brelse d i _ y); [exact Hs'|apply lookup_insert_eq|done|done|].
    intros s2 Hs2. unfold released in Hs2. rewrite Ey2 in Hs2. change (0 + 1 =? 1) with true in Hs2. cbv iota in Hs2.
    rewrite delete_insert_id in Hs2 by done. eapply HQ; [|exact Hs2|done].
    split_and!; cbn; try done. by rewrite HB.
Qed.

(** The writes of a recovery. *)
Definition replay_writes (start : Z) (dk : gmap Z (list Z)) (k : nat) (B : list Z) : list (Z * list Z) :=
  imap (fun j b => (b, disk_block dk (start + 1 + (k + j)%nat))) B.

Definition recover_writes (g : logst) (dk : gmap Z (list Z)) : list (Z * list Z) :=
  replay_writes (lg_start g) dk 0 (disk_log (lg_start g) dk) ++ [(lg_start g, header [] (disk_block dk (lg_start g)))].

Lemma replay_writes_blocks start dk k B : (replay_writes start dk k B).*1 = B.
Proof.
  unfold replay_writes. apply list_eq. intros j. rewrite list_lookup_fmap, list_lookup_imap. by destruct (B !! j).
Qed.

Lemma wp_install_recovery m o dk ws s e (Q : unit -> world kst -> Prop) :
  let g := k_log o in let W := replay_writes (lg_start g) dk 0 (listed g) in
  cst d i o ∅ dk ws s -> log_geom g -> Forall (home g) (listed g) -> io_ready i (3 * Z.to_nat (lg_n g) + m) e ->
  (forall s' e', cst d i o ∅ (written W dk) (rev W ++ ws) s' -> io_ready i m e' -> Q tt (World s' e')) ->
  wp (install_trans true) Q (World s e).
Proof.
  intros g W Hs Hg Hhome Hio HQ. unfold install_trans. wp_step. apply (wp_the_log _ _ _ _ _ _ _ Hs). fold g. wp_step.
  rewrite list.Forall_forall in Hhome.
  assert (HB : length (listed g) = Z.to_nat (lg_n g)) by (by apply length_listed).
  assert (HW : length W = Z.to_nat (lg_n g)) by (unfold W, replay_writes; by rewrite length_imap).
  apply wp_foreach_seq with (fun k w => exists s' e', w = World s' e' /\
    cst d i o ∅ (written (take k W) dk) (rev (take k W) ++ ws) s' /\ io_ready i (3 * (Z.to_nat (lg_n g) - k) + m) e').
  - exists s, e. by rewrite Nat.sub_0_r.
  - intros k w Hk (s' & e' & -> & Hs' & Hio').
    destruct (lookup_lt_is_Some_2 (listed g) k) as [b Hb]; [lia|].
    destruct (listed_block _ _ _ Hg Hb) as (Hb' & Hk' & Hkn).
    pose proof (Hhome b (list_elem_of_lookup_2 _ _ _ Hb)) as [Hbr Hbh].
    assert (Hv : disk_block (written (take k W) dk) (lg_start g + 1 + k) = disk_block dk (lg_start g + 1 + k)).
    { apply written_take_other. unfold W. rewrite replay_writes_blocks. intros Hin. apply Hhome in Hin as [_ Hin]. destruct Hg. lia. }
    eapply (wp_install_recover k b (3 * (Z.to_nat (lg_n g) - S k) + m)); [exact Hs'| |done|done|done|done| |done|done| |].
    + eapply io_ready_le; [|exact Hio']. lia.
    + fold g. destruct Hg. lia.
    + rewrite map_size_empty. unfold NBUF. lia.
    + fold g. rewrite Hv. intros s'' e'' Hs'' Hio''. exists s'', e''.
      assert (HWk : W !! k = Some (b, disk_block dk (lg_start g + 1 + k))) by (unfold W, replay_writes; by rewrite list_lookup_imap, Hb).
      split_and!; [done| |done]. by rewrite (take_S_r _ _ _ HWk), written_snoc, rev_app_distr.
  - intros w (s' & e' & -> & Hs' & Hio'). wp_step. rewrite take_ge in Hs' by lia. apply HQ; [done|]. eapply io_ready_le; [|exact Hio']. lia.
Qed.

Lemma wp_recover_from_log m o dk ws s e (Q : unit -> world kst -> Prop) :
  let g := k_log o in let W := recover_writes g dk in
  cst d i o ∅ dk ws s -> log_geom g -> log_on_disk_ok g dk -> io_ready i (3 * LOGSIZE + 3 + m) e ->
  (forall g' s' e', read_log g dk g' -> cst d i (set_k_log (set_lg_n 0 g') o) ∅ (written W dk) (rev W ++ ws) s' -> io_ready i m e' ->
     Q tt (World s' e')) ->
  wp recover_from_log Q (World s e).
Proof.
  intros g W Hs Hg Hok Hio HQ. pose proof Hg as [Gd Gs Gl Gn Gf]. pose proof Hok as (Hn & Hsz & Hhome). unfold recover_from_log. wp_step.
  eapply (wp_read_head (3 * LOGSIZE + 2 + m)); [exact Hs|eapply io_ready_le; [|exact Hio]; lia|done|done|]. fold g.
  intros g' s1 e1 Hrd Hs1 Hio1. pose proof Hrd as (R1 & R2 & R3 & R4 & R5 & R6).
  set (o1 := set_k_log g' o) in *. assert (Eo1 : k_log o1 = g') by done.
  assert (Hg' : log_geom g') by (split; rewrite ?R1, ?R3, ?R4, ?R5, ?R6; done || lia).
  wp_step. eapply (wp_install_recovery (2 + m)); [exact Hs1|done| | |]; rewrite Eo1.
  { rewrite R2. unfold home. by rewrite R4, R5. }
  { eapply io_ready_le; [|exact Hio1]. rewrite R1. lia. }
  rewrite R2, R4. intros s2 e2 Hs2 Hio2. wp_step. unfold modify_log. wp_step. cbn [st env]. rewrite (cst_log _ _ _ _ _ _ _ Hs2), Eo1.
  apply (cst_set_log _ _ (set_lg_n 0 g')) in Hs2. change (set_k_log (set_lg_n 0 g') o1) with (set_k_log (set_lg_n 0 g') o) in Hs2.
  set (o2 := set_k_log (set_lg_n 0 g') o) in *. assert (Eo2 : k_log o2 = set_lg_n 0 g') by done.
  assert (Hhdr : lg_start g ∉ (replay_writes (lg_start g) dk 0 (disk_log (lg_start g) dk)).*1).
  { rewrite replay_writes_blocks. rewrite list.Forall_forall in Hhome. intros Hin. apply Hhome in Hin as [_ Hin]. lia. }
  eapply (wp_write_head m); [exact Hs2|exact Hio2| |done| |].
  { rewrite Eo2. destruct Hg' as [A1 A2 A3 A4 A5]. split; cbn; done || lia. }
  { rewrite map_size_empty. unfold NBUF. lia. }
  rewrite Eo2. change (lg_start (set_lg_n 0 g')) with (lg_start g'). change (listed (set_lg_n 0 g')) with (@nil Z). rewrite R4.
  rewrite (written_other _ _ _ Hhdr). intros s3 e3 Hs3 Hio3. eapply HQ; [exact Hrd| |done]. unfold W, recover_writes.
  by rewrite written_snoc, rev_app_distr.
Qed.

(** Recovery makes the logical disk real, and every point of it has the same
    logical disk. *)
Section Recovery.
Context (g : logst) (dk : gmap Z (list Z)).
Context (Hg : log_geom g) (Hok : log_on_disk_ok g dk) (Hlen : length (disk_block dk (lg_start g)) = BSIZE).

Let B := disk_log (lg_start g) dk.

Lemma replayed k L dk0 n : disk_block (written (replay_writes (lg_start g) dk k L) dk0) n = installed (lg_start g) dk k L n (disk_block dk0 n).
Proof.
  revert k dk0. induction L as [|b L IH]; intros k dk0; [done|].
  assert (E : replay_writes (lg_start g) dk k (b :: L) = (b, disk_block dk (lg_start g + 1 + k)) :: replay_writes (lg_start g) dk (S k) L).
  { unfold replay_writes. cbn. rewrite Nat.add_0_r. f_equal. apply imap_ext. intros j x _. cbn. by replace (k + S j)%nat with (S (k + j)) by lia. }
  rewrite E. cbn [installed]. change (written (?w :: ?l) ?x) with (written l (<[fst w := snd w]> x)). cbn [fst snd]. rewrite IH. f_equal.
  destruct (b =? n) eqn:En; bool_facts; [subst; apply disk_block_insert_eq|by apply disk_block_insert_ne].
Qed.

Lemma log_home n : n ∈ B -> home g n.
Proof. destruct Hok as (_ & _ & Hh). rewrite list.Forall_forall in Hh. apply Hh. Qed.

Lemma start_not_home : ~ home g (lg_start g).
Proof. intros [_ Hh]. destruct Hg. lia. Qed.

Lemma recovered_home n : home g n -> disk_block (written (recover_writes g dk) dk) n = replay (lg_start g) dk n.
Proof.
  intros Hn. unfold recover_writes. rewrite written_snoc. cbn [fst snd]. rewrite disk_block_insert_ne; [apply replayed|].
  intros <-. by apply start_not_home.
Qed.

Lemma recover_points (j : nat) n : home g n -> replay (lg_start g) (written (take j (recover_writes g dk)) dk) n = replay (lg_start g) dk n.
Proof.
  intros Hn. set (W := replay_writes (lg_start g) dk 0 B).
  destruct (decide (j <= length W)%nat) as [Hj|Hj].
  - unfold recover_writes. fold B. fold W. rewrite take_app_le by done. set (dk1 := written (take j W) dk).
    assert (Harea : forall m, ~ home g m -> disk_block dk1 m = disk_block dk m).
    { intros m Hm. apply written_take_other. unfold W. rewrite replay_writes_blocks. intros Hin. by apply Hm, log_home. }
    assert (HB : disk_log (lg_start g) dk1 = B) by (unfold disk_log; by rewrite Harea by apply start_not_home).
    unfold replay. rewrite HB. fold B. rewrite (installed_ext _ dk1 dk).
    + destruct (decide (n ∈ B)) as [Hin|Hin]; [by apply installed_in|]. rewrite !installed_notin by done.
      apply written_take_other. unfold W. by rewrite replay_writes_blocks.
    + intros k Hk. apply Harea. intros [_ Hh]. destruct Hok as (Hnn & Hsz & _). unfold B, disk_log in Hk.
      rewrite length_fmap, length_seq in Hk. lia.
  - rewrite take_ge by (unfold recover_writes; fold B; fold W; rewrite length_app; cbn; lia).
    rewrite replay_empty; [by apply recovered_home|]. unfold recover_writes. rewrite written_snoc. cbn [fst snd].
    rewrite disk_block_insert_eq. by apply header_empty.
Qed.
End Recovery.

End Code.
