(* ===== verification/LogTx.v ===== *)
(** * Transactions

    [begin_op], [log_write] and [end_op] of kernel/log.c, and the theorems about
    transactions: a transaction lists each block it writes once and keeps it in
    the cache; ending the last operation makes it durable, all or nothing, at
    whatever block write the machine stops. *)

From S2P Require Import Prelude State Spinlock Norm Sched Sleeplock Bio LruList Cache CacheSpec Blocks Log LogSpec.

(** ** Absorption *)

Lemma absorb_found blocks N n k : take N blocks !! k = Some n -> Forall (fun x => 0 <= x < 4294967296) (take N blocks) ->
  exists j, absorb blocks N n = j /\ take N blocks !! j = Some n.
Proof.
  revert N k. induction blocks as [|b blocks IH]; intros [|N] k; cbn; try done. intros Hk Hr.
  apply list.Forall_cons in Hr as [Hb Hr]. rewrite u32_small by lia. destruct (b =? n) eqn:E; bool_facts.
  - exists O. by subst.
  - destruct k as [|k]; cbn in Hk; [congruence|]. destruct (IH N k Hk Hr) as (j & -> & Hj). by exists (S j).
Qed.

Lemma absorb_new blocks N n : n ∉ take N blocks -> (N <= length blocks)%nat -> Forall (fun x => 0 <= x < 4294967296) (take N blocks) ->
  absorb blocks N n = N.
Proof.
  revert N. induction blocks as [|b blocks IH]; intros [|N]; cbn; try done; [lia|]. intros Hn HN Hr.
  apply list.Forall_cons in Hr as [Hb Hr]. apply not_elem_of_cons in Hn as [Hne Hn]. rewrite u32_small by lia.
  destruct (b =? n) eqn:E; bool_facts; [congruence|]. f_equal. apply IH; [done|lia|done].
Qed.

(** ** Critical sections inside one of [L_log] *)

Lemma wp_bpin_nested j b (Q : unit -> world kst -> Prop) s e : intr_ok s -> 0 < c_noff (k_cpu s) -> lock_free L_bcache s -> k_bufs s !! j = Some b ->
  Q tt (World (set_k_bufs (<[j := set_b_refcnt (u32 (b_refcnt b + 1)) b]> (k_bufs s)) s) e) -> wp (bpin j) Q (World s e).
Proof.
  intros Hi Hn Hf Hb HQ. unfold bpin. wp_step. apply wp_acquire; [done|]. cbn [st env].
  rewrite <- (set_k_bufs_id (acquired L_bcache s)). wp_step. apply wp_modify_buf.
  change (k_bufs (acquired L_bcache s)) with (k_bufs s). rewrite (alter_insert _ _ _ _ Hb).
  apply (wp_release_crit L_bcache (set_k_bufs (<[j := set_b_refcnt (u32 (b_refcnt b + 1)) b]> (k_bufs s)))); [inert_tac|done|done|].
  by rewrite settle_nested.
Qed.

(** ** [log_write] *)

Section Tx.
Context `{DiskDriverOk} (d : Z) (Hd : d <> 0) (i : nat).

(** The log after [log_write] of block [n]. *)
Definition log_with (n : Z) (g : logst) : logst :=
  if decide (n ∈ listed g) then g
  else set_lg_n (lg_n g + 1) (set_lg_block (<[Z.to_nat (lg_n g) := n]> (lg_block g)) g).

(** The blocks in use after it: a block listed for the first time is pinned. *)
Definition pinned (n : Z) (x : abuf) (g : logst) (a : gmap Z abuf) : gmap Z abuf :=
  if decide (n ∈ listed g) then a else <[n := mkab (ab_idx x) (ab_data x) (ab_refs x + 1) (ab_lock x)]> a.

Lemma listed_log_with n g : log_geom d g -> lg_n g < LOGSIZE ->
  listed (log_with n g) = if decide (n ∈ listed g) then listed g else listed g ++ [n].
Proof.
  intros [_ _ Gl Gn _] Hn. unfold log_with. case_decide as E; [done|]. unfold listed. cbn.
  replace (Z.to_nat (lg_n g + 1)) with (S (Z.to_nat (lg_n g))) by lia.
  rewrite (take_S_r _ _ n) by (apply list_lookup_insert_eq; lia). by rewrite take_insert_ge by lia.
Qed.

Lemma wp_set_log_block (k : nat) v (Q : unit -> world kst -> Prop) w : (k < LOGSIZE)%nat ->
  Q tt (World (set_k_log (set_lg_block (<[k := v]> (lg_block (k_log (st w)))) (k_log (st w))) (st w)) (env w)) -> wp (set_log_block k v) Q w.
Proof.
  intros Hk HQ. unfold set_log_block. destruct ((Z.of_nat k <? 0) || (LOGSIZE <=? Z.of_nat k)) eqn:E; [apply orb_true_iff in E; destruct E; bool_facts; lia|].
  unfold modify_log. wp_step. by rewrite Nat2Z.id.
Qed.

Lemma cst_settle o a dk ws s : cst d i o a dk ws s -> cst d i o a dk ws (settle s).
Proof.
  intros [Hc [l Hrel] Ho Hdk Hws]. split; [|by exists l|by rewrite (outside_norm _ s (norm_settle s))|done|done].
  eapply calm_eq; [apply norm_settle|]. by apply calm_norm.
Qed.

Lemma wp_log_write n x o a dk ws s e (Q : unit -> world kst -> Prop) :
  let g := k_log o in
  cst d i o a dk ws s -> log_geom d g -> Forall (fun b => 0 <= b < 2147483648) (listed g) ->
  lg_n g < LOGSIZE -> lg_n g < lg_size g - 1 -> 0 < lg_outstanding g -> a !! n = Some x -> ab_refs x + 1 < 4294967296 ->
  (forall s', cst d i (set_k_log (log_with n g) o) (pinned n x g a) dk ws s' -> Q tt (World s' e)) ->
  wp (log_write (ab_idx x)) Q (World s e).
Proof.
  intros g Hs Hg Hr Hn Hsz Hout Hx Hrf HQ. pose proof Hs as [Hc [l [Hok Hidle]] Ho Hdk Hws]. pose proof Hg as [Gd Gs Gl Gn Gf].
  destruct (co_entry _ _ _ _ _ _ _ _ Hok Hx) as (b & Hj & Hb & Ed & Hv & En & Edata & Erc & Hr' & Hlk & Hdisk & Hlen & Hnr).
  assert (Hgs : k_log s = g) by (by eapply cst_log).
  assert (Hfree : forall lk, lock_free lk s) by (intros lk; by eapply calm_lock_free).
  assert (Hr4 : Forall (fun b => 0 <= b < 4294967296) (listed g)) by (eapply list.Forall_impl; [exact Hr|cbn; lia]).
  unfold log_write. wp_step. apply wp_acquire; [apply Hfree|]. cbn [st env]. wp_step. unfold the_log. wp_step. cbn [st].
  change (k_log (acquired L_log s)) with (k_log s). rewrite Hgs.
  destruct ((LOGSIZE <=? lg_n g) || (lg_size g - 1 <=? lg_n g)) eqn:E1; [apply orb_true_iff in E1; destruct E1; bool_facts; lia|].
  destruct (lg_outstanding g <? 1) eqn:E2; bool_facts; [lia|]. wp_step. apply (wp_buf_lookup _ b); [done|]. rewrite En.
  rewrite (s32_small n) by lia.
  destruct (decide (n ∈ listed g)) as [Hin|Hin].
  - pose proof Hin as [k Hk]%list_elem_of_lookup. destruct (absorb_found _ _ _ _ Hk Hr4) as (j & -> & Hj').
    pose proof (lookup_lt_Some _ _ _ Hj') as Hjl. rewrite length_take in Hjl.
    assert (Hjb : lg_block g !! j = Some n) by (rewrite lookup_take_lt in Hj'; [done|lia]).
    wp_step. apply wp_set_log_block; [lia|]. cbn [st env]. change (k_log (acquired L_log s)) with (k_log s). rewrite Hgs.
    assert (E3 : set_lg_block (<[j := n]> (lg_block g)) g = g) by (rewrite list_insert_id by done; by destruct g). rewrite E3.
    destruct (Z.of_nat j =? lg_n g) eqn:E4; bool_facts; [lia|]. unfold when. wp_step. wp_step.
    apply (wp_release_crit L_log (set_k_log g)); [inert_tac|apply Hc|apply Hfree|]. apply HQ.
    unfold log_with, pinned. rewrite !decide_True by done. by apply cst_set_log, cst_settle.
  - rewrite absorb_new; [|done|lia|done]. wp_step. apply wp_set_log_block; [lia|]. cbn [st env].
    change (k_log (acquired L_log s)) with (k_log s). rewrite Hgs, Z2Nat.id, Z.eqb_refl by lia. unfold when. wp_step.
    set (g1 := set_lg_block _ g). wp_step. apply (wp_bpin_nested _ b); cbn [st env].
    { unfold intr_ok. cbn. destruct Hc as ([? ?] & _). split; [lia|done]. }
    { cbn. destruct Hc as ([? ?] & _). lia. }
    { unfold lock_free. cbn. rewrite lookup_insert_ne by done. apply Hfree. }
    { done. }
    change (k_bufs (set_k_log g1 (acquired L_log s))) with (k_bufs s). rewrite Erc, u32_small by lia.
    set (B := <[ab_idx x := set_b_refcnt (ab_refs x + 1) b]> (k_bufs s)). unfold modify_log. wp_step. cbn [st env].
    set (g2 := set_lg_n (lg_n g + 1) g1).
    apply (wp_release_crit L_log (fun s => set_k_bufs B (set_k_log g2 s))); [inert_tac|apply Hc|apply Hfree|]. apply HQ.
    unfold log_with, pinned. rewrite !decide_False by done. fold g1. fold g2.
    assert (Hs2 : cst d i (set_k_log g2 o) a dk ws (set_k_log g2 (settle s))) by (by apply cst_set_log, cst_settle).
    eapply (cst_quiet d i (set_k_log g2 o) a _ dk ws (set_k_log g2 (settle s)) _ l); [exact Hs2| |done].
    split; [|exact Hidle]. change (cache_ok d B (k_disk s) (k_sleeplocks s) l (<[n := mkab (ab_idx x) (ab_data x) (ab_refs x + 1) (ab_lock x)]> a)).
    unfold B. replace (set_b_refcnt (ab_refs x + 1) b) with (set_b_refcnt (ab_refs x + 1) (set_b_data (ab_data x) b)).
    + eapply cache_ok_entry; try done; [by rewrite <- Edata|lia|]. rewrite <- Hlk. apply relocked_same.
    + rewrite <- Edata. by destruct b.
Qed.

(** ** [begin_op] and [end_op] *)

(** A critical section of [L_log] that updates the log's memory image. *)
Lemma wp_log_section g' o a dk ws s e (Q : unit -> world kst -> Prop) : cst d i o a dk ws s ->
  (forall s', cst d i (set_k_log g' o) a dk ws s' -> Q tt (World s' e)) -> wp (release L_log) Q (World (set_k_log g' (acquired L_log s)) e).
Proof.
  intros Hs HQ. apply (wp_release_crit L_log (set_k_log g')); [inert_tac|apply Hs|eapply calm_lock_free; apply Hs|].
  apply HQ. by apply cst_set_log, cst_settle.
Qed.

(** There is room for one more operation: it is admitted at once. *)
Lemma wp_begin_op o a dk ws s e (Q : unit -> world kst -> Prop) :
  let g := k_log o in
  cst d i o a dk ws s -> lg_committing g = 0 -> lg_n g + (lg_outstanding g + 1) * MAXOPBLOCKS <= LOGSIZE ->
  (forall s', cst d i (set_k_log (set_lg_outstanding (lg_outstanding g + 1) g) o) a dk ws s' -> Q tt (World s' e)) ->
  wp begin_op Q (World s e).
Proof.
  intros g Hs Hc Hroom HQ. unfold begin_op. wp_step. apply wp_acquire; [eapply calm_lock_free; apply Hs|]. cbn [st env].
  apply wp_env_fuel. cbn [begin_op_loop env]. wp_step. unfold the_log. wp_step. cbn [st].
  change (k_log (acquired L_log s)) with (k_log s). rewrite (cst_log _ _ _ _ _ _ _ Hs). fold g. rewrite Hc. cbn [Z.eqb negb].
  destruct (LOGSIZE <? _) eqn:E; bool_facts; [lia|]. unfold modify_log. do 2 wp_step. cbn [st env].
  change (k_log (acquired L_log s)) with (k_log s). rewrite (cst_log _ _ _ _ _ _ _ Hs). fold g. by apply (wp_log_section _ o a dk ws).
Qed.

(** Waking the processes that wait in [begin_op], inside a critical section. *)
Lemma wp_log_wakeup g' o a dk ws s e (Q : unit -> world kst -> Prop) : cst d i o a dk ws s ->
  (forall s', cst d i (set_k_log g' o) a dk ws s' -> Q tt (World s' e)) ->
  wp (wakeup Ch_log;; release L_log) Q (World (set_k_log g' (acquired L_log s)) e).
Proof.
  intros Hs HQ. pose proof Hs as [Hc [l Hrel] Ho Hdk Hws]. pose proof Hc as ([Hn1 Hn2] & Hl & Hp & Hi & Hlen & _).
  wp_step. apply wp_wakeup; cbn [st env].
  - unfold intr_ok. cbn. split; [lia|done].
  - exact Hlen.
  - intros j _ _. unfold lock_free. cbn. rewrite lookup_insert_ne by done. by rewrite Hl.
  - set (ps := woken _ _ _). rewrite settle_nested by (cbn; lia).
    apply (wp_release_crit L_log (fun s => set_k_procs ps (set_k_log g' s))); [inert_tac|done|unfold lock_free; by rewrite Hl|].
    apply HQ. pose proof (cst_set_log _ _ g' _ _ _ _ _ (cst_settle _ _ _ _ _ Hs)) as Hs2.
    assert (E : norm (set_k_procs ps (set_k_log g' (settle s))) = norm (set_k_log g' (settle s))) by (apply norm_procs, strip_woken).
    split; [|exists l; exact Hrel|rewrite (outside_norm _ _ E); apply Hs2|apply Hs2|apply Hs2].
    eapply calm_eq; [exact E|]. apply calm_norm. apply Hs2.
Qed.

(** The writes that end a transaction. *)
Definition tx_writes (g : logst) (a : gmap Z abuf) (dk : gmap Z (list Z)) : list (Z * list Z) :=
  if 0 <? lg_n g then commit_writes g a dk else [].

Lemma wp_end_op m o a dk ws s e (Q : unit -> world kst -> Prop) :
  let g := k_log o in let W := tx_writes g a dk in
  let g' := set_lg_committing 0 (set_lg_n 0 (set_lg_outstanding 0 g)) in
  cst d i o a dk ws s -> log_geom d g -> tx_ok g a -> lg_outstanding g = 1 -> lg_committing g = 0 ->
  io_ready i (6 * Z.to_nat (lg_n g) + 4 + m) e ->
  (forall s' e', cst d i (set_k_log g' o) (unpin_all (listed g) a) (written W dk) (rev W ++ ws) s' -> io_ready i m e' -> Q tt (World s' e')) ->
  wp end_op Q (World s e).
Proof.
  intros g W g' Hs Hg Htx Hout Hcm Hio HQ. unfold end_op. wp_step. apply wp_acquire; [eapply calm_lock_free; apply Hs|]. cbn [st env].
  unfold modify_log, the_log. do 4 wp_step. cbn [st env]. change (k_log (acquired L_log s)) with (k_log s).
  rewrite (cst_log _ _ _ _ _ _ _ Hs). fold g.
  change (k_log (set_k_log ?x _)) with x. rewrite Hout. change (1 - 1) with 0.
  change (lg_committing (set_lg_outstanding 0 g)) with (lg_committing g). rewrite Hcm. cbn [Z.eqb negb lg_outstanding set_lg_outstanding].
  do 2 wp_step. cbn [st env]. change (k_log (set_k_log ?x _)) with x.
  set (g1 := set_lg_committing 1 (set_lg_outstanding 0 g)).
  change (set_k_log g1 (set_k_log (set_lg_outstanding 0 g) (acquired L_log s))) with (set_k_log g1 (acquired L_log s)).
  wp_step. apply (wp_log_section g1 o a dk ws); [done|]. intros s1 Hs1. unfold when.
  assert (Hg1 : log_geom d g1) by (by destruct Hg; split). assert (Htx1 : tx_ok g1 a) by (by destruct Htx; split).
  assert (Hend : forall o2 a2 dk2 ws2 s2 e2, cst d i o2 a2 dk2 ws2 s2 -> k_log o2 = set_lg_n 0 g1 ->
    (forall s', cst d i (set_k_log g' o2) a2 dk2 ws2 s' -> Q tt (World s' e2)) ->
    wp (acquire L_log;; modify (fun s => set_k_log (set_lg_committing 0 (k_log s)) s);; wakeup Ch_log;; release L_log) Q (World s2 e2)).
  { intros o2 a2 dk2 ws2 s2 e2 Hs2 Eo2 HQ2. wp_step. apply wp_acquire; [eapply calm_lock_free; apply Hs2|]. cbn [st env].
    wp_step. wp_step. cbn [st env]. change (k_log (acquired L_log s2)) with (k_log s2). rewrite (cst_log _ _ _ _ _ _ _ Hs2), Eo2.
    by apply (wp_log_wakeup _ o2 a2 dk2 ws2). }
  wp_step. destruct (0 <? lg_n g) eqn:En; bool_facts.
  - eapply (wp_commit d Hd i m); [exact Hs1|done|done|done|exact Hio|].
    intros s2 e2 Hs2 Hio2. eapply (Hend _ _ _ _ _ _ Hs2); [done|]. intros s3 Hs3. apply HQ; [|done].
    unfold W, tx_writes. rewrite (proj2 (Z.ltb_lt 0 (lg_n g))) by done. exact Hs3.
  - unfold commit, the_log. wp_step. wp_step. cbn [st]. rewrite (cst_log _ _ _ _ _ _ _ Hs1).
    change (lg_n (k_log (set_k_log g1 o))) with (lg_n g). rewrite (proj2 (Z.ltb_ge 0 (lg_n g))) by done. unfold when. wp_step.
    assert (En0 : lg_n g = 0) by (destruct Hg; lia).
    eapply (Hend _ _ _ _ _ _ Hs1); [change (k_log (set_k_log g1 o)) with g1; by destruct g; cbn in *; subst|].
    intros s3 Hs3. apply HQ; [|eapply io_ready_le; [|exact Hio]; lia].
    unfold W, tx_writes. rewrite (proj2 (Z.ltb_ge 0 (lg_n g))) by done. unfold listed. rewrite En0. exact Hs3.
Qed.

End Tx.

(** ** The theorems *)

Section Theorems.
Context `{DiskDriverOk} (d : Z) (Hd : d <> 0).

(** The header on disk at every point of a commit. *)
Lemma commit_log_ok g a dk (j : nat) : log_geom d g -> tx_ok g a -> length (disk_block dk (lg_start g)) = BSIZE ->
  hdr_n (disk_block dk (lg_start g)) = 0 -> log_on_disk_ok g (written (take j (commit_writes g a dk)) dk).
Proof.
  intros Hg Htx Hlen Hz. set (dk' := written _ dk).
  assert (Hempty : hdr_n (disk_block dk' (lg_start g)) = 0 -> log_on_disk_ok g dk').
  { intros E. unfold log_on_disk_ok, disk_log. rewrite E. destruct Hg. split_and!; [lia..|constructor]. }
  assert (Hlw : lg_start g ∉ (log_writes g a).*1) by (intros Hin%(log_writes_blocks d); [lia|done]).
  assert (Hiw : lg_start g ∉ (install_writes g a).*1).
  { rewrite install_writes_blocks. eapply listed_not_area; [done|]. destruct Hg. lia. }
  destruct (listed_fits d g a dk Hg Htx Hlen) as (F1 & F2 & F3).
  unfold commit_writes in dk'. destruct (decide (j <= length (log_writes g a))%nat) as [H1|H1].
  { apply Hempty. unfold dk'. rewrite take_app_le by (rewrite length_app; cbn; lia). rewrite take_app_le by done. by rewrite written_take_other. }
  unfold dk' in *. rewrite take_app_ge in * by (rewrite length_app; cbn; lia). rewrite written_app in *.
  set (j' := (j - _)%nat) in *. destruct (decide (j' <= length (install_writes g a))%nat) as [H2|H2].
  - rewrite take_app_le in * by done. unfold log_on_disk_ok.
    assert (Eh : disk_block (written (take j' (install_writes g a)) (written (log_writes g a ++ [(lg_start g, commit_header g dk)]) dk)) (lg_start g) =
                 commit_header g dk).
    { rewrite written_take_other by done. rewrite written_snoc. apply disk_block_insert_eq. }
    rewrite (disk_log_header _ _ _ _ Eh) by (rewrite ?Hlen; done). rewrite Eh. unfold commit_header.
    rewrite hdr_n_header by (rewrite ?Hlen; done). rewrite (length_listed d) by done. destruct Hg. split_and!; [lia..|].
    apply list.Forall_forall. intros b Hb. apply (tx_pinned _ _ Htx b Hb).
  - apply Hempty. rewrite take_ge by (rewrite length_app; cbn; lia). rewrite written_snoc. cbn [fst snd]. rewrite disk_block_insert_eq.
    apply header_empty. unfold commit_header. rewrite length_header; rewrite Hlen; [done|lia].
Qed.

(** The blocks after the commit. *)
Lemma tx_writes_final g a dk n : log_geom d g -> tx_ok g a -> length (disk_block dk (lg_start g)) = BSIZE -> home g n ->
  disk_block (written (tx_writes g a dk) dk) n = after_tx g a dk n.
Proof.
  intros Hg Htx Hlen Hn. unfold tx_writes. destruct (0 <? lg_n g) eqn:E; bool_facts; [by apply (commit_final d)|].
  unfold after_tx, listed. assert (lg_n g = 0) as -> by (destruct Hg; lia). by rewrite decide_False by apply not_elem_of_nil.
Qed.

(** A machine started again after [j] of the commit's writes. *)
Lemma crash_recovers g a dk (j : nat) ib ob sb eb :
  log_geom d g -> tx_ok g a -> hdr_n (disk_block dk (lg_start g)) = 0 -> length (disk_block dk (lg_start g)) = BSIZE ->
  cst d ib ob ∅ (written (take j (tx_writes g a dk)) dk) [] sb -> log_geom d (k_log ob) -> lg_start (k_log ob) = lg_start g ->
  lg_size (k_log ob) = lg_size g -> io_ready ib (3 * LOGSIZE + 3) eb ->
  wp recover_from_log (fun _ wb =>
    (forall n, home g n -> disk_block (k_disk (st wb)) n = disk_block dk n) \/
    (forall n, home g n -> disk_block (k_disk (st wb)) n = after_tx g a dk n)) (World sb eb).
Proof.
  intros Hg Htx Hz Hlen Hsb Hgb Est Esz Hiob.
  set (dkj := written (take j (tx_writes g a dk)) dk) in *.
  assert (Hhome : forall n, home (k_log ob) n <-> home g n) by (intros n; unfold home; by rewrite Est, Esz).
  assert (Hpoint : log_on_disk_ok g dkj /\ ((forall n, home g n -> replay (lg_start g) dkj n = disk_block dk n) \/
                                        (forall n, home g n -> replay (lg_start g) dkj n = after_tx g a dk n))).
  { unfold dkj, tx_writes. destruct (0 <? lg_n g); [split; [by apply commit_log_ok|by apply (commit_points d)]|].
    rewrite take_nil. split; [|left; intros n _; by apply replay_empty].
    unfold log_on_disk_ok, disk_log. cbn [written foldl]. rewrite Hz. destruct Hg. split_and!; [lia..|constructor]. }
  destruct Hpoint as [Hok Hor].
  assert (Hlen' : length (disk_block dkj (lg_start g)) = BSIZE) by exact (cst_length _ _ _ _ _ _ _ (lg_start g) Hsb).
  assert (Hokb : log_on_disk_ok (k_log ob) dkj).
  { unfold log_on_disk_ok in *. rewrite Est, Esz. destruct Hok as ([? ?] & ? & Hf). split_and!; try done.
    eapply list.Forall_impl; [exact Hf|]. intros n. apply Hhome. }
  eapply (wp_recover_from_log d Hd ib 0); [done|done|done|by rewrite Nat.add_0_r|].
  intros g' sb' eb' _ Hsb' _. cbn [st]. rewrite (cst_disk _ _ _ _ _ _ _ Hsb').
  assert (Hrec : forall n, home g n -> disk_block (written (recover_writes (k_log ob) dkj) dkj) n = replay (lg_start g) dkj n).
  { intros n Hn. rewrite <- Est in Hlen' |- *. apply (recovered_home d); try done. by apply Hhome. }
  destruct Hor as [Hor|Hor]; [left|right]; intros n Hn; rewrite Hrec by done; by apply Hor.
Qed.

(** C1: transactions are atomic with respect to crashes.  When the last
    outstanding operation ends, [end_op] commits: it returns, the home blocks then
    hold what the transaction wrote and the log is empty.  If the machine stops
    after any number [j] of the commit's block writes and is started again,
    [recover_from_log] returns and leaves on the home blocks either the disk
    before the transaction or the disk after it. *)
Theorem end_op_crash_safe i o a dk ws s e :
  let g := k_log o in
  cst d i o a dk ws s -> log_geom d g -> tx_ok g a -> lg_outstanding g = 1 -> lg_committing g = 0 ->
  hdr_n (disk_block dk (lg_start g)) = 0 -> io_ready i (6 * Z.to_nat (lg_n g) + 4) e ->
  wp end_op (fun _ w' => lg_n (k_log (st w')) = 0 /\ lg_outstanding (k_log (st w')) = 0 /\ lg_committing (k_log (st w')) = 0 /\
    (forall n, home g n -> disk_block (k_disk (st w')) n = after_tx g a dk n) /\
    exists W, k_dwrites (st w') = rev W ++ ws /\
    forall (j : nat) ib ob sb eb,
      cst d ib ob ∅ (written (take j W) dk) [] sb -> log_geom d (k_log ob) -> lg_start (k_log ob) = lg_start g ->
      lg_size (k_log ob) = lg_size g -> io_ready ib (3 * LOGSIZE + 3) eb ->
      wp recover_from_log (fun _ wb =>
        (forall n, home g n -> disk_block (k_disk (st wb)) n = disk_block dk n) \/
        (forall n, home g n -> disk_block (k_disk (st wb)) n = after_tx g a dk n)) (World sb eb)) (World s e).
Proof.
  intros g Hs Hg Htx Hout Hcm Hz Hio.
  assert (Hlen : length (disk_block dk (lg_start g)) = BSIZE).
  { pose proof (cst_length _ _ _ _ _ _ _ (lg_start g) Hs) as E. unfold content in E. rewrite (tx_area _ _ Htx) in E; [done|destruct Hg; lia]. }
  eapply (wp_end_op d Hd i 0); [done..|by rewrite Nat.add_0_r|]. fold g. intros s' e' Hs' _. cbn [st].
  rewrite (cst_log _ _ _ _ _ _ _ Hs'), (cst_disk _ _ _ _ _ _ _ Hs'), (cst_writes _ _ _ _ _ _ _ Hs'). split_and!; [done|done|done| |].
  { intros n Hn. by apply tx_writes_final. }
  exists (tx_writes g a dk). split; [done|]. intros j ib ob sb eb. by apply crash_recovers.
Qed.

(** C22: recovery.  From any disk whose log header is one the log could have
    written, [recover_from_log] returns with the logged blocks installed, the log
    empty, and it can be interrupted: after any number of its writes the disk
    still stands for the same contents, so that recovering again gives the same
    result. *)
Theorem recover_correct i o dk ws s e :
  let g := k_log o in
  cst d i o ∅ dk ws s -> log_geom d g -> log_on_disk_ok g dk -> io_ready i (3 * LOGSIZE + 3) e ->
  wp recover_from_log (fun _ w' => exists W, k_dwrites (st w') = rev W ++ ws /\ k_disk (st w') = written W dk /\
    (forall n, home g n -> disk_block (k_disk (st w')) n = replay (lg_start g) dk n) /\
    hdr_n (disk_block (k_disk (st w')) (lg_start g)) = 0 /\ lg_n (k_log (st w')) = 0 /\
    forall (j : nat) n, home g n -> replay (lg_start g) (written (take j W) dk) n = replay (lg_start g) dk n) (World s e).
Proof.
  intros g Hs Hg Hok Hio. assert (Hlen : length (disk_block dk (lg_start g)) = BSIZE) by exact (cst_length _ _ _ _ _ _ _ (lg_start g) Hs).
  eapply (wp_recover_from_log d Hd i 0); [done|done|done|by rewrite Nat.add_0_r|]. fold g. intros g' s' e' _ Hs' _. cbn [st].
  exists (recover_writes g dk). rewrite (cst_log _ _ _ _ _ _ _ Hs'), (cst_disk _ _ _ _ _ _ _ Hs'), (cst_writes _ _ _ _ _ _ _ Hs').
  split_and!; [done|done| | |done|].
  - intros n Hn. by apply (recovered_home d).
  - unfold recover_writes. rewrite written_snoc. cbn [fst snd]. rewrite disk_block_insert_eq. by apply header_empty.
  - intros j n Hn. by apply (recover_points d).
Qed.

(** [log_write] in a transaction with room left lists the block, once: a
    block already listed is absorbed, a new one is appended and pinned in the
    cache with one more reference.  Nothing else changes. *)
Theorem log_write_spec i n x o a dk ws s e :
  let g := k_log o in
  cst d i o a dk ws s -> log_geom d g -> Forall (fun b => 0 <= b < 2147483648) (listed g) -> NoDup (listed g) ->
  lg_n g < LOGSIZE -> lg_n g < lg_size g - 1 -> 0 < lg_outstanding g -> a !! n = Some x -> ab_refs x + 1 < 4294967296 ->
  wp (log_write (ab_idx x)) (fun _ w' => exists g', cst d i (set_k_log g' o) (pinned n x g a) dk ws (st w') /\
    listed g' = (if decide (n ∈ listed g) then listed g else listed g ++ [n]) /\ NoDup (listed g') /\
    lg_outstanding g' = lg_outstanding g /\ log_geom d g') (World s e).
Proof.
  intros g Hs Hg Hr Hnd Hn Hsz Hout Hx Hrf. apply (wp_log_write d i n x o a dk ws); [done..|]. fold g. intros s' Hs'. cbn [st].
  exists (log_with n g). rewrite (listed_log_with d) by done. split_and!; [done|done| | |].
  - case_decide; [done|]. apply list.NoDup_app. split_and!; [done|intros y Hy ->%list_elem_of_singleton; done|apply NoDup_singleton].
  - unfold log_with. by case_decide.
  - unfold log_with. case_decide; [done|]. destruct Hg. split; cbn; rewrite ?length_insert; done || lia.
Qed.


End Theorems.

(** ** Instances *)

#[local] Existing Instance ideal_disk.

(** A machine just started on disk [dk], with a log of 30 blocks at block 2. *)
Definition demo_log : logst := mklog 2 30 0 0 1 0 (replicate LOGSIZE 0).
Definition kst_start (dk : gmap Z (list Z)) : kst := set_k_log demo_log (set_k_disk dk kst_boot).
Definition kst_mounted (dk : gmap Z (list Z)) : kst := final (kst_start dk) (binit (World (kst_start dk) [])).

Lemma kst_mounted_cst dk : (forall n, length (disk_block dk n) = BSIZE) ->
  exists o, cst 1 0 o ∅ dk [] (kst_mounted dk) /\ k_log o = demo_log.
Proof.
  intros Hdk. unfold kst_mounted. apply (wp_final binit (fun s => exists o, cst 1 0 o ∅ dk [] s /\ k_log o = demo_log)).
  apply (wp_binit 1); [done|done|done|done| |exact Hdk|].
  - intros i b Hi Hb. apply lookup_replicate in Hb as [-> _]. done.
  - intros bs Hok _. cbn [st env]. exists (outside (set_k_bufs bs (kst_start dk))). split; [|done]. split; try done.
    + unfold calm, intr_ok. cbn [kst_start kst_boot k_cpu set_k_bufs set_k_fs set_k_cpu set_k_log set_k_disk c_noff c_proc].
      split_and!; [lia|lia|done|done|unfold NPROC; lia|done|done].
    + exists (rev (seq 0 NBUF)). split; [exact Hok|done].
Qed.

Lemma kst_mounted_locks dk : (forall n, length (disk_block dk n) = BSIZE) -> k_sleeplocks (kst_mounted dk) = ∅.
Proof.
  intros Hdk. unfold kst_mounted. apply (wp_final binit (fun s => k_sleeplocks s = ∅)). apply (wp_binit 1); [done|done|done|done| |exact Hdk|done].
  intros i b Hi Hb. apply lookup_replicate in Hb as [-> _]. done.
Qed.

Lemma demo_geom : log_geom 1 demo_log.
Proof. split; cbn; try done; unfold LOGSIZE; lia. Qed.

#[global] Opaque kst_mounted.

(** An operation that writes block 100, up to its [end_op]. *)
Definition demo_op : K unit :=
  begin_op;;
  b ← bread 1 100;
  modify_buf b (set_b_data (replicate BSIZE 7));;
  log_write b;;
  brelse b.
Definition kst_tx : kst := final (kst_mounted ∅) (demo_op (World (kst_mounted ∅) [])).

Lemma kst_tx_cst : exists o a, cst 1 0 o a ∅ [] kst_tx /\ log_geom 1 (k_log o) /\ tx_ok (k_log o) a /\ lg_outstanding (k_log o) = 1 /\
  lg_committing (k_log o) = 0 /\ lg_start (k_log o) = 2 /\ lg_size (k_log o) = 30 /\ listed (k_log o) = [100] /\ new_value a 100 = replicate BSIZE 7.
Proof.
  destruct (kst_mounted_cst ∅) as (o & Hs & Elog); [done|]. unfold kst_tx.
  apply (wp_final demo_op (fun s => exists o a, cst 1 0 o a ∅ [] s /\ log_geom 1 (k_log o) /\ tx_ok (k_log o) a /\ lg_outstanding (k_log o) = 1 /\
    lg_committing (k_log o) = 0 /\ lg_start (k_log o) = 2 /\ lg_size (k_log o) = 30 /\ listed (k_log o) = [100] /\ new_value a 100 = replicate BSIZE 7)).
  unfold demo_op. wp_step. eapply (wp_begin_op 1 0); [exact Hs|by rewrite Elog|rewrite Elog; cbn; unfold LOGSIZE, MAXOPBLOCKS; lia|].
  rewrite Elog. intros s1 Hs1. set (g1 := set_lg_outstanding _ demo_log) in Hs1. set (o1 := set_k_log g1 o) in Hs1.
  wp_step. eapply (blk_bread 1 ltac:(done) 0 100 0); [exact Hs1|done|lia|unfold available; rewrite lookup_empty, map_size_empty; unfold NBUF; lia|].
  intros x s2 e2 Ex1 Ex2 Ex3 _ Hs2 _.
  wp_step. eapply (blk_write 1 0 100 x _ (replicate BSIZE 7)); [exact Hs2|apply lookup_insert_eq|done|apply length_replicate|].
  intros s3 Hs3. rewrite insert_insert_eq in Hs3. set (y := mkab (ab_idx x) (replicate BSIZE 7) (ab_refs x) (ab_lock x)) in Hs3.
  change (ab_idx x) with (ab_idx y). assert (Hr : ab_refs y = 1) by exact Ex2.
  wp_step. eapply (wp_log_write 1 0 100 y); [exact Hs3| | | | | |apply lookup_insert_eq|rewrite Hr; lia|].
  { change (k_log o1) with g1. split; cbn; try done; unfold LOGSIZE; lia. }
  { constructor. }
  { change (k_log o1) with g1. cbn. unfold LOGSIZE. lia. }
  { change (k_log o1) with g1. cbn. lia. }
  { change (k_log o1) with g1. cbn. lia. }
  change (k_log o1) with g1. unfold log_with, pinned. rewrite !decide_False by apply not_elem_of_nil. rewrite insert_insert_eq.
  intros s4 Hs4. set (g4 := set_lg_n _ _) in Hs4. set (z := mkab (ab_idx y) (ab_data y) (ab_refs y + 1) (ab_lock y)) in Hs4.
  change (ab_idx y) with (ab_idx z). eapply (blk_brelse 1 0 100 z); [exact Hs4|apply lookup_insert_eq|exact Ex3|cbn; rewrite Ex2; unfold refs; rewrite lookup_empty; lia|].
  intros s5 Hs5. unfold released in Hs5. assert (Ez : ab_refs z = 2) by (cbn [z ab_refs]; rewrite Hr; lia). rewrite Ez in Hs5. cbn [Z.eqb] in Hs5.
  change (2 =? 1) with false in Hs5. cbv iota in Hs5. rewrite insert_insert_eq in Hs5.
  eexists _, _. split; [exact Hs5|]. change (k_log (set_k_log g4 o1)) with g4.
  assert (El : listed g4 = [100]) by reflexivity. split; [|split; [|by split_and!]].
  - assert (lg_n g4 = 1) by reflexivity. assert (lg_start g4 = 2) by reflexivity. assert (lg_size g4 = 30) by reflexivity.
    split; [reflexivity|unfold LOGSIZE; lia|reflexivity|unfold LOGSIZE; lia|unfold LOGSIZE; lia].
  - split.
    + rewrite El. apply NoDup_singleton.
    + rewrite El. intros b ->%list_elem_of_singleton. split; [split; cbn; lia|]. eexists. rewrite lookup_insert_eq. done.
    + intros n Hn. cbn in Hn. rewrite lookup_insert_ne by lia. apply lookup_empty.
    + rewrite map_size_insert_None, map_size_empty by done. unfold NBUF. lia.
Qed.

#[global] Opaque kst_tx.

Lemma end_op_crash_safe_witness :
  wp end_op (fun _ w' => lg_n (k_log (st w')) = 0 /\ disk_block (k_disk (st w')) 100 = replicate BSIZE 7) (World kst_tx []).
Proof.
  destruct kst_tx_cst as (o & a & Hs & Hg & Htx & Hout & Hcm & Est & Esz & El & Hv).
  eapply wp_mono; [apply (end_op_crash_safe 1 ltac:(done) 0 o a ∅ [] kst_tx [] Hs Hg Htx Hout Hcm); [|done]|].
  - rewrite Est. vm_compute. reflexivity.
  - intros _ w' (Hn & _ & _ & Hd & _). split; [exact Hn|]. rewrite Hd.
    + unfold after_tx. rewrite El, decide_True by (by left). exact Hv.
    + unfold home. rewrite Est, Esz. lia.
Defined.

(** A disk whose log holds one block. *)
Definition demo_disk : gmap Z (list Z) :=
  <[3 := replicate BSIZE 9]> (<[2 := header [100] (replicate BSIZE 0)]> ∅).

Lemma demo_disk_length n : length (disk_block demo_disk n) = BSIZE.
Proof.
  assert (E : length (header [100] (replicate BSIZE 0)) = BSIZE).
  { rewrite length_header; rewrite length_replicate; [done|cbn; unfold BSIZE; lia]. }
  unfold demo_disk, disk_block. rewrite lookup_insert. case_decide; [apply length_replicate|]. rewrite lookup_insert.
  case_decide; [exact E|]. rewrite lookup_empty. apply length_replicate.
Qed.

Lemma demo_disk_log : log_on_disk_ok demo_log demo_disk /\ disk_log 2 demo_disk = [100].
Proof.
  assert (Eh : disk_block demo_disk 2 = header [100] (replicate BSIZE 0)) by reflexivity.
  assert (El : disk_log 2 demo_disk = [100]).
  { eapply disk_log_header; [exact Eh|rewrite length_replicate; cbn; unfold BSIZE; lia|done|by repeat constructor]. }
  split; [|exact El]. unfold log_on_disk_ok. cbn [lg_start lg_size demo_log]. rewrite El, Eh, hdr_n_header; [|rewrite length_replicate; cbn; unfold BSIZE; lia|done].
  unfold LOGSIZE. cbn. split_and!; [lia..|]. repeat constructor; cbn; lia.
Qed.

Lemma recover_correct_witness :
  wp recover_from_log (fun _ w' => disk_block (k_disk (st w')) 100 = replicate BSIZE 9 /\ lg_n (k_log (st w')) = 0) (World (kst_mounted demo_disk) []).
Proof.
  destruct (kst_mounted_cst demo_disk demo_disk_length) as (o & Hs & Elog). destruct demo_disk_log as [Hok El].
  rewrite <- Elog in Hok. pose proof demo_geom as Hg. rewrite <- Elog in Hg.
  eapply wp_mono; [apply (recover_correct 1 ltac:(done) 0 o demo_disk [] _ [] Hs Hg Hok I)|].
  intros _ w' (W & _ & _ & Hd & _ & Hn & _). split; [|exact Hn]. rewrite Hd.
  - unfold replay. rewrite Elog. cbn [lg_start demo_log]. rewrite El. reflexivity.
  - unfold home. rewrite Elog. cbn. lia.
Defined.

Lemma log_write_spec_witness : exists o x a s, wp (log_write (ab_idx x)) (fun _ w' => exists g', cst 1 0 (set_k_log g' o) (pinned 100 x (k_log o) a) ∅ [] (st w') /\
    listed g' = [100]) (World s []).
Proof.
  destruct kst_tx_cst as (o & a & Hs & Hg & Htx & Hout & Hcm & Est & Esz & El & Hv).
  destruct (tx_pinned _ _ Htx 100) as (_ & x & Hx & _ & Hr); [rewrite El; by left|]. exists o, x, a, kst_tx.
  assert (Hlen : lg_n (k_log o) = 1).
  { pose proof (length_listed _ _ Hg) as E. rewrite El in E. cbn in E. destruct Hg. lia. }
  eapply wp_mono; [apply (log_write_spec 1 0 100 x o a ∅ [] kst_tx [] Hs Hg)|].
  - rewrite El. by repeat constructor.
  - rewrite El. apply NoDup_singleton.
  - rewrite Hlen. unfold LOGSIZE. lia.
  - rewrite Hlen, Esz. lia.
  - rewrite Hout. lia.
  - exact Hx.
  - exact Hr.
  - intros _ w' (g' & Hs' & El' & _). exists g'. split; [exact Hs'|]. rewrite El', El. by rewrite decide_True by (by left).
Defined.

Lemma calm_set_log i g s : calm i s -> calm i (set_k_log g s).
Proof. done. Qed.
Lemma k_log_set g s : k_log (set_k_log g s) = g.
Proof. done. Qed.

