(* ===== verification/FsTx.v ===== *)
(** * Blocks inside a transaction

    What the code of kernel/fs.c sees between [begin_op] and [end_op]: the blocks
    it holds locked ([h], block number to buffer) and the current contents of
    every block ([v]).  [log_write] adds the block to the transaction; the disk
    does not change before the commit.  The four rules below are all that the
    theorems about fs.c use of the cache and of the log. *)

From S2P Require Import Prelude State Spinlock Norm Sched Sleeplock Bio LruList Cache CacheSpec Blocks Log LogSpec LogTx.

Definition fupd {A} (n : Z) (x : A) (v : Z -> A) : Z -> A := fun k => if decide (k = n) then x else v k.

Lemma fupd_eq {A} n (x : A) v : fupd n x v n = x.
Proof. unfold fupd. by rewrite decide_True. Qed.
Lemma fupd_ne {A} n (x : A) v k : k <> n -> fupd n x v k = v k.
Proof. intros H. unfold fupd. by rewrite decide_False. Qed.

Definition one (P : Prop) `{Decision P} : Z := if decide P then 1 else 0.

Lemma one_range (P : Prop) `{Decision P} : 0 <= one P <= 1.
Proof. unfold one. case_decide; lia. Qed.

Section Tx.
Context `{DiskDriverOk} (d : Z) (Hd : d <> 0) (i : nat).

Record tx_map (dk : gmap Z (list Z)) (g : logst) (pid : Z) (h : gmap Z nat) (v : Z -> list Z) (a : gmap Z abuf) : Prop := {
  tm_geom : log_geom d g;
  tm_out : 0 < lg_outstanding g;
  tm_nodup : NoDup (listed g);
  tm_in : forall n x, a !! n = Some x ->
    ab_refs x = one (n ∈ listed g) + one (is_Some (h !! n)) /\
    ab_lock x = (if decide (is_Some (h !! n)) then Some (mksleep 1 pid) else None) /\
    (forall j, h !! n = Some j -> ab_idx x = j) /\ (n ∉ listed g -> ab_data x = disk_block dk n) /\ home g n;
  tm_cov : forall n, n ∈ listed g \/ is_Some (h !! n) -> is_Some (a !! n);
  tm_val : forall n, content a dk n = v n
}.

(** The state of an operation: [o] is everything outside the cache and the disk,
    among it the log's memory image. *)
Definition txs (dk : gmap Z (list Z)) (ws : list (Z * list Z)) (o : kst) (h : gmap Z nat) (v : Z -> list Z) (s : kst) : Prop :=
  exists a, cst d i o a dk ws s /\ tx_map dk (k_log o) (cur_pid o) h v a.

Lemma txs_calm dk ws o h v s : txs dk ws o h v s -> calm i s.
Proof. intros (a & Hc & _). apply Hc. Qed.

Lemma txs_length dk ws o h v s n : txs dk ws o h v s -> length (v n) = BSIZE.
Proof. intros (a & Hc & Hm). rewrite <- (tm_val _ _ _ _ _ _ Hm n). by eapply cst_length. Qed.

(** The blocks in use are the listed and the held ones. *)
Lemma tm_size dk g pid h v a : (forall n x, a !! n = Some x -> 0 < ab_refs x) -> tx_map dk g pid h v a ->
  (size a <= length (listed g) + size h)%nat.
Proof.
  intros Hpos Hm. rewrite <- (size_dom a), <- (size_dom h).
  assert (dom a ⊆ list_to_set (listed g) ∪ dom h) as Hsub.
  { intros n Hn. apply elem_of_dom in Hn as [x Hx]. destruct (tm_in _ _ _ _ _ _ Hm n x Hx) as (Hr & _). specialize (Hpos n x Hx).
    rewrite elem_of_union, elem_of_list_to_set, elem_of_dom. unfold one in Hr.
    destruct (decide (n ∈ listed g)); [by left|]. destruct (decide (is_Some (h !! n))); [by right|lia]. }
  apply subseteq_size in Hsub. etransitivity; [exact Hsub|]. rewrite size_union_alt, size_list_to_set by apply Hm.
  assert (size (dom h ∖ list_to_set (listed g) : gset Z) <= size (dom h))%nat by (apply subseteq_size; set_solver). lia.
Qed.

Lemma one_in n (l : list Z) : n ∈ l -> one (n ∈ l) = 1.
Proof. intros H'. unfold one. by rewrite decide_True. Qed.

(** Reading and locking a block. *)
Lemma tx_bread n m dk ws o h v s e (Q : nat -> world kst -> Prop) :
  txs dk ws o h v s -> io_ready i (S m) e -> home (k_log o) n -> h !! n = None -> lg_n (k_log o) + size h < NBUF ->
  (forall j s' e', txs dk ws o (<[n := j]> h) v s' -> io_ready i m e' -> Q j (World s' e')) ->
  wp (bread d n) Q (World s e).
Proof.
  intros (a & Hc & Hm) Hio Hn Hh Hroom HQ. set (g := k_log o) in *.
  assert (available a n) as Hav.
  { unfold available. destruct (a !! n) as [x|] eqn:Hx.
    - destruct (tm_in _ _ _ _ _ _ Hm n x Hx) as (Hr & Hl & _). rewrite decide_False in Hl by (by apply eq_None_not_Some).
      split; [done|]. rewrite Hr. unfold one. destruct (decide (n ∈ listed g)), (decide (is_Some (h !! n))); lia.
    - assert (size a <= length (listed g) + size h)%nat as Hsz.
      { eapply tm_size; [|exact Hm]. intros k x Hk. destruct (cst_entry _ _ _ _ _ _ _ _ _ Hc Hk). lia. }
      rewrite (length_listed d) in Hsz by apply Hm. destruct (tm_geom _ _ _ _ _ _ Hm). unfold NBUF in *. lia. }
  apply (blk_bread d Hd i n m o a dk ws); [done|done|apply Hn|done|]. intros x s' e' Hdata Hrefs Hlock Hidx Hc' Hio'.
  apply HQ; [|done]. exists (<[n := x]> a). split; [done|]. destruct Hm as [H1 H2 H3 Hin Hcov Hval]. fold g. split; [done|done|done| | |].
  - intros k y Hy. destruct (decide (k = n)) as [->|Hne].
    + rewrite lookup_insert_eq in Hy. injection Hy as <-. rewrite lookup_insert_eq. split_and!.
      * rewrite Hrefs. unfold refs. destruct (a !! n) as [y|] eqn:Hy.
        -- destruct (Hin n y Hy) as (-> & _). unfold one. rewrite (decide_False (P:=is_Some (h !! n))) by (by apply eq_None_not_Some).
           rewrite (decide_True (P:=is_Some (Some _))) by eauto.
           destruct (decide (n ∈ listed g)); lia.
        -- unfold one. rewrite (decide_True (P:=is_Some (Some _))) by eauto. rewrite decide_False; [lia|].
           intros Hl. destruct (Hcov n (or_introl Hl)) as [? ?]. congruence.
      * rewrite decide_True by eauto. exact Hlock.
      * intros j [= ->]. done.
      * intros Hnl. rewrite Hdata. unfold content. destruct (a !! n) as [y|] eqn:Hy; [|done]. by destruct (Hin n y Hy) as (_ & _ & _ & ? & _); auto.
      * done.
    + rewrite lookup_insert_ne in Hy by done. rewrite lookup_insert_ne by done. by apply Hin.
  - intros k Hk. destruct (decide (k = n)) as [->|Hne]; [rewrite lookup_insert_eq; eauto|]. rewrite lookup_insert_ne in Hk by done. rewrite lookup_insert_ne by done. by apply Hcov.
  - intros k. rewrite <- Hval. unfold content at 1. destruct (decide (k = n)) as [->|Hne]; [by rewrite lookup_insert_eq|].
    by rewrite lookup_insert_ne.
Qed.

(** Looking at a held block. *)
Lemma tx_held n j dk ws o h v s : txs dk ws o h v s -> h !! n = Some j ->
  exists a x, cst d i o a dk ws s /\ tx_map dk (k_log o) (cur_pid o) h v a /\ a !! n = Some x /\ ab_idx x = j /\
    ab_data x = v n /\ ab_lock x = my_lock o /\ ab_refs x = one (n ∈ listed (k_log o)) + 1.
Proof.
  intros (a & Hc & Hm) Hj. destruct (tm_cov _ _ _ _ _ _ Hm n) as [x Hx]; [right; eauto|].
  destruct (tm_in _ _ _ _ _ _ Hm n x Hx) as (Hr & Hl & Hi & _). exists a, x. split_and!; [done..|by apply Hi| | |].
  - pose proof (tm_val _ _ _ _ _ _ Hm n) as E. unfold content in E. by rewrite Hx in E.
  - rewrite Hl, decide_True by eauto. done.
  - rewrite Hr. unfold one at 2. by rewrite decide_True by eauto.
Qed.

Lemma tx_read n j dk ws o h v s e (Q : buf -> world kst -> Prop) : txs dk ws o h v s -> h !! n = Some j ->
  (forall b, b_data b = v n -> b_blockno b = n -> Q b (World s e)) -> wp (buf_at j) Q (World s e).
Proof.
  intros Hs Hj HQ. destruct (tx_held n j _ _ _ _ _ _ Hs Hj) as (a & x & Hc & _ & Hx & <- & Hdata & _).
  eapply (blk_read d i n x o a dk ws); [done|done|]. intros b Hb Hbn _. apply HQ; [by rewrite Hb|done].
Qed.

(** Room in the log for a block, listed already or not. *)
Definition room (g : logst) (k : Z) : Prop := lg_n g + k <= LOGSIZE /\ lg_n g + k <= lg_size g - 1.

(** The log after [log_write] of [n]. *)
Definition tx_log (n : Z) (o : kst) : kst := set_k_log (log_with n (k_log o)) o.

Lemma tx_log_n n o : lg_n (k_log o) <= lg_n (k_log (tx_log n o)) <= lg_n (k_log o) + 1.
Proof. unfold tx_log, log_with. cbn. case_decide; cbn; lia. Qed.
Lemma tx_log_size n o : lg_size (k_log (tx_log n o)) = lg_size (k_log o).
Proof. unfold tx_log, log_with. cbn. by case_decide. Qed.
Lemma tx_log_start n o : lg_start (k_log (tx_log n o)) = lg_start (k_log o).
Proof. unfold tx_log, log_with. cbn. by case_decide. Qed.
Lemma tx_log_pid n o : cur_pid (tx_log n o) = cur_pid o.
Proof. done. Qed.
Lemma tx_log_home n o k : home (k_log (tx_log n o)) k <-> home (k_log o) k.
Proof. unfold home. by rewrite tx_log_size, tx_log_start. Qed.
Lemma tx_log_room n o k : room (k_log o) (k + 1) -> room (k_log (tx_log n o)) k.
Proof. unfold room. rewrite tx_log_size. pose proof (tx_log_n n o). lia. Qed.

Lemma elem_of_log_with n g k : log_geom d g -> lg_n g < LOGSIZE -> k ∈ listed (log_with n g) <-> k = n \/ k ∈ listed g.
Proof.
  intros Hg Hn. rewrite (listed_log_with d) by done. case_decide; [naive_solver|]. rewrite elem_of_app, list_elem_of_singleton. naive_solver.
Qed.

Lemma log_with_geom n g : log_geom d g -> lg_n g < LOGSIZE -> lg_n g < lg_size g - 1 -> log_geom d (log_with n g).
Proof.
  intros Hg Hn Hsz. unfold log_with. case_decide; [done|]. destruct Hg. split; cbn; rewrite ?length_insert; done || lia.
Qed.

Lemma one_iff (P Q : Prop) `{Decision P, Decision Q} : (P <-> Q) -> one P = one Q.
Proof. intros HPQ. unfold one. destruct (decide P), (decide Q); naive_solver. Qed.

(** Changing a held block and logging it. *)
Lemma tx_update {B} n j f u (k : unit -> K B) dk ws o h v s e (Q : B -> world kst -> Prop) :
  txs dk ws o h v s -> h !! n = Some j -> (forall b, b_data b = v n -> f b = set_b_data u b) -> length u = BSIZE -> room (k_log o) 1 ->
  (forall s', txs dk ws (tx_log n o) h (fupd n u v) s' -> wp (k tt) Q (World s' e)) ->
  wp (modify_buf j f ≫= fun _ => log_write j ≫= k) Q (World s e).
Proof.
  intros Hs Hj Hf Hu [Hr1 Hr2] HQ. destruct (tx_held n j _ _ _ _ _ _ Hs Hj) as (a & x & Hc & Hm & Hx & <- & Hdata & Hlock & Hrefs).
  set (g := k_log o) in *. destruct Hm as [Hg Hout Hnd Hin Hcov Hval].
  apply wp_bind. eapply (blk_write d i n x f u o a dk ws); [done|done|intros b Hb; apply Hf; by rewrite Hb|done|].
  intros s1 Hc1. set (y := mkab (ab_idx x) u (ab_refs x) (ab_lock x)) in *. apply wp_bind.
  change (ab_idx x) with (ab_idx y).
  assert (ab_refs y + 1 < 4294967296) as Hry by (change (ab_refs y) with (ab_refs x); rewrite Hrefs; pose proof (one_range (n ∈ listed g)); lia).
  eapply (wp_log_write d i n y o _ dk ws); fold g; [done|done| |lia|lia|lia|apply lookup_insert_eq|done|].
  { apply list.Forall_forall. intros b Hb. destruct (Hcov b (or_introl Hb)) as [z Hz]. by destruct (Hin b z Hz) as (_ & _ & _ & _ & [? _]). }
  intros s2 Hc2. apply HQ. eexists. split; [exact Hc2|]. change (cur_pid (tx_log n o)) with (cur_pid o).
  change (k_log (tx_log n o)) with (log_with n g).
  assert (home g n) as Hhome by (by destruct (Hin n x Hx) as (_ & _ & _ & _ & ?)).
  assert (forall k, home (log_with n g) k <-> home g k) as Hhm by (intros; apply (tx_log_home n o)).
  set (a' := pinned n y g _).
  assert (forall m, m <> n -> a' !! m = a !! m) as Hne.
  { intros m Hmn. unfold a', pinned.  destruct (decide (n ∈ listed g)); rewrite !lookup_insert_ne by done; done. }
  assert (exists z, a' !! n = Some z /\ ab_data z = u /\ ab_idx z = ab_idx x /\ ab_lock z = ab_lock x /\ ab_refs z = 2) as (z & Hz & Hz1 & Hz2 & Hz3 & Hz4).
  { unfold a', pinned. destruct (decide (n ∈ listed g)) as [Hl|Hl]; rewrite lookup_insert_eq; eexists; (split; [reflexivity|]); cbn; rewrite Hrefs; unfold one;
      [rewrite decide_True by done|rewrite decide_False by done]; done. }
  split; [apply log_with_geom; [done|lia|lia]|unfold log_with; by destruct (decide (n ∈ listed g))| | | |].
  - rewrite (listed_log_with d) by (done || lia). destruct (decide (n ∈ listed g)); [done|]. apply list.NoDup_app.
    split_and!; [done|by intros m Hm1 ->%list_elem_of_singleton|apply NoDup_singleton].
  - intros m x' Hm'. destruct (decide (m = n)) as [->|Hmn].
    + rewrite Hz in Hm'. injection Hm' as <-. split_and!.
      * rewrite Hz4. unfold one. rewrite (decide_True (P:=n ∈ _)) by (apply elem_of_log_with; [done|lia|by left]).
        by rewrite decide_True by eauto.
      * rewrite Hz3, Hlock, decide_True by eauto. done.
      * intros j' Hj'. rewrite Hz2. rewrite Hj in Hj'. by injection Hj'.
      * intros Hnl. exfalso. apply Hnl. apply elem_of_log_with; [done|lia|by left].
      * by apply Hhm.
    + rewrite Hne in Hm' by done. destruct (Hin m x' Hm') as (E1 & E2 & E3 & E4 & E5). split_and!; [|done|done| |by apply Hhm].
      * rewrite E1. f_equal. apply one_iff. rewrite elem_of_log_with by (done || lia). naive_solver.
      * intros Hnl. apply E4. intros Hl. apply Hnl. apply elem_of_log_with; [done|lia|by right].
  - intros m Hm'. destruct (decide (m = n)) as [->|Hmn]; [eauto|]. rewrite Hne by done. apply Hcov.
    destruct Hm' as [Hl|?]; [left|by right]. apply elem_of_log_with in Hl as [->|?]; [done|done|done|lia].
  - intros m. unfold content. destruct (decide (m = n)) as [->|Hmn]; [by rewrite Hz, fupd_eq|]. rewrite Hne, fupd_ne by done. apply Hval.
Qed.

Lemma tx_update_last n j f u dk ws o h v s e (Q : unit -> world kst -> Prop) :
  txs dk ws o h v s -> h !! n = Some j -> (forall b, b_data b = v n -> f b = set_b_data u b) -> length u = BSIZE -> room (k_log o) 1 ->
  (forall s', txs dk ws (tx_log n o) h (fupd n u v) s' -> Q tt (World s' e)) -> wp (modify_buf j f ≫= fun _ => log_write j) Q (World s e).
Proof.
  intros Hs Hj Hf Hu Hr HQ. assert (wp (modify_buf j f ≫= fun _ => log_write j ≫= mret) Q (World s e)) as Hwp by (by eapply tx_update).
  apply wp_bind_inv in Hwp. apply wp_bind. eapply wp_mono; [exact Hwp|]. intros [] w Hw. apply wp_bind_inv in Hw.
  eapply wp_mono; [exact Hw|]. intros [] w' Hw'. exact Hw'.
Qed.

(** Giving a block back. *)
Lemma tx_brelse n j dk ws o h v s e (Q : unit -> world kst -> Prop) : txs dk ws o h v s -> h !! n = Some j ->
  (forall s', txs dk ws o (delete n h) v s' -> Q tt (World s' e)) -> wp (brelse j) Q (World s e).
Proof.
  intros Hs Hj HQ. destruct (tx_held n j _ _ _ _ _ _ Hs Hj) as (a & x & Hc & Hm & Hx & <- & Hdata & Hlock & Hrefs).
  set (g := k_log o) in *. destruct Hm as [Hg Hout Hnd Hin Hcov Hval].
  assert (n ∉ listed g -> ab_data x = disk_block dk n) as Hclean by (by destruct (Hin n x Hx) as (_ & _ & _ & ? & _)).
  eapply (blk_brelse d i n x o a dk ws); [done|done|done| |].
  { intros E. apply Hclean. intros Hl. rewrite Hrefs, one_in in E by done. lia. }
  intros s' Hc'. apply HQ. eexists. split; [exact Hc'|]. fold g.
  set (a' := released n x a).
  assert (forall m, m <> n -> a' !! m = a !! m) as Hne.
  { intros m Hmn. unfold a', released. destruct (_ =? 1); [by rewrite lookup_delete_ne|by rewrite lookup_insert_ne]. }
  assert (((n ∈ listed g) /\ exists z, a' !! n = Some z /\ ab_data z = v n /\ ab_lock z = None /\ ab_refs z = 1) \/
          ((n ∉ listed g) /\ a' !! n = None)) as Hn.
  { unfold a', released. rewrite Hrefs. destruct (decide (n ∈ listed g)) as [Hl|Hl].
    - left. split; [done|]. rewrite one_in by done. change (1 + 1 =? 1) with false. cbv iota. rewrite lookup_insert_eq.
      eexists. split; [reflexivity|]. cbn. split_and!; [done|done|lia].
    - right. split; [done|]. unfold one. rewrite decide_False by done. change (0 + 1 =? 1) with true. cbv iota. apply lookup_delete_eq. }
  split; [done|done|done| | |].
  - intros m x' Hm'. destruct (decide (m = n)) as [->|Hmn].
    + destruct Hn as [(Hl & z & Hz & Hz1 & Hz2 & Hz3)|[_ Hz]]; [|congruence]. rewrite Hz in Hm'. injection Hm' as <-.
      rewrite lookup_delete_eq. unfold one. rewrite (decide_False (P:=is_Some None)) by (by intros [? ?]). rewrite decide_True by done.
      split_and!; [lia|done|done|done|by destruct (Hin n x Hx) as (_ & _ & _ & _ & ?)].
    + rewrite Hne in Hm' by done. rewrite lookup_delete_ne by done. by apply Hin.
  - intros m Hm'. destruct (decide (m = n)) as [->|Hmn].
    + destruct Hn as [(_ & z & Hz & _)|[Hl _]]; [eauto|]. rewrite lookup_delete_eq in Hm'. destruct Hm' as [?|[? ?]]; [done|discriminate].
    + rewrite lookup_delete_ne in Hm' by done. rewrite Hne by done. by apply Hcov.
  - intros m. rewrite <- Hval. unfold content. destruct (decide (m = n)) as [->|Hmn]; [|by rewrite Hne].
    rewrite Hx. destruct Hn as [(_ & z & -> & -> & _)|[Hl ->]]; [by rewrite Hdata|]. symmetry. by apply Hclean.
Qed.

(** At the end of an operation that holds no block, the state is one [end_op] can
    commit, and what it commits is [v]. *)
Lemma txs_commit dk ws o v s : txs dk ws o ∅ v s -> lg_n (k_log o) < NBUF ->
  exists a, cst d i o a dk ws s /\ log_geom d (k_log o) /\ tx_ok (k_log o) a /\ forall n, after_tx (k_log o) a dk n = v n.
Proof.
  intros (a & Hc & Hm) Hn. exists a. pose proof Hm as [Hg Hout Hnd Hin Hcov Hval]. split_and!; [done|done| |].
  - split; [done| | |].
    + intros b Hb. destruct (Hcov b (or_introl Hb)) as [x Hx]. destruct (Hin b x Hx) as (Hr & Hl & _ & _ & Hh). split; [done|].
      exists x. split; [done|]. rewrite lookup_empty in Hl, Hr. rewrite decide_False in Hl by (by intros [? ?]). split; [done|].
      rewrite Hr. pose proof (one_range (b ∈ listed (k_log o))). pose proof (one_range (is_Some (@None nat))). lia.
    + intros n Hna. destruct (a !! n) as [x|] eqn:Hx; [|done]. destruct (Hin n x Hx) as (_ & _ & _ & _ & Hh). exfalso. by eapply home_not_area.
    + assert (size a <= length (listed (k_log o)) + size (∅ : gmap Z nat))%nat as Hs.
      { eapply tm_size; [|exact Hm]. intros k x Hk. destruct (cst_entry _ _ _ _ _ _ _ _ _ Hc Hk). lia. }
      rewrite map_size_empty, (length_listed d) in Hs by done. destruct Hg. unfold NBUF in *. lia.
  - intros n. unfold after_tx, new_value. rewrite <- Hval. unfold content. destruct (decide (n ∈ listed (k_log o))) as [Hl|Hl].
    + by destruct (Hcov n (or_introl Hl)) as [x ->].
    + destruct (a !! n) as [x|] eqn:Hx; [|done]. by destruct (Hin n x Hx) as (_ & _ & _ & -> & _).
Qed.
End Tx.
