(* ===== verification/Fs.v ===== *)
(** * kernel/fs.c: the file system

    Blocks, inodes, inode contents, directories and path names, on top of the
    log and the buffer cache.  Inodes are indices in [itable]; a null inode
    pointer is [None]. *)

From S2P Require Import Prelude State KString Spinlock Norm Printf Sched Sleeplock Vm Proc Bio Log.

Definition FSMAGIC : Z := 270544960.
Definition NDIRECT : nat := 12.
Definition NINDIRECT : nat := 256.
Definition MAXFILE : Z := NDIRECT + NINDIRECT.
Definition IPB : Z := 16.
Definition BPB : Z := 8192.
Definition DIRSIZ : nat := 14.
Definition T_DIR : Z := 1.
Definition T_FILE : Z := 2.
Definition T_DEVICE : Z := 3.

Definition IBLOCK (i : Z) (sb : superblock) : Z := u32 (i / IPB + sb_inodestart sb).
Definition BBLOCK (b : Z) (sb : superblock) : Z := u32 (b / BPB + sb_bmapstart sb).

Section Fs.
Context `{DiskDriver}.

(** ** Super block, block allocator *)

Definition sb_of_bytes (bs : list Z) : superblock :=
  mksb (word bs 0) (word bs 1) (word bs 2) (word bs 3) (word bs 4) (word bs 5) (word bs 6) (word bs 7).

Definition readsb (dev : Z) : K unit :=
  bp ← bread (u32 dev) 1;
  b ← buf_at bp;
  modify (set_k_sb (sb_of_bytes (b_data b)));;
  brelse bp.

Definition fsinit (dev : Z) : K unit :=
  readsb dev;;
  sb ← gets k_sb;
  if negb (sb_magic sb =? FSMAGIC) then panic "invalid file system" else
  initlog dev sb.

Definition bzero (dev bno : Z) : K unit :=
  bp ← bread (u32 dev) (u32 bno);
  modify_buf bp (set_b_data (replicate BSIZE 0));;
  log_write bp;;
  brelse bp.

(** The inner loop of [balloc]: the first clear bit at or after [bi]. *)
Fixpoint balloc_scan (fuel : nat) (data : list Z) (b bi size : Z) : option Z :=
  match fuel with
  | O => None
  | S fuel =>
      if (bi <? BPB) && (u32 (b + bi) <? size) then
        let m := Z.shiftl 1 (bi mod 8) in
        if Z.land (nth (Z.to_nat (bi / 8)) data 0) m =? 0 then Some bi
        else balloc_scan fuel data b (bi + 1) size
      else None
  end.

(** [data[i] = f(data[i])] *)
Definition alter_byte (i : Z) (f : Z -> Z) (b : buf) : buf := set_b_data (alter f (Z.to_nat i) (b_data b)) b.

Fixpoint balloc_loop (fuel : nat) (dev b : Z) : K Z :=
  match fuel with
  | O => fault "balloc: out of fuel"
  | S fuel =>
      sb ← gets k_sb;
      if u32 b <? sb_size sb then
        bp ← bread dev (BBLOCK b sb);
        x ← buf_at bp;
        match balloc_scan (Z.to_nat BPB) (b_data x) b 0 (sb_size sb) with
        | Some bi =>
            modify_buf bp (alter_byte (bi / 8) (fun d => Z.lor d (Z.shiftl 1 (bi mod 8))));;
            log_write bp;;
            brelse bp;;
            bzero dev (s32 (b + bi));;
            mret (u32 (b + bi))
        | None =>
            brelse bp;;
            balloc_loop fuel dev (s32 (b + BPB))
        end
      else
        printf ("balloc: out of blocks" ++ NL) [];;
        mret 0
  end.

(** The size of the file system bounds the number of bitmap blocks. *)
Definition balloc (dev : Z) : K Z :=
  sb ← gets k_sb;
  balloc_loop (Z.to_nat (sb_size sb / BPB + 2)) dev 0.

Definition bfree (dev b : Z) : K unit :=
  sb ← gets k_sb;
  bp ← bread (u32 dev) (BBLOCK b sb);
  let bi := b mod BPB in
  let m := Z.shiftl 1 (bi mod 8) in
  x ← buf_at bp;
  if Z.land (nth (Z.to_nat (bi / 8)) (b_data x) 0) m =? 0 then panic "freeing free block" else
  modify_buf bp (alter_byte (bi / 8) (fun d => Z.ldiff d m));;
  log_write bp;;
  brelse bp.

(** ** Inodes *)

Definition inode_at (i : nat) : K inode := s ← get; nth_or_fault (k_inodes s) i.
Definition modify_inode (i : nat) (f : inode -> inode) : K unit :=
  modify (fun s => set_k_inodes (alter f i (k_inodes s)) s).

(** Dereferencing an inode pointer. *)
Definition inode_ptr (ip : option nat) : K nat :=
  match ip with Some i => mret i | None => fault "null inode" end.

(** [struct dinode] in a block: 64 bytes at [off]. *)
Definition dinode_off (inum : Z) : nat := (64 * Z.to_nat (inum mod IPB))%nat.
Definition dip_short (off : nat) (bs : list Z) : Z := s16 (get_le 2 off bs).
Definition dip_addrs (off : nat) (bs : list Z) : list Z := (fun k => get_le 4 (off + 12 + 4 * k) bs) <$> seq 0 (S NDIRECT).

Definition put_addrs (off : nat) (addrs : list Z) (bs : list Z) : list Z :=
  patch (off + 12) (mjoin (le_bytes 4 <$> addrs)) bs.

Definition iinit : K unit :=
  initlock L_itable;;
  foreach (seq 0 NINODE) (fun i =>
    initsleeplock (SL_inode i);;
    mret (@None unit));;
  mret tt.

(** The search loop of [iget] with the remembered empty slot: [inl i] for the
    entry of the inode, [inr empty] at the end of the table. *)
Fixpoint iget_find (tbl : list inode) (k : nat) (dev inum : Z) (empty : option nat) : nat + option nat :=
  match tbl with
  | [] => inr empty
  | ip :: tbl =>
      if (0 <? i_ref ip) && (i_dev ip =? dev) && (i_inum ip =? inum) then inl k
      else
        let empty := match empty with
                     | None => if i_ref ip =? 0 then Some k else None
                     | Some _ => empty
                     end in
        iget_find tbl (S k) dev inum empty
  end.

Definition iget (dev inum : Z) : K nat :=
  acquire L_itable;;
  tbl ← gets k_inodes;
  match iget_find tbl 0 dev inum None with
  | inl i =>
      modify_inode i (fun ip => set_i_ref (i_ref ip + 1) ip);;
      release L_itable;;
      mret i
  | inr None => panic "iget: no inodes"
  | inr (Some i) =>
      modify_inode i (set_i_dev dev);;
      modify_inode i (set_i_inum inum);;
      modify_inode i (set_i_ref 1);;
      modify_inode i (set_i_valid 0);;
      release L_itable;;
      mret i
  end.

Fixpoint ialloc_loop (fuel : nat) (dev type inum : Z) : K (option nat) :=
  match fuel with
  | O => fault "ialloc: out of fuel"
  | S fuel =>
      sb ← gets k_sb;
      if u32 inum <? sb_ninodes sb then
        bp ← bread dev (IBLOCK inum sb);
        x ← buf_at bp;
        let off := dinode_off inum in
        if dip_short off (b_data x) =? 0 then
          modify_buf bp (fun b => set_b_data (patch off (replicate 64 0) (b_data b)) b);;
          modify_buf bp (fun b => set_b_data (patch off (le_bytes 2 (u16 type)) (b_data b)) b);;
          log_write bp;;
          brelse bp;;
          i ← iget dev inum;
          mret (Some i)
        else
          brelse bp;;
          ialloc_loop fuel dev type (s32 (inum + 1))
      else
        printf ("ialloc: no inodes" ++ NL) [];;
        mret None
  end.

Definition ialloc (dev type : Z) : K (option nat) :=
  sb ← gets k_sb;
  ialloc_loop (Z.to_nat (sb_ninodes sb + 1)) dev type 1.

Definition iupdate (i : nat) : K unit :=
  ip ← inode_at i;
  sb ← gets k_sb;
  bp ← bread (i_dev ip) (IBLOCK (i_inum ip) sb);
  let off := dinode_off (i_inum ip) in
  modify_buf bp (fun b => set_b_data (patch off (le_bytes 2 (u16 (i_type ip))) (b_data b)) b);;
  modify_buf bp (fun b => set_b_data (patch (off + 2) (le_bytes 2 (u16 (i_major ip))) (b_data b)) b);;
  modify_buf bp (fun b => set_b_data (patch (off + 4) (le_bytes 2 (u16 (i_minor ip))) (b_data b)) b);;
  modify_buf bp (fun b => set_b_data (patch (off + 6) (le_bytes 2 (u16 (i_nlink ip))) (b_data b)) b);;
  modify_buf bp (fun b => set_b_data (patch (off + 8) (le_bytes 4 (i_size ip)) (b_data b)) b);;
  modify_buf bp (fun b => set_b_data (put_addrs off (i_addrs ip) (b_data b)) b);;
  log_write bp;;
  brelse bp.

Definition idup (ip : option nat) : K (option nat) :=
  acquire L_itable;;
  i ← inode_ptr ip;
  modify_inode i (fun ip => set_i_ref (i_ref ip + 1) ip);;
  release L_itable;;
  mret ip.

Definition ilock (p : option nat) : K unit :=
  match p with
  | None => panic "ilock"
  | Some i =>
      ip ← inode_at i;
      if i_ref ip <? 1 then panic "ilock" else
      acquiresleep (SL_inode i);;
      ip ← inode_at i;
      when (i_valid ip =? 0)
        (sb ← gets k_sb;
         bp ← bread (i_dev ip) (IBLOCK (i_inum ip) sb);
         x ← buf_at bp;
         let off := dinode_off (i_inum ip) in
         let bs := b_data x in
         modify_inode i (set_i_type (dip_short off bs));;
         modify_inode i (set_i_major (dip_short (off + 2) bs));;
         modify_inode i (set_i_minor (dip_short (off + 4) bs));;
         modify_inode i (set_i_nlink (dip_short (off + 6) bs));;
         modify_inode i (set_i_size (get_le 4 (off + 8) bs));;
         modify_inode i (set_i_addrs (dip_addrs off bs));;
         brelse bp;;
         modify_inode i (set_i_valid 1);;
         ip ← inode_at i;
         if i_type ip =? 0 then panic "ilock: no type" else mret tt)
  end.

Definition iunlock (p : option nat) : K unit :=
  match p with
  | None => panic "iunlock"
  | Some i =>
      h ← holdingsleep (SL_inode i);
      ip ← inode_at i;
      if negb h || (i_ref ip <? 1) then panic "iunlock" else
      releasesleep (SL_inode i)
  end.

(** ** Inode contents *)

Definition bmap (i : nat) (bn : Z) : K Z :=
  ip ← inode_at i;
  if bn <? NDIRECT then
    addr ← nth_or_fault (i_addrs ip) (Z.to_nat bn);
    if negb (addr =? 0) then mret addr else
    addr ← balloc (i_dev ip);
    if addr =? 0 then mret 0 else
    modify_inode i (fun ip => set_i_addrs (<[Z.to_nat bn := addr]> (i_addrs ip)) ip);;
    mret addr
  else
  let bn := bn - NDIRECT in
  if bn <? NINDIRECT then
    addr ← nth_or_fault (i_addrs ip) NDIRECT;
    addr ← (if negb (addr =? 0) then mret addr else
            addr ← balloc (i_dev ip);
            if addr =? 0 then mret 0 else
            modify_inode i (fun ip => set_i_addrs (<[NDIRECT := addr]> (i_addrs ip)) ip);;
            mret addr);
    if addr =? 0 then mret 0 else
    bp ← bread (i_dev ip) addr;
    x ← buf_at bp;
    let addr := word (b_data x) (Z.to_nat bn) in
    if negb (addr =? 0) then
      brelse bp;;
      mret addr
    else
      addr ← balloc (i_dev ip);
      when (negb (addr =? 0))
        (modify_buf bp (fun b => set_b_data (set_word (Z.to_nat bn) addr (b_data b)) b);;
         log_write bp);;
      brelse bp;;
      mret addr
  else panic "bmap: out of range".

Definition itrunc (i : nat) : K unit :=
  foreach (seq 0 NDIRECT) (fun k =>
    ip ← inode_at i;
    addr ← nth_or_fault (i_addrs ip) k;
    when (negb (addr =? 0))
      (bfree (i_dev ip) addr;;
       modify_inode i (fun ip => set_i_addrs (<[k := 0]> (i_addrs ip)) ip));;
    mret (@None unit));;
  ip ← inode_at i;
  addr ← nth_or_fault (i_addrs ip) NDIRECT;
  when (negb (addr =? 0))
    (bp ← bread (i_dev ip) addr;
     foreach (seq 0 NINDIRECT) (fun j =>
       x ← buf_at bp;
       let a := word (b_data x) j in
       when (negb (a =? 0)) (bfree (i_dev ip) a);;
       mret (@None unit));;
     brelse bp;;
     bfree (i_dev ip) addr;;
     modify_inode i (fun ip => set_i_addrs (<[NDIRECT := 0]> (i_addrs ip)) ip));;
  modify_inode i (set_i_size 0);;
  iupdate i.

Definition iput (p : option nat) : K unit :=
  acquire L_itable;;
  i ← inode_ptr p;
  ip ← inode_at i;
  when ((i_ref ip =? 1) && negb (i_valid ip =? 0) && (i_nlink ip =? 0))
    (acquiresleep (SL_inode i);;
     release L_itable;;
     itrunc i;;
     modify_inode i (set_i_type 0);;
     iupdate i;;
     modify_inode i (set_i_valid 0);;
     releasesleep (SL_inode i);;
     acquire L_itable);;
  modify_inode i (fun ip => set_i_ref (i_ref ip - 1) ip);;
  release L_itable.

Definition iunlockput (p : option nat) : K unit :=
  iunlock p;;
  iput p.

(** [struct stat], 24 bytes: dev, ino, type, nlink, size (with padding). *)
Record stat := mkstat { st_dev : Z; st_ino : Z; st_type : Z; st_nlink : Z; st_size : Z }.

Definition stati (i : nat) : K stat :=
  ip ← inode_at i;
  mret (mkstat (s32 (i_dev ip)) (i_inum ip) (i_type ip) (i_nlink ip) (i_size ip)).

(** The copy loop of [readi]; [acc] are the bytes delivered so far.  Every
    iteration but the first and the last moves a whole block. *)
Fixpoint readi_loop (fuel : nat) (i : nat) (d : dest) (off n tot : Z) (acc : list Z) : K (Z * list Z) :=
  match fuel with
  | O => fault "readi: out of fuel"
  | S fuel =>
      if tot <? n then
        addr ← bmap i (off / BSIZE);
        if addr =? 0 then mret (tot, acc) else
        ip ← inode_at i;
        bp ← bread (i_dev ip) addr;
        let m := Z.min (n - tot) (BSIZE - off mod BSIZE) in
        x ← buf_at bp;
        let bs := take (Z.to_nat m) (drop (Z.to_nat (off mod BSIZE)) (b_data x)) in
        r ← either_copyout d bs;
        if r =? -1 then
          brelse bp;;
          mret (-1, acc)
        else
          brelse bp;;
          readi_loop fuel i (dest_add d m) (off + m) n (tot + m) (acc ++ bs)
      else mret (tot, acc)
  end.

(** The return value, and the bytes delivered to the destination. *)
Definition readi (i : nat) (d : dest) (off n : Z) : K (Z * list Z) :=
  ip ← inode_at i;
  if (i_size ip <? off) || (u32 (off + n) <? off) then mret (0, []) else
  let n := if i_size ip <? u32 (off + n) then i_size ip - off else n in
  x ← readi_loop (Z.to_nat (n / BSIZE + 3)) i d off n 0 [];
  mret (s32 (fst x), snd x).

(** The loop of [writei]: the final [tot] and [off].  A copy that fails part of
    the way has already changed the buffer. *)
Fixpoint writei_loop (fuel : nat) (i : nat) (o : origin) (off n tot : Z) : K (Z * Z) :=
  match fuel with
  | O => fault "writei: out of fuel"
  | S fuel =>
      if tot <? n then
        addr ← bmap i (off / BSIZE);
        if addr =? 0 then mret (tot, off) else
        ip ← inode_at i;
        bp ← bread (i_dev ip) addr;
        let m := Z.min (n - tot) (BSIZE - off mod BSIZE) in
        x ← either_copyin o m;
        modify_buf bp (fun b => set_b_data (patch (Z.to_nat (off mod BSIZE)) (fst x) (b_data b)) b);;
        if snd x =? -1 then
          brelse bp;;
          mret (tot, off)
        else
          log_write bp;;
          brelse bp;;
          writei_loop fuel i (origin_add o m) (off + m) n (tot + m)
      else mret (tot, off)
  end.

Definition writei (i : nat) (o : origin) (off n : Z) : K Z :=
  ip ← inode_at i;
  if (i_size ip <? off) || (u32 (off + n) <? off) then mret (-1) else
  if MAXFILE * BSIZE <? u32 (off + n) then mret (-1) else
  x ← writei_loop (Z.to_nat (n / BSIZE + 3)) i o off n 0;
  ip ← inode_at i;
  when (i_size ip <? snd x) (modify_inode i (set_i_size (snd x)));;
  iupdate i;;
  mret (s32 (fst x)).

(** ** Directories *)

Definition namecmp (s t : list Z) : Z := strncmp_bytes s t DIRSIZ.

(** [struct dirent]: a 16-bit inode number and the name. *)
Definition sizeof_dirent : Z := 16.
Definition de_inum (de : list Z) : Z := get_le 2 0 de.
Definition de_name (de : list Z) : list Z := take DIRSIZ (drop 2 de).

(** Reading the entry at [off], which must succeed. *)
Definition read_dirent (dp : nat) (off : Z) (msg : string) : K (list Z) :=
  x ← readi dp ToLocal off sizeof_dirent;
  if negb (fst x =? sizeof_dirent) then panic msg else mret (snd x).

(** The entry's inode and its offset, or [None]. *)
Fixpoint dirlookup_loop (fuel : nat) (dp : nat) (name : list Z) (off : Z) : K (option (nat * Z)) :=
  match fuel with
  | O => fault "dirlookup: out of fuel"
  | S fuel =>
      d ← inode_at dp;
      if off <? i_size d then
        de ← read_dirent dp off "dirlookup read";
        if de_inum de =? 0 then dirlookup_loop fuel dp name (u32 (off + sizeof_dirent)) else
        if namecmp name (de_name de) =? 0 then
          i ← iget (i_dev d) (de_inum de);
          mret (Some (i, off))
        else dirlookup_loop fuel dp name (u32 (off + sizeof_dirent))
      else mret None
  end.

Definition dirlookup (dp : nat) (name : list Z) : K (option (nat * Z)) :=
  d ← inode_at dp;
  if negb (i_type d =? T_DIR) then panic "dirlookup not DIR" else
  dirlookup_loop (Z.to_nat (i_size d / sizeof_dirent + 2)) dp name 0.

(** Offset of the first free entry, or of the end of the directory. *)
Fixpoint dirlink_slot (fuel : nat) (dp : nat) (off : Z) : K Z :=
  match fuel with
  | O => fault "dirlink: out of fuel"
  | S fuel =>
      d ← inode_at dp;
      if u32 off <? i_size d then
        de ← read_dirent dp (u32 off) "dirlink read";
        if de_inum de =? 0 then mret off else dirlink_slot fuel dp (s32 (off + sizeof_dirent))
      else mret off
  end.

Definition dirlink (dp : nat) (name : list Z) (inum : Z) : K Z :=
  x ← dirlookup dp name;
  match x with
  | Some (i, _) =>
      iput (Some i);;
      mret (-1)
  | None =>
      d ← inode_at dp;
      off ← dirlink_slot (Z.to_nat (i_size d / sizeof_dirent + 2)) dp 0;
      let de := le_bytes 2 (u16 inum) ++ strncpy_bytes (replicate DIRSIZ 0) name DIRSIZ in
      r ← writei dp (FromLocal de) (u32 off) sizeof_dirent;
      if negb (r =? sizeof_dirent) then mret (-1) else mret 0
  end.

(** ** Paths

    A path is the bytes of a NUL-terminated string, a name the 14 bytes of the
    caller's [name] array. *)

Fixpoint skip_slashes (path : list Z) : list Z :=
  match path with
  | c :: rest => if c =? chr "/" then skip_slashes rest else path
  | [] => []
  end.

Fixpoint elem_len (path : list Z) : nat :=
  match path with
  | c :: rest => if c =? chr "/" then 0%nat else S (elem_len rest)
  | [] => 0%nat
  end.

Definition skipelem (path name : list Z) : option (list Z * list Z) :=
  let path := skip_slashes path in
  match path with
  | [] => None
  | _ =>
      let len := elem_len path in
      let name := if (DIRSIZ <=? len)%nat then patch 0 (take DIRSIZ path) name
                  else patch 0 (take len path ++ [0]) name in
      Some (skip_slashes (drop len path), name)
  end.

(** The loop of [namex]: every round removes an element from the path.  The
    result is the inode and the [name] array. *)
Fixpoint namex_loop (fuel : nat) (i : nat) (path : list Z) (parent : bool) (name : list Z) : K (option nat * list Z) :=
  match fuel with
  | O => fault "namex: out of fuel"
  | S fuel =>
      match skipelem path name with
      | None =>
          if (parent : bool) then
            iput (Some i);;
            mret (None, name)
          else mret (Some i, name)
      | Some (path, name) =>
          ilock (Some i);;
          ip ← inode_at i;
          if negb (i_type ip =? T_DIR) then
            iunlockput (Some i);;
            mret (None, name)
          else if parent && bool_decide (path = []) then
            iunlock (Some i);;
            mret (Some i, name)
          else
          next ← dirlookup i name;
          match next with
          | None =>
              iunlockput (Some i);;
              mret (None, name)
          | Some (j, _) =>
              iunlockput (Some i);;
              namex_loop fuel j path parent name
          end
      end
  end.

Definition namex (path : list Z) (parent : bool) (name : list Z) : K (option nat * list Z) :=
  i ← (if bool_decide (head path = Some (chr "/")) then iget ROOTDEV ROOTINO
       else
         me ← this_proc;
         p ← proc_at me;
         ip ← idup (p_cwd p);
         inode_ptr ip);
  namex_loop (S (length path)) i path parent name.

Definition namei (path : list Z) : K (option nat) :=
  x ← namex path false (replicate DIRSIZ 0);
  mret (fst x).

Definition nameiparent (path : list Z) : K (option nat * list Z) := namex path true (replicate DIRSIZ 0).

End Fs.
