(* ===== verification/FsAlloc.v ===== *)
(** * kernel/fs.c: the block allocator

    The free bitmap as a predicate on the block contents, and [balloc], [bzero]
    and [bfree] as transformations of it inside a transaction. *)

From S2P Require Import Prelude State Spinlock Norm Printf Sched Sleeplock Bio LruList Cache CacheSpec Blocks Log LogSpec LogTx FsTx Fs.

(** ** Bits *)

Lemma land_bit_zero x k : 0 <= k -> (Z.land x (Z.shiftl 1 k) =? 0) = negb (Z.testbit x k).
Proof.
  intros Hk. destruct (Z.eqb_spec (Z.land x (Z.shiftl 1 k)) 0) as [E|E].
  - assert (Z.testbit (Z.land x (Z.shiftl 1 k)) k = false) as Hb by (by rewrite E, Z.bits_0).
    rewrite Z.land_spec, Z.shiftl_spec, Z.sub_diag, Z.bit0_odd, andb_true_r in Hb by lia. by rewrite Hb.
  - destruct (Z.testbit x k) eqn:Hb; [done|]. exfalso. apply E. apply Z.bits_inj'. intros j Hj.
    rewrite Z.land_spec, Z.shiftl_spec, Z.bits_0 by lia. destruct (decide (j = k)) as [->|]; [by rewrite Hb|].
    destruct (Z.testbit 1 (j - k)) eqn:H1; [|apply andb_false_r]. exfalso.
    destruct (decide (j < k)); [by rewrite Z.testbit_neg_r in H1 by lia|]. rewrite Z.bits_above_log2 in H1 by (cbn; lia). done.
Qed.

Lemma lor_bit x k j : 0 <= k -> 0 <= j -> Z.testbit (Z.lor x (Z.shiftl 1 k)) j = Z.testbit x j || (j =? k).
Proof.
  intros Hk Hj. rewrite Z.lor_spec, Z.shiftl_spec by lia. f_equal. destruct (Z.eqb_spec j k) as [->|]; [by rewrite Z.sub_diag|].
  destruct (decide (j < k)); [by apply Z.testbit_neg_r; lia|]. apply Z.bits_above_log2; cbn; lia.
Qed.

Lemma ldiff_bit x k j : 0 <= k -> 0 <= j -> Z.testbit (Z.ldiff x (Z.shiftl 1 k)) j = Z.testbit x j && negb (j =? k).
Proof.
  intros Hk Hj. rewrite Z.ldiff_spec, Z.shiftl_spec by lia. f_equal. f_equal. destruct (Z.eqb_spec j k) as [->|]; [by rewrite Z.sub_diag|].
  destruct (decide (j < k)); [by apply Z.testbit_neg_r; lia|]. apply Z.bits_above_log2; cbn; lia.
Qed.

(** Bit [k] of a bitmap block. *)
Definition bit_in (data : list Z) (k : Z) : bool := Z.testbit (nth (Z.to_nat (k / 8)) data 0) (k mod 8).

Definition set_bit_in (k : Z) (data : list Z) : list Z := alter (fun x => Z.lor x (Z.shiftl 1 (k mod 8))) (Z.to_nat (k / 8)) data.
Definition clear_bit_in (k : Z) (data : list Z) : list Z := alter (fun x => Z.ldiff x (Z.shiftl 1 (k mod 8))) (Z.to_nat (k / 8)) data.

Lemma nth_alter (f : Z -> Z) (k j : nat) (l : list Z) : (k < length l)%nat ->
  nth j (alter f k l) 0 = if decide (j = k) then f (nth j l 0) else nth j l 0.
Proof.
  intros Hk. rewrite !nth_lookup. destruct (decide (j = k)) as [->|Hne].
  - rewrite list_lookup_alter_eq. destruct (lookup_lt_is_Some_2 l k Hk) as [x ->]. done.
  - by rewrite list_lookup_alter_ne.
Qed.

Lemma bit_in_set data k j : length data = BSIZE -> 0 <= k < BPB -> 0 <= j -> bit_in (set_bit_in k data) j = bit_in data j || (j =? k).
Proof.
  intros Hl Hk Hj. unfold bit_in, set_bit_in. assert (Z.to_nat (k / 8) < length data)%nat as Hkl.
  { rewrite Hl. unfold BSIZE, BPB in *. Z.div_mod_to_equations. lia. }
  rewrite nth_alter by done. destruct (decide (Z.to_nat (j / 8) = Z.to_nat (k / 8))) as [E|E].
  - rewrite lor_bit by (Z.div_mod_to_equations; lia). f_equal.
    destruct (Z.eqb_spec (j mod 8) (k mod 8)), (Z.eqb_spec j k); try done; exfalso; Z.div_mod_to_equations; lia.
  - destruct (Z.eqb_spec j k) as [->|]; [done|]. by rewrite orb_false_r.
Qed.

Lemma bit_in_clear data k j : length data = BSIZE -> 0 <= k < BPB -> 0 <= j -> bit_in (clear_bit_in k data) j = bit_in data j && negb (j =? k).
Proof.
  intros Hl Hk Hj. unfold bit_in, clear_bit_in. assert (Z.to_nat (k / 8) < length data)%nat as Hkl.
  { rewrite Hl. unfold BSIZE, BPB in *. Z.div_mod_to_equations. lia. }
  rewrite nth_alter by done. destruct (decide (Z.to_nat (j / 8) = Z.to_nat (k / 8))) as [E|E].
  - rewrite ldiff_bit by (Z.div_mod_to_equations; lia). f_equal. f_equal.
    destruct (Z.eqb_spec (j mod 8) (k mod 8)), (Z.eqb_spec j k); try done; exfalso; Z.div_mod_to_equations; lia.
  - destruct (Z.eqb_spec j k) as [->|]; [done|]. by rewrite andb_true_r.
Qed.

(** ** The scan of one bitmap block *)

Lemma balloc_scan_spec (fuel : nat) data b bi size : 0 <= b -> 0 <= bi <= BPB -> b + BPB < 4294967296 -> BPB - bi <= fuel ->
  match balloc_scan fuel data b bi size with
  | Some k => bi <= k < BPB /\ b + k < size /\ bit_in data k = false /\ forall j, bi <= j < k -> bit_in data j = true
  | None => forall j, bi <= j < BPB -> b + j < size -> bit_in data j = true
  end.
Proof.
  intros Hb. revert bi. induction fuel as [|fuel IH]; intros bi Hbi Hsm Hf; cbn [balloc_scan]; [intros; lia|].
  destruct (Z.ltb_spec bi BPB) as [Hlt|Hge]; cbn [andb]; [|intros; lia]. rewrite u32_small by lia.
  destruct (Z.ltb_spec (b + bi) size) as [Hs|Hs]; [|intros j Hj Hjs; exfalso; lia].
  rewrite land_bit_zero by (Z.div_mod_to_equations; lia). fold (bit_in data bi).
  destruct (bit_in data bi) eqn:E; cbn [negb].
  - specialize (IH (bi + 1) ltac:(lia) Hsm ltac:(lia)). destruct (balloc_scan fuel data b (bi + 1) size) as [k|].
    + destruct IH as (H1 & H2 & H3 & H4). split_and!; [lia..|done|]. intros j Hj. destruct (decide (j = bi)) as [->|]; [done|]. apply H4. lia.
    + intros j Hj Hjs. destruct (decide (j = bi)) as [->|]; [done|]. apply IH; lia.
  - split_and!; [lia..|done|]. intros; lia.
Qed.

(** ** The bitmap *)

(** Block [n] is one of the bitmap's blocks. *)
Definition bmap_block (sb : superblock) (n : Z) : Prop :=
  sb_bmapstart sb <= n <= sb_bmapstart sb + (sb_size sb - 1) / BPB.

Definition used (sb : superblock) (v : Z -> list Z) (b : Z) : bool := bit_in (v (BBLOCK b sb)) (b mod BPB).

(** The geometry: the bitmap lies outside the log, and block numbers fit the
    [int]s of the code. *)
Record sb_ok (sb : superblock) (g : logst) : Prop := {
  sbo_size : 0 < sb_size sb < 2147475456;
  sbo_start : 0 <= sb_bmapstart sb;
  sbo_home : forall n, bmap_block sb n -> home g n
}.

(** A free block is not block 0, not in the log, not part of the bitmap, and not
    held; and no block of the bitmap is held. *)
Record alloc_ok (sb : superblock) (g : logst) (h : gmap Z nat) (v : Z -> list Z) : Prop := {
  al_free : forall c, 0 <= c < sb_size sb -> used sb v c = false -> 0 < c /\ home g c /\ ~ bmap_block sb c /\ h !! c = None;
  al_bmap : forall n, bmap_block sb n -> h !! n = None
}.

Section Bitmap.
Context (sb : superblock) (g : logst) (Hsb : sb_ok sb g).

Lemma BBLOCK_val b : 0 <= b < sb_size sb -> BBLOCK b sb = sb_bmapstart sb + b / BPB /\ bmap_block sb (BBLOCK b sb).
Proof.
  intros Hb. destruct Hsb as [H1 H2 H3]. assert (b / BPB <= (sb_size sb - 1) / BPB) by (apply Z.div_le_mono; unfold BPB; lia).
  assert (0 <= b / BPB) by (apply Z.div_pos; unfold BPB; lia).
  assert (bmap_block sb (sb_bmapstart sb + b / BPB)) as Hbm by (split; lia).
  destruct (H3 _ Hbm) as [Hr _]. assert (BBLOCK b sb = sb_bmapstart sb + b / BPB) as ->.
  { unfold BBLOCK. rewrite u32_small by lia. lia. }
  done.
Qed.

Lemma used_set v b c : 0 <= b < sb_size sb -> 0 <= c < sb_size sb -> length (v (BBLOCK b sb)) = BSIZE ->
  used sb (fupd (BBLOCK b sb) (set_bit_in (b mod BPB) (v (BBLOCK b sb))) v) c = used sb v c || (c =? b).
Proof.
  intros Hb Hc Hl. unfold used. destruct (BBLOCK_val b Hb) as [Eb _], (BBLOCK_val c Hc) as [Ec _].
  assert (0 <= b mod BPB < BPB /\ 0 <= c mod BPB < BPB) as [] by (split; apply Z.mod_pos_bound; unfold BPB; lia).
  destruct (decide (BBLOCK c sb = BBLOCK b sb)) as [E|E].
  - rewrite E, fupd_eq, bit_in_set by (done || lia). f_equal. destruct (Z.eqb_spec (c mod BPB) (b mod BPB)), (Z.eqb_spec c b); try done; exfalso;
      unfold BPB in *; Z.div_mod_to_equations; lia.
  - rewrite fupd_ne by done. destruct (Z.eqb_spec c b) as [->|]; [done|]. by rewrite orb_false_r.
Qed.

Lemma used_clear v b c : 0 <= b < sb_size sb -> 0 <= c < sb_size sb -> length (v (BBLOCK b sb)) = BSIZE ->
  used sb (fupd (BBLOCK b sb) (clear_bit_in (b mod BPB) (v (BBLOCK b sb))) v) c = used sb v c && negb (c =? b).
Proof.
  intros Hb Hc Hl. unfold used. destruct (BBLOCK_val b Hb) as [Eb _], (BBLOCK_val c Hc) as [Ec _].
  assert (0 <= b mod BPB < BPB /\ 0 <= c mod BPB < BPB) as [] by (split; apply Z.mod_pos_bound; unfold BPB; lia).
  destruct (decide (BBLOCK c sb = BBLOCK b sb)) as [E|E].
  - rewrite E, fupd_eq, bit_in_clear by (done || lia). f_equal. f_equal. destruct (Z.eqb_spec (c mod BPB) (b mod BPB)), (Z.eqb_spec c b); try done; exfalso;
      unfold BPB in *; Z.div_mod_to_equations; lia.
  - rewrite fupd_ne by done. destruct (Z.eqb_spec c b) as [->|]; [done|]. by rewrite andb_true_r.
Qed.

(** Blocks outside the bitmap do not matter to it. *)
Lemma used_other v n x c : 0 <= c < sb_size sb -> ~ bmap_block sb n -> used sb (fupd n x v) c = used sb v c.
Proof.
  intros Hc Hn. unfold used. destruct (BBLOCK_val c Hc) as [_ Hbm]. rewrite fupd_ne; [done|]. intros <-. done.
Qed.
End Bitmap.

Section Alloc.
Context `{DiskDriverOk} (d : Z) (Hdev : 0 < d < 2147483648) (i : nat).

Lemma dev_ne : d <> 0.
Proof. lia. Qed.

Lemma txs_sb dk ws o h v s : txs d i dk ws o h v s -> k_sb s = k_sb o.
Proof. intros (a & Hc & _). by rewrite <- (cst_out _ _ _ _ _ _ _ Hc). Qed.

Lemma room_le g j k : j <= k -> room g k -> room g j.
Proof. unfold room. lia. Qed.

(** A block filled with zeros. *)
Lemma tx_bzero n m dk ws o h v s e (Q : unit -> world kst -> Prop) :
  txs d i dk ws o h v s -> io_ready i (S m) e -> home (k_log o) n -> h !! n = None -> lg_n (k_log o) + size h < NBUF -> room (k_log o) 1 ->
  (forall s' e', txs d i dk ws (tx_log n o) h (fupd n (replicate BSIZE 0) v) s' -> io_ready i m e' -> Q tt (World s' e')) ->
  wp (bzero d n) Q (World s e).
Proof.
  intros Hs Hio Hn Hh Hbuf Hroom HQ. unfold bzero. rewrite !u32_small by (destruct Hn; lia). apply wp_bind.
  eapply (tx_bread d dev_ne); [done..|]. intros j s1 e1 Hs1 Hio1.
  eapply (tx_update d i n j _ (replicate BSIZE 0)); [exact Hs1|apply lookup_insert_eq|done|apply length_replicate|done|].
  intros s2 Hs2. eapply (tx_brelse d i n j); [exact Hs2|apply lookup_insert_eq|]. intros s3 Hs3. rewrite delete_insert_id in Hs3 by done.
  by apply HQ.
Qed.

(** The state after block [b] has been allocated. *)
Definition allocated (sb : superblock) (b : Z) (v : Z -> list Z) : Z -> list Z :=
  fupd b (replicate BSIZE 0) (fupd (BBLOCK b sb) (set_bit_in (b mod BPB) (v (BBLOCK b sb))) v).
Definition alloc_log (sb : superblock) (b : Z) (o : kst) : kst := tx_log b (tx_log (BBLOCK b sb) o).

Lemma tx_balloc_loop (fuel : nat) b m dk ws o h v s e (Q : Z -> world kst -> Prop) :
  let sb := k_sb o in let g := k_log o in
  sb_ok sb g -> alloc_ok sb g h v -> room g 2 -> lg_n g + 1 + size h < NBUF ->
  0 <= b -> b mod BPB = 0 -> b <= sb_size sb + BPB -> sb_size sb + BPB < b + BPB * fuel ->
  txs d i dk ws o h v s -> io_ready i (fuel + 1 + m) e -> (forall c, 0 <= c < b -> c < sb_size sb -> used sb v c = true) ->
  (forall c s' e', 0 < c < sb_size sb -> used sb v c = false -> (forall c', 0 <= c' < c -> used sb v c' = true) ->
     txs d i dk ws (alloc_log sb c o) h (allocated sb c v) s' -> io_ready i m e' -> Q c (World s' e')) ->
  (forall s' e', (forall c, 0 <= c < sb_size sb -> used sb v c = true) -> txs d i dk ws o h v s' -> io_ready i m e' ->
     wp (printf ("balloc: out of blocks" ++ NL) [];; mret 0) Q (World s' e')) ->
  wp (balloc_loop fuel d b) Q (World s e).
Proof.
  intros sb g Hsb Hal Hroom Hbuf. revert b s e. induction fuel as [|fuel IH]; intros b s e Hb Hbm Hbs Hfu Hs Hio Hprev HQ Hno; cbn [balloc_loop].
  { unfold BPB in *. lia. }
  pose proof Hsb as [Hsz Hst Hhome].
  do 2 wp_step. cbn [st]. rewrite (txs_sb _ _ _ _ _ _ Hs). fold sb. rewrite u32_small by (unfold BPB in *; lia).
  destruct (Z.ltb_spec b (sb_size sb)) as [Hlt|Hge].
  2: { apply Hno; [intros c Hc; apply Hprev; lia|done|]. eapply io_ready_le; [|exact Hio]. lia. }
  destruct (BBLOCK_val sb g Hsb b ltac:(lia)) as [EB HB]. apply wp_bind.
  eapply (tx_bread d dev_ne i (BBLOCK b sb) (fuel + 1 + m)); [exact Hs|by replace (S (fuel + 1 + m)) with (S fuel + 1 + m)%nat by lia|by apply Hhome|by apply (al_bmap _ _ _ _ Hal)|fold g; lia|].
  intros j s1 e1 Hs1 Hio1. apply wp_bind. eapply (tx_read d i); [exact Hs1|apply lookup_insert_eq|]. intros x Hx Hxn. rewrite Hx.
  pose proof (balloc_scan_spec (Z.to_nat BPB) (v (BBLOCK b sb)) b 0 (sb_size sb) Hb ltac:(unfold BPB; lia) ltac:(unfold BPB in *; lia) ltac:(unfold BPB; lia)) as Hscan.
  assert (Hin : forall k, 0 <= k < BPB -> b + k < sb_size sb -> BBLOCK (b + k) sb = BBLOCK b sb /\ (b + k) mod BPB = k).
  { intros k Hk Hks. destruct (BBLOCK_val sb g Hsb (b + k) ltac:(lia)) as [-> _]. rewrite EB. unfold BPB in *. split; Z.div_mod_to_equations; lia. }
  destruct (balloc_scan _ _ _ _ _) as [k|] eqn:Ek.
  - destruct Hscan as (Hk1 & Hk2 & Hk3 & Hk4). destruct (Hin k ltac:(lia) Hk2) as [EBk Emk].
    assert (used sb v (b + k) = false) as Hfree by (unfold used; by rewrite EBk, Emk).
    destruct (al_free _ _ _ _ Hal (b + k) ltac:(lia) Hfree) as (Hpos & Hhm & Hnb & Hnh).
    eapply (tx_update d i (BBLOCK b sb) j _ (set_bit_in k (v (BBLOCK b sb)))); [exact Hs1|apply lookup_insert_eq| | |by eapply room_le; [|exact Hroom]; lia|].
    { intros y Hy. unfold alter_byte, set_bit_in. by rewrite Hy. }
    { unfold set_bit_in. rewrite length_alter. eapply txs_length. exact Hs. }
    intros s2 Hs2. apply wp_bind. eapply (tx_brelse d i (BBLOCK b sb) j); [exact Hs2|apply lookup_insert_eq|].
    intros s3 Hs3. rewrite delete_insert_id in Hs3 by (by apply (al_bmap _ _ _ _ Hal)). apply wp_bind. rewrite s32_small by (unfold BPB in *; lia).
    eapply (tx_bzero (b + k) (fuel + m)); [exact Hs3|by replace (S (fuel + m)) with (fuel + 1 + m)%nat by lia|by apply tx_log_home|done| |by apply tx_log_room|].
    { pose proof (tx_log_n (BBLOCK b sb) o) as Hn. fold g in Hn. lia. }
    intros s4 e4 Hs4 Hio4. apply wp_ret. rewrite u32_small by (unfold BPB in *; lia). apply HQ; [lia|done| | |].
    + intros c Hc. destruct (decide (c < b)); [apply Hprev; lia|]. replace c with (b + (c - b)) by lia. unfold used.
      destruct (Hin (c - b) ltac:(lia) ltac:(lia)) as [-> ->]. apply Hk4. lia.
    + unfold alloc_log, allocated. rewrite EBk, Emk. exact Hs4.
    + eapply io_ready_le; [|exact Hio4]. lia.
  - apply wp_bind. eapply (tx_brelse d i (BBLOCK b sb) j); [exact Hs1|apply lookup_insert_eq|].
    intros s2 Hs2. rewrite delete_insert_id in Hs2 by (by apply (al_bmap _ _ _ _ Hal)). rewrite s32_small by (unfold BPB in *; lia).
    apply IH; try done; [unfold BPB; lia|rewrite Z.add_mod, Hbm by (unfold BPB; lia); reflexivity|lia|lia|].
    intros c Hc Hcs. destruct (decide (c < b)); [apply Hprev; lia|]. replace c with (b + (c - b)) by lia. unfold used.
    destruct (Hin (c - b) ltac:(lia) ltac:(lia)) as [-> ->]. apply Hscan; lia.
Qed.

(** Block reads [balloc] may need. *)
Definition balloc_io (sb : superblock) : nat := Z.to_nat (sb_size sb / BPB + 3).

Lemma tx_balloc m dk ws o h v s e (Q : Z -> world kst -> Prop) :
  let sb := k_sb o in let g := k_log o in
  sb_ok sb g -> alloc_ok sb g h v -> room g 2 -> lg_n g + 1 + size h < NBUF ->
  txs d i dk ws o h v s -> io_ready i (balloc_io sb + m) e ->
  (forall c s' e', 0 < c < sb_size sb -> used sb v c = false -> (forall c', 0 <= c' < c -> used sb v c' = true) ->
     txs d i dk ws (alloc_log sb c o) h (allocated sb c v) s' -> io_ready i m e' -> Q c (World s' e')) ->
  (forall s' e', (forall c, 0 <= c < sb_size sb -> used sb v c = true) -> txs d i dk ws o h v s' -> io_ready i m e' ->
     wp (printf ("balloc: out of blocks" ++ NL) [];; mret 0) Q (World s' e')) ->
  wp (balloc d) Q (World s e).
Proof.
  intros sb g Hsb Hal Hroom Hbuf Hs Hio HQ Hno. unfold balloc. do 2 wp_step. cbn [st]. rewrite (txs_sb _ _ _ _ _ _ Hs). fold sb.
  pose proof (sbo_size _ _ Hsb) as Hsz. assert (0 <= sb_size sb / BPB) by (apply Z.div_pos; unfold BPB; lia).
  eapply tx_balloc_loop; fold sb; fold g; try done; try lia.
  - fold sb. unfold BPB. lia.
  - fold sb. rewrite Z2Nat.id by lia. unfold BPB in *. Z.div_mod_to_equations. lia.
  - eapply io_ready_le; [|exact Hio]. unfold balloc_io. lia.
Qed.

Lemma tx_bfree b m dk ws o h v s e (Q : unit -> world kst -> Prop) :
  let sb := k_sb o in let g := k_log o in
  sb_ok sb g -> (forall n, bmap_block sb n -> h !! n = None) -> room g 1 -> lg_n g + size h < NBUF -> 0 <= b < sb_size sb -> used sb v b = true ->
  txs d i dk ws o h v s -> io_ready i (S m) e ->
  (forall s' e', txs d i dk ws (tx_log (BBLOCK b sb) o) h (fupd (BBLOCK b sb) (clear_bit_in (b mod BPB) (v (BBLOCK b sb))) v) s' ->
     io_ready i m e' -> Q tt (World s' e')) ->
  wp (bfree d b) Q (World s e).
Proof.
  intros sb g Hsb Hbm Hroom Hbuf Hb Hu Hs Hio HQ. unfold bfree. do 2 wp_step. cbn [st]. rewrite (txs_sb _ _ _ _ _ _ Hs). fold sb.
  destruct (BBLOCK_val sb g Hsb b Hb) as [EB HB]. rewrite u32_small by lia. apply wp_bind.
  eapply (tx_bread d dev_ne i (BBLOCK b sb) m); [exact Hs|done|by apply (sbo_home _ _ Hsb)|by apply Hbm|fold g; lia|].
  intros j s1 e1 Hs1 Hio1. apply wp_bind. eapply (tx_read d i); [exact Hs1|apply lookup_insert_eq|]. intros x Hx _. rewrite Hx.
  rewrite land_bit_zero by (apply Z.mod_pos_bound; lia). change (Z.testbit _ _) with (used sb v b). rewrite Hu. cbn [negb].
  eapply (tx_update d i (BBLOCK b sb) j _ (clear_bit_in (b mod BPB) (v (BBLOCK b sb)))); [exact Hs1|apply lookup_insert_eq| | |done|].
  { intros y Hy. unfold alter_byte, clear_bit_in. by rewrite Hy. }
  { unfold clear_bit_in. rewrite length_alter. eapply txs_length. exact Hs. }
  intros s2 Hs2. eapply (tx_brelse d i (BBLOCK b sb) j); [exact Hs2|apply lookup_insert_eq|].
  intros s3 Hs3. rewrite delete_insert_id in Hs3 by (by apply Hbm). by apply HQ.
Qed.

(** The bitmap after an allocation. *)
Lemma used_allocated sb g b v c : sb_ok sb g -> ~ bmap_block sb b -> 0 <= b < sb_size sb -> 0 <= c < sb_size sb ->
  (forall n, length (v n) = BSIZE) -> used sb (allocated sb b v) c = used sb v c || (c =? b).
Proof. intros Hsb Hb Hbr Hc Hl. unfold allocated. rewrite (used_other sb g) by done. by apply (used_set sb g). Qed.

Lemma alloc_ok_allocated sb g h b v : sb_ok sb g -> alloc_ok sb g h v -> 0 <= b < sb_size sb -> ~ bmap_block sb b ->
  (forall n, length (v n) = BSIZE) -> alloc_ok sb g h (allocated sb b v).
Proof.
  intros Hsb [Hf Hbm] Hb Hnb Hl. split; [|done]. intros c Hc. rewrite (used_allocated sb g) by done. intros [Hu _]%orb_false_iff. by apply Hf.
Qed.

Lemma alloc_ok_other sb g h n x v : sb_ok sb g -> alloc_ok sb g h v -> ~ bmap_block sb n -> alloc_ok sb g h (fupd n x v).
Proof. intros Hsb [Hf Hbm] Hn. split; [|done]. intros c Hc. rewrite (used_other sb g) by done. by apply Hf. Qed.

Lemma alloc_ok_log sb n o h v : alloc_ok sb (k_log o) h v -> alloc_ok sb (k_log (tx_log n o)) h v.
Proof. intros [Hf Hbm]. split; [|done]. intros c Hc Hu. rewrite tx_log_home. by apply Hf. Qed.
Lemma sb_ok_log sb n o : sb_ok sb (k_log o) -> sb_ok sb (k_log (tx_log n o)).
Proof. intros [H1 H2 H3]. split; [done|done|]. intros m Hm. apply tx_log_home. by apply H3. Qed.
End Alloc.
