(* ===== verification/FsFile.v ===== *)
(** * kernel/fs.c: the contents of files

    A file is its inode and the blocks it reaches, twelve directly and the others
    through an indirect block.  [bmap], [readi] and [writei] against the bytes
    of the file, inside a transaction, and the commit of a write. *)

From S2P Require Import Prelude State Spinlock Norm Printf Sched Sleeplock Vm Proc Bio LruList Cache CacheSpec Blocks Log LogSpec LogTx FsTx Fs FsAlloc.

(** ** Blocks of a file *)

Definition ind_block (ip : inode) : Z := nth NDIRECT (i_addrs ip) 0.

(** The address of block [k] of the file, 0 if it has none. *)
Definition fblock (v : Z -> list Z) (ip : inode) (k : nat) : Z :=
  if (k <? NDIRECT)%nat then nth k (i_addrs ip) 0
  else if ind_block ip =? 0 then 0 else word (v (ind_block ip)) (k - NDIRECT).

Definition MAXBLOCKS : nat := (NDIRECT + NINDIRECT)%nat.

(** Byte [p] of the file. *)
Definition fbyte (v : Z -> list Z) (ip : inode) (p : Z) : Z :=
  nth (Z.to_nat (p mod BSIZE)) (v (fblock v ip (Z.to_nat (p / BSIZE)))) 0.

(** A block of the file, the indirect block included. *)
Definition own (v : Z -> list Z) (ip : inode) (n : Z) : Prop :=
  n <> 0 /\ (n = ind_block ip \/ exists k : nat, (k < MAXBLOCKS)%nat /\ fblock v ip k = n).

Lemma word_zero k : (4 * k + 4 <= BSIZE)%nat -> word (replicate BSIZE 0) k = 0.
Proof.
  intros Hk. unfold word, get_le. rewrite drop_replicate, take_replicate, Nat.min_l by lia. reflexivity.
Qed.

Section Geometry.
(** The super block, the log area, and the first data block: everything below it
    is metadata. *)
Context (sb : superblock) (ls lz ds : Z).

Record fs_geom : Prop := {
  fg_size : 0 < sb_size sb < 2147475456;
  fg_bmap : 0 <= sb_bmapstart sb /\ (ls + lz <= sb_bmapstart sb \/ sb_bmapstart sb + (sb_size sb - 1) / BPB < ls);
  fg_bmap_ds : sb_bmapstart sb + (sb_size sb - 1) / BPB < ds;
  fg_log : 0 <= ls /\ ls + lz <= ds;
  fg_ds : 0 < ds <= sb_size sb
}.

(** An allocated data block. *)
Definition data_used (v : Z -> list Z) (n : Z) : Prop := ds <= n < sb_size sb /\ used sb v n = true.

Record file_ok (d : Z) (v : Z -> list Z) (ip : inode) : Prop := {
  fo_dev : i_dev ip = d;
  fo_len : length (i_addrs ip) = S NDIRECT;
  fo_own : forall n, own v ip n -> data_used v n;
  fo_inj : forall k k' : nat, (k < MAXBLOCKS)%nat -> (k' < MAXBLOCKS)%nat -> fblock v ip k <> 0 -> fblock v ip k = fblock v ip k' -> k = k';
  fo_ind : forall k : nat, (k < MAXBLOCKS)%nat -> fblock v ip k <> 0 -> fblock v ip k <> ind_block ip
}.

(** Every metadata block is marked used. *)
Definition meta_used (v : Z -> list Z) : Prop := forall c, 0 <= c < ds -> used sb v c = true.

(** At least [k] blocks are free. *)
Definition free_blocks (v : Z -> list Z) (k : nat) : Prop :=
  exists l : list Z, NoDup l /\ length l = k /\ Forall (fun c => 0 <= c < sb_size sb /\ used sb v c = false) l.

(** What an operation on the file may do: bytes outside [R] keep their values,
    blocks of the file stay where they are, blocks of others are not touched. *)
Record fstep (R : Z -> Prop) (v : Z -> list Z) (ip : inode) (v' : Z -> list Z) (ip' : inode) : Prop := {
  st_block : forall k : nat, (k < MAXBLOCKS)%nat -> fblock v ip k <> 0 -> fblock v' ip' k = fblock v ip k;
  st_byte : forall p, 0 <= p < MAXFILE * BSIZE -> fblock v ip (Z.to_nat (p / BSIZE)) <> 0 -> ~ R p -> fbyte v' ip' p = fbyte v ip p;
  st_other : forall n, ~ bmap_block sb n -> n < ds \/ data_used v n -> ~ own v ip n -> v' n = v n;
  st_used : forall n, 0 <= n < sb_size sb -> used sb v n = true -> used sb v' n = true;
  st_own : forall n, own v' ip' n -> own v ip n \/ (ds <= n < sb_size sb /\ used sb v n = false);
  st_inode : exists addrs, ip' = set_i_addrs addrs ip
}.

Context (Hgeom : fs_geom).

Lemma data_used_pos v n : data_used v n -> 0 <= n < sb_size sb /\ 0 < n.
Proof. intros [Hn _]. destruct Hgeom. lia. Qed.

Lemma fstep_refl R v ip : fstep R v ip v ip.
Proof. split; try done; [by left|]. exists (i_addrs ip). by destruct ip. Qed.

Lemma block_of_byte p : 0 <= p < MAXFILE * BSIZE -> (Z.to_nat (p / BSIZE) < MAXBLOCKS)%nat.
Proof. unfold MAXFILE, MAXBLOCKS, NDIRECT, NINDIRECT, BSIZE. intros Hp. Z.div_mod_to_equations. lia. Qed.

Lemma fstep_trans R v ip v1 ip1 v2 ip2 : fstep R v ip v1 ip1 -> fstep R v1 ip1 v2 ip2 -> fstep R v ip v2 ip2.
Proof.
  intros [A1 A2 A3 A4 A5 (as1 & ->)] [B1 B2 B3 B4 B5 (as2 & ->)]. split.
  - intros k Hk Hb. rewrite B1; [by apply A1|done|]. by rewrite A1.
  - intros p Hp Hb HR. pose proof (block_of_byte p Hp) as Hk. rewrite B2; [by apply A2|done| |done]. by rewrite A1.
  - intros n Hn Hor Ho. rewrite B3; [by apply A3|done| |].
    + destruct Hor as [?|Hu]; [by left|right]. pose proof (data_used_pos v n Hu). destruct Hu as [? Hu]. split; [done|]. apply A4; [lia|done].
    + intros [?|[? Hu]]%A5; [done|]. destruct Hor as [?|[_ Hu']]; [lia|congruence].
  - intros n Hn Hu. apply B4; [done|]. by apply A4.
  - intros n [?%A5|[Hn Hu]]%B5; [done|]. right. split; [done|]. destruct (used sb v n) eqn:E; [|done].
    exfalso. rewrite A4 in Hu; [done| |done]. destruct Hgeom. lia.
  - eexists. reflexivity.
Qed.

Lemma fstep_mono (R R' : Z -> Prop) v ip v' ip' : (forall p, R p -> R' p) -> fstep R v ip v' ip' -> fstep R' v ip v' ip'.
Proof. intros HR [A1 A2 A3 A4 A5 A6]. split; try done. intros p Hp Hb Hn. apply A2; [done..|]. intros Hr. by apply Hn, HR. Qed.

(** Taking one free block away. *)
Lemma free_blocks_take v v' k c : free_blocks v (S k) ->
  (forall c', 0 <= c' < sb_size sb -> used sb v' c' = used sb v c' || (c' =? c)) -> free_blocks v' k.
Proof.
  intros (l & Hnd & Hl & Hf) Hu. set (l' := filter (fun x => x <> c) l).
  assert (Forall (fun x => 0 <= x < sb_size sb /\ used sb v' x = false) l' /\ NoDup l') as [Hf' Hnd'].
  { split; [|by apply list.NoDup_filter]. apply list.Forall_forall. intros x [Hx Hin]%list_elem_of_filter.
    rewrite list.Forall_forall in Hf. destruct (Hf x Hin) as [Hr Hux]. split; [done|]. rewrite Hu, Hux by done. by apply Z.eqb_neq. }
  assert (k <= length l')%nat as Hk.
  { clear Hf Hf' Hnd'. unfold l'. revert k Hl. induction Hnd as [|x l Hx Hnd IH]; intros k Hl; [discriminate|]. cbn in Hl.
    destruct (decide (x = c)) as [->|Hne].
    - rewrite filter_cons_False by naive_solver. assert (filter (fun y => y <> c) l = l) as ->; [|lia].
      clear -Hx. induction l as [|y l IH]; [done|]. apply not_elem_of_cons in Hx as [? ?]. rewrite filter_cons_True by done. f_equal. by apply IH.
    - rewrite filter_cons_True by done. cbn. destruct k as [|k]; [lia|]. specialize (IH k ltac:(lia)). lia. }
  exists (take k l'). split_and!; [eapply sublist_NoDup; [done|apply sublist_take]|rewrite length_take; lia|by apply Forall_take].
Qed.

Lemma free_blocks_same v v' k : free_blocks v k -> (forall c, 0 <= c < sb_size sb -> used sb v' c = used sb v c) -> free_blocks v' k.
Proof.
  intros (l & Hnd & Hl & Hf) Hu. exists l. split_and!; [done|done|]. eapply list.Forall_impl; [exact Hf|]. intros x [Hr Hx]. split; [done|]. by rewrite Hu.
Qed.

(** ** Adding a block to a file *)

Lemma bmap_below n : bmap_block sb n -> n < ds.
Proof. intros [_ Hn]. destruct Hgeom. lia. Qed.

(** What the allocation of [c] leaves alone. *)
Lemma allocated_other c v n : 0 <= c < sb_size sb -> n <> c -> ~ bmap_block sb n -> allocated sb c v n = v n.
Proof.
  intros Hc Hn Hb. unfold allocated. rewrite !fupd_ne; [done| |done]. intros ->. apply Hb.
  assert (c / BPB <= (sb_size sb - 1) / BPB) by (apply Z.div_le_mono; unfold BPB; lia).
  assert (0 <= c / BPB) by (apply Z.div_pos; unfold BPB; lia). destruct Hgeom as [H1 [H2 _] H3 _ H4]. unfold bmap_block, BBLOCK.
  rewrite u32_small by lia. lia.
Qed.

Section Add.
Context (d : Z) (v v' : Z -> list Z) (ip ip' : inode) (c : Z).
Context (Hf : file_ok d v ip) (Hc : ds <= c < sb_size sb) (Hfree : used sb v c = false).
Context (Hused : forall n, 0 <= n < sb_size sb -> used sb v' n = used sb v n || (n =? c)).
Context (Hlen : length (i_addrs ip') = S NDIRECT) (Hip : exists addrs, ip' = set_i_addrs addrs ip).
(** Data blocks and metadata outside the bitmap change only in the indirect
    block. *)
Context (Hkeep : forall n, n <> c -> (n = ind_block ip' -> n = 0) -> ~ bmap_block sb n -> v' n = v n).

Lemma fresh_not_own : ~ own v ip c.
Proof. intros Ho. apply (fo_own _ _ _ Hf) in Ho as [_ Hu]. congruence. Qed.

Lemma data_used_mono n : data_used v n -> data_used v' n.
Proof. intros Hn. pose proof (data_used_pos v n Hn). destruct Hn as [Hr Hu]. split; [done|]. rewrite Hused, Hu by lia. done. Qed.
Lemma data_used_fresh : data_used v' c.
Proof. split; [done|]. rewrite Hused by (destruct Hgeom; lia). by rewrite Z.eqb_refl, orb_true_r. Qed.

Lemma add_inode : i_dev ip' = d.
Proof. destruct Hip as [addrs ->]. exact (fo_dev _ _ _ Hf). Qed.

(** A data block. *)
Section Data.
Context (k : nat) (Hk : (k < MAXBLOCKS)%nat) (Hzero : fblock v ip k = 0) (Hnew : fblock v' ip' k = c).
Context (Hsame : forall k', (k' < MAXBLOCKS)%nat -> k' <> k -> fblock v' ip' k' = fblock v ip k') (Hind : ind_block ip' = ind_block ip).

Lemma own_add n : own v' ip' n -> own v ip n \/ n = c.
Proof.
  intros [Hn [->|(k' & Hk' & <-)]]; [left; rewrite Hind in *; by split; [|left]|].
  destruct (decide (k' = k)) as [->|Hne]; [by right|left]. rewrite Hsame in * by done. split; [done|]. right. by exists k'.
Qed.

Lemma fblock_fresh k' : (k' < MAXBLOCKS)%nat -> fblock v ip k' <> c.
Proof. intros Hk' E. apply fresh_not_own. split; [destruct Hgeom; lia|]. right. by exists k'. Qed.
Lemma ind_fresh : ind_block ip <> c.
Proof. intros E. apply fresh_not_own. split; [destruct Hgeom; lia|]. by left. Qed.

Lemma file_ok_add : file_ok d v' ip'.
Proof.
  split; [exact add_inode|done| | |].
  - intros n [Ho| ->]%own_add; [by apply data_used_mono, (fo_own _ _ _ Hf)|exact data_used_fresh].
  - intros k1 k2 H1 H2. destruct (decide (k1 = k)) as [->|N1], (decide (k2 = k)) as [->|N2]; [done|..].
    + rewrite Hnew, Hsame by done. intros _ E. exfalso. by apply (fblock_fresh k2).
    + rewrite Hnew, Hsame by done. intros _ E. exfalso. by apply (fblock_fresh k1).
    + rewrite !Hsame by done. by apply (fo_inj _ _ _ Hf).
  - intros k1 H1. rewrite Hind. destruct (decide (k1 = k)) as [->|N1].
    + rewrite Hnew. intros _ E. by apply ind_fresh.
    + rewrite Hsame by done. by apply (fo_ind _ _ _ Hf).
Qed.

Lemma fstep_add R : fstep R v ip v' ip'.
Proof.
  assert (forall k', (k' < MAXBLOCKS)%nat -> fblock v ip k' <> 0 -> fblock v' ip' k' = fblock v ip k' /\ v' (fblock v ip k') = v (fblock v ip k')) as Hold.
  { intros k' Hk' Hb. assert (k' <> k) as Hne by (intros ->; done). split; [by apply Hsame|]. apply Hkeep.
    - by apply fblock_fresh.
    - rewrite Hind. intros E. by destruct (fo_ind _ _ _ Hf k' Hk' Hb).
    - intros Hbm%bmap_below. destruct (fo_own _ _ _ Hf (fblock v ip k')) as [? _]; [|lia]. split; [done|]. right. by exists k'. }
  split.
  - intros k' Hk' Hb. by apply Hold.
  - intros p Hp Hb _. unfold fbyte. destruct (Hold _ (block_of_byte p Hp) Hb) as [-> ->]. done.
  - intros n Hn Hor Ho. apply Hkeep; [|rewrite Hind|done].
    + intros ->. destruct Hor as [?|[_ Hu]]; [lia|congruence].
    + intros ->. destruct (decide (ind_block ip = 0)); [done|]. destruct Ho. by split; [|left].
  - intros n Hn Hu. by rewrite Hused, Hu.
  - intros n [Ho| ->]%own_add; [by left|right; done].
  - exact Hip.
Qed.
End Data.

(** The indirect block: it is empty, so no block of the file moves. *)
Section Indirect.
Context (Hzero : ind_block ip = 0) (Hnew : ind_block ip' = c) (Hempty : v' c = replicate BSIZE 0).
Context (Hdirect : forall k, (k < NDIRECT)%nat -> nth k (i_addrs ip') 0 = nth k (i_addrs ip) 0).

Lemma fblock_ind k : (k < MAXBLOCKS)%nat -> fblock v' ip' k = fblock v ip k.
Proof.
  intros Hk. unfold fblock. destruct (Nat.ltb_spec k NDIRECT) as [Hlt|Hge]; [by apply Hdirect|].
  rewrite Hzero, Hnew, Hempty. cbn [Z.eqb]. destruct (c =? 0); [done|].
  assert (k - NDIRECT < 256)%nat as Hk' by (unfold MAXBLOCKS, NDIRECT, NINDIRECT in *; lia). apply word_zero. unfold BSIZE. lia.
Qed.

Lemma own_ind n : own v' ip' n -> own v ip n \/ n = c.
Proof.
  intros [Hn [->|(k & Hk & <-)]]; [right; exact Hnew|left]. rewrite fblock_ind in * by done. split; [done|]. right. by exists k.
Qed.

Lemma file_ok_ind : file_ok d v' ip'.
Proof.
  split; [exact add_inode|done| | |].
  - intros n [Ho| ->]%own_ind; [by apply data_used_mono, (fo_own _ _ _ Hf)|exact data_used_fresh].
  - intros k1 k2 H1 H2. rewrite !fblock_ind by done. by apply (fo_inj _ _ _ Hf).
  - intros k1 H1. rewrite fblock_ind, Hnew by done. intros Hb E. apply fresh_not_own. split; [destruct Hgeom; lia|]. right. by exists k1.
Qed.

Lemma fstep_ind R : fstep R v ip v' ip'.
Proof.
  assert (forall n, own v ip n -> v' n = v n) as Hold.
  { intros n Ho. apply Hkeep.
    - intros ->. by apply fresh_not_own.
    - rewrite Hnew. intros ->. by destruct fresh_not_own.
    - intros Hbm%bmap_below. destruct (fo_own _ _ _ Hf n Ho) as [? _]. lia. }
  split.
  - intros k Hk _. by apply fblock_ind.
  - intros p Hp Hb _. unfold fbyte. rewrite fblock_ind by (by apply block_of_byte). rewrite Hold; [done|].
    split; [done|]. right. eexists. split; [by apply block_of_byte|done].
  - intros n Hn Hor Ho. assert (n <> c) as Hnc by (intros ->; destruct Hor as [?|[_ Hu]]; [lia|congruence]).
    apply Hkeep; [done| |done]. rewrite Hnew. done.
  - intros n Hn Hu. by rewrite Hused, Hu.
  - intros n [Ho| ->]%own_ind; [by left|right; done].
  - exact Hip.
Qed.
End Indirect.
End Add.

(** ** Overwriting part of a block *)

Section Write.
Context (d : Z) (v : Z -> list Z) (ip : inode) (k q : nat) (c : list Z).
Context (Hf : file_ok d v ip) (Hk : (k < MAXBLOCKS)%nat) (Ha : fblock v ip k <> 0).
Context (Hlen : length (v (fblock v ip k)) = BSIZE) (Hq : (q + length c <= BSIZE)%nat).

Definition overwritten : Z -> list Z := fupd (fblock v ip k) (patch q c (v (fblock v ip k))) v.

Lemma own_k : own v ip (fblock v ip k).
Proof. split; [done|]. right. by exists k. Qed.

Lemma written_block_free : ~ bmap_block sb (fblock v ip k).
Proof. intros Hb%bmap_below. destruct (fo_own _ _ _ Hf _ own_k). lia. Qed.

Lemma fblock_overwritten k' : fblock overwritten ip k' = fblock v ip k'.
Proof.
  unfold fblock at 1 2. destruct (k' <? NDIRECT)%nat; [done|]. destruct (ind_block ip =? 0); [done|]. unfold overwritten.
  rewrite fupd_ne; [done|]. intros E. by destruct (fo_ind _ _ _ Hf k Hk Ha).
Qed.

Lemma used_overwritten n : 0 <= n < sb_size sb -> used sb overwritten n = used sb v n.
Proof.
  intros Hn. unfold used, overwritten. rewrite fupd_ne; [done|]. intros E. apply written_block_free. rewrite <- E.
  assert (n / BPB <= (sb_size sb - 1) / BPB) by (apply Z.div_le_mono; unfold BPB; lia).
  assert (0 <= n / BPB) by (apply Z.div_pos; unfold BPB; lia). destruct Hgeom as [H1 [H2 _] H3 _ H4]. unfold bmap_block, BBLOCK.
  rewrite u32_small by lia. lia.
Qed.

Lemma own_overwritten n : own overwritten ip n <-> own v ip n.
Proof. unfold own. by setoid_rewrite fblock_overwritten. Qed.

Lemma file_ok_overwritten : file_ok d overwritten ip.
Proof.
  destruct Hf as [H1 H2 H3 H4 H5]. split; [done|done| | |].
  - intros n Hn%own_overwritten%H3. pose proof (data_used_pos v n Hn). destruct Hn. split; [done|]. rewrite used_overwritten by lia. done.
  - intros k1 k2. rewrite !fblock_overwritten. apply H4.
  - intros k1. rewrite fblock_overwritten. apply H5.
Qed.

Lemma nth_patch (j : nat) (l : list Z) : (q + length c <= length l)%nat ->
  nth j (patch q c l) 0 = if decide (q <= j < q + length c)%nat then nth (j - q) c 0 else nth j l 0.
Proof.
  intros Hl. unfold patch. rewrite !nth_lookup. destruct (decide (q <= j < q + length c)%nat) as [Hj|Hj].
  - rewrite lookup_app_r by (rewrite length_take; lia). rewrite length_take, Nat.min_l by lia. by rewrite lookup_app_l by lia.
  - destruct (decide (j < q)%nat).
    + rewrite lookup_app_l by (rewrite length_take; lia). by rewrite lookup_take_lt.
    + rewrite !lookup_app_r by (rewrite ?length_take; lia). rewrite length_take, Nat.min_l, lookup_drop by lia. do 2 f_equal. lia.
Qed.

Lemma fbyte_overwritten p : 0 <= p < MAXFILE * BSIZE -> fblock v ip (Z.to_nat (p / BSIZE)) <> 0 ->
  fbyte overwritten ip p = if decide (p / BSIZE = k /\ q <= p mod BSIZE < q + length c) then nth (Z.to_nat (p mod BSIZE - q)) c 0 else fbyte v ip p.
Proof.
  intros Hp Hb. pose proof (block_of_byte p Hp) as Hpk. unfold fbyte. rewrite fblock_overwritten. unfold overwritten.
  pose proof (Z.mod_pos_bound p BSIZE ltac:(unfold BSIZE; lia)) as Hmod.
  assert (0 <= p / BSIZE) by (apply Z.div_pos; unfold BSIZE; lia).
  destruct (decide (Z.to_nat (p / BSIZE) = k)) as [E|E].
  - rewrite E, fupd_eq, nth_patch by (by rewrite Hlen). destruct (decide (q <= Z.to_nat (p mod BSIZE) < q + length c)%nat), (decide (p / BSIZE = k /\ q <= p mod BSIZE < q + length c)); try (exfalso; lia); [|done].
    f_equal. lia.
  - rewrite fupd_ne; [rewrite decide_False; [done|lia]|]. intros Eb. apply E. by apply (fo_inj _ _ _ Hf).
Qed.

Lemma fstep_overwritten (R : Z -> Prop) : (forall p, p / BSIZE = k -> q <= p mod BSIZE < q + length c -> R p) -> fstep R v ip overwritten ip.
Proof.
  intros HR. split.
  - intros k' _ _. apply fblock_overwritten.
  - intros p Hp Hb HnR. rewrite fbyte_overwritten by done. rewrite decide_False; [done|]. intros [H1 H2]. by apply HnR, HR.
  - intros n _ _ Ho. unfold overwritten. apply fupd_ne. intros ->. apply Ho, own_k.
  - intros n Hn. by rewrite used_overwritten.
  - intros n Hn%own_overwritten. by left.
  - exists (i_addrs ip). by destruct ip.
Qed.
End Write.
End Geometry.

(** ** The routines *)

Section Files.
Context `{DiskDriverOk} (d : Z) (Hdev : 0 < d < 2147483648) (i : nat) (ino : nat).
Context (sb : superblock) (ls lz ds : Z) (Hgeom : fs_geom sb ls lz ds).

(** Everything outside the cache is the same but the log's memory image and the
    entry of the inode. *)
Record onext (o o' : kst) : Prop := {
  on_rest : set_k_log (k_log o) (set_k_inodes (k_inodes o) o') = o;
  on_inodes : forall j, j <> ino -> k_inodes o' !! j = k_inodes o !! j;
  on_out : lg_outstanding (k_log o') = lg_outstanding (k_log o);
  on_com : lg_committing (k_log o') = lg_committing (k_log o);
  on_start : lg_start (k_log o') = lg_start (k_log o);
  on_size : lg_size (k_log o') = lg_size (k_log o)
}.

Lemma onext_refl o : onext o o.
Proof. split; try done. by destruct o as [? ? ? ? ? ? ? ? ? [] ?]. Qed.

Lemma onext_trans o1 o2 o3 : onext o1 o2 -> onext o2 o3 -> onext o1 o3.
Proof.
  intros [A1 A2 A3 A4 A5 A6] [B1 B2 B3 B4 B5 B6]. split; try congruence.
  - rewrite <- A1. rewrite <- B1. done.
  - intros j Hj. rewrite B2 by done. by apply A2.
Qed.

Lemma onext_log n o : onext o (tx_log n o).
Proof.
  split; [|done|..]; try (unfold tx_log, log_with; cbn; by case_decide). unfold tx_log. by destruct o as [? ? ? ? ? ? ? ? ? [] ?].
Qed.

Lemma onext_inode f o : onext o (set_k_inodes (alter f ino (k_inodes o)) o).
Proof.
  split; try done; [by destruct o as [? ? ? ? ? ? ? ? ? [] ?]|]. intros j Hj. cbn. by rewrite list_lookup_alter_ne.
Qed.

Lemma onext_sb o o' : onext o o' -> k_sb o' = k_sb o.
Proof. intros [A _ _ _ _ _]. by rewrite <- A. Qed.
Lemma onext_pid o o' : onext o o' -> cur_pid o' = cur_pid o.
Proof. intros [A _ _ _ _ _]. by rewrite <- A. Qed.

Record fstate (dk : gmap Z (list Z)) (ws : list (Z * list Z)) (o : kst) (h : gmap Z nat) (v : Z -> list Z) (ip : inode) (s : kst) : Prop := {
  fs_tx : txs d i dk ws o h v s;
  fs_sb : k_sb o = sb;
  fs_ls : lg_start (k_log o) = ls;
  fs_lz : lg_size (k_log o) = lz;
  fs_ip : k_inodes o !! ino = Some ip;
  fs_meta : meta_used sb ds v;
  fs_file : file_ok sb ds d v ip
}.

Section State.
Context (o : kst) (Els : lg_start (k_log o) = ls) (Elz : lg_size (k_log o) = lz).

Lemma geom_home n : ds <= n < sb_size sb -> home (k_log o) n.
Proof. intros Hn. destruct Hgeom as [H1 H2 H3 H4 H5]. split; [lia|]. rewrite Els, Elz. lia. Qed.

Lemma geom_sb : sb_ok sb (k_log o).
Proof.
  destruct Hgeom as [H1 [H2 H2'] H3 H4 H5]. split; [done|done|]. intros n [Hn1 Hn2].
  split; [lia|]. rewrite Els, Elz. lia.
Qed.

Lemma geom_alloc h v : meta_used sb ds v -> (forall n, is_Some (h !! n) -> data_used sb ds v n) -> alloc_ok sb (k_log o) h v.
Proof.
  intros Hm Hh. split.
  - intros c Hc Hu. assert (ds <= c) as Hds.
    { destruct (decide (c < ds)); [|lia]. rewrite Hm in Hu by lia. done. }
    split_and!; [destruct Hgeom; lia|apply geom_home; lia| |].
    + intros Hb%(bmap_below sb ls lz ds Hgeom). lia.
    + destruct (h !! c) eqn:E; [|done]. destruct (Hh c) as [_ Hu']; [by eexists|]. congruence.
  - intros n Hb%(bmap_below sb ls lz ds Hgeom). destruct (h !! n) eqn:E; [|done]. destruct (Hh n) as [? _]; [by eexists|]. lia.
Qed.
End State.

Lemma txs_inodes dk ws o h v s : txs d i dk ws o h v s -> k_inodes s = k_inodes o.
Proof. intros (a & Hc & _). by rewrite <- (cst_out _ _ _ _ _ _ _ Hc). Qed.

Lemma txs_set_inodes l dk ws o h v s : txs d i dk ws o h v s -> txs d i dk ws (set_k_inodes l o) h v (set_k_inodes l s).
Proof.
  intros (a & [Hc [l' Hrel] Ho Hdk Hws] & Hm). exists a. split; [|exact Hm]. split; [exact Hc|exists l'; exact Hrel|by rewrite <- Ho|exact Hdk|exact Hws].
Qed.

Lemma txs_settle dk ws o h v s : txs d i dk ws o h v s -> txs d i dk ws o h v (settle s).
Proof. intros (a & Hc & Hm). exists a. split; [by apply cst_settle|done]. Qed.

Lemma tx_inode_at ip dk ws o h v s e (Q : inode -> world kst -> Prop) : txs d i dk ws o h v s -> k_inodes o !! ino = Some ip ->
  Q ip (World s e) -> wp (inode_at ino) Q (World s e).
Proof. intros Hs Hip HQ. unfold inode_at. do 2 wp_step. cbn [st]. apply wp_nth with ip; [|done]. by rewrite (txs_inodes _ _ _ _ _ _ Hs). Qed.

Lemma tx_modify_inode f dk ws o h v s e (Q : unit -> world kst -> Prop) : txs d i dk ws o h v s ->
  (forall s', txs d i dk ws (set_k_inodes (alter f ino (k_inodes o)) o) h v s' -> Q tt (World s' e)) -> wp (modify_inode ino f) Q (World s e).
Proof. intros Hs HQ. unfold modify_inode. wp_step. cbn [st env]. apply HQ. rewrite (txs_inodes _ _ _ _ _ _ Hs). by apply txs_set_inodes. Qed.

Lemma free_blocks_le v (j k : nat) : (j <= k)%nat -> free_blocks sb v k -> free_blocks sb v j.
Proof.
  intros Hj (l & Hnd & Hl & Hf). exists (take j l). split_and!; [eapply sublist_NoDup; [done|apply sublist_take]|rewrite length_take; lia|by apply Forall_take].
Qed.

(** An allocation that succeeds. *)
Lemma fs_balloc F m dk ws o h v s e (Q : Z -> world kst -> Prop) :
  txs d i dk ws o h v s -> k_sb o = sb -> lg_start (k_log o) = ls -> lg_size (k_log o) = lz -> meta_used sb ds v ->
  (forall n, is_Some (h !! n) -> data_used sb ds v n) -> free_blocks sb v (S F) -> room (k_log o) 2 -> lg_n (k_log o) + 1 + size h < NBUF ->
  io_ready i (balloc_io sb + m) e ->
  (forall c s' e', ds <= c < sb_size sb -> used sb v c = false -> txs d i dk ws (alloc_log sb c o) h (allocated sb c v) s' ->
     (forall n, 0 <= n < sb_size sb -> used sb (allocated sb c v) n = used sb v n || (n =? c)) ->
     meta_used sb ds (allocated sb c v) -> free_blocks sb (allocated sb c v) F -> io_ready i m e' -> Q c (World s' e')) ->
  wp (balloc d) Q (World s e).
Proof.
  intros Hs Esb Els Elz Hm Hh Hfr Hroom Hbuf Hio HQ. pose proof (geom_alloc o Els Elz h v Hm Hh) as Hal. pose proof (geom_sb o Els Elz) as Hsb.
  eapply (tx_balloc d Hdev i m); rewrite ?Esb; try done.
  - intros c s' e' Hc Hu _ Hs' Hio'. destruct (al_free _ _ _ _ Hal c ltac:(lia) Hu) as (_ & _ & Hnb & _).
    assert (ds <= c < sb_size sb) as Hds by (destruct (decide (c < ds)); [rewrite Hm in Hu by lia; done|lia]).
    assert (forall n, 0 <= n < sb_size sb -> used sb (allocated sb c v) n = used sb v n || (n =? c)) as Hused.
    { intros n Hn. eapply used_allocated; [exact Hsb|done|lia|done|]. intros n'. by eapply txs_length. }
    apply HQ; try done.
    + intros n Hn. rewrite Hused by (destruct Hgeom; lia). by rewrite Hm.
    + eapply free_blocks_take; [exact Hfr|exact Hused].
  - intros s' e' Hall. exfalso. destruct Hfr as (l & _ & Hl & Hf). destruct l as [|c l]; [done|]. apply list.Forall_cons in Hf as [[Hc Hu] _].
    by rewrite Hall in Hu.
Qed.

Lemma alloc_log_n c o : lg_n (k_log o) <= lg_n (k_log (alloc_log sb c o)) <= lg_n (k_log o) + 2.
Proof. unfold alloc_log. pose proof (tx_log_n c (tx_log (BBLOCK c sb) o)). pose proof (tx_log_n (BBLOCK c sb) o). lia. Qed.
Lemma onext_alloc c o : onext o (alloc_log sb c o).
Proof. unfold alloc_log. eapply onext_trans; apply onext_log. Qed.

Lemma onext_base o o' : onext o o' -> k_sb o = sb -> lg_start (k_log o) = ls -> lg_size (k_log o) = lz ->
  k_sb o' = sb /\ lg_start (k_log o') = ls /\ lg_size (k_log o') = lz.
Proof. intros Ho <- <- <-. split_and!; [by apply onext_sb|apply (on_start _ _ Ho)|apply (on_size _ _ Ho)]. Qed.

Lemma room_next o o' k j : onext o o' -> lg_n (k_log o') <= lg_n (k_log o) + j -> room (k_log o) (k + j) -> room (k_log o') k.
Proof. intros Ho Hn [H1 H2]. unfold room. rewrite (on_size _ _ Ho). lia. Qed.

Definition set_addr (k : nat) (c : Z) (ip : inode) : inode := set_i_addrs (<[k := c]> (i_addrs ip)) ip.

Lemma nth_set_addr k c ip j : (k < length (i_addrs ip))%nat -> nth j (i_addrs (set_addr k c ip)) 0 = if decide (j = k) then c else nth j (i_addrs ip) 0.
Proof.
  intros Hk. rewrite !nth_lookup. cbn. destruct (decide (j = k)) as [->|Hne]; [by rewrite list_lookup_insert_eq|by rewrite list_lookup_insert_ne].
Qed.

(** Direct blocks. *)
Lemma fs_bmap_direct (k : nat) F m dk ws o v ip s e (Q : Z -> world kst -> Prop) :
  fstate dk ws o ∅ v ip s -> (k < NDIRECT)%nat -> room (k_log o) 2 -> lg_n (k_log o) + 1 < NBUF -> free_blocks sb v (S F) ->
  io_ready i (balloc_io sb + m) e ->
  (forall a o' v' ip' s' e', fstate dk ws o' ∅ v' ip' s' -> onext o o' -> lg_n (k_log o') <= lg_n (k_log o) + 2 ->
     a = fblock v' ip' k -> a <> 0 -> fstep sb ds (fun _ => False) v ip v' ip' -> free_blocks sb v' F -> io_ready i m e' -> Q a (World s' e')) ->
  wp (bmap ino k) Q (World s e).
Proof.
  intros Hs Hk Hroom Hbuf Hfr Hio HQ. pose proof Hs as [Htx Esb Els Elz Hip Hm Hf]. unfold bmap. wp_step. eapply tx_inode_at; [exact Htx|exact Hip|].
  rewrite (proj2 (Z.ltb_lt _ _)) by lia. wp_step. rewrite Nat2Z.id.
  destruct (lookup_lt_is_Some_2 (i_addrs ip) k) as [addr Ha]; [rewrite (fo_len _ _ _ _ _ Hf); lia|]. apply wp_nth with addr; [exact Ha|].
  assert (fblock v ip k = addr) as Hb by (unfold fblock; rewrite (proj2 (Nat.ltb_lt _ _) Hk), nth_lookup, Ha; done).
  destruct (Z.eqb_spec addr 0) as [->|Hne]; cbn [negb].
  2: { wp_step. eapply (HQ addr o v ip); try done; [apply onext_refl|lia|by apply fstep_refl|by eapply free_blocks_le; [|exact Hfr]; lia|].
       eapply io_ready_le; [|exact Hio]. lia. }
  rewrite (fo_dev _ _ _ _ _ Hf). wp_step. eapply (fs_balloc F m); [exact Htx|exact Esb|exact Els|exact Elz|exact Hm| |exact Hfr|exact Hroom| |exact Hio|].
  { intros n [? Hn]. by rewrite lookup_empty in Hn. } { rewrite map_size_empty. lia. }
  intros c s1 e1 Hc Hu Htx1 Hused Hm1 Hfr1 Hio1. assert (c <> 0) as Hc0 by (destruct Hgeom; lia). rewrite (proj2 (Z.eqb_neq _ _) Hc0).
  wp_step. eapply tx_modify_inode; [exact Htx1|]. intros s2 Htx2. wp_step. cbn [k_inodes].
  assert (onext o (set_k_inodes (alter (set_addr k c) ino (k_inodes (alloc_log sb c o))) (alloc_log sb c o))) as Hon.
  { eapply onext_trans; [apply onext_alloc|apply onext_inode]. }
  destruct (onext_base _ _ Hon Esb Els Elz) as (Esb' & Els' & Elz').
  assert (MAXBLOCKS = 268%nat) as HMB by reflexivity. assert (NDIRECT = 12%nat) as HND by reflexivity.
  assert (k < length (i_addrs ip))%nat as Hkl by (rewrite (fo_len _ _ _ _ _ Hf); lia).
  assert (fblock (allocated sb c v) (set_addr k c ip) k = c) as Hnew.
  { unfold fblock. rewrite (proj2 (Nat.ltb_lt _ _) Hk), nth_set_addr by done. by rewrite decide_True. }
  assert (ind_block (set_addr k c ip) = ind_block ip) as Hind.
  { unfold ind_block. rewrite nth_set_addr by done. rewrite decide_False by lia. done. }
  assert (forall n, n <> c -> (n = ind_block (set_addr k c ip) -> n = 0) -> ~ bmap_block sb n -> allocated sb c v n = v n) as Hkeep.
  { intros n Hn _ Hbm. eapply (allocated_other sb ls lz ds Hgeom); [destruct Hgeom; lia|done|done]. }
  assert (forall k', (k' < MAXBLOCKS)%nat -> k' <> k -> fblock (allocated sb c v) (set_addr k c ip) k' = fblock v ip k') as Hsame.
  { intros k' Hk' Hkk. unfold fblock. rewrite Hind, nth_set_addr by done. destruct (Nat.ltb_spec k' NDIRECT); [by rewrite decide_False|].
    destruct (Z.eqb_spec (ind_block ip) 0) as [|Hi0]; [done|]. f_equal.
    assert (data_used sb ds v (ind_block ip)) as [Hr Hiu] by (apply (fo_own _ _ _ _ _ Hf); by split; [|left]).
    eapply (allocated_other sb ls lz ds Hgeom); [destruct Hgeom; lia|congruence|]. intros Hbm%(bmap_below sb ls lz ds Hgeom). lia. }
  assert (length (i_addrs (set_addr k c ip)) = S NDIRECT) as Hlen' by (cbn; rewrite length_insert; apply (fo_len _ _ _ _ _ Hf)).
  assert (exists addrs, set_addr k c ip = set_i_addrs addrs ip) as Hex by (by eexists).
  eapply (HQ c _ (allocated sb c v) (set_addr k c ip)); [|exact Hon| | |done| |exact Hfr1|exact Hio1].
  - split; try done.
    + change (alter (set_addr k c) ino (k_inodes o) !! ino = Some (set_addr k c ip)). by rewrite list_lookup_alter_eq, Hip.
    + exact (file_ok_add sb ls lz ds Hgeom d v _ ip _ c Hf Hc Hu Hused Hlen' Hex Hkeep k ltac:(lia) Hnew Hsame Hind).
  - exact (proj2 (alloc_log_n c o)).
  - done.
  - exact (fstep_add sb ls lz ds Hgeom d v _ ip _ c Hf Hc Hu Hused Hlen' Hex Hkeep k ltac:(lia) Hb Hnew Hsame Hind _).
Qed.

(** The indirect block, allocated if the file has none. *)
Definition ind_code (ip : inode) : K Z :=
  if negb (ind_block ip =? 0) then mret (ind_block ip) else
  addr ← balloc (i_dev ip);
  if addr =? 0 then mret 0 else
  modify_inode ino (fun ip => set_i_addrs (<[NDIRECT := addr]> (i_addrs ip)) ip);;
  mret addr.

Lemma fs_ind_block F m dk ws o v ip s e (Q : Z -> world kst -> Prop) :
  fstate dk ws o ∅ v ip s -> room (k_log o) 2 -> lg_n (k_log o) + 1 < NBUF -> free_blocks sb v (S F) -> io_ready i (balloc_io sb + m) e ->
  (forall o' v' ip' s' e', fstate dk ws o' ∅ v' ip' s' -> onext o o' -> lg_n (k_log o') <= lg_n (k_log o) + 2 ->
     ind_block ip' <> 0 -> fstep sb ds (fun _ => False) v ip v' ip' -> free_blocks sb v' F -> io_ready i m e' -> Q (ind_block ip') (World s' e')) ->
  wp (ind_code ip) Q (World s e).
Proof.
  intros Hs Hroom Hbuf Hfr Hio HQ. pose proof Hs as [Htx Esb Els Elz Hip Hm Hf]. unfold ind_code.
  destruct (Z.eqb_spec (ind_block ip) 0) as [Hz|Hne]; cbn [negb].
  2: { wp_step. eapply (HQ o v ip); try done; [apply onext_refl|lia|by apply fstep_refl|by eapply free_blocks_le; [|exact Hfr]; lia|].
       eapply io_ready_le; [|exact Hio]. lia. }
  rewrite (fo_dev _ _ _ _ _ Hf). wp_step. eapply (fs_balloc F m); [exact Htx|exact Esb|exact Els|exact Elz|exact Hm| |exact Hfr|exact Hroom| |exact Hio|].
  { intros n [? Hn]. by rewrite lookup_empty in Hn. } { rewrite map_size_empty. lia. }
  intros c s1 e1 Hc Hu Htx1 Hused Hm1 Hfr1 Hio1. assert (c <> 0) as Hc0 by (destruct Hgeom; lia). rewrite (proj2 (Z.eqb_neq _ _) Hc0).
  wp_step. eapply tx_modify_inode; [exact Htx1|]. intros s2 Htx2. wp_step.
  assert (onext o (set_k_inodes (alter (set_addr NDIRECT c) ino (k_inodes (alloc_log sb c o))) (alloc_log sb c o))) as Hon.
  { eapply onext_trans; [apply onext_alloc|apply onext_inode]. }
  destruct (onext_base _ _ Hon Esb Els Elz) as (Esb' & Els' & Elz').
  assert (NDIRECT < length (i_addrs ip))%nat as Hkl by (rewrite (fo_len _ _ _ _ _ Hf); lia).
  assert (ind_block (set_addr NDIRECT c ip) = c) as Hind by (unfold ind_block; rewrite nth_set_addr by done; by rewrite decide_True).
  assert (forall n, n <> c -> (n = ind_block (set_addr NDIRECT c ip) -> n = 0) -> ~ bmap_block sb n -> allocated sb c v n = v n) as Hkeep.
  { intros n Hn _ Hbm. eapply (allocated_other sb ls lz ds Hgeom); [destruct Hgeom; lia|done|done]. }
  assert (allocated sb c v c = replicate BSIZE 0) as Hzero by apply fupd_eq.
  assert (forall k, (k < NDIRECT)%nat -> nth k (i_addrs (set_addr NDIRECT c ip)) 0 = nth k (i_addrs ip) 0) as Hdir.
  { intros k Hk. rewrite nth_set_addr by done. by rewrite decide_False by lia. }
  assert (length (i_addrs (set_addr NDIRECT c ip)) = S NDIRECT) as Hlen' by (cbn [set_addr i_addrs set_i_addrs]; rewrite length_insert; apply (fo_len _ _ _ _ _ Hf)).
  assert (exists addrs, set_addr NDIRECT c ip = set_i_addrs addrs ip) as Hex by (by eexists).
  rewrite <- Hind. eapply (HQ _ (allocated sb c v) (set_addr NDIRECT c ip)); [|exact Hon| |by rewrite Hind| |exact Hfr1|exact Hio1].
  - split; try done.
    + change (alter (set_addr NDIRECT c) ino (k_inodes o) !! ino = Some (set_addr NDIRECT c ip)). by rewrite list_lookup_alter_eq, Hip.
    + exact (file_ok_ind sb ls lz ds Hgeom d v _ ip _ c Hf Hc Hu Hused Hlen' Hex Hkeep Hz Hind Hzero Hdir).
  - exact (proj2 (alloc_log_n c o)).
  - exact (fstep_ind sb ls lz ds Hgeom d v _ ip _ c Hf Hc Hu Hused Hlen' Hex Hkeep Hz Hind Hzero Hdir _).
Qed.

(** Storing the address of a new block in the indirect block. *)
Lemma fs_link (k : nat) c m dk ws o v ip s e (j : nat) (Q : Z -> world kst -> Prop) :
  fstate dk ws o ∅ v ip s -> (NDIRECT <= k < MAXBLOCKS)%nat -> ind_block ip <> 0 -> fblock v ip k = 0 ->
  ds <= c < sb_size sb -> used sb v c = false -> room (k_log o) 3 ->
  (forall n, 0 <= n < sb_size sb -> used sb (allocated sb c v) n = used sb v n || (n =? c)) -> meta_used sb ds (allocated sb c v) ->
  forall s1, txs d i dk ws (alloc_log sb c o) {[ind_block ip := j]} (allocated sb c v) s1 ->
  (forall o' v' s' e', fstate dk ws o' ∅ v' ip s' -> onext o o' -> lg_n (k_log o') <= lg_n (k_log o) + 3 -> c = fblock v' ip k ->
     fstep sb ds (fun _ => False) v ip v' ip ->
     (forall n, 0 <= n < sb_size sb -> used sb v' n = used sb (allocated sb c v) n) -> io_ready i m e' -> Q c (World s' e')) ->
  io_ready i m e ->
  wp ((modify_buf j (fun b => set_b_data (set_word (k - NDIRECT) c (b_data b)) b);; log_write j);; brelse j;; mret c) Q (World s1 e).
Proof.
  intros Hs Hk Hi0 Hz Hc Hu Hroom Hused Hm1 s1 Htx1 HQ Hio. pose proof Hs as [Htx Esb Els Elz Hip Hm Hf].
  set (ind := ind_block ip) in *. set (v1 := allocated sb c v) in *.
  assert (data_used sb ds v ind) as Hid by (apply (fo_own _ _ _ _ _ Hf); split; [done|by left]). destruct Hid as [Hir Hiu].
  assert (ind <> c) as Hic by congruence.
  assert (~ bmap_block sb ind) as Hib by (intros Hb%(bmap_below sb ls lz ds Hgeom); lia).
  assert (v1 ind = v ind) as Ev1 by (eapply (allocated_other sb ls lz ds Hgeom); [destruct Hgeom; lia|done|done]).
  assert (length (v1 ind) = BSIZE) as Hl1 by (by eapply txs_length).
  assert (4 * (k - NDIRECT) + 4 <= BSIZE)%nat as Hkw by (unfold MAXBLOCKS, NDIRECT, NINDIRECT, BSIZE in *; lia).
  assert (sb_ok sb (k_log o)) as Hsb by (by apply geom_sb).
  apply wp_bind. eapply (tx_update_last d i ind j _ (set_word (k - NDIRECT) c (v1 ind))); [exact Htx1|apply lookup_singleton_eq|by intros b ->| | |].
  { by rewrite length_set_word by lia. }
  { eapply (room_next o _ 1 2); [apply onext_alloc|apply alloc_log_n|done]. }
  intros s2 Htx2. set (v2 := fupd ind _ v1) in *. wp_step. eapply (tx_brelse d i ind j); [exact Htx2|apply lookup_singleton_eq|].
  rewrite delete_singleton_eq. intros s3 Htx3. wp_step.
  assert (onext o (tx_log ind (alloc_log sb c o))) as Hon by (eapply onext_trans; [apply onext_alloc|apply onext_log]).
  destruct (onext_base _ _ Hon Esb Els Elz) as (Esb' & Els' & Elz').
  assert (forall n, 0 <= n < sb_size sb -> used sb v2 n = used sb v1 n) as Hu2 by (intros n Hn; by eapply used_other).
  assert (forall n, 0 <= n < sb_size sb -> used sb v2 n = used sb v n || (n =? c)) as Hused2 by (intros n Hn; rewrite Hu2 by done; by apply Hused).
  assert (fblock v2 ip k = c) as Hnew.
  { unfold fblock. rewrite (proj2 (Nat.ltb_ge _ _)) by lia. fold ind. rewrite (proj2 (Z.eqb_neq _ _) Hi0). unfold v2. rewrite fupd_eq.
    rewrite word_set_eq by lia. apply u32_small. destruct Hgeom. lia. }
  assert (forall k', (k' < MAXBLOCKS)%nat -> k' <> k -> fblock v2 ip k' = fblock v ip k') as Hsame.
  { intros k' Hk' Hkk. unfold fblock. destruct (Nat.ltb_spec k' NDIRECT); [done|]. fold ind. destruct (ind =? 0); [done|]. unfold v2. rewrite fupd_eq.
    rewrite word_set_ne by lia. by rewrite Ev1. }
  assert (forall n, n <> c -> (n = ind -> n = 0) -> ~ bmap_block sb n -> v2 n = v n) as Hkeep.
  { intros n Hn Hni Hbm. assert (n <> ind) by (intros ->; apply Hi0; auto). unfold v2. rewrite fupd_ne by done.
    eapply (allocated_other sb ls lz ds Hgeom); [destruct Hgeom; lia|done|done]. }
  assert (exists addrs, ip = set_i_addrs addrs ip) as Hex by (exists (i_addrs ip); by destruct ip).
  pose proof (fo_len _ _ _ _ _ Hf) as Hlen.
  eapply (HQ _ v2); [|exact Hon| |done| |exact Hu2|exact Hio].
  - split; try done.
    + intros n Hn. rewrite Hu2 by (destruct Hgeom; lia). by apply Hm1.
    + exact (file_ok_add sb ls lz ds Hgeom d v _ ip _ c Hf Hc Hu Hused2 Hlen Hex Hkeep k ltac:(lia) Hnew Hsame eq_refl).
  - pose proof (tx_log_n ind (alloc_log sb c o)). pose proof (alloc_log_n c o). lia.
  - exact (fstep_add sb ls lz ds Hgeom d v _ ip _ c Hf Hc Hu Hused2 Hlen Hex Hkeep k ltac:(lia) Hz Hnew Hsame eq_refl _).
Qed.

Lemma fs_bmap_indirect (k : nat) F m dk ws o v ip s e (Q : Z -> world kst -> Prop) :
  fstate dk ws o ∅ v ip s -> (NDIRECT <= k < MAXBLOCKS)%nat -> room (k_log o) 5 -> lg_n (k_log o) + 5 < NBUF -> free_blocks sb v (S (S F)) ->
  io_ready i (balloc_io sb + (1 + (balloc_io sb + m))) e ->
  (forall a o' v' ip' s' e', fstate dk ws o' ∅ v' ip' s' -> onext o o' -> lg_n (k_log o') <= lg_n (k_log o) + 5 ->
     a = fblock v' ip' k -> a <> 0 -> fstep sb ds (fun _ => False) v ip v' ip' -> free_blocks sb v' F -> io_ready i m e' -> Q a (World s' e')) ->
  wp (bmap ino k) Q (World s e).
Proof.
  intros Hs Hk Hroom Hbuf Hfr Hio HQ. pose proof Hs as [Htx Esb Els Elz Hip Hm Hf]. unfold bmap. wp_step. eapply tx_inode_at; [exact Htx|exact Hip|].
  rewrite (proj2 (Z.ltb_ge _ _)) by lia. assert ((Z.of_nat k - NDIRECT <? NINDIRECT) = true) as ->.
  { apply Z.ltb_lt. unfold MAXBLOCKS in Hk. lia. }
  replace (Z.to_nat (k - NDIRECT)) with (k - NDIRECT)%nat by lia.
  wp_step. destruct (lookup_lt_is_Some_2 (i_addrs ip) NDIRECT) as [addr Ha]; [rewrite (fo_len _ _ _ _ _ Hf); lia|]. apply wp_nth with addr; [exact Ha|].
  assert (addr = ind_block ip) as -> by (unfold ind_block; by rewrite nth_lookup, Ha).
  wp_step. change (wp (ind_code ip) ?P ?w) with (wp (ind_code ip) P w).
  eapply (fs_ind_block (S F) (1 + (balloc_io sb + m))); [exact Hs|by eapply room_le; [|exact Hroom]; lia|lia|exact Hfr|exact Hio|].
  intros o1 v1 ip1 s1 e1 Hs1 Hon1 Hn1 Hi1 Hst1 Hfr1 Hio1. pose proof Hs1 as [Htx1 Esb1 Els1 Elz1 Hip1 Hm1 Hf1]. set (ind := ind_block ip1) in *.
  assert (data_used sb ds v1 ind) as Hid by (apply (fo_own _ _ _ _ _ Hf1); split; [done|by left]).
  rewrite (proj2 (Z.eqb_neq _ _) Hi1). rewrite (fo_dev _ _ _ _ _ Hf).
  wp_step. eapply (tx_bread d (dev_ne d Hdev) i ind (balloc_io sb + m)); [exact Htx1|exact Hio1|apply geom_home; [done|done|apply Hid]|apply lookup_empty|rewrite map_size_empty; lia|].
  intros j s2 e2 Htx2 Hio2. rewrite insert_empty in Htx2. wp_step. eapply (tx_read d i); [exact Htx2|apply lookup_singleton_eq|]. intros x Hx _. rewrite Hx.
  assert (word (v1 ind) (k - NDIRECT) = fblock v1 ip1 k) as ->.
  { unfold fblock. rewrite (proj2 (Nat.ltb_ge _ _)) by lia. fold ind. by rewrite (proj2 (Z.eqb_neq _ _) Hi1). }
  destruct (Z.eqb_spec (fblock v1 ip1 k) 0) as [Hz|Hne]; cbn [negb].
  - wp_step. eapply (fs_balloc F m); [exact Htx2|exact Esb1|exact Els1|exact Elz1|exact Hm1| |exact Hfr1| | |exact Hio2|].
    { intros n Hn. apply lookup_singleton_is_Some in Hn as <-. done. }
    { eapply (room_next o _ 2 3); [done|lia|done]. }
    { rewrite map_size_singleton. lia. }
    intros c s3 e3 Hc Hu Htx3 Hused Hm3 Hfr3 Hio3. assert (c <> 0) as Hc0 by (destruct Hgeom; lia). rewrite (proj2 (Z.eqb_neq _ _) Hc0). cbn [negb when].
    eapply (fs_link k c m); [exact Hs1|done|done|done|done|done|by eapply (room_next o _ 3 2)|done|done|exact Htx3| |exact Hio3].
    intros o' v' s' e' Hs' Hon' Hn' Ec Hst' Hu' Hio'. eapply (HQ c o' v' ip1); [done|by eapply onext_trans|lia|done|done|by eapply fstep_trans|by eapply free_blocks_same|done].
  - wp_step. eapply (tx_brelse d i ind j); [exact Htx2|apply lookup_singleton_eq|]. rewrite delete_singleton_eq. intros s3 Htx3. wp_step.
    eapply (HQ _ o1 v1 ip1); [by split|done|lia|done|done|done|by eapply free_blocks_le; [|exact Hfr1]; lia|].
    eapply io_ready_le; [|exact Hio2]. lia.
Qed.

(** Block reads [bmap] may need, and the log blocks it may add. *)
Definition bmap_io : nat := (balloc_io sb + (1 + balloc_io sb))%nat.

Lemma fs_bmap (k : nat) F m dk ws o v ip s e (Q : Z -> world kst -> Prop) :
  fstate dk ws o ∅ v ip s -> (k < MAXBLOCKS)%nat -> room (k_log o) 5 -> lg_n (k_log o) + 5 < NBUF -> free_blocks sb v (S (S F)) ->
  io_ready i (bmap_io + m) e ->
  (forall a o' v' ip' s' e', fstate dk ws o' ∅ v' ip' s' -> onext o o' -> lg_n (k_log o') <= lg_n (k_log o) + 5 ->
     a = fblock v' ip' k -> a <> 0 -> fstep sb ds (fun _ => False) v ip v' ip' -> free_blocks sb v' F -> io_ready i m e' -> Q a (World s' e')) ->
  wp (bmap ino k) Q (World s e).
Proof.
  intros Hs Hk Hroom Hbuf Hfr Hio HQ. unfold bmap_io in Hio. destruct (decide (k < NDIRECT)%nat) as [Hlt|Hge].
  - eapply (fs_bmap_direct k F m); [exact Hs|done|by eapply room_le; [|exact Hroom]; lia|lia|by eapply free_blocks_le; [|exact Hfr]; lia|
      by eapply io_ready_le; [|exact Hio]; lia|].
    intros a o' v' ip' s' e' H1 H2 H3. intros. eapply HQ; try done. lia.
  - eapply (fs_bmap_indirect k F m); try done; [lia|]. by replace (balloc_io sb + (1 + (balloc_io sb + m)))%nat with (balloc_io sb + (1 + balloc_io sb) + m)%nat by lia.
Qed.

(** A block the file has already: nothing is allocated. *)
Lemma fs_bmap_present (k : nat) m dk ws o v ip s e (Q : Z -> world kst -> Prop) :
  fstate dk ws o ∅ v ip s -> (k < MAXBLOCKS)%nat -> lg_n (k_log o) < NBUF -> fblock v ip k <> 0 -> io_ready i (S m) e ->
  (forall s' e', fstate dk ws o ∅ v ip s' -> io_ready i m e' -> Q (fblock v ip k) (World s' e')) ->
  wp (bmap ino k) Q (World s e).
Proof.
  intros Hs Hk Hbuf Hb Hio HQ. pose proof Hs as [Htx Esb Els Elz Hip Hm Hf]. unfold bmap. wp_step. eapply tx_inode_at; [exact Htx|exact Hip|].
  destruct (Z.ltb_spec k NDIRECT) as [Hlt|Hge].
  - wp_step. rewrite Nat2Z.id. destruct (lookup_lt_is_Some_2 (i_addrs ip) k) as [addr Ha]; [rewrite (fo_len _ _ _ _ _ Hf); lia|].
    apply wp_nth with addr; [exact Ha|]. assert (fblock v ip k = addr) as E by (unfold fblock; rewrite (proj2 (Nat.ltb_lt _ _)), nth_lookup, Ha by lia; done).
    rewrite E in *. rewrite (proj2 (Z.eqb_neq _ _) Hb). cbn [negb]. wp_step. apply HQ; [done|]. by apply io_ready_less.
  - assert ((Z.of_nat k - NDIRECT <? NINDIRECT) = true) as -> by (apply Z.ltb_lt; unfold MAXBLOCKS in Hk; lia).
    replace (Z.to_nat (k - NDIRECT)) with (k - NDIRECT)%nat by lia. set (ind := ind_block ip) in *.
    assert (ind <> 0 /\ fblock v ip k = word (v ind) (k - NDIRECT)) as [Hi0 Eb].
    { unfold fblock in *. rewrite (proj2 (Nat.ltb_ge _ _)) in * by lia. fold ind in Hb |- *. destruct (Z.eqb_spec ind 0); done. }
    assert (data_used sb ds v ind) as Hid by (apply (fo_own _ _ _ _ _ Hf); split; [done|by left]).
    wp_step. destruct (lookup_lt_is_Some_2 (i_addrs ip) NDIRECT) as [addr Ha]; [rewrite (fo_len _ _ _ _ _ Hf); lia|]. apply wp_nth with addr; [exact Ha|].
    assert (addr = ind) as -> by (unfold ind, ind_block; by rewrite nth_lookup, Ha). rewrite (proj2 (Z.eqb_neq _ _) Hi0). cbn [negb]. do 2 wp_step.
    rewrite (proj2 (Z.eqb_neq _ _) Hi0), (fo_dev _ _ _ _ _ Hf). wp_step.
    eapply (tx_bread d (dev_ne d Hdev) i ind m); [exact Htx|exact Hio|apply geom_home; [done|done|apply Hid]|apply lookup_empty|rewrite map_size_empty; lia|].
    intros j s2 e2 Htx2 Hio2. rewrite insert_empty in Htx2. wp_step. eapply (tx_read d i); [exact Htx2|apply lookup_singleton_eq|]. intros x -> _.
    rewrite <- Eb, (proj2 (Z.eqb_neq _ _) Hb). cbn [negb]. wp_step. eapply (tx_brelse d i ind j); [exact Htx2|apply lookup_singleton_eq|].
    rewrite delete_singleton_eq. intros s3 Htx3. wp_step. apply HQ; [by split|done].
Qed.

(** ** Reading *)

(** [len] bytes of the file from [off] on. *)
Definition file_bytes (v : Z -> list Z) (ip : inode) (off : Z) (len : nat) : list Z := (fun j : nat => fbyte v ip (off + j)) <$> seq 0 len.

Lemma file_bytes_app v ip off (a b : nat) : file_bytes v ip off (a + b) = file_bytes v ip off a ++ file_bytes v ip (off + a) b.
Proof.
  unfold file_bytes. rewrite seq_app, fmap_app. f_equal. rewrite (Nat.add_comm 0 a). rewrite <- fmap_add_seq, <- list_fmap_compose.
  apply list_fmap_ext. intros _ j _. cbn. f_equal. lia.
Qed.

(** Bytes within one block. *)
Lemma file_bytes_block v ip off (m : nat) : 0 <= off -> off mod BSIZE + m <= BSIZE ->
  length (v (fblock v ip (Z.to_nat (off / BSIZE)))) = BSIZE ->
  take m (drop (Z.to_nat (off mod BSIZE)) (v (fblock v ip (Z.to_nat (off / BSIZE))))) = file_bytes v ip off m.
Proof.
  intros Hoff Hm Hl. set (b := v (fblock v ip (Z.to_nat (off / BSIZE)))) in *. apply list_eq. intros j. unfold file_bytes.
  pose proof (Z.mod_pos_bound off BSIZE ltac:(unfold BSIZE; lia)) as Hmod.
  destruct (decide (j < m)%nat) as [Hj|Hj].
  - rewrite lookup_take_lt, lookup_drop, list_lookup_fmap, lookup_seq_lt by lia. cbn. unfold fbyte.
    assert ((off + j) / BSIZE = off / BSIZE /\ (off + j) mod BSIZE = off mod BSIZE + j) as [-> ->].
    { unfold BSIZE in *. split; Z.div_mod_to_equations; lia. }
    fold b. rewrite nth_lookup. replace (Z.to_nat (off mod BSIZE + j)) with (Z.to_nat (off mod BSIZE) + j)%nat by lia.
    destruct (lookup_lt_is_Some_2 b (Z.to_nat (off mod BSIZE) + j)) as [y ->]; [lia|done].
  - rewrite lookup_take_ge by lia. symmetry. apply lookup_ge_None. rewrite length_fmap, length_seq. lia.
Qed.

Lemma tx_local_out bs dk ws o h v s e (Q : Z -> world kst -> Prop) : txs d i dk ws o h v s ->
  (forall s', txs d i dk ws o h v s' -> Q 0 (World s' e)) -> wp (either_copyout ToLocal bs) Q (World s e).
Proof.
  intros Hs HQ. unfold either_copyout. wp_step. pose proof (txs_calm _ _ _ _ _ _ _ _ Hs) as (Hi & _). apply wp_myproc; [exact Hi|]. cbn [st env].
  wp_step. apply HQ. by apply txs_settle.
Qed.

Lemma fs_readi_loop (fuel : nat) m dk ws o v ip off n tot acc s e (Q : Z * list Z -> world kst -> Prop) :
  fstate dk ws o ∅ v ip s -> 0 <= off -> 0 <= tot <= n -> off + (n - tot) <= MAXFILE * BSIZE -> lg_n (k_log o) < NBUF ->
  (forall p, off <= p < off + (n - tot) -> fblock v ip (Z.to_nat (p / BSIZE)) <> 0) ->
  (1 <= fuel)%nat -> (tot < n -> off mod BSIZE + (n - tot) <= BSIZE * (fuel - 1)) -> io_ready i (2 * fuel + m) e ->
  (forall s' e', fstate dk ws o ∅ v ip s' -> io_ready i m e' -> Q (n, acc ++ file_bytes v ip off (Z.to_nat (n - tot))) (World s' e')) ->
  wp (readi_loop fuel ino ToLocal off n tot acc) Q (World s e).
Proof.
  revert off tot acc s e. induction fuel as [|fuel IH]; intros off tot acc s e Hs Hoff Htot Hmax Hbuf Hpres Hf1 Hf Hio HQ; [lia|]. cbn [readi_loop].
  destruct (Z.ltb_spec tot n) as [Hlt|Hge].
  2: { assert (tot = n) as -> by lia. wp_step. rewrite Z.sub_diag in HQ. specialize (HQ s e). rewrite app_nil_r in HQ. apply HQ; [done|].
       eapply io_ready_le; [|exact Hio]. lia. }
  specialize (Hf Hlt). pose proof (Z.mod_pos_bound off BSIZE ltac:(unfold BSIZE; lia)) as Hmod.
  assert (0 <= off / BSIZE) as Hdiv by (apply Z.div_pos; unfold BSIZE; lia).
  set (k := Z.to_nat (off / BSIZE)) in *. assert (off / BSIZE = k) as Ek by (unfold k; lia). rewrite Ek.
  assert (fblock v ip k <> 0) as Hb by (apply Hpres; lia).
  assert (k < MAXBLOCKS)%nat as Hk by (apply block_of_byte; lia).
  wp_step. eapply (fs_bmap_present k (2 * fuel + 1 + m)); [exact Hs|done|done|done|by eapply io_ready_le; [|exact Hio]; lia|]. intros s1 e1 Hs1 Hio1.
  rewrite (proj2 (Z.eqb_neq _ _) Hb). pose proof Hs1 as [Htx Esb Els Elz Hip Hm Hfile].
  wp_step. eapply tx_inode_at; [exact Htx|exact Hip|]. rewrite (fo_dev _ _ _ _ _ Hfile).
  assert (data_used sb ds v (fblock v ip k)) as Hdu by (apply (fo_own _ _ _ _ _ Hfile); split; [done|right; by exists k]).
  wp_step. eapply (tx_bread d (dev_ne d Hdev) i (fblock v ip k) (2 * fuel + m)); [exact Htx|by eapply io_ready_le; [|exact Hio1]; lia|
    apply geom_home; [done|done|apply Hdu]|apply lookup_empty|rewrite map_size_empty; lia|].
  intros j s2 e2 Htx2 Hio2. rewrite insert_empty in Htx2. wp_step. eapply (tx_read d i); [exact Htx2|apply lookup_singleton_eq|]. intros x -> _.
  set (mm := Z.min (n - tot) (BSIZE - off mod BSIZE)). assert (0 < mm) as Hmm by (unfold mm; lia).
  assert (take (Z.to_nat mm) (drop (Z.to_nat (off mod BSIZE)) (v (fblock v ip k))) = file_bytes v ip off (Z.to_nat mm)) as ->.
  { apply file_bytes_block; [done|unfold mm; lia|]. by eapply txs_length. }
  wp_step. eapply tx_local_out; [exact Htx2|]. intros s3 Htx3. change (0 =? -1) with false. cbv iota. wp_step.
  eapply (tx_brelse d i (fblock v ip k) j); [exact Htx3|apply lookup_singleton_eq|]. rewrite delete_singleton_eq. intros s4 Htx4. cbn [dest_add].
  assert (off + mm + (n - (tot + mm)) = off + (n - tot)) as Eend by lia.
  assert (Hnext : tot + mm < n -> (off + mm) mod BSIZE = 0 /\ mm = BSIZE - off mod BSIZE).
  { intros Hn. assert (mm = BSIZE - off mod BSIZE) as E by (unfold mm in *; lia). split; [|done]. rewrite E. unfold BSIZE in *. Z.div_mod_to_equations. lia. }
  apply IH; [by split|lia|unfold mm; lia|lia|done|intros p Hp; apply Hpres; lia|unfold BSIZE in *; lia| |exact Hio2|].
  - intros Hn. destruct (Hnext Hn) as [-> E]. unfold BSIZE in *. lia.
  - intros s' e' Hs' Hio'. rewrite <- app_assoc. replace (off + mm) with (off + Z.to_nat mm) by lia. rewrite <- file_bytes_app.
    replace (Z.to_nat mm + Z.to_nat (n - (tot + mm)))%nat with (Z.to_nat (n - tot)) by (unfold mm; lia). by apply HQ.
Qed.

(** Every byte below the size has a block. *)
Definition no_holes (v : Z -> list Z) (ip : inode) : Prop := forall p, 0 <= p < i_size ip -> fblock v ip (Z.to_nat (p / BSIZE)) <> 0.

(** [readi] returns the bytes of the file between [off] and its size. *)
Lemma fs_readi m dk ws o v ip off n s e (Q : Z * list Z -> world kst -> Prop) :
  fstate dk ws o ∅ v ip s -> 0 <= off -> 0 <= n < 2147483648 -> off + n < 4294967296 -> i_size ip <= MAXFILE * BSIZE -> lg_n (k_log o) < NBUF ->
  no_holes v ip -> io_ready i (2 * Z.to_nat (n / BSIZE + 3) + m) e ->
  (forall s' e', fstate dk ws o ∅ v ip s' -> io_ready i m e' ->
     let len := Z.to_nat (Z.min n (i_size ip - off)) in Q (Z.of_nat len, file_bytes v ip off len) (World s' e')) ->
  wp (readi ino ToLocal off n) Q (World s e).
Proof.
  intros Hs Hoff Hn Hov Hsz Hbuf Hpres Hio HQ. pose proof Hs as [Htx Esb Els Elz Hip Hm Hfile]. unfold readi. wp_step.
  eapply tx_inode_at; [exact Htx|exact Hip|]. rewrite !(u32_small (off + n)) by lia. rewrite (proj2 (Z.ltb_ge (off + n) off)), orb_false_r by lia.
  assert (0 <= n / BSIZE) as Hnb by (apply Z.div_pos; unfold BSIZE; lia).
  destruct (Z.ltb_spec (i_size ip) off) as [Hlt|Hge].
  { wp_step. specialize (HQ s e Hs). cbv zeta in HQ. replace (Z.to_nat (Z.min n (i_size ip - off))) with 0%nat in HQ by lia. apply HQ.
    eapply io_ready_le; [|exact Hio]. lia. }
  set (n' := if i_size ip <? off + n then i_size ip - off else n).
  assert (n' = Z.min n (i_size ip - off)) as En by (unfold n'; destruct (Z.ltb_spec (i_size ip) (off + n)); lia).
  assert (0 <= n' <= n) as Hn' by lia. assert (0 <= n' / BSIZE <= n / BSIZE) as Hd by (split; [apply Z.div_pos|apply Z.div_le_mono]; unfold BSIZE; lia).
  pose proof (Z.mod_pos_bound off BSIZE ltac:(unfold BSIZE; lia)) as Hmod.
  wp_step. eapply (fs_readi_loop _ m); [exact Hs|lia|lia|lia|done| |lia| |by eapply io_ready_le; [|exact Hio]; lia|].
  - intros p Hp. apply Hpres. lia.
  - intros _. rewrite Z.sub_0_r. unfold BSIZE in *. Z.div_mod_to_equations. lia.
  - intros s' e' Hs' Hio'. wp_step. cbn [fst snd]. rewrite s32_small, app_nil_l, Z.sub_0_r by lia. specialize (HQ s' e' Hs' Hio'). cbv zeta in HQ.
    rewrite <- En in HQ. by rewrite Z2Nat.id in HQ by lia.
Qed.

(** ** Writing *)

Lemma tx_local_in bs len dk ws o h v s e (Q : list Z * Z -> world kst -> Prop) : txs d i dk ws o h v s ->
  (forall s', txs d i dk ws o h v s' -> Q (take (Z.to_nat len) bs, 0) (World s' e)) -> wp (either_copyin (FromLocal bs) len) Q (World s e).
Proof.
  intros Hs HQ. unfold either_copyin. wp_step. pose proof (txs_calm _ _ _ _ _ _ _ _ Hs) as (Hi & _). apply wp_myproc; [exact Hi|]. cbn [st env].
  wp_step. apply HQ. by apply txs_settle.
Qed.

(** One block of a write. *)
Lemma fs_write_block (k q : nat) c m dk ws o v ip s e (j : nat) {B} (K : unit -> K B) (Q : B -> world kst -> Prop) :
  fstate dk ws o ∅ v ip s -> (k < MAXBLOCKS)%nat -> fblock v ip k <> 0 -> (q + length c <= BSIZE)%nat -> room (k_log o) 1 ->
  forall s1, txs d i dk ws o {[fblock v ip k := j]} v s1 -> io_ready i m e ->
  (forall s', fstate dk ws (tx_log (fblock v ip k) o) ∅ (overwritten v ip k q c) ip s' -> wp (K tt) Q (World s' e)) ->
  wp (modify_buf j (fun b => set_b_data (patch q c (b_data b)) b) ≫= fun _ => log_write j ≫= fun _ => brelse j ≫= K) Q (World s1 e).
Proof.
  intros Hs Hk Ha Hq Hroom s1 Htx1 Hio HQ. pose proof Hs as [Htx Esb Els Elz Hip Hm Hf]. set (a := fblock v ip k) in *.
  assert (length (v a) = BSIZE) as Hl by (by eapply txs_length).
  eapply (tx_update d i a j _ (patch q c (v a))); [exact Htx1|apply lookup_singleton_eq|by intros b ->|rewrite length_patch; [done|by rewrite Hl]|done|].
  intros s2 Htx2. wp_step. eapply (tx_brelse d i a j); [exact Htx2|apply lookup_singleton_eq|]. rewrite delete_singleton_eq. intros s3 Htx3.
  apply HQ. destruct (onext_base _ _ (onext_log a o) Esb Els Elz) as (Esb' & Els' & Elz'). split; try done.
  - intros n Hn. rewrite (used_overwritten sb ls lz ds Hgeom d v ip k q c Hf Hk Ha Hl Hq); [by apply Hm|]. destruct Hgeom. lia.
  - by apply (file_ok_overwritten sb ls lz ds Hgeom).
Qed.

Lemma file_bytes_lookup v ip off len (j : nat) : (j < len)%nat -> file_bytes v ip off len !! j = Some (fbyte v ip (off + j)).
Proof. intros Hj. unfold file_bytes. by rewrite list_lookup_fmap, lookup_seq_lt. Qed.

(** Bytes a step does not change. *)
Lemma file_bytes_step (R : Z -> Prop) v ip v' ip' off (len : nat) : fstep sb ds R v ip v' ip' -> 0 <= off -> off + len <= MAXFILE * BSIZE ->
  (forall p, off <= p < off + len -> ~ R p /\ fblock v ip (Z.to_nat (p / BSIZE)) <> 0) -> file_bytes v' ip' off len = file_bytes v ip off len.
Proof.
  intros Hst Hoff Hmax Hp. apply list_fmap_ext. intros j x Hx. apply lookup_seq in Hx as [-> Hj]. cbn.
  destruct (Hp (off + j) ltac:(lia)) as [HR Hb]. by apply (st_byte _ _ _ _ _ _ _ Hst); [lia| |].
Qed.

(** The chunk just written reads back. *)
Lemma file_bytes_overwritten v ip (k q : nat) c off : file_ok sb ds d v ip -> (k < MAXBLOCKS)%nat -> fblock v ip k <> 0 ->
  length (v (fblock v ip k)) = BSIZE -> (q + length c <= BSIZE)%nat -> off = BSIZE * k + q ->
  file_bytes (overwritten v ip k q c) ip off (length c) = c.
Proof.
  intros Hf Hk Ha Hl Hq Eoff. apply list_eq. intros j. destruct (decide (j < length c)%nat) as [Hj|Hj].
  - rewrite file_bytes_lookup by done. assert (MAXFILE * BSIZE = BSIZE * MAXBLOCKS) as Em by reflexivity.
    assert ((off + j) / BSIZE = k /\ (off + j) mod BSIZE = q + j) as [E1 E2].
    { unfold BSIZE in *. subst off. split; Z.div_mod_to_equations; lia. }
    rewrite (fbyte_overwritten sb ds d); [|done..|unfold BSIZE in *; lia|by rewrite E1, Nat2Z.id].
    rewrite decide_True by (rewrite E1, E2; split; [done|lia]). rewrite E2. replace (Z.to_nat (q + j - q)) with j by lia.
    rewrite nth_lookup. destruct (lookup_lt_is_Some_2 c j Hj) as [x ->]. done.
  - rewrite (lookup_ge_None_2 c) by lia. apply lookup_ge_None_2. unfold file_bytes. rewrite length_fmap, length_seq. lia.
Qed.

Lemma fs_writei_loop (nb : nat) : forall (fuel : nat) F m dk ws o v ip off n tot bs s e (Q : Z * Z -> world kst -> Prop),
  fstate dk ws o ∅ v ip s -> 0 <= off -> 0 <= tot <= n -> Z.of_nat (length bs) = n - tot -> off + (n - tot) <= MAXFILE * BSIZE ->
  (nb < fuel)%nat -> (tot < n -> off mod BSIZE + (n - tot) <= BSIZE * nb) -> room (k_log o) (6 * nb) -> lg_n (k_log o) + 6 * nb < NBUF ->
  free_blocks sb v (2 * nb + F) -> io_ready i ((bmap_io + 1) * nb + m) e ->
  (forall o' v' ip' s' e', fstate dk ws o' ∅ v' ip' s' -> onext o o' -> lg_n (k_log o') <= lg_n (k_log o) + 6 * nb ->
     fstep sb ds (fun p => off <= p < off + (n - tot)) v ip v' ip' -> file_bytes v' ip' off (length bs) = bs ->
     (forall p, off <= p < off + (n - tot) -> fblock v' ip' (Z.to_nat (p / BSIZE)) <> 0) ->
     free_blocks sb v' F -> io_ready i m e' -> Q (n, off + (n - tot)) (World s' e')) ->
  wp (writei_loop fuel ino (FromLocal bs) off n tot) Q (World s e).
Proof.
  induction nb as [|nb IH]; intros [|fuel] F m dk ws o v ip off n tot bs s e Q Hs Hoff Htot Hbs Hmax Hfu Hnb Hroom Hbuf Hfr Hio HQ; try lia; cbn [writei_loop];
    pose proof (Z.mod_pos_bound off BSIZE ltac:(unfold BSIZE; lia)) as Hmod.
  { destruct (Z.ltb_spec tot n) as [Hlt|_]; [specialize (Hnb Hlt); lia|]. assert (tot = n) as -> by lia. rewrite Z.sub_diag in *. wp_step.
    destruct bs; [|cbn in Hbs; lia]. specialize (HQ o v ip s e). rewrite !Z.add_0_r in HQ. apply HQ; [done|apply onext_refl|lia|by apply fstep_refl|done|intros; lia|done|].
    by replace ((bmap_io + 1) * 0 + m)%nat with m in Hio by lia. }
  destruct (Z.ltb_spec tot n) as [Hlt|Hge].
  2: { assert (tot = n) as -> by lia. rewrite Z.sub_diag in *. wp_step. destruct bs; [|cbn in Hbs; lia].
       specialize (HQ o v ip s e). rewrite !Z.add_0_r in HQ. apply HQ; [done|apply onext_refl|lia|by apply fstep_refl|done|intros; lia| |].
       - by eapply free_blocks_le; [|exact Hfr]; lia.
       - eapply io_ready_le; [|exact Hio]. lia. }
  specialize (Hnb Hlt). assert (0 <= off / BSIZE) as Hdiv by (apply Z.div_pos; unfold BSIZE; lia).
  set (k := Z.to_nat (off / BSIZE)) in *. assert (off / BSIZE = k) as Ek by (unfold k; lia). rewrite Ek.
  assert (k < MAXBLOCKS)%nat as Hk by (apply block_of_byte; lia).
  wp_step. eapply (fs_bmap k (2 * nb + F) ((bmap_io + 1) * nb + 1 + m)); [exact Hs|done|by eapply room_le; [|exact Hroom]; lia|lia|
    by replace (S (S (2 * nb + F))) with (2 * S nb + F)%nat by lia|by eapply io_ready_le; [|exact Hio]; lia|].
  intros a o1 v1 ip1 s1 e1 Hs1 Hon1 Hn1 Ea Ha Hst1 Hfr1 Hio1. rewrite (proj2 (Z.eqb_neq _ _) Ha). pose proof Hs1 as [Htx Esb Els Elz Hip Hm Hfile].
  wp_step. eapply tx_inode_at; [exact Htx|exact Hip|]. rewrite (fo_dev _ _ _ _ _ Hfile).
  rewrite Ea in Ha. assert (data_used sb ds v1 (fblock v1 ip1 k)) as Hdu by (apply (fo_own _ _ _ _ _ Hfile); split; [done|right; by exists k]).
  wp_step. rewrite Ea. eapply (tx_bread d (dev_ne d Hdev) i (fblock v1 ip1 k) ((bmap_io + 1) * nb + m)); [exact Htx|by eapply io_ready_le; [|exact Hio1]; lia|
    apply geom_home; [done|done|apply Hdu]|apply lookup_empty|rewrite map_size_empty; lia|].
  intros j s2 e2 Htx2 Hio2. rewrite insert_empty in Htx2.
  set (mm := Z.min (n - tot) (BSIZE - off mod BSIZE)). assert (0 < mm <= n - tot) as Hmm by (unfold mm; lia).
  wp_step. eapply tx_local_in; [exact Htx2|]. intros s3 Htx3. cbn [fst snd]. change (0 =? -1) with false. cbv iota.
  set (c := take (Z.to_nat mm) bs). assert (Z.of_nat (length c) = mm) as Hc by (unfold c; rewrite length_take; lia).
  assert (length (v1 (fblock v1 ip1 k)) = BSIZE) as Hlen by (by eapply txs_length).
  assert (Z.to_nat (off mod BSIZE) + length c <= BSIZE)%nat as Hq by (unfold mm in *; lia).
  eapply (fs_write_block k (Z.to_nat (off mod BSIZE)) c ((bmap_io + 1) * nb + m)); [exact Hs1|done|done|done|by eapply (room_next o _ 1 5); [done|lia|eapply room_le; [|exact Hroom]; lia]|exact Htx3|exact Hio2|].
  intros s4 Hs4. cbn [origin_add]. set (v2 := overwritten v1 ip1 k _ c) in *. set (o2 := tx_log _ o1) in *.
  assert (onext o o2) as Hon2 by (eapply onext_trans; [exact Hon1|apply onext_log]).
  assert (lg_n (k_log o2) <= lg_n (k_log o) + 6) as Hn2 by (pose proof (tx_log_n (fblock v1 ip1 k) o1); unfold o2; lia).
  assert (fstep sb ds (fun p => off <= p < off + mm) v1 ip1 v2 ip1) as Hst2.
  { apply (fstep_overwritten sb ls lz ds Hgeom d); [done..|]. intros p Hp1 Hp2. unfold BSIZE in *. Z.div_mod_to_equations. lia. }
  assert (file_bytes v2 ip1 off (length c) = c) as Hbytes by (apply file_bytes_overwritten; try done; unfold BSIZE in *; Z.div_mod_to_equations; lia).
  assert (Hnext : tot + mm < n -> (off + mm) mod BSIZE = 0 /\ mm = BSIZE - off mod BSIZE).
  { intros Hn. assert (mm = BSIZE - off mod BSIZE) as E by (unfold mm in *; lia). split; [|done]. rewrite E. unfold BSIZE in *. Z.div_mod_to_equations. lia. }
  assert (free_blocks sb v2 (2 * nb + F)) as Hfr2.
  { eapply free_blocks_same; [exact Hfr1|]. intros p Hp. by apply (used_overwritten sb ls lz ds Hgeom d). }
  eapply (IH fuel F m); [exact Hs4|lia|lia|rewrite length_drop; lia|lia|lia| |by eapply (room_next o _ _ 6); [done|lia|eapply room_le; [|exact Hroom]; lia]|lia|exact Hfr2|exact Hio2|].
  { intros Hn. destruct (Hnext Hn) as [-> E]. unfold BSIZE in *. lia. }
  intros o' v' ip' s' e' Hs' Hon' Hn' Hst' Hb' Hp' Hfr' Hio'. replace (off + mm + (n - (tot + mm))) with (off + (n - tot)) in * by lia.
  assert (forall p, off <= p < off + mm -> fblock v2 ip1 (Z.to_nat (p / BSIZE)) <> 0) as Hpm.
  { intros p Hp. assert (p / BSIZE = k) as -> by (unfold mm, BSIZE in *; Z.div_mod_to_equations; lia). rewrite Nat2Z.id. unfold v2.
    by rewrite (fblock_overwritten sb ds d). }
  eapply (HQ o' v' ip'); [exact Hs'|by eapply onext_trans|lia| | | |exact Hfr'|exact Hio'].
  - eapply (fstep_trans sb ls lz ds Hgeom); [eapply fstep_mono; [|exact Hst1]; done|].
    eapply (fstep_trans sb ls lz ds Hgeom); [eapply fstep_mono; [|exact Hst2]; cbn; lia|]. eapply fstep_mono; [|exact Hst']. cbn. lia.
  - rewrite <- (take_drop (Z.to_nat mm) bs). fold c. rewrite length_app, file_bytes_app. rewrite Hc. f_equal; [|exact Hb'].
    rewrite <- Hbytes at 2. eapply file_bytes_step; [exact Hst'|lia|lia|]. intros p Hp. split; [cbn; lia|]. apply Hpm. lia.
  - intros p Hp. destruct (decide (p < off + mm)); [|apply Hp'; lia]. rewrite (st_block _ _ _ _ _ _ _ Hst'); [apply Hpm; lia|apply block_of_byte; lia|apply Hpm; lia].
Qed.
End Files.
