(* ===== verification/FsWrite.v ===== *)
(** * kernel/fs.c: writing files back

    The on-disk inode that [iupdate] writes and [ilock] reads, [writei] as a
    whole, and the commit of a write by [end_op]: what a later reader, or a
    system started again after a crash, finds. *)

From S2P Require Import Prelude State Spinlock Norm Printf Sched Sleeplock Vm Proc Bio LruList Cache CacheSpec Blocks Log LogSpec LogTx FsTx Fs FsAlloc FsFile.

(** ** The on-disk inode *)

(** [struct dinode] with the fields of [ip], at [off]. *)
Definition put_dinode (off : nat) (ip : inode) (bs : list Z) : list Z :=
  put_addrs off (i_addrs ip)
    (patch (off + 8) (le_bytes 4 (i_size ip))
      (patch (off + 6) (le_bytes 2 (u16 (i_nlink ip)))
        (patch (off + 4) (le_bytes 2 (u16 (i_minor ip)))
          (patch (off + 2) (le_bytes 2 (u16 (i_major ip)))
            (patch off (le_bytes 2 (u16 (i_type ip))) bs))))).

(** The fields as [ilock] reads them are those of [ip]. *)
Definition dinode_is (off : nat) (ip : inode) (bs : list Z) : Prop :=
  dip_short off bs = i_type ip /\ dip_short (off + 2) bs = i_major ip /\ dip_short (off + 4) bs = i_minor ip /\
  dip_short (off + 6) bs = i_nlink ip /\ get_le 4 (off + 8) bs = i_size ip /\ dip_addrs off bs = i_addrs ip.

Definition short (x : Z) : Prop := -32768 <= x < 32768.

(** The fields are in the range of their C types. *)
Record inode_range (ip : inode) : Prop := {
  ir_type : short (i_type ip);
  ir_major : short (i_major ip);
  ir_minor : short (i_minor ip);
  ir_nlink : short (i_nlink ip);
  ir_size : 0 <= i_size ip < 4294967296;
  ir_addrs : Forall (fun a => 0 <= a < 4294967296) (i_addrs ip);
  ir_len : length (i_addrs ip) = S NDIRECT
}.

Lemma length_addr_bytes (l : list Z) : length (mjoin (le_bytes 4 <$> l)) = (4 * length l)%nat.
Proof. induction l as [|x l IH]; [done|]. rewrite fmap_cons. change (mjoin (?y :: ?m)) with (y ++ mjoin m). cbn [length]. rewrite length_app, length_le_bytes, IH. lia. Qed.

Lemma length_put_dinode off ip bs : (off + 64 <= length bs)%nat -> length (i_addrs ip) = S NDIRECT -> length (put_dinode off ip bs) = length bs.
Proof.
  intros Hl Ha. unfold put_dinode, put_addrs. rewrite length_patch; rewrite ?length_addr_bytes, ?Ha; do 5 (rewrite length_patch; rewrite ?length_le_bytes); unfold NDIRECT; lia.
Qed.

Lemma addr_bytes_lookup (l : list Z) (k : nat) x : l !! k = Some x -> take 4 (drop (4 * k) (mjoin (le_bytes 4 <$> l))) = le_bytes 4 x.
Proof.
  revert k. induction l as [|y l IH]; intros [|k] Hk; try done; rewrite fmap_cons; change (mjoin (?a :: ?b)) with (a ++ mjoin b).
  - injection Hk as ->. rewrite drop_0. by rewrite take_app_length'.
  - rewrite <- (IH k Hk). f_equal. replace (4 * S k)%nat with (length (le_bytes 4 y) + 4 * k)%nat by (rewrite length_le_bytes; lia).
    by rewrite drop_app_add.
Qed.

Lemma get_addr off (l bs : list Z) (k : nat) x : l !! k = Some x -> 0 <= x < 4294967296 -> (off + 12 + 4 * length l <= length bs)%nat ->
  get_le 4 (off + 12 + 4 * k) (put_addrs off l bs) = x.
Proof.
  intros Hk Hx Hl. pose proof (lookup_lt_Some _ _ _ Hk) as Hkl. unfold get_le, put_addrs.
  assert (take 4 (drop (off + 12 + 4 * k) (patch (off + 12) (mjoin (le_bytes 4 <$> l)) bs)) = le_bytes 4 x) as ->.
  { rewrite <- drop_drop, <- (addr_bytes_lookup l k x Hk). unfold patch. rewrite drop_app_length' by (rewrite length_take; lia).
    rewrite drop_app_le, take_app_le by (rewrite ?length_drop, length_addr_bytes; lia). done. }
  rewrite le_val_bytes. by apply Z.mod_small.
Qed.

Lemma s16_u16 x : short x -> s16 (u16 x mod 256 ^ 2) = x.
Proof. unfold short, s16, u16. intros Hx. change (256 ^ 2) with 65536. rewrite Z.mod_mod by lia. Z.div_mod_to_equations. lia. Qed.

(** A patch elsewhere. *)
Ltac skip b := unfold b; rewrite get_le_patch_ne by (rewrite ?length_le_bytes; lia).

(** What [iupdate] writes, [ilock] reads back. *)
Lemma dinode_roundtrip off ip bs : inode_range ip -> (off + 64 <= length bs)%nat -> dinode_is off ip (put_dinode off ip bs).
Proof.
  intros [H1 H2 H3 H4 H5 H6 H7] Hl. unfold dinode_is, put_dinode, put_addrs, dip_short.
  assert (length (mjoin (le_bytes 4 <$> i_addrs ip)) = 52%nat) as Hm by (rewrite length_addr_bytes, H7; reflexivity).
  set (b1 := patch off (le_bytes 2 (u16 (i_type ip))) bs).
  assert (length b1 = length bs) as L1 by (apply length_patch; rewrite length_le_bytes; lia).
  set (b2 := patch (off + 2) (le_bytes 2 (u16 (i_major ip))) b1).
  assert (length b2 = length bs) as L2 by (rewrite <- L1; apply length_patch; rewrite length_le_bytes; lia).
  set (b3 := patch (off + 4) (le_bytes 2 (u16 (i_minor ip))) b2).
  assert (length b3 = length bs) as L3 by (rewrite <- L2; apply length_patch; rewrite length_le_bytes; lia).
  set (b4 := patch (off + 6) (le_bytes 2 (u16 (i_nlink ip))) b3).
  assert (length b4 = length bs) as L4 by (rewrite <- L3; apply length_patch; rewrite length_le_bytes; lia).
  set (b5 := patch (off + 8) (le_bytes 4 (i_size ip)) b4).
  assert (length b5 = length bs) as L5 by (rewrite <- L4; apply length_patch; rewrite length_le_bytes; lia).
  split_and!.
  - rewrite get_le_patch_ne by lia. skip b5. skip b4. skip b3. skip b2. unfold b1. rewrite get_le_patch_eq by lia. by apply s16_u16.
  - rewrite get_le_patch_ne by lia. skip b5. skip b4. skip b3. unfold b2. rewrite get_le_patch_eq by lia. by apply s16_u16.
  - rewrite get_le_patch_ne by lia. skip b5. skip b4. unfold b3. rewrite get_le_patch_eq by lia. by apply s16_u16.
  - rewrite get_le_patch_ne by lia. skip b5. unfold b4. rewrite get_le_patch_eq by lia. by apply s16_u16.
  - rewrite get_le_patch_ne by lia. unfold b5. rewrite get_le_patch_eq by lia. by apply Z.mod_small.
  - unfold dip_addrs. apply list_eq. intros k. rewrite list_lookup_fmap. destruct (decide (k < S NDIRECT)%nat) as [Hk|Hk].
    + rewrite lookup_seq_lt by done. destruct (lookup_lt_is_Some_2 (i_addrs ip) k) as [x Hx]; [lia|]. rewrite Hx. cbn [fmap option_fmap option_map].
      f_equal. apply get_addr; [exact Hx| |rewrite H7, L5; unfold NDIRECT; lia]. rewrite list.Forall_forall in H6. by apply H6, list_elem_of_lookup_2 with k.
    + rewrite lookup_seq_ge by lia. symmetry. apply lookup_ge_None. lia.
Qed.

(** Two changes of a buffer in a row are one. *)
Lemma modify_buf_twice {B} j f g (K : unit -> K B) Q w :
  wp (modify_buf j (fun b => g (f b)) ≫= K) Q w -> wp (modify_buf j f ≫= fun _ => modify_buf j g ≫= K) Q w.
Proof.
  intros Hw. apply wp_bind_inv in Hw. unfold modify_buf in *. do 4 wp_step. destruct w as [s e]. cbn [st env].
  assert (forall l, set_k_bufs (alter g j (k_bufs (set_k_bufs l s))) (set_k_bufs l s) = set_k_bufs (alter g j l) s) as -> by done.
  rewrite alter_alter. exact Hw.
Qed.

Section Write.
Context `{DiskDriverOk} (d : Z) (Hdev : 0 < d < 2147483648) (i : nat) (ino : nat).
Context (sb : superblock) (ls lz ds : Z) (Hgeom : fs_geom sb ls lz ds).

(** The block of the inode is metadata outside the bitmap and the log. *)
Definition iblock (ip : inode) : Z := IBLOCK (i_inum ip) sb.
Definition iblock_ok (ip : inode) : Prop :=
  0 <= iblock ip < ds /\ ~ bmap_block sb (iblock ip) /\ (iblock ip < ls \/ ls + lz <= iblock ip).

Lemma dinode_off_range inum : (dinode_off inum + 64 <= BSIZE)%nat.
Proof. unfold dinode_off, IPB, BSIZE. pose proof (Z.mod_pos_bound inum 16 ltac:(lia)). lia. Qed.

(** Changing metadata outside the bitmap does not touch the file. *)
Section Meta.
Context (v : Z -> list Z) (ip : inode) (n : Z) (x : list Z) (Hf : file_ok sb ds d v ip) (Hn : n < ds) (Hnb : ~ bmap_block sb n).

Lemma meta_own m : own v ip m -> m <> n.
Proof. intros Ho ->. apply (fo_own _ _ _ _ _ Hf) in Ho as [? _]. lia. Qed.

Lemma fblock_meta k : fblock (fupd n x v) ip k = fblock v ip k.
Proof.
  unfold fblock. destruct (k <? NDIRECT)%nat; [done|]. destruct (Z.eqb_spec (ind_block ip) 0) as [|Hi]; [done|]. rewrite fupd_ne; [done|].
  apply meta_own. by split; [|left].
Qed.

Lemma own_meta m : own (fupd n x v) ip m <-> own v ip m.
Proof. unfold own. by setoid_rewrite fblock_meta. Qed.

Lemma used_meta c : 0 <= c < sb_size sb -> used sb (fupd n x v) c = used sb v c.
Proof.
  intros Hc. unfold used. rewrite fupd_ne; [done|]. intros E. apply Hnb. rewrite <- E.
  assert (c / BPB <= (sb_size sb - 1) / BPB) by (apply Z.div_le_mono; unfold BPB; lia).
  assert (0 <= c / BPB) by (apply Z.div_pos; unfold BPB; lia). destruct Hgeom as [G1 [G2 _] G3 _ G4]. unfold bmap_block, BBLOCK.
  rewrite u32_small by lia. lia.
Qed.

Lemma file_ok_meta : file_ok sb ds d (fupd n x v) ip.
Proof.
  destruct Hf as [H1 H2 H3 H4 H5]. split; [done|done| | |].
  - intros m Hm%own_meta%H3. pose proof (data_used_pos sb ls lz ds Hgeom v m Hm). destruct Hm. split; [done|]. rewrite used_meta by lia. done.
  - intros k1 k2. rewrite !fblock_meta. apply H4.
  - intros k1. rewrite fblock_meta. apply H5.
Qed.

Lemma fbyte_meta p : fblock v ip (Z.to_nat (p / BSIZE)) <> 0 -> 0 <= p < MAXFILE * BSIZE -> fbyte (fupd n x v) ip p = fbyte v ip p.
Proof.
  intros Hb Hp. unfold fbyte. rewrite fblock_meta, fupd_ne; [done|]. apply meta_own. split; [done|]. right. eexists. split; [by apply block_of_byte|done].
Qed.
End Meta.

Lemma fs_iupdate m dk ws o v ip s e (Q : unit -> world kst -> Prop) :
  fstate d i ino sb ls lz ds dk ws o ∅ v ip s -> iblock_ok ip -> room (k_log o) 1 -> lg_n (k_log o) < NBUF -> io_ready i (S m) e ->
  (forall s' e', fstate d i ino sb ls lz ds dk ws (tx_log (iblock ip) o) ∅ (fupd (iblock ip) (put_dinode (dinode_off (i_inum ip)) ip (v (iblock ip))) v) ip s' ->
     io_ready i m e' -> Q tt (World s' e')) ->
  wp (iupdate ino) Q (World s e).
Proof.
  intros Hs (Hib & Hnb & Hlog) Hroom Hbuf Hio HQ. pose proof Hs as [Htx Esb Els Elz Hip Hm Hf]. unfold iupdate. wp_step. eapply tx_inode_at; [exact Htx|exact Hip|].
  do 2 wp_step. cbn [st]. rewrite (txs_sb d i _ _ _ _ _ _ Htx), Esb, (fo_dev _ _ _ _ _ Hf). fold (iblock ip). set (ib := iblock ip) in *.
  wp_step. eapply (tx_bread d (dev_ne d Hdev) i ib m); [exact Htx|exact Hio| |apply lookup_empty|rewrite map_size_empty; lia|].
  { split; [destruct Hgeom; lia|]. by rewrite Els, Elz. }
  intros j s1 e1 Htx1 Hio1. rewrite insert_empty in Htx1. do 5 apply modify_buf_twice.
  assert (length (v ib) = BSIZE) as Hl by (by eapply txs_length). pose proof (dinode_off_range (i_inum ip)) as Hoff.
  eapply (tx_update d i ib j _ (put_dinode (dinode_off (i_inum ip)) ip (v ib))); [exact Htx1|apply lookup_singleton_eq| | |done|].
  { intros b Hb. unfold put_dinode. by rewrite <- Hb. }
  { rewrite length_put_dinode; [done|by rewrite Hl|apply Hf]. }
  intros s2 Htx2. eapply (tx_brelse d i ib j); [exact Htx2|apply lookup_singleton_eq|]. rewrite delete_singleton_eq. intros s3 Htx3.
  apply HQ; [|exact Hio1]. destruct (onext_base ino sb ls lz ds Hgeom _ _ (onext_log ino ib o) Esb Els Elz) as (Esb' & Els' & Elz'). split; try done.
  - intros n Hn. rewrite used_meta; [by apply Hm|done|destruct Hgeom; lia].
  - apply file_ok_meta; [done|lia|done].
Qed.

(** The number of blocks a write of [n] bytes at [off] touches. *)
Definition nblocks (off n : Z) : nat := Z.to_nat ((off mod BSIZE + n + BSIZE - 1) / BSIZE).

(** Log blocks and block reads a write may need: per block the data block, the
    indirect block and the bitmap, and once the inode. *)
Definition write_room (off n : Z) : Z := 6 * nblocks off n + 1.
Definition write_io (off n : Z) : nat := ((bmap_io sb + 1) * nblocks off n + 1)%nat.

(** The inode after the write: the size is the larger of the old one and the end
    of the write. *)
Definition resized (off n : Z) (ip : inode) : inode := if i_size ip <? off + n then set_i_size (off + n) ip else ip.

Lemma fblock_resized v off n ip k : fblock v (resized off n ip) k = fblock v ip k.
Proof. unfold resized. by destruct (_ <? _). Qed.

Lemma file_ok_resized v off n ip : file_ok sb ds d v ip -> file_ok sb ds d v (resized off n ip).
Proof. unfold resized. destruct (_ <? _); [|done]. intros [H1 H2 H3 H4 H5]. by split. Qed.

(** What a write leaves behind. *)
Record written_file (off : Z) (bs : list Z) (v : Z -> list Z) (ip : inode) (v' : Z -> list Z) (ip' : inode) : Prop := {
  wf_size : i_size ip' = Z.max (i_size ip) (off + length bs);
  wf_bytes : file_bytes v' ip' off (length bs) = bs;
  wf_rest : forall p, 0 <= p < i_size ip -> ~ (off <= p < off + length bs) -> fbyte v' ip' p = fbyte v ip p;
  wf_holes : no_holes v' ip';
  wf_disk : dinode_is (dinode_off (i_inum ip)) ip' (v' (iblock ip));
  wf_fixed : exists size addrs, ip' = set_i_size size (set_i_addrs addrs ip);
  wf_used : forall n, 0 <= n < sb_size sb -> used sb v n = true -> used sb v' n = true;
  wf_own : forall n, own v' ip' n -> own v ip n \/ (ds <= n < sb_size sb /\ used sb v n = false);
  wf_other : forall n, ~ bmap_block sb n -> n < ds \/ data_used sb ds v n -> ~ own v ip n -> n <> iblock ip -> v' n = v n
}.

(** The fields the file system keeps in range. *)
Record inode_ok (ip : inode) : Prop := {
  io_type : short (i_type ip); io_major : short (i_major ip); io_minor : short (i_minor ip); io_nlink : short (i_nlink ip);
  io_size : 0 <= i_size ip <= MAXFILE * BSIZE
}.

Lemma addrs_range v ip : file_ok sb ds d v ip -> Forall (fun a => 0 <= a < 4294967296) (i_addrs ip).
Proof.
  intros Hf. apply list.Forall_forall. intros a Ha. apply list_elem_of_lookup in Ha as [k Hk]. pose proof (lookup_lt_Some _ _ _ Hk) as Hl.
  rewrite (fo_len _ _ _ _ _ Hf) in Hl. destruct (decide (a = 0)) as [->|Hne]; [lia|].
  assert (own v ip a) as Ho.
  { split; [done|]. destruct (decide (k = NDIRECT)) as [->|]; [left; unfold ind_block; by rewrite nth_lookup, Hk|right]. exists k.
    split; [unfold MAXBLOCKS; lia|]. unfold fblock. rewrite (proj2 (Nat.ltb_lt _ _)) by lia. by rewrite nth_lookup, Hk. }
  apply (fo_own _ _ _ _ _ Hf) in Ho as [? _]. destruct Hgeom. lia.
Qed.

Lemma nblocks_bounds off n : 0 <= off -> 0 < n -> off mod BSIZE + n <= BSIZE * nblocks off n /\ (nblocks off n < Z.to_nat (n / BSIZE + 3))%nat.
Proof.
  intros Hoff Hn. pose proof (Z.mod_pos_bound off BSIZE ltac:(unfold BSIZE; lia)) as Hm. unfold nblocks, BSIZE in *.
  assert (0 <= n / 1024%nat) by (apply Z.div_pos; lia). assert (0 <= (off mod 1024%nat + n + 1024%nat - 1) / 1024%nat) by (apply Z.div_pos; lia).
  rewrite Z2Nat.id by lia. split; [|apply Z2Nat.inj_lt; [lia|lia|]]; Z.div_mod_to_equations; lia.
Qed.

(** The blocks the loop wrote, the new size and the inode written back. *)
Lemma written_file_of off bs v ip v1 ip1 :
  let n := Z.of_nat (length bs) in let ip2 := resized off n ip1 in
  file_ok sb ds d v1 ip2 -> inode_ok ip2 -> no_holes v ip -> 0 < n -> 0 <= off <= i_size ip -> off + n <= MAXFILE * BSIZE -> i_size ip <= MAXFILE * BSIZE ->
  0 <= iblock ip < ds -> ~ bmap_block sb (iblock ip) -> length (v1 (iblock ip)) = BSIZE ->
  fstep sb ds (fun p => off <= p < off + n) v ip v1 ip1 -> file_bytes v1 ip1 off (length bs) = bs ->
  (forall p, off <= p < off + n -> fblock v1 ip1 (Z.to_nat (p / BSIZE)) <> 0) ->
  written_file off bs v ip (fupd (iblock ip) (put_dinode (dinode_off (i_inum ip)) ip2 (v1 (iblock ip))) v1) ip2.
Proof.
  intros n ip2 Hf Hok Hnh Hn Hoff Hmax Hsz Hib Hbm Hlen Hst Hbytes Hpres. destruct (st_inode _ _ _ _ _ _ _ Hst) as [addrs Eip1].
  set (x := put_dinode _ _ _). set (v2 := fupd (iblock ip) x v1).
  assert (i_size ip2 = Z.max (i_size ip) (off + n)) as Esize.
  { unfold ip2, resized. rewrite Eip1. cbn. destruct (Z.ltb_spec (i_size ip) (off + n)); cbn; lia. }
  assert (forall p, 0 <= p < i_size ip2 -> fblock v1 ip2 (Z.to_nat (p / BSIZE)) <> 0) as Hall.
  { intros p Hp. unfold ip2. rewrite fblock_resized. destruct (decide (off <= p < off + n)) as [Hin|Hout]; [by apply Hpres|].
    assert (0 <= p < i_size ip) as Hp' by lia. rewrite (st_block _ _ _ _ _ _ _ Hst); [by apply Hnh|apply block_of_byte; lia|by apply Hnh]. }
  assert (forall p, 0 <= p < i_size ip2 -> fbyte v2 ip2 p = fbyte v1 ip1 p) as Hby.
  { intros p Hp. unfold v2. rewrite (fbyte_meta v1 ip2 (iblock ip) x Hf ltac:(lia)); [|by apply Hall|destruct Hok; lia]. unfold fbyte, ip2. by rewrite fblock_resized. }
  split.
  - exact Esize.
  - rewrite <- Hbytes at 2. apply list_fmap_ext. intros k j [-> Hj]%lookup_seq. apply Hby. lia.
  - intros p Hp Hout. rewrite Hby by lia. apply (st_byte _ _ _ _ _ _ _ Hst); [lia|by apply Hnh|done].
  - intros p Hp. unfold v2. rewrite (fblock_meta v1 ip2 (iblock ip) x Hf) by lia. by apply Hall.
  - unfold v2. rewrite fupd_eq. apply dinode_roundtrip; [|rewrite Hlen; apply dinode_off_range]. destruct Hok as [T1 T2 T3 T4 T5].
    split; try done; [|by eapply addrs_range|by apply (fo_len _ _ _ _ _ Hf)]. assert (MAXFILE * BSIZE = 274432) as EM by reflexivity. lia.
  - exists (i_size ip2), addrs. unfold ip2, resized. rewrite Eip1. destruct (_ <? _); cbn; [done|by destruct ip].
  - intros m Hm Hu. unfold v2. rewrite (used_meta v1 (iblock ip) x); [by apply (st_used _ _ _ _ _ _ _ Hst)|done|done].
  - intros m Ho. apply (st_own _ _ _ _ _ _ _ Hst). apply (own_meta v1 ip2 (iblock ip) x Hf) in Ho; [|lia]. unfold own, ip2 in *.
    setoid_rewrite fblock_resized in Ho. unfold resized in Ho. by destruct (_ <? _) in Ho.
  - intros m Hm Hor Ho Hne. unfold v2. rewrite fupd_ne by done. by apply (st_other _ _ _ _ _ _ _ Hst).
Qed.

Lemma fs_writei F m dk ws o v ip off bs s e (Q : Z -> world kst -> Prop) :
  let n := Z.of_nat (length bs) in
  fstate d i ino sb ls lz ds dk ws o ∅ v ip s -> iblock_ok ip -> inode_ok ip -> no_holes v ip -> 0 < n < 2147483648 ->
  0 <= off <= i_size ip -> off + n <= MAXFILE * BSIZE -> room (k_log o) (write_room off n) -> lg_n (k_log o) + write_room off n < NBUF ->
  free_blocks sb v (2 * nblocks off n + F) -> io_ready i (write_io off n + m) e ->
  (forall o' v' ip' s' e', fstate d i ino sb ls lz ds dk ws o' ∅ v' ip' s' -> onext ino o o' -> lg_n (k_log o') <= lg_n (k_log o) + write_room off n ->
     written_file off bs v ip v' ip' -> inode_ok ip' -> free_blocks sb v' F -> io_ready i m e' -> Q n (World s' e')) ->
  wp (writei ino (FromLocal bs) off n) Q (World s e).
Proof.
  intros n Hs Hib Hio_ok Hnh Hn Hoff Hmax Hroom Hbuf Hfr Hio HQ. pose proof Hs as [Htx Esb Els Elz Hip Hm Hf]. unfold writei, write_room, write_io in *.
  wp_step. eapply tx_inode_at; [exact Htx|exact Hip|].
  assert (MAXFILE * BSIZE = 274432) as EM by reflexivity.
  rewrite !(u32_small (off + n)) by lia. rewrite (proj2 (Z.ltb_ge (i_size ip) off)), (proj2 (Z.ltb_ge (off + n) off)) by lia. cbn [orb].
  rewrite (proj2 (Z.ltb_ge (MAXFILE * BSIZE) (off + n))) by lia. destruct (nblocks_bounds off n ltac:(lia) ltac:(lia)) as [Hnb1 Hnb2].
  set (nb := nblocks off n) in *. wp_step.
  eapply (fs_writei_loop d Hdev i ino sb ls lz ds Hgeom nb _ F (S m)); [exact Hs|lia|lia|fold n; lia|lia|exact Hnb2|intros _; lia|
    by eapply room_le; [|exact Hroom]; lia|lia|exact Hfr|by eapply io_ready_le; [|exact Hio]; lia|].
  intros o1 v1 ip1 s1 e1 Hs1 Hon1 Hn1 Hst1 Hbytes1 Hpres1 Hfr1 Hio1. rewrite Z.sub_0_r in *. pose proof Hs1 as [Htx1 Esb1 Els1 Elz1 Hip1 Hm1 Hf1].
  destruct (st_inode _ _ _ _ _ _ _ Hst1) as [addrs Eip1].
  wp_step. eapply tx_inode_at; [exact Htx1|exact Hip1|]. cbn [fst snd]. set (ip2 := resized off n ip1).
  assert (exists o2, onext ino o1 o2 /\ lg_n (k_log o2) = lg_n (k_log o1) /\ forall Q' : unit -> world kst -> Prop,
    (forall s2, fstate d i ino sb ls lz ds dk ws o2 ∅ v1 ip2 s2 -> Q' tt (World s2 e1)) ->
    wp (when (i_size ip1 <? off + n) (modify_inode ino (set_i_size (off + n)))) Q' (World s1 e1)) as (o2 & Hon2 & Hn2 & Hwp).
  { unfold ip2, resized. destruct (i_size ip1 <? off + n) eqn:E; cbn [when].
    - eexists. split; [apply onext_inode|]. split; [reflexivity|]. intros Q' HQ'. eapply tx_modify_inode; [exact Htx1|]. intros s2 Htx2. apply HQ'.
      split; try done; [|by destruct Hf1; split]. change (alter (set_i_size (off + n)) ino (k_inodes o1) !! ino = Some (set_i_size (off + n) ip1)).
      by rewrite list_lookup_alter_eq, Hip1.
    - exists o1. split; [apply onext_refl|]. split; [done|]. intros Q' HQ'. wp_step. by apply HQ'. }
  wp_step. apply Hwp. intros s2 Hs2.
  assert (i_inum ip2 = i_inum ip /\ i_size ip2 = Z.max (i_size ip) (off + n)) as [Enum Esize].
  { unfold ip2, resized. rewrite Eip1. cbn. destruct (Z.ltb_spec (i_size ip) (off + n)); cbn; (split; [done|lia]). }
  assert (iblock ip2 = iblock ip) as Eib by (unfold iblock; by rewrite Enum).
  wp_step. eapply (fs_iupdate m); [exact Hs2|unfold iblock_ok; by rewrite Eib| | |exact Hio1|].
  { eapply (room_next ino o _ 1 (6 * nb)); [by eapply onext_trans|lia|by eapply room_le; [|exact Hroom]; lia]. }
  { lia. }
  rewrite Eib, Enum. intros s3 e3 Hs3 Hio3. wp_step. rewrite s32_small by lia. destruct Hib as (Hib1 & Hib2 & Hib3).
  assert (inode_ok ip2) as Hok2.
  { destruct Hio_ok as [T1 T2 T3 T4 T5]. split; [..|rewrite Esize; lia]; unfold ip2, resized; rewrite Eip1; cbn; by destruct (i_size ip <? off + n). }
  pose proof (fs_file _ _ _ _ _ _ _ _ _ _ _ _ _ _ Hs2) as Hf2.
  eapply (HQ _ _ ip2); [exact Hs3| | | |exact Hok2| |exact Hio3].
  - eapply onext_trans; [exact Hon1|]. eapply onext_trans; [exact Hon2|apply onext_log].
  - pose proof (tx_log_n (iblock ip) o2). lia.
  - apply (written_file_of off bs v ip v1 ip1); try done; try lia.
    + destruct Hio_ok. lia.
    + by eapply txs_length.
  - eapply free_blocks_same; [exact Hfr1|]. intros c Hc. by apply used_meta.
Qed.

(** ** The contents of a file *)

Definition contents (v : Z -> list Z) (ip : inode) : list Z := file_bytes v ip 0 (Z.to_nat (i_size ip)).

(** The inode [ilock] would load from the blocks [u], and the contents it names. *)
Definition disk_inode (u : Z -> list Z) (inum : Z) : inode :=
  let b := u (IBLOCK inum sb) in let off := dinode_off inum in
  mkinode d inum 1 1 (dip_short off b) (dip_short (off + 2) b) (dip_short (off + 4) b) (dip_short (off + 6) b) (get_le 4 (off + 8) b) (dip_addrs off b).
Definition disk_contents (u : Z -> list Z) (inum : Z) : list Z := contents u (disk_inode u inum).

Lemma length_file_bytes v ip off len : length (file_bytes v ip off len) = len.
Proof. unfold file_bytes. by rewrite length_fmap, length_seq. Qed.

Lemma file_bytes_ext v ip v' ip' off (len : nat) : (forall p, off <= p < off + len -> fbyte v' ip' p = fbyte v ip p) -> file_bytes v' ip' off len = file_bytes v ip off len.
Proof. intros Hb. apply list_fmap_ext. intros k j [-> Hj]%lookup_seq. apply Hb. lia. Qed.

Lemma file_bytes_contents v ip (a len : nat) : Z.of_nat (a + len) <= i_size ip -> file_bytes v ip a len = take len (drop a (contents v ip)).
Proof.
  intros Hl. unfold contents. replace (Z.to_nat (i_size ip)) with (a + (len + (Z.to_nat (i_size ip) - a - len)))%nat by lia.
  rewrite !file_bytes_app, Z.add_0_l, drop_app_length' by (by rewrite length_file_bytes). by rewrite take_app_length' by (by rewrite length_file_bytes).
Qed.

Lemma readi_slice v ip off n : 0 <= off -> 0 <= n -> 0 <= i_size ip ->
  file_bytes v ip off (Z.to_nat (Z.min n (i_size ip - off))) = take (Z.to_nat n) (drop (Z.to_nat off) (contents v ip)).
Proof.
  intros Hoff Hn Hs. set (len := Z.to_nat (Z.min n (i_size ip - off))).
  assert (length (contents v ip) = Z.to_nat (i_size ip)) as El by apply length_file_bytes.
  destruct (decide (i_size ip <= off)) as [Hle|Hgt].
  - rewrite (drop_ge (contents v ip)), take_nil by lia. by replace len with 0%nat by lia.
  - replace off with (Z.of_nat (Z.to_nat off)) at 1 by lia. rewrite file_bytes_contents by lia. destruct (decide (n <= i_size ip - off)).
    + by replace len with (Z.to_nat n) by lia.
    + rewrite !take_ge; [done|rewrite length_drop; lia..].
Qed.

Lemma contents_written off bs v ip v' ip' : 0 <= off <= i_size ip -> written_file off bs v ip v' ip' ->
  contents v' ip' = patch (Z.to_nat off) bs (contents v ip).
Proof.
  intros Hoff [Hsize Hbytes Hrest _ _ _ _ _ _]. unfold patch. set (a := Z.to_nat off). assert (off = Z.of_nat a) as Ea by lia. rewrite Ea in *.
  assert (file_bytes v' ip' 0 a = take a (contents v ip)) as E1.
  { rewrite (file_bytes_ext v ip) by (intros p Hp; apply Hrest; lia). change 0 with (Z.of_nat 0). rewrite file_bytes_contents by lia. by rewrite drop_0. }
  unfold contents at 1. set (k := Z.to_nat (i_size ip' - a - length bs)).
  replace (Z.to_nat (i_size ip')) with (a + (length bs + k))%nat by lia. rewrite !file_bytes_app, Z.add_0_l, E1, Hbytes. f_equal. f_equal.
  destruct (decide (i_size ip <= a + length bs)) as [Hle|Hgt].
  - replace k with 0%nat by lia. symmetry. apply nil_length_inv. unfold contents. rewrite length_drop, length_file_bytes. lia.
  - rewrite (file_bytes_ext v ip) by (intros p Hp; apply Hrest; lia). replace (a + length bs) with (Z.of_nat (a + length bs)) by lia.
    rewrite file_bytes_contents by lia. apply take_ge. rewrite length_drop. unfold contents. rewrite length_file_bytes. lia.
Qed.

(** The contents depend on the blocks of the file only. *)
Lemma fbyte_ext u u' ip p : (forall n, own u ip n -> u' n = u n) -> fblock u ip (Z.to_nat (p / BSIZE)) <> 0 -> 0 <= p < MAXFILE * BSIZE ->
  fblock u' ip (Z.to_nat (p / BSIZE)) = fblock u ip (Z.to_nat (p / BSIZE)) /\ fbyte u' ip p = fbyte u ip p.
Proof.
  intros He Hb Hp. pose proof (block_of_byte p Hp) as Hk. unfold fbyte.
  assert (fblock u' ip (Z.to_nat (p / BSIZE)) = fblock u ip (Z.to_nat (p / BSIZE))) as E.
  { unfold fblock. destruct (_ <? _)%nat; [done|]. destruct (Z.eqb_spec (ind_block ip) 0) as [|Hi]; [done|]. rewrite He; [done|]. by split; [|left]. }
  rewrite E. split; [done|]. rewrite He; [done|]. split; [done|]. right. by eexists.
Qed.

Lemma contents_ext u u' ip : (forall n, own u ip n -> u' n = u n) -> no_holes u ip -> i_size ip <= MAXFILE * BSIZE -> contents u' ip = contents u ip.
Proof.
  intros He Hnh Hs. apply file_bytes_ext. intros p Hp. apply fbyte_ext; [done|apply Hnh; lia|lia].
Qed.

Lemma contents_fields u ip ip' : i_size ip' = i_size ip -> i_addrs ip' = i_addrs ip -> contents u ip' = contents u ip.
Proof. intros Es Ea. unfold contents. rewrite Es. apply file_bytes_ext. intros p _. unfold fbyte, fblock, ind_block. by rewrite Ea. Qed.

(** What is found on a disk that agrees with [u] outside the log. *)
Lemma disk_contents_home g u u' ip : lg_start g = ls -> lg_size g = lz -> (forall n, home g n -> u' n = u n) ->
  dinode_is (dinode_off (i_inum ip)) ip (u (iblock ip)) -> iblock_ok ip -> file_ok sb ds d u ip -> inode_ok ip -> no_holes u ip ->
  disk_contents u' (i_inum ip) = contents u ip.
Proof.
  intros Els Elz He (_ & _ & _ & _ & Es & Ea) (Hib & _ & Hlog) Hf Hok Hnh.
  assert (u' (iblock ip) = u (iblock ip)) as Ei by (apply He; split; [destruct Hgeom; lia|by rewrite Els, Elz]).
  unfold disk_contents. rewrite (contents_fields u' ip); [|unfold disk_inode; fold (iblock ip); by rewrite Ei..]. apply contents_ext; [|done|apply Hok].
  intros n Ho. apply He. apply (fo_own _ _ _ _ _ Hf) in Ho as [Hr _]. destruct Hgeom. split; [lia|rewrite Els, Elz; lia].
Qed.

(** ** Many files *)

Definition disjoint (v : Z -> list Z) (ip ip' : inode) : Prop := forall n, own v ip n -> ~ own v ip' n.

(** The files of a file system: well-formed, without holes, and no block belongs
    to two of them. *)
Record files_ok (v : Z -> list Z) (ips : list inode) : Prop := {
  fl_meta : meta_used sb ds v;
  fl_file : forall k ip, ips !! k = Some ip -> file_ok sb ds d v ip /\ inode_ok ip /\ no_holes v ip;
  fl_disjoint : forall k k' ip ip', ips !! k = Some ip -> ips !! k' = Some ip' -> k <> k' -> disjoint v ip ip'
}.

Section Other.
Context (off : Z) (bs : list Z) (v v' : Z -> list Z) (ip ip' : inode) (Hib : iblock_ok ip) (Hw : written_file off bs v ip v' ip').
Context (ip2 : inode) (Hf : file_ok sb ds d v ip2) (Hok : inode_ok ip2) (Hnh : no_holes v ip2) (Hdis : disjoint v ip2 ip).

(** The blocks of another file are not touched. *)
Lemma other_kept n : own v ip2 n -> v' n = v n.
Proof.
  intros Ho. pose proof (fo_own _ _ _ _ _ Hf n Ho) as Hu. apply (wf_other _ _ _ _ _ _ Hw); [|by right|by apply Hdis|destruct Hu, Hib; lia].
  intros Hbm%(bmap_below sb ls lz ds Hgeom). destruct Hu. lia.
Qed.

Lemma other_fblock k : fblock v' ip2 k = fblock v ip2 k.
Proof.
  unfold fblock. destruct (_ <? _)%nat; [done|]. destruct (Z.eqb_spec (ind_block ip2) 0) as [|Hi]; [done|]. rewrite other_kept; [done|]. by split; [|left].
Qed.

Lemma other_own n : own v' ip2 n <-> own v ip2 n.
Proof. unfold own. by setoid_rewrite other_fblock. Qed.

Lemma other_file : file_ok sb ds d v' ip2 /\ no_holes v' ip2 /\ contents v' ip2 = contents v ip2.
Proof.
  split_and!.
  - destruct Hf as [H1 H2 H3 H4 H5]. split; [done|done| | |].
    + intros n Ho%other_own%H3. pose proof (data_used_pos sb ls lz ds Hgeom v n Ho). destruct Ho as [? Hu]. split; [done|].
      apply (wf_used _ _ _ _ _ _ Hw); [lia|done].
    + intros k1 k2. rewrite !other_fblock. apply H4.
    + intros k1. rewrite other_fblock. apply H5.
  - intros p Hp. rewrite other_fblock. by apply Hnh.
  - apply contents_ext; [exact other_kept|done|apply Hok].
Qed.

Lemma other_disjoint : disjoint v' ip' ip2 /\ disjoint v' ip2 ip'.
Proof.
  assert (forall n, own v' ip' n -> own v' ip2 n -> False) as Hd.
  { intros n H1 H2%other_own. destruct (wf_own _ _ _ _ _ _ Hw n H1) as [Ho|[_ Hfree]]; [by apply (Hdis n)|].
    apply (fo_own _ _ _ _ _ Hf) in H2 as [_ Hu]. congruence. }
  split; intros n H1 H2; by eapply Hd.
Qed.
End Other.

Lemma files_ok_written off bs v v' ip ip' ips k : iblock_ok ip -> written_file off bs v ip v' ip' -> meta_used sb ds v' -> file_ok sb ds d v' ip' -> inode_ok ip' ->
  ips !! k = Some ip -> files_ok v ips ->
  files_ok v' (<[k := ip']> ips) /\ forall k' ip2, k' <> k -> ips !! k' = Some ip2 -> contents v' ip2 = contents v ip2.
Proof.
  intros Hib Hw Hm Hf' Hok' Hk [Hm0 Hfile Hdis]. pose proof (lookup_lt_Some _ _ _ Hk) as Hlt.
  assert (forall k' ip2, k' <> k -> ips !! k' = Some ip2 ->
    (file_ok sb ds d v' ip2 /\ no_holes v' ip2 /\ contents v' ip2 = contents v ip2) /\ (disjoint v' ip' ip2 /\ disjoint v' ip2 ip') /\ forall n, own v' ip2 n <-> own v ip2 n) as Hother.
  { intros k' ip2 Hne H2. destruct (Hfile _ _ H2) as (F1 & F2 & F3). assert (disjoint v ip2 ip) as HD by (by eapply Hdis).
    split; [by eapply other_file|]. split; [by eapply other_disjoint|by eapply other_own]. }
  split; [|intros k' ip2 Hne H2; by apply (Hother k')]. split; [done| |].
  - intros k1 ip1. destruct (decide (k1 = k)) as [->|Hne].
    + rewrite list_lookup_insert_eq by done. intros [= <-]. split_and!; [done|done|apply Hw].
    + rewrite list_lookup_insert_ne by done. intros H1. destruct (Hother k1 ip1 Hne H1) as [(? & ? & _) _]. split_and!; [done|by apply (Hfile k1)|done].
  - intros k1 k2 ip1 ip2. destruct (decide (k1 = k)) as [->|N1], (decide (k2 = k)) as [->|N2];
      rewrite ?list_lookup_insert_eq, ?list_lookup_insert_ne by done; [done|..].
    + intros [= <-] H2 _. by apply (Hother k2).
    + intros H1 [= <-] _. by apply (Hother k1).
    + intros H1 H2 Hne n O1 O2. apply (Hother k1) in O1; [|done..]. apply (Hother k2) in O2; [|done..]. by eapply (Hdis k1 k2).
Qed.

(** ** The theorems *)

(** A write that fits: the file, the transaction and the free blocks have room. *)
Record write_fits (o : kst) (v : Z -> list Z) (ip : inode) (off : Z) (n : Z) : Prop := {
  wt_n : 0 < n < 2147483648;
  wt_off : 0 <= off <= i_size ip;
  wt_max : off + n <= MAXFILE * BSIZE;
  wt_room : room (k_log o) (write_room off n);
  wt_buf : lg_n (k_log o) + write_room off n < NBUF;
  wt_free : free_blocks sb v (2 * nblocks off n)
}.

Lemma fs_writei_fits m dk ws o v ip off bs s e (Q : Z -> world kst -> Prop) :
  let n := Z.of_nat (length bs) in
  fstate d i ino sb ls lz ds dk ws o ∅ v ip s -> iblock_ok ip -> inode_ok ip -> no_holes v ip -> write_fits o v ip off n -> io_ready i (write_io off n + m) e ->
  (forall o' v' ip' s' e', fstate d i ino sb ls lz ds dk ws o' ∅ v' ip' s' -> onext ino o o' -> lg_n (k_log o') <= lg_n (k_log o) + write_room off n ->
     written_file off bs v ip v' ip' -> inode_ok ip' -> io_ready i m e' -> Q n (World s' e')) ->
  wp (writei ino (FromLocal bs) off n) Q (World s e).
Proof.
  intros n Hs Hib Hok Hnh [W1 W2 W3 W4 W5 W6] Hio HQ. eapply (fs_writei 0 m); [exact Hs|done..|by rewrite Nat.add_0_r|exact Hio|].
  intros o' v' ip' s' e' Hs' Hon Hn Hw Hok' _ Hio'. by apply (HQ o' v' ip').
Qed.

(** C4: a file is an array of bytes.  [writei] of [bs] at [off] writes all of
    it, and a [readi] of any range after it returns the range of the old contents
    overwritten (and extended) by [bs]. *)
Theorem write_read dk ws o v ip off bs off' n' s e :
  let n := Z.of_nat (length bs) in
  fstate d i ino sb ls lz ds dk ws o ∅ v ip s -> iblock_ok ip -> inode_ok ip -> no_holes v ip -> write_fits o v ip off n ->
  0 <= off' -> 0 <= n' < 2147483648 -> off' + n' < 4294967296 ->
  io_ready i (write_io off n + 2 * Z.to_nat (n' / BSIZE + 3)) e ->
  wp (r ← writei ino (FromLocal bs) off n; x ← readi ino ToLocal off' n'; mret (r, x))
    (fun y _ => let c := take (Z.to_nat n') (drop (Z.to_nat off') (patch (Z.to_nat off) bs (contents v ip))) in
       y = (n, (Z.of_nat (length c), c))) (World s e).
Proof.
  intros n Hs Hib Hok Hnh Hfit Hoff' Hn' Hov Hio. wp_step. eapply fs_writei_fits; [exact Hs|done..|exact Hio|]. fold n.
  intros o' v' ip' s' e' Hs' _ Hln Hw Hok' Hio'. wp_step. assert (MAXFILE * BSIZE = 274432) as EM by reflexivity.
  eapply (fs_readi d Hdev i ino sb ls lz ds Hgeom 0); [exact Hs'|done..|apply Hok'|destruct Hfit; lia|apply Hw|by rewrite Nat.add_0_r|].
  intros s2 e2 _ _ len. wp_step. pose proof (contents_written _ _ _ _ _ _ (wt_off _ _ _ _ _ Hfit) Hw) as Ec. rewrite <- Ec.
  cbv zeta. rewrite <- readi_slice by (destruct Hok'; lia). by rewrite length_file_bytes.
Qed.

(** C16: [writei] keeps the file system well formed.  When no block belongs to two
    files, every block of a file is marked in the bitmap and the metadata blocks
    are too, all of this holds after the write, the file has the bytes written
    and every other file has its old contents. *)
Theorem writei_files dk ws o v ip off bs s e ips k :
  let n := Z.of_nat (length bs) in
  fstate d i ino sb ls lz ds dk ws o ∅ v ip s -> iblock_ok ip -> write_fits o v ip off n -> files_ok v ips -> ips !! k = Some ip -> io_ready i (write_io off n) e ->
  wp (writei ino (FromLocal bs) off n) (fun r w => r = n /\ exists o' v' ip', fstate d i ino sb ls lz ds dk ws o' ∅ v' ip' (st w) /\
    files_ok v' (<[k := ip']> ips) /\ contents v' ip' = patch (Z.to_nat off) bs (contents v ip) /\
    forall k' ip2, k' <> k -> ips !! k' = Some ip2 -> contents v' ip2 = contents v ip2) (World s e).
Proof.
  intros n Hs Hib Hfit Hall Hk Hio. destruct (fl_file _ _ Hall k ip Hk) as (_ & Hok & Hnh).
  eapply (fs_writei_fits 0); [exact Hs|done..|by rewrite Nat.add_0_r|]. intros o' v' ip' s' e' Hs' _ _ Hw Hok' _. split; [done|]. exists o', v', ip'.
  destruct (files_ok_written off bs v v' ip ip' ips k) as [H1 H2]; [done|done|apply Hs'|apply Hs'|done..|]. split_and!; [done|done| |done].
  eapply contents_written; [apply Hfit|done].
Qed.

(** A mounted file system between operations, with the inode in memory as it is on
    the disk. *)
Record at_rest (dk : gmap Z (list Z)) (o : kst) (ip : inode) : Prop := {
  ar_geom : log_geom d (k_log o);
  ar_start : lg_start (k_log o) = ls;
  ar_size : lg_size (k_log o) = lz;
  ar_idle : lg_n (k_log o) = 0 /\ lg_outstanding (k_log o) = 0 /\ lg_committing (k_log o) = 0;
  ar_header : hdr_n (disk_block dk ls) = 0;
  ar_sb : k_sb o = sb;
  ar_ip : k_inodes o !! ino = Some ip;
  ar_meta : meta_used sb ds (disk_block dk);
  ar_file : file_ok sb ds d (disk_block dk) ip;
  ar_inode : inode_ok ip;
  ar_iblock : iblock_ok ip;
  ar_holes : no_holes (disk_block dk) ip;
  ar_disk : dinode_is (dinode_off (i_inum ip)) ip (disk_block dk (iblock ip))
}.

(** The start of an operation when no other runs. *)
Lemma tx_begin_op dk ws o s e (Q : unit -> world kst -> Prop) : cst d i o ∅ dk ws s -> log_geom d (k_log o) ->
  lg_n (k_log o) = 0 -> lg_outstanding (k_log o) = 0 -> lg_committing (k_log o) = 0 ->
  (forall s', txs d i dk ws (set_k_log (set_lg_outstanding 1 (k_log o)) o) ∅ (disk_block dk) s' -> Q tt (World s' e)) ->
  wp begin_op Q (World s e).
Proof.
  intros Hs R1 R4 R5 R6 HQ. eapply (wp_begin_op d i); [exact Hs|done|rewrite R4, R5; unfold LOGSIZE, MAXOPBLOCKS; lia|].
  rewrite R5. intros s' Hs'. apply HQ. eexists. split; [exact Hs'|].
  assert (listed (set_lg_outstanding 1 (k_log o)) = []) as El by (unfold listed; cbn; by rewrite R4).
  rewrite k_log_set.
  split; rewrite ?El; [by destruct R1; split|done|constructor|done| |done].
  intros n [Hn|[? Hn]]; [by apply not_elem_of_nil in Hn|by rewrite lookup_empty in Hn].
Qed.

Lemma fs_begin_op dk ws o ip s e (Q : unit -> world kst -> Prop) : cst d i o ∅ dk ws s -> at_rest dk o ip ->
  (forall s', let o' := set_k_log (set_lg_outstanding 1 (k_log o)) o in
     fstate d i ino sb ls lz ds dk ws o' ∅ (disk_block dk) ip s' -> Q tt (World s' e)) ->
  wp begin_op Q (World s e).
Proof.
  intros Hs [R1 R2 R3 (R4 & R5 & R6) R7 R8 R9 R10 R11 _ _ _ _] HQ. eapply tx_begin_op; [exact Hs|done..|]. intros s' Hs'. apply HQ. by split.
Qed.

(** C2: a write of a file is atomic with respect to crashes.  [begin_op], [writei]
    and [end_op] return with the new contents on the disk, as a reader of the
    on-disk inode finds them.  If the machine stops after any number [j] of the
    block writes and is started again, then after [recover_from_log] the file on
    the disk has the old contents or the new ones. *)
Theorem file_write_atomic dk ws o ip off bs s e :
  let n := Z.of_nat (length bs) in let old := contents (disk_block dk) ip in let new := patch (Z.to_nat off) bs old in
  let on_disk w := disk_contents (disk_block (k_disk (st w))) (i_inum ip) in
  cst d i o ∅ dk ws s -> at_rest dk o ip -> write_fits o (disk_block dk) ip off n ->
  io_ready i (write_io off n + (6 * Z.to_nat (write_room off n) + 4)) e ->
  wp (begin_op;; r ← writei ino (FromLocal bs) off n; end_op;; mret r)
    (fun r w' => r = n /\ on_disk w' = new /\ exists W, k_dwrites (st w') = rev W ++ ws /\
      forall (j : nat) ib ob sb' eb,
        cst d ib ob ∅ (written (take j W) dk) [] sb' -> log_geom d (k_log ob) -> lg_start (k_log ob) = ls -> lg_size (k_log ob) = lz ->
        io_ready ib (3 * LOGSIZE + 3) eb ->
        wp recover_from_log (fun _ wb => on_disk wb = old \/ on_disk wb = new) (World sb' eb)) (World s e).
Proof.
  intros n old new on_disk Hs Hrest Hfit Hio. pose proof Hrest as [R1 R2 R3 (R4 & R5 & R6) R7 R8 R9 R10 R11 R12 R13 R14 R15].
  assert (length (disk_block dk ls) = BSIZE) as Hlen by exact (cst_length _ _ _ _ _ _ _ ls Hs).
  wp_step. eapply fs_begin_op; [exact Hs|exact Hrest|]. intros s1 o1 Hs1. wp_step.
  eapply fs_writei_fits; [exact Hs1|done..|destruct Hfit as [W1 W2 W3 W4 W5 W6]; by split|exact Hio|]. fold n.
  intros o2 v2 ip2 s2 e2 Hs2 Hon Hln Hw Hok2 Hio2. pose proof (contents_written _ _ _ _ _ _ (wt_off _ _ _ _ _ Hfit) Hw) as Ec. fold old new in Ec.
  pose proof Hs2 as [Htx Esb Els Elz Hip Hm Hf2]. change (lg_n (k_log o1)) with (lg_n (k_log o)) in Hln.
  destruct (txs_commit d (dev_ne d Hdev) i _ _ _ _ _ Htx) as (a & Hc & Hg & Hok & Hafter); [destruct Hfit; lia|].
  assert (i_inum ip2 = i_inum ip) as Enum by (destruct (wf_fixed _ _ _ _ _ _ Hw) as (? & ? & ->); done).
  assert (forall u', (forall m, home (k_log o2) m -> u' m = v2 m) -> disk_contents u' (i_inum ip) = new) as Hnew.
  { intros u' Hu. rewrite <- Ec, <- Enum. eapply disk_contents_home; [exact Els|exact Elz|exact Hu| | |done|done|apply Hw].
    - unfold iblock. rewrite Enum. apply Hw.
    - unfold iblock_ok, iblock. by rewrite Enum. }
  assert (forall u', (forall m, home (k_log o2) m -> u' m = disk_block dk m) -> disk_contents u' (i_inum ip) = old) as Hold.
  { intros u' Hu. by eapply disk_contents_home. }
  wp_step. eapply (wp_end_op d ltac:(lia) i 0); [exact Hc|done|done| | | |].
  { rewrite (on_out _ _ _ Hon). done. }
  { rewrite (on_com _ _ _ Hon). exact R6. }
  { eapply io_ready_le; [|exact Hio2]. lia. }
  intros s3 e3 Hs3 _. wp_step. unfold on_disk. cbn [st]. rewrite (cst_disk _ _ _ _ _ _ _ Hs3), (cst_writes _ _ _ _ _ _ _ Hs3). rewrite <- Els in Hlen, R7.
  split_and!; [done| |].
  { apply Hnew. intros m Hm'. rewrite <- Hafter. by apply (tx_writes_final d). }
  eexists. split; [done|]. intros j ib ob sb' eb Hsb Hgb Eob Ezb Hiob.
  eapply wp_mono; [eapply (crash_recovers d ltac:(lia)); [exact Hg|exact Hok|exact R7|exact Hlen|exact Hsb|exact Hgb|congruence|congruence|exact Hiob]|].
  intros _ wb [Hb|Hb]; [left|right]; cbv beta in Hb.
  - by apply Hold.
  - apply Hnew. intros m Hm'. by rewrite Hb.
Qed.
End Write.

(** ** A small file system

    The layout mkfs gives to a disk of 2000 blocks, with an empty file (inode 2)
    and one of five bytes (inode 3) in block 46. *)

Definition demo_sb : superblock := mksb 0x10203040 2000 1954 200 30 2 32 45.
Definition demo_ip : inode := mkinode 1 2 1 1 2 0 0 1 0 (replicate 13 0).
Definition demo_ip3 : inode := mkinode 1 3 1 1 2 0 0 1 5 (46 :: replicate 12 0).
Definition demo_fs : gmap Z (list Z) :=
  <[32 := put_dinode 192 demo_ip3 (put_dinode 128 demo_ip (replicate BSIZE 0))]>
  (<[45 := replicate 5 255 ++ 127 :: replicate 1018 0]> (<[46 := [104; 101; 108; 108; 111] ++ replicate 1019 0]> ∅)).

Lemma demo_fs_length n : length (disk_block demo_fs n) = BSIZE.
Proof.
  unfold demo_fs, disk_block. rewrite !lookup_insert. destruct (decide (32 = n)); [vm_compute; reflexivity|]. destruct (decide (45 = n)); [vm_compute; reflexivity|].
  destruct (decide (46 = n)); [vm_compute; reflexivity|]. rewrite lookup_empty. apply length_replicate.
Qed.

Lemma demo_fs_geom : fs_geom demo_sb 2 30 46.
Proof. split; vm_compute; intuition congruence. Qed.

Lemma demo_meta : meta_used demo_sb 46 (disk_block demo_fs).
Proof.
  intros c Hc. assert (forallb (fun k : nat => used demo_sb (disk_block demo_fs) k) (seq 0 46) = true) as Hall by (vm_compute; reflexivity).
  rewrite forallb_forall in Hall. replace c with (Z.of_nat (Z.to_nat c)) by lia. apply Hall. apply in_seq. lia.
Qed.

Lemma demo_free : free_blocks demo_sb (disk_block demo_fs) 2.
Proof.
  exists [47; 48]. split_and!; [|done|].
  - apply NoDup_cons_2; [|apply NoDup_singleton]. by intros ?%list_elem_of_singleton.
  - repeat apply Forall_cons_2; [..|constructor]; split; try (cbn; lia); vm_compute; reflexivity.
Qed.

(** A file with at most one block. *)
Lemma small_file sb ds d v ip a : i_dev ip = d -> i_addrs ip = a :: replicate 12 0 -> (a <> 0 -> data_used sb ds v a) -> file_ok sb ds d v ip.
Proof.
  intros Hd Ha Hu. assert (ind_block ip = 0) as Ei by (unfold ind_block; by rewrite Ha).
  assert (forall k : nat, fblock v ip k = if decide (k = 0%nat) then a else 0) as Hk.
  { intros k. unfold fblock. rewrite Ei, Ha. destruct (Nat.ltb_spec k NDIRECT) as [Hlt|Hge].
    - destruct k as [|k]; [done|]. unfold NDIRECT in *. do 11 (destruct k as [|k]; [done|]). lia.
    - destruct k; [unfold NDIRECT in *; lia|done]. }
  split; [done|by rewrite Ha| | |].
  - intros n [Hn [->|(k & _ & <-)]]; [done|]. rewrite Hk in *. destruct (decide (k = 0%nat)); [by apply Hu|done].
  - intros k k' _ _. rewrite !Hk. destruct (decide (k = 0%nat)), (decide (k' = 0%nat)); naive_solver.
  - intros k _ Hb. by rewrite Ei.
Qed.

Lemma demo_used : data_used demo_sb 46 (disk_block demo_fs) 46.
Proof. split; [cbn; lia|vm_compute; reflexivity]. Qed.

Lemma demo_file : file_ok demo_sb 46 1 (disk_block demo_fs) demo_ip.
Proof. by apply (small_file _ _ _ _ _ 0). Qed.
Lemma demo_file3 : file_ok demo_sb 46 1 (disk_block demo_fs) demo_ip3.
Proof. apply (small_file _ _ _ _ _ 46); [done|done|]. intros _. exact demo_used. Qed.

Lemma demo_inode : inode_ok demo_ip /\ inode_ok demo_ip3.
Proof. split; split; vm_compute; (split; congruence). Qed.

Lemma demo_iblock : iblock_ok demo_sb 2 30 46 demo_ip.
Proof. unfold iblock_ok, bmap_block. change (iblock demo_sb demo_ip) with 32. change ((sb_size demo_sb - 1) / BPB) with 0. cbn. lia. Qed.

Lemma demo_disk_inode : dinode_is 128 demo_ip (disk_block demo_fs 32).
Proof. unfold dinode_is. split_and!; vm_compute; reflexivity. Qed.

#[local] Existing Instance ideal_disk.

(** The machine with this disk mounted and inode 2 in the inode table. *)
Definition kst_fs : kst := set_k_inodes [demo_ip] (set_k_sb demo_sb (kst_mounted demo_fs)).

Lemma cst_set_fs l sb d i o a dk ws s : cst d i o a dk ws s -> cst d i (set_k_inodes l (set_k_sb sb o)) a dk ws (set_k_inodes l (set_k_sb sb s)).
Proof. intros [Hc [m Hrel] Ho Hdk Hws]. split; [exact Hc|exists m; exact Hrel|by rewrite <- Ho|exact Hdk|exact Hws]. Qed.

Lemma kst_fs_rest : exists o, cst 1 0 o ∅ demo_fs [] kst_fs /\ at_rest 1 0 demo_sb 2 30 46 demo_fs o demo_ip /\ k_log o = demo_log.
Proof.
  destruct (kst_mounted_cst demo_fs demo_fs_length) as (o & Hs & Elog).
  exists (set_k_inodes [demo_ip] (set_k_sb demo_sb o)). split_and!.
  - by apply cst_set_fs.
  - assert (k_log (set_k_inodes [demo_ip] (set_k_sb demo_sb o)) = demo_log) as E by exact Elog. split; rewrite ?E; try done.
    + exact demo_meta.
    + exact demo_file.
    + exact demo_iblock.
    + intros p Hp. cbn in Hp. lia.
  - exact Elog.
Qed.

#[global] Opaque kst_fs.

Lemma demo_fits o g : k_log o = g -> lg_n g = 0 -> lg_size g = 30 -> write_fits demo_sb o (disk_block demo_fs) demo_ip 0 2.
Proof.
  intros Eg Hn Hz. assert (write_room 0 2 = 7) as Er by reflexivity.
  split; rewrite ?Er, ?Eg, ?Hn; try (cbn; lia).
  - vm_compute. congruence.
  - unfold room. rewrite Hn, Hz. unfold LOGSIZE. lia.
  - unfold NBUF. lia.
  - exact demo_free.
Qed.

Lemma file_write_atomic_witness :
  wp (begin_op;; r ← writei 0 (FromLocal [104; 105]) 0 2; end_op;; mret r)
    (fun r w' => r = 2 /\ disk_contents 1 demo_sb (disk_block (k_disk (st w'))) 2 = [104; 105]) (World kst_fs []).
Proof.
  destruct kst_fs_rest as (o & Hs & Hrest & Elog).
  eapply wp_mono; [apply (file_write_atomic 1 ltac:(lia) 0 0 demo_sb 2 30 46 demo_fs_geom demo_fs [] o demo_ip 0 [104; 105] kst_fs [] Hs Hrest)|].
  - by apply (demo_fits _ demo_log).
  - done.
  - intros r w' (Hr & Hnew & _). split; [exact Hr|]. cbv zeta in Hnew. exact Hnew.
Defined.

(** Inside an operation. *)
Definition kst_fs_tx : kst := final kst_fs (begin_op (World kst_fs [])).

Lemma kst_fs_tx_state : exists o, fstate 1 0 0 demo_sb 2 30 46 demo_fs [] o ∅ (disk_block demo_fs) demo_ip kst_fs_tx /\
  write_fits demo_sb o (disk_block demo_fs) demo_ip 0 2.
Proof.
  destruct kst_fs_rest as (o & Hs & Hrest & Elog). unfold kst_fs_tx.
  apply (wp_final begin_op (fun s => exists o, fstate 1 0 0 demo_sb 2 30 46 demo_fs [] o ∅ (disk_block demo_fs) demo_ip s /\
    write_fits demo_sb o (disk_block demo_fs) demo_ip 0 2)).
  eapply (fs_begin_op 1 0 0 demo_sb 2 30 46); [exact Hs|exact Hrest|]. intros s' o' Hs'. exists o'. split; [exact Hs'|].
  apply (demo_fits _ (set_lg_outstanding 1 demo_log)); [unfold o'; by rewrite k_log_set, Elog|done|done].
Qed.

#[global] Opaque kst_fs_tx.

Lemma write_read_witness :
  wp (r ← writei 0 (FromLocal [104; 105]) 0 2; x ← readi 0 ToLocal 1 10; mret (r, x)) (fun y _ => y = (2, (1, [105]))) (World kst_fs_tx []).
Proof.
  destruct kst_fs_tx_state as (o & Hs & Hfit).
  eapply wp_mono; [apply (write_read 1 ltac:(lia) 0 0 demo_sb 2 30 46 demo_fs_geom demo_fs [] o (disk_block demo_fs) demo_ip 0 [104; 105] 1 10 kst_fs_tx []); try done; try lia|].
  - exact demo_iblock.
  - intros p Hp. cbn in Hp. lia.
  - intros y w Hy. exact Hy.
Defined.

Lemma demo_files : files_ok 1 demo_sb 46 (disk_block demo_fs) [demo_ip; demo_ip3].
Proof.
  assert (forall n, ~ own (disk_block demo_fs) demo_ip n) as Hno.
  { intros n Ho. pose proof (fo_own _ _ _ _ _ demo_file n Ho) as [Hr _]. destruct Ho as [_ [->|(k & _ & <-)]]; [cbn in Hr; lia|].
    revert Hr. unfold fblock. destruct (k <? NDIRECT)%nat; [|cbn; lia]. rewrite nth_lookup. cbn [demo_ip i_addrs]. destruct (replicate 13 0 !! k) eqn:E; cbn; [|lia].
    apply lookup_replicate in E as [-> _]. lia. }
  split; [exact demo_meta| |].
  - intros [|[|]] ip [= <-]; split_and!; try apply demo_inode; [exact demo_file| |exact demo_file3|]; intros p Hp; [cbn in Hp; lia|].
    assert (p / BSIZE = 0) as -> by (apply Z.div_small; cbn in Hp; unfold BSIZE; lia). by cbn.
  - intros [|[|]] [|[|]] ip ip' [= <-] [= <-] Hne n; [done|intros Ho; by destruct (Hno n)|intros _; apply Hno|done].
Qed.

Lemma writei_files_witness :
  wp (writei 0 (FromLocal [104; 105]) 0 2) (fun r w => r = 2 /\ exists v' ip', files_ok 1 demo_sb 46 v' [ip'; demo_ip3] /\
    contents v' ip' = [104; 105] /\ contents v' demo_ip3 = [104; 101; 108; 108; 111]) (World kst_fs_tx []).
Proof.
  destruct kst_fs_tx_state as (o & Hs & Hfit).
  eapply wp_mono; [apply (writei_files 1 ltac:(lia) 0 0 demo_sb 2 30 46 demo_fs_geom demo_fs [] o (disk_block demo_fs) demo_ip 0 [104; 105] kst_fs_tx [] [demo_ip; demo_ip3] 0 Hs
    demo_iblock Hfit demo_files eq_refl); done|].
  intros r w (Hr & o' & v' & ip' & _ & Hall & Hnew & Hother). split; [exact Hr|]. exists v', ip'. split; [exact Hall|]. split; [exact Hnew|].
  rewrite (Hother 1%nat demo_ip3); [vm_compute; reflexivity|done|done].
Defined.
