(* ===== verification/FsDir.v ===== *)
(** * kernel/fs.c: directories

    A directory is a file of 16-byte entries.  Seen through its contents it is a
    finite map from names to inode numbers, which [dirlookup] reads and [dirlink]
    extends. *)

From S2P Require Import Prelude KString State Spinlock Norm Printf Sched Sleeplock Vm Proc Bio LruList Cache CacheSpec Blocks Log LogSpec LogTx FsTx Fs FsAlloc FsFile FsWrite.

(** ** Names *)

(** The bytes before the first NUL. *)
Fixpoint cut (l : list Z) : list Z :=
  match l with
  | [] => []
  | c :: l => if c =? 0 then [] else c :: cut l
  end.

(** The name that an array of bytes stands for: at most [DIRSIZ] of them. *)
Definition fname (l : list Z) : list Z := cut ((fun c => c mod 256) <$> take DIRSIZ l).

Lemma cpre_cut (k : nat) m a (l : list Z) : (forall j : nat, (j < k)%nat -> m.[a + j] = default 0 (l !! j) mod 256) ->
  cpre k m a = cut ((fun c => c mod 256) <$> take k l).
Proof.
  revert a l. induction k as [|k IH]; intros a l Hm; [done|]. pose proof (Hm 0%nat ltac:(lia)) as H0. rewrite Z.add_0_r in H0. cbn [cpre]. rewrite H0.
  destruct l as [|c l]; [done|]. cbn. destruct (c mod 256 =? 0); [done|]. f_equal. apply IH. intros j Hj. specialize (Hm (S j) ltac:(lia)).
  rewrite <- Z.add_assoc. replace (1 + j) with (Z.of_nat (S j)) by lia. exact Hm.
Qed.

Lemma rd_empty a : (∅ : gmap Z Z).[a] = 0.
Proof. done. Qed.

(** The two arrays as the string routines see them. *)
Lemma names_mem s t (j : nat) : (length s <= 4096)%nat ->
  let m := wr_bytes (wr_bytes ∅ 0 s) 4096 t in
  ((j < DIRSIZ)%nat -> m.[0 + j] = default 0 (s !! j) mod 256) /\ m.[4096 + j] = default 0 (t !! j) mod 256.
Proof.
  intros Hs m. unfold m. rewrite !rd_wr_bytes, !rd_empty. split; [intros Hj|]; unfold DIRSIZ in *.
  - rewrite decide_False by lia. case_decide; [by replace (Z.to_nat (0 + j - 0)) with j by lia|]. rewrite lookup_ge_None_2 by lia. done.
  - rewrite (decide_False (P := 0 <= 4096 + j < _)) by lia. case_decide; [by replace (Z.to_nat (4096 + j - 4096)) with j by lia|].
    rewrite lookup_ge_None_2 by lia. done.
Qed.

(** [namecmp] compares the names two arrays stand for. *)
Lemma namecmp_spec s t : (length s <= 4096)%nat -> namecmp s t = 0 <-> fname s = fname t.
Proof.
  intros Hs. unfold namecmp, strncmp_bytes, fname. set (m := wr_bytes _ _ _). change (Z.of_nat DIRSIZ) with 14.
  destruct (strncmp_spec m 0 4096 14 ltac:(lia)) as [_ ->]. change (Z.to_nat 14) with DIRSIZ.
  rewrite (cpre_cut DIRSIZ m 0 s), (cpre_cut DIRSIZ m 4096 t); [done|..]; intros j Hj; by apply names_mem.
Qed.

Lemma bytes_at_lookup m a l (j : nat) x : bytes_at m a l -> l !! j = Some x -> m.[a + j] = x.
Proof.
  revert a j. induction l as [|c l IH]; intros a j Hb Hj; [done|]. destruct Hb as [Hc Hb]. destruct j as [|j]; [cbn in Hj; simplify_eq; by rewrite Z.add_0_r|].
  cbn in Hj. rewrite <- (IH (a + 1) j Hb Hj). f_equal. lia.
Qed.

Lemma cut_length l : (length (cut l) <= length l)%nat.
Proof. induction l as [|c l IH]; [done|]. cbn. destruct (c =? 0); cbn; lia. Qed.

Lemma cut_nonzero l : Forall (fun c => c <> 0) (cut l).
Proof. induction l as [|c l IH]; [constructor|]. cbn. destruct (c =? 0) eqn:E; bool_facts; by constructor. Qed.

Lemma cut_pad l k : Forall (fun c => c <> 0) l -> cut (l ++ replicate k 0) = l.
Proof. induction 1 as [|c l Hc Hl IH]; cbn; [by destruct k|]. rewrite (proj2 (Z.eqb_neq c 0) Hc). by f_equal. Qed.

Lemma cut_bytes l : Forall (fun c => 0 <= c < 256) l -> Forall (fun c => 0 <= c < 256) (cut l).
Proof. induction 1 as [|c l Hc Hl IH]; [constructor|]. cbn. destruct (c =? 0); by constructor. Qed.

Lemma fname_bytes l : Forall (fun c => 0 <= c < 256) (fname l).
Proof. apply cut_bytes, Forall_fmap, list.Forall_true. intros c. cbn. apply Z.mod_pos_bound. lia. Qed.

Lemma fname_length l : (length (fname l) <= DIRSIZ)%nat.
Proof. unfold fname. etransitivity; [apply cut_length|]. rewrite length_fmap, length_take. lia. Qed.

(** [strncpy] into the name field: the name, padded with NULs. *)
Lemma strncpy_name name : strncpy_bytes (replicate DIRSIZ 0) name DIRSIZ = fname name ++ replicate (DIRSIZ - length (fname name)) 0.
Proof.
  unfold strncpy_bytes. set (m := wr_bytes _ 4096 name). rewrite length_replicate. change (Z.of_nat DIRSIZ) with 14.
  destruct (strncpy_spec m 0 4096 14 ltac:(lia) ltac:(lia)) as (H1 & H2 & _). change (Z.to_nat 14) with DIRSIZ in *.
  rewrite (cpre_cut DIRSIZ m 4096 name) in H1, H2 by (intros j Hj; apply names_mem; rewrite length_replicate; unfold DIRSIZ; lia). fold (fname name) in H1, H2.
  pose proof (fname_length name) as Hl. apply list_eq. intros j. destruct (decide (j < DIRSIZ)%nat) as [Hj|Hj].
  - rewrite lookup_rd_bytes by done. destruct (decide (j < length (fname name))%nat) as [Hn|Hn].
    + rewrite lookup_app_l by done. destruct (lookup_lt_is_Some_2 _ _ Hn) as [x Hx]. rewrite Hx. f_equal. by apply (bytes_at_lookup _ _ _ _ _ H1).
    + rewrite lookup_app_r by lia. rewrite lookup_replicate_2 by lia. f_equal. apply H2. unfold DIRSIZ in *. lia.
  - rewrite !lookup_ge_None_2; [done|rewrite length_app, length_replicate; lia|rewrite length_rd_bytes; lia].
Qed.

Lemma fname_padded name : fname (fname name ++ replicate (DIRSIZ - length (fname name)) 0) = fname name.
Proof.
  pose proof (fname_length name) as Hl. unfold fname at 1. rewrite take_ge by (rewrite length_app, length_replicate; lia).
  rewrite fmap_app, fmap_replicate. change (0 mod 256) with 0. replace ((fun c => c mod 256) <$> fname name) with (fname name); [apply cut_pad, cut_nonzero|].
  symmetry. rewrite <- list_fmap_id. apply Forall_fmap_ext_1. eapply list.Forall_impl; [apply fname_bytes|]. intros c Hc. by apply Z.mod_small.
Qed.

(** ** A directory as a map *)

(** Entry [k] of a directory with contents [c]: inode number and name. *)
Definition dirent_at (c : list Z) (k : nat) : Z * list Z :=
  let de := take 16 (drop (16 * k) c) in (de_inum de, fname (de_name de)).
Definition dirents (c : list Z) : list (Z * list Z) := dirent_at c <$> seq 0 (length c / 16).

(** An entry in use with name [nm]. *)
Definition names (nm : list Z) (e : Z * list Z) : Prop := fst e <> 0 /\ snd e = nm.
#[export] Instance names_dec nm e : Decision (names nm e) := _.

(** The first such entry, with its index; the inode number it gives. *)
Definition dir_find (nm : list Z) (es : list (Z * list Z)) : option (nat * (Z * list Z)) := list_find (names nm) es.
Definition dir_get (es : list (Z * list Z)) (nm : list Z) : option Z := (fun x => fst (snd x)) <$> dir_find nm es.

Lemma length_dirents c : length (dirents c) = (length c / 16)%nat.
Proof. unfold dirents. by rewrite length_fmap, length_seq. Qed.

Lemma dirents_lookup c (k : nat) : (k < length c / 16)%nat -> dirents c !! k = Some (dirent_at c k).
Proof. intros Hk. unfold dirents. by rewrite list_lookup_fmap, lookup_seq_lt. Qed.

(** The search, entry by entry. *)
Lemma list_find_drop nm (es : list (Z * list Z)) (k : nat) x : es !! k = Some x ->
  list_find (names nm) (drop k es) = if decide (names nm x) then Some (0%nat, x) else prod_map S id <$> list_find (names nm) (drop (S k) es).
Proof. intros Hx. by rewrite (drop_S _ _ _ Hx). Qed.

(** The first entry not in use, or the end of the directory. *)
Definition dir_slot (es : list (Z * list Z)) : nat := default (length es) (fst <$> list_find (fun e => fst e = 0) es).
(** The directory with entry [e] there. *)
Definition dir_put (k : nat) (e : Z * list Z) (es : list (Z * list Z)) : list (Z * list Z) := take k es ++ [e] ++ drop (S k) es.

Lemma dir_slot_le es : (dir_slot es <= length es)%nat.
Proof. unfold dir_slot. destruct (list_find _ es) as [[k x]|] eqn:E; cbn; [|done]. apply list_find_Some in E as (Hk & _). apply lookup_lt_Some in Hk. lia. Qed.

Lemma dir_slot_cons x es : dir_slot (x :: es) = if decide (fst x = 0) then 0%nat else S (dir_slot es).
Proof. unfold dir_slot. cbn [list_find]. destruct (decide (fst x = 0)); [done|]. by destruct (list_find _ es) as [[p y]|]. Qed.

Lemma list_find_append nm (a b : list (Z * list Z)) : list_find (names nm) (a ++ b) =
  match list_find (names nm) a with Some x => Some x | None => prod_map (Nat.add (length a)) id <$> list_find (names nm) b end.
Proof.
  induction a as [|x a IH]; cbn; [by destruct (list_find _ b) as [[]|]|]. destruct (decide (names nm x)); [done|]. rewrite IH.
  destruct (list_find _ a) as [[]|]; [done|]. by destruct (list_find _ b) as [[]|].
Qed.

(** Adding a name that was not there is insertion into the map. *)
Lemma dir_get_put es nm inum nm' : dir_get es nm = None -> inum <> 0 ->
  dir_get (dir_put (dir_slot es) (inum, nm) es) nm' = if decide (nm' = nm) then Some inum else dir_get es nm'.
Proof.
  intros Hnone Hi. unfold dir_get, dir_find, dir_put, dir_slot in *.
  assert (forall es0, list_find (names nm) (take es0 es) = None) as Htake.
  { intros k. apply (list_find_None (names nm)), Forall_take, (list_find_None (names nm)). by destruct (list_find (names nm) es). }
  destruct (list_find (fun e => fst e = 0) es) as [[k x]|] eqn:E; cbn [default fst fmap option_fmap option_map from_option id].
  - apply list_find_Some in E as (Hk & Hx & _). assert (list_find (names nm') es = list_find (names nm') (take k es ++ x :: drop (S k) es)) as -> by (by rewrite take_drop_middle).
    cbn [app]. rewrite !list_find_append.
    destruct (decide (nm' = nm)) as [->|Hne].
    + rewrite Htake. cbn. rewrite decide_True by done. done.
    + destruct (list_find (names nm') (take k es)); [done|]. cbn. rewrite !decide_False by (by intros [? ?]; cbn in *; congruence). done.
  - rewrite take_ge, drop_ge by lia. rewrite list_find_append. destruct (decide (nm' = nm)) as [->|Hne].
    + destruct (list_find (names nm) es); [done|]. cbn. by rewrite decide_True.
    + destruct (list_find (names nm') es); [done|]. cbn. by rewrite decide_False by (by intros [? ?]; cbn in *; congruence).
Qed.

(** The bytes [dirlink] writes, as an entry. *)
Definition dirent_bytes (name : list Z) (inum : Z) : list Z := le_bytes 2 (u16 inum) ++ strncpy_bytes (replicate DIRSIZ 0) name DIRSIZ.

Lemma length_dirent_bytes name inum : length (dirent_bytes name inum) = 16%nat.
Proof. unfold dirent_bytes. rewrite strncpy_name, !length_app, length_le_bytes, length_replicate. pose proof (fname_length name). unfold DIRSIZ in *. lia. Qed.

Lemma dirent_bytes_fields name inum : 0 <= inum < 65536 -> let de := dirent_bytes name inum in (de_inum de, fname (de_name de)) = (inum, fname name).
Proof.
  intros Hi de. unfold de, dirent_bytes, de_inum, de_name, get_le. rewrite drop_0, take_app_length' by (by rewrite length_le_bytes).
  rewrite drop_app_length' by (by rewrite length_le_bytes). rewrite le_val_bytes. f_equal.
  - rewrite Z.mod_small; unfold u16; rewrite Z.mod_small by lia; [done|cbn; lia].
  - rewrite strncpy_name, take_ge; [apply fname_padded|]. rewrite length_app, length_replicate. pose proof (fname_length name). lia.
Qed.

Lemma dirents_app (n : nat) a b : length a = (16 * n)%nat -> dirents (a ++ b) = dirents a ++ dirents b.
Proof.
  intros Ha. unfold dirents. assert (length a / 16 = n)%nat as En by (rewrite Ha, Nat.mul_comm; by apply Nat.div_mul).
  assert (length (a ++ b) / 16 = n + length b / 16)%nat as El by (rewrite length_app, Ha, Nat.mul_comm, Nat.add_comm, Nat.div_add by done; lia).
  rewrite El, En, seq_app, fmap_app. f_equal.
  - apply list_fmap_ext. intros k q [-> Hk]%lookup_seq. unfold dirent_at. rewrite Nat.add_0_l, drop_app_le, take_app_le by (rewrite ?length_drop; lia). done.
  - replace (seq (0 + n) (length b / 16)) with (Nat.add n <$> seq 0 (length b / 16)) by (by rewrite fmap_add_seq, Nat.add_0_r).
    rewrite <- list_fmap_compose. apply list_fmap_ext. intros k q [-> Hk]%lookup_seq. unfold dirent_at. cbn [compose].
    rewrite drop_app_ge by lia. by replace (16 * (n + (0 + k)) - length a)%nat with (16 * (0 + k))%nat by lia.
Qed.

Lemma dirents_take c (k : nat) : (16 * k <= length c)%nat -> dirents (take (16 * k) c) = take k (dirents c) /\ dirents (drop (16 * k) c) = drop k (dirents c).
Proof.
  intros Hk. assert (length (take (16 * k) c) = 16 * k)%nat as Hl by (rewrite length_take; lia).
  assert (length (dirents (take (16 * k) c)) = k) as Hd by (rewrite length_dirents, Hl, Nat.mul_comm; by apply Nat.div_mul).
  assert (dirents c = dirents (take (16 * k) c) ++ dirents (drop (16 * k) c)) as -> by (rewrite <- (dirents_app k), take_drop by done; done).
  by rewrite take_app_length', drop_app_length'.
Qed.

Lemma dirents_one de : length de = 16%nat -> dirents de = [(de_inum de, fname (de_name de))].
Proof. intros Hde. unfold dirents. rewrite Hde. cbn. unfold dirent_at. by rewrite Nat.mul_0_r, drop_0, take_ge by lia. Qed.

(** Writing an entry over entry [k], or behind the last one. *)
Lemma dirents_patch c (n k : nat) de : length c = (16 * n)%nat -> (k <= n)%nat -> length de = 16%nat ->
  dirents (patch (16 * k) de c) = dir_put k (de_inum de, fname (de_name de)) (dirents c).
Proof.
  intros Hc Hk Hde. unfold patch, dir_put. rewrite Hde, (dirents_app k), (dirents_app 1) by (rewrite ?length_take; lia). destruct (dirents_take c k) as [-> _]; [lia|]. f_equal.
  rewrite (dirents_one de Hde). f_equal. replace (16 * k + 16)%nat with (16 * S k)%nat by lia. destruct (decide (k = n)) as [->|Hne]; [|apply dirents_take; lia].
  rewrite !drop_ge; [done| |lia]. rewrite length_dirents, Hc, Nat.mul_comm, Nat.div_mul; lia.
Qed.

(** ** The inode table *)

(** The entry [iget] returns and the table it leaves: a reference more on the
    entry of the inode, or a free entry for it whose contents are not loaded. *)
Definition iget_tbl (tbl : list inode) (dev inum : Z) : option (nat * list inode) :=
  match iget_find tbl 0 dev inum None with
  | inl j => Some (j, alter (fun ip => set_i_ref (i_ref ip + 1) ip) j tbl)
  | inr (Some j) => Some (j, alter (fun ip => set_i_valid 0 (set_i_ref 1 (set_i_inum inum (set_i_dev dev ip)))) j tbl)
  | inr None => None
  end.

Lemma iget_find_spec tbl k dev inum em :
  match iget_find tbl k dev inum em with
  | inl j => exists p ip, j = (k + p)%nat /\ tbl !! p = Some ip /\ 0 < i_ref ip /\ i_dev ip = dev /\ i_inum ip = inum
  | inr (Some j) => em = Some j \/ exists p ip, j = (k + p)%nat /\ tbl !! p = Some ip /\ i_ref ip = 0
  | inr None => True
  end.
Proof.
  revert k em. induction tbl as [|ip tbl IH]; intros k em; cbn [iget_find]; [destruct em; [by left|done]|].
  destruct ((0 <? i_ref ip) && (i_dev ip =? dev) && (i_inum ip =? inum)) eqn:E.
  { apply andb_true_iff in E as [[? ?]%andb_true_iff ?]. bool_facts. exists 0%nat, ip. split_and!; [lia|done|done|done|done]. }
  set (em' := match em with None => _ | Some _ => em end). specialize (IH (S k) em'). destruct (iget_find tbl (S k) dev inum em') as [j|[j|]]; [|destruct IH as [IH|IH]|done].
  - destruct IH as (p & ip' & -> & Hp & Hr). exists (S p), ip'. split; [lia|done].
  - unfold em' in IH. destruct em as [e|]; [by left|]. destruct (i_ref ip =? 0) eqn:Er; [|done]. bool_facts. simplify_eq. right. exists 0%nat, ip. split; [lia|done].
  - right. destruct IH as (p & ip' & -> & Hp & Hr). exists (S p), ip'. split; [lia|done].
Qed.

Lemma alter_twice (f g : inode -> inode) j (l : list inode) : alter f j (alter g j l) = alter (f ∘ g) j l.
Proof. revert j. induction l as [|x l IH]; intros [|j]; [done..|]. cbn. f_equal. apply IH. Qed.

(** What [iget] returns: an entry for the inode, with one reference more than
    before or with the first one.  The other entries are left alone. *)
Lemma iget_tbl_spec tbl dev inum j tbl' : iget_tbl tbl dev inum = Some (j, tbl') ->
  exists ip ip', tbl !! j = Some ip /\ tbl' = <[j := ip']> tbl /\ i_dev ip' = dev /\ i_inum ip' = inum /\ i_ref ip' = i_ref ip + 1 /\
    ((0 < i_ref ip /\ ip' = set_i_ref (i_ref ip + 1) ip) \/ (i_ref ip = 0 /\ i_valid ip' = 0)).
Proof.
  unfold iget_tbl. pose proof (iget_find_spec tbl 0 dev inum None) as Hf. destruct (iget_find tbl 0 dev inum None) as [k|[k|]]; [| |done]; intros [= <- <-].
  - destruct Hf as (p & ip & -> & Hp & Hr & Hd & Hn). exists ip, (set_i_ref (i_ref ip + 1) ip). cbn in *. split_and!; [done|by rewrite (alter_insert _ _ _ _ Hp)|done|done|done|by left].
  - destruct Hf as [?|(p & ip & -> & Hp & Hr)]; [done|]. cbn in *. eexists ip, _. split_and!; [done|by rewrite (alter_insert _ _ _ _ Hp)|done|done|cbn; lia|by right].
Qed.

Section Dir.
Context `{DiskDriverOk} (d : Z) (Hdev : 0 < d < 2147483648) (i : nat) (ino : nat).
Context (sb : superblock) (ls lz ds : Z) (Hgeom : fs_geom sb ls lz ds).

(** A critical section of [L_itable] that updates the table. *)
Lemma tx_itable_section l dk ws o h v s e (Q : unit -> world kst -> Prop) : txs d i dk ws o h v s ->
  (forall s', txs d i dk ws (set_k_inodes l o) h v s' -> Q tt (World s' e)) -> wp (release L_itable) Q (World (set_k_inodes l (acquired L_itable s)) e).
Proof.
  intros Hs HQ. apply (wp_release_calm i L_itable (set_k_inodes l)); [inert_tac|by eapply txs_calm|]. apply HQ, txs_set_inodes, txs_settle, Hs.
Qed.

Lemma fs_iget dev inum j tbl' dk ws o h v s e (Q : nat -> world kst -> Prop) : txs d i dk ws o h v s -> iget_tbl (k_inodes o) dev inum = Some (j, tbl') ->
  (forall s', txs d i dk ws (set_k_inodes tbl' o) h v s' -> Q j (World s' e)) -> wp (iget dev inum) Q (World s e).
Proof.
  intros Hs Ht HQ. unfold iget. wp_step. apply wp_acquire; [eapply calm_lock_free; by eapply txs_calm|]. cbn [st env]. do 2 wp_step. cbn [st].
  change (k_inodes (acquired L_itable s)) with (k_inodes s). rewrite (txs_inodes _ _ _ _ _ _ _ _ Hs). unfold iget_tbl in Ht.
  assert (wp (release L_itable;; mret j) Q (World (set_k_inodes tbl' (acquired L_itable s)) e)) as Hend.
  { wp_step. eapply tx_itable_section; [exact Hs|]. intros s' Hs'. wp_step. by apply HQ. }
  unfold modify_inode. destruct (iget_find (k_inodes o) 0 dev inum None) as [k|[k|]]; [| |done]; injection Ht as -> <-.
  - wp_step. wp_step. cbn [st env]. change (k_inodes (acquired L_itable s)) with (k_inodes s). by rewrite (txs_inodes _ _ _ _ _ _ _ _ Hs).
  - do 8 wp_step. cbn [st env]. match goal with |- wp _ _ (World ?x _) => replace x with (set_k_inodes
      (alter (fun ip => set_i_valid 0 (set_i_ref 1 (set_i_inum inum (set_i_dev dev ip)))) j (k_inodes o)) (acquired L_itable s)); [exact Hend|] end.
    rewrite <- (txs_inodes _ _ _ _ _ _ _ _ Hs).
    change (set_k_inodes (alter (set_i_valid 0 ∘ (set_i_ref 1 ∘ (set_i_inum inum ∘ set_i_dev dev))) j (k_inodes s)) (acquired L_itable s) =
      set_k_inodes (alter (set_i_valid 0) j (alter (set_i_ref 1) j (alter (set_i_inum inum) j (alter (set_i_dev dev) j (k_inodes s))))) (acquired L_itable s)).
    by rewrite !alter_twice.
Qed.

(** ** [dirlookup] *)

(** A directory: a file of whole entries. *)
Record dir_ok (v : Z -> list Z) (ip : inode) : Prop := {
  do_type : i_type ip = T_DIR;
  do_size : i_size ip mod 16 = 0;
  do_inode : inode_ok ip;
  do_holes : no_holes v ip
}.

Lemma dir_length v ip : dir_ok v ip -> Z.of_nat (length (contents v ip)) = i_size ip /\ i_size ip = 16 * length (dirents (contents v ip)).
Proof.
  intros [_ Hm [_ _ _ _ Hs] _]. assert (length (contents v ip) = Z.to_nat (i_size ip)) as El by apply length_file_bytes. rewrite length_dirents, El.
  split; [lia|]. rewrite Nat2Z.inj_div, Z2Nat.id by lia. change (Z.of_nat 16) with 16. Z.div_mod_to_equations. lia.
Qed.

Lemma fs_read_dirent (k : nat) msg m dk ws o v ip s e (Q : list Z -> world kst -> Prop) :
  fstate d i ino sb ls lz ds dk ws o ∅ v ip s -> dir_ok v ip -> (k < length (dirents (contents v ip)))%nat -> lg_n (k_log o) < NBUF -> io_ready i (6 + m) e ->
  (forall s' e', fstate d i ino sb ls lz ds dk ws o ∅ v ip s' -> io_ready i m e' -> Q (take 16 (drop (16 * k) (contents v ip))) (World s' e')) ->
  wp (read_dirent ino (16 * k) msg) Q (World s e).
Proof.
  intros Hs Hd Hk Hbuf Hio HQ. destruct (dir_length v ip Hd) as [El Es]. pose proof Hd as [_ _ [_ _ _ _ Hsz] Hnh]. assert (MAXFILE * BSIZE = 274432) as EM by reflexivity.
  unfold read_dirent. wp_step. change sizeof_dirent with 16. eapply (fs_readi d Hdev i ino sb ls lz ds Hgeom m); [exact Hs|lia|lia|lia|lia|done|done|exact Hio|].
  intros s' e' Hs' Hio' len. unfold len. rewrite readi_slice by lia. replace (Z.of_nat (Z.to_nat (Z.min 16 (i_size ip - 16 * k)))) with 16 by lia.
  cbn [fst snd]. rewrite Z.eqb_refl. cbn [negb]. wp_step. replace (Z.to_nat (16 * k)) with (16 * k)%nat by lia. by apply HQ.
Qed.

Lemma fs_dirlookup_loop (fuel k : nat) m name dk ws o v ip s e (Q : option (nat * Z) -> world kst -> Prop) :
  let es := dirents (contents v ip) in
  fstate d i ino sb ls lz ds dk ws o ∅ v ip s -> dir_ok v ip -> (length name <= 4096)%nat -> lg_n (k_log o) < NBUF ->
  (k <= length es < fuel + k)%nat -> io_ready i (6 * (length es - k) + m) e ->
  match list_find (names (fname name)) (drop k es) with
  | None => forall s' e', fstate d i ino sb ls lz ds dk ws o ∅ v ip s' -> io_ready i m e' -> Q None (World s' e')
  | Some (p, x) => exists j tbl', iget_tbl (k_inodes o) d (fst x) = Some (j, tbl') /\
      forall s' e', txs d i dk ws (set_k_inodes tbl' o) ∅ v s' -> io_ready i m e' -> Q (Some (j, 16 * Z.of_nat (k + p))) (World s' e')
  end ->
  wp (dirlookup_loop fuel ino name (16 * k)) Q (World s e).
Proof.
  intros es. revert k s e. induction fuel as [|fuel IH]; intros k s e Hs Hd Hl Hbuf Hk Hio HQ; [lia|]. cbn [dirlookup_loop].
  destruct (dir_length v ip Hd) as [El Es]. fold es in Es. pose proof Hs as [Htx _ _ _ Hip _ Hf].
  wp_step. eapply tx_inode_at; [exact Htx|exact Hip|]. destruct (Z.ltb_spec (16 * k) (i_size ip)) as [Hlt|Hge].
  2:{ wp_step. rewrite drop_ge in HQ by lia. apply HQ; [done|]. eapply io_ready_le; [|exact Hio]. lia. }
  assert (k < length es)%nat as Hk' by lia. wp_step. eapply (fs_read_dirent k _ (6 * (length es - S k) + m)); [exact Hs|done|done|done|eapply io_ready_le; [|exact Hio]; lia|].
  intros s1 e1 Hs1 Hio1. assert (es !! k = Some (dirent_at (contents v ip) k)) as Hek by (apply dirents_lookup; by rewrite <- length_dirents).
  rewrite (list_find_drop _ _ _ _ Hek) in HQ. set (de := take 16 _) in *. change (dirent_at (contents v ip) k) with (de_inum de, fname (de_name de)) in HQ.
  assert (MAXFILE * BSIZE = 274432) as EM by reflexivity. pose proof (io_size _ (do_inode _ _ Hd)) as Hsz.
  assert (forall P : Prop, (P -> False) -> P = names (fname name) (de_inum de, fname (de_name de)) -> wp (dirlookup_loop fuel ino name (u32 (16 * k + sizeof_dirent))) Q (World s1 e1)) as Hnext.
  { intros P HP ->. rewrite decide_False in HQ by done. change sizeof_dirent with 16. rewrite u32_small by lia. replace (16 * k + 16) with (16 * Z.of_nat (S k)) by lia.
    apply IH; [done..|lia|exact Hio1|]. destruct (list_find _ (drop (S k) es)) as [[p x]|]; [|exact HQ]. cbn in HQ. destruct HQ as (j & tbl' & Ht & HQ).
    exists j, tbl'. split; [done|]. by replace (S k + p)%nat with (k + S p)%nat by lia. }
  destruct (Z.eqb_spec (de_inum de) 0) as [E0|E0]; [eapply Hnext; [|reflexivity]; by intros [? _]|].
  pose proof (namecmp_spec name (de_name de) Hl) as Hcmp. destruct (Z.eqb_spec (namecmp name (de_name de)) 0) as [E1|E1].
  - apply Hcmp in E1. rewrite decide_True in HQ by (split; [exact E0|by cbn]). destruct HQ as (j & tbl' & Ht & HQ). rewrite Nat.add_0_r in HQ.
    rewrite (fo_dev _ _ _ _ _ Hf). wp_step. eapply fs_iget; [apply Hs1|exact Ht|]. intros s2 Hs2. wp_step. apply HQ; [done|]. eapply io_ready_le; [|exact Hio1]. lia.
  - eapply Hnext; [|reflexivity]. intros [_ E]. apply E1, Hcmp. symmetry. exact E.
Qed.

Lemma fs_dirlookup m name dk ws o v ip s e (Q : option (nat * Z) -> world kst -> Prop) :
  let es := dirents (contents v ip) in
  fstate d i ino sb ls lz ds dk ws o ∅ v ip s -> dir_ok v ip -> (length name <= 4096)%nat -> lg_n (k_log o) < NBUF -> io_ready i (6 * length es + m) e ->
  match dir_find (fname name) es with
  | None => forall s' e', fstate d i ino sb ls lz ds dk ws o ∅ v ip s' -> io_ready i m e' -> Q None (World s' e')
  | Some (p, x) => exists j tbl', iget_tbl (k_inodes o) d (fst x) = Some (j, tbl') /\
      forall s' e', txs d i dk ws (set_k_inodes tbl' o) ∅ v s' -> io_ready i m e' -> Q (Some (j, 16 * Z.of_nat p)) (World s' e')
  end ->
  wp (dirlookup ino name) Q (World s e).
Proof.
  intros es Hs Hd Hl Hbuf Hio HQ. destruct (dir_length v ip Hd) as [El Es]. fold es in Es. pose proof Hs as [Htx _ _ _ Hip _ Hf].
  unfold dirlookup. wp_step. eapply tx_inode_at; [exact Htx|exact Hip|]. rewrite (do_type _ _ Hd), Z.eqb_refl. cbn [negb].
  assert (i_size ip / 16 = length es) as Ediv by (rewrite Es, Z.mul_comm; by apply Z.div_mul). change sizeof_dirent with 16. rewrite Ediv.
  change 0 with (16 * Z.of_nat 0). eapply (fs_dirlookup_loop _ 0 m); [exact Hs|done|done|done|fold es; lia|by rewrite Nat.sub_0_r|]. rewrite drop_0. exact HQ.
Qed.

(** ** [dirlink] *)

(** [iput] of an entry that others refer to, that is not loaded or whose inode
    has links: a reference less. *)
Lemma fs_iput j ip dk ws o h v s e (Q : unit -> world kst -> Prop) : txs d i dk ws o h v s -> k_inodes o !! j = Some ip ->
  (i_ref ip = 1 -> i_valid ip = 0 \/ i_nlink ip <> 0) ->
  (forall s', txs d i dk ws (set_k_inodes (<[j := set_i_ref (i_ref ip - 1) ip]> (k_inodes o)) o) h v s' -> Q tt (World s' e)) -> wp (iput (Some j)) Q (World s e).
Proof.
  intros Hs Hip Hno HQ. unfold iput. wp_step. apply wp_acquire; [eapply calm_lock_free; by eapply txs_calm|]. cbn [st env inode_ptr]. do 2 wp_step.
  unfold inode_at. do 3 wp_step. cbn [st]. change (k_inodes (acquired L_itable s)) with (k_inodes s). rewrite (txs_inodes _ _ _ _ _ _ _ _ Hs).
  apply wp_nth with ip; [done|]. assert ((i_ref ip =? 1) && negb (i_valid ip =? 0) && (i_nlink ip =? 0) = false) as ->.
  { destruct (Z.eqb_spec (i_ref ip) 1) as [E|E]; [|done]. destruct (Hno E) as [->|Hn]; [done|]. rewrite (proj2 (Z.eqb_neq _ _) Hn). apply andb_false_r. }
  unfold when. wp_step. unfold modify_inode. do 3 wp_step. cbn [st env]. change (k_inodes (acquired L_itable s)) with (k_inodes s). rewrite (txs_inodes _ _ _ _ _ _ _ _ Hs).
  rewrite (alter_insert _ _ _ _ Hip). by eapply tx_itable_section.
Qed.

Lemma fs_dirlink_slot (fuel k : nat) m dk ws o v ip s e (Q : Z -> world kst -> Prop) :
  let es := dirents (contents v ip) in
  fstate d i ino sb ls lz ds dk ws o ∅ v ip s -> dir_ok v ip -> lg_n (k_log o) < NBUF -> (k <= length es < fuel + k)%nat -> io_ready i (6 * (length es - k) + m) e ->
  (forall s' e', fstate d i ino sb ls lz ds dk ws o ∅ v ip s' -> io_ready i m e' -> Q (16 * Z.of_nat (k + dir_slot (drop k es))) (World s' e')) ->
  wp (dirlink_slot fuel ino (16 * k)) Q (World s e).
Proof.
  intros es. revert k s e. induction fuel as [|fuel IH]; intros k s e Hs Hd Hbuf Hk Hio HQ; [lia|]. cbn [dirlink_slot].
  destruct (dir_length v ip Hd) as [El Es]. fold es in Es. pose proof Hs as [Htx _ _ _ Hip _ Hf]. assert (MAXFILE * BSIZE = 274432) as EM by reflexivity.
  pose proof (io_size _ (do_inode _ _ Hd)) as Hsz. wp_step. eapply tx_inode_at; [exact Htx|exact Hip|]. rewrite u32_small by lia.
  destruct (Z.ltb_spec (16 * k) (i_size ip)) as [Hlt|Hge].
  2:{ wp_step. rewrite drop_ge in HQ by lia. cbn in HQ. rewrite Nat.add_0_r in HQ. apply HQ; [done|]. eapply io_ready_le; [|exact Hio]. lia. }
  assert (k < length es)%nat as Hk' by lia. wp_step. eapply (fs_read_dirent k _ (6 * (length es - S k) + m)); [exact Hs|done|done|done|eapply io_ready_le; [|exact Hio]; lia|].
  intros s1 e1 Hs1 Hio1. assert (es !! k = Some (dirent_at (contents v ip) k)) as Hek by (apply dirents_lookup; by rewrite <- length_dirents).
  rewrite (drop_S _ _ _ Hek) in HQ. set (de := take 16 _) in *. change (dirent_at (contents v ip) k) with (de_inum de, fname (de_name de)) in HQ.
  rewrite dir_slot_cons in HQ. cbn [fst] in HQ. destruct (Z.eqb_spec (de_inum de) 0) as [E0|E0].
  - rewrite decide_True, Nat.add_0_r in HQ by done. wp_step. apply HQ; [done|]. eapply io_ready_le; [|exact Hio1]. lia.
  - rewrite decide_False, Nat.add_succ_r in HQ by done. change sizeof_dirent with 16. rewrite s32_small by lia. replace (16 * k + 16) with (16 * Z.of_nat (S k)) by lia.
    eapply IH; [exact Hs1|done|done|lia|exact Hio1|]. exact HQ.
Qed.

(** Getting an inode and putting it back. *)
Lemma iget_iput_entry tbl inum j tbl' ip : iget_tbl tbl d inum = Some (j, tbl') -> tbl !! ino = Some ip -> 0 < i_ref ip ->
  exists ip', tbl' !! j = Some ip' /\ (i_ref ip' = 1 -> i_valid ip' = 0) /\ <[j := set_i_ref (i_ref ip' - 1) ip']> tbl' !! ino = Some ip.
Proof.
  intros (ip0 & ip' & H0 & -> & H1 & H2 & H3 & H4)%iget_tbl_spec Hip Hr. pose proof (lookup_lt_Some _ _ _ H0) as Hlt. exists ip'.
  split; [by apply list_lookup_insert_eq|]. split; [intros Er; destruct H4 as [[? _]|[_ ?]]; [lia|done]|]. rewrite list_insert_insert_eq.
  destruct (decide (ino = j)) as [->|Hne]; [|by rewrite list_lookup_insert_ne]. rewrite list_lookup_insert_eq by done. simplify_eq.
  destruct H4 as [[_ ->]|[? _]]; [|lia]. destruct ip0. cbn. by rewrite Z.add_simpl_r.
Qed.

Lemma dir_ok_written (n k : nat) de v ip v' ip' : dir_ok v ip -> n = length (dirents (contents v ip)) -> (k <= n)%nat -> length de = 16%nat ->
  written_file sb ds (16 * k) de v ip v' ip' -> inode_ok ip' ->
  dir_ok v' ip' /\ dirents (contents v' ip') = dir_put k (de_inum de, fname (de_name de)) (dirents (contents v ip)).
Proof.
  intros Hd -> Hk Hde Hw Hok. destruct (dir_length v ip Hd) as [El Es]. destruct Hd as [D1 D2 D3 D4]. split.
  - destruct (wf_fixed _ _ _ _ _ _ _ _ Hw) as (sz & ad & E). split; [by rewrite E|rewrite (wf_size _ _ _ _ _ _ _ _ Hw), Hde; Z.div_mod_to_equations; lia|done|apply Hw].
  - rewrite (contents_written sb ds (16 * k) de v ip v' ip'); [|lia|done]. replace (Z.to_nat (16 * k)) with (16 * k)%nat by lia.
    apply (dirents_patch _ (length (dirents (contents v ip)))); [lia|done|done].
Qed.

(** C6: a directory is a map from names to inode numbers and [dirlink] inserts
    into it.  If the name is there it returns -1 and the directory is as before.
    If not, it returns 0, looking up the name gives the inode number, looking up
    any other name gives what it gave before, and no other file has changed. *)
Theorem dirlink_correct dk ws o v ip name inum s e ips k :
  let es := dirents (contents v ip) in
  fstate d i ino sb ls lz ds dk ws o ∅ v ip s -> dir_ok v ip -> iblock_ok sb ls lz ds ip -> 0 < i_ref ip -> (length name <= 4096)%nat -> 0 < inum < 65536 ->
  lg_n (k_log o) < NBUF -> files_ok d sb ds v ips -> ips !! k = Some ip ->
  (forall p x, dir_find (fname name) es = Some (p, x) -> iget_tbl (k_inodes o) d (fst x) <> None) ->
  (dir_get es (fname name) = None -> write_fits sb o v ip (16 * dir_slot es) 16) ->
  io_ready i (12 * length es + write_io sb (16 * dir_slot es) 16) e ->
  wp (dirlink ino name inum) (fun r w => exists o' v' ip', fstate d i ino sb ls lz ds dk ws o' ∅ v' ip' (st w) /\ dir_ok v' ip' /\
    let es' := dirents (contents v' ip') in
    match dir_get es (fname name) with
    | Some _ => r = -1 /\ v' = v /\ ip' = ip
    | None => r = 0 /\ (forall nm, dir_get es' nm = if decide (nm = fname name) then Some inum else dir_get es nm) /\
        files_ok d sb ds v' (<[k := ip']> ips) /\ forall k' ip2, k' <> k -> ips !! k' = Some ip2 -> contents v' ip2 = contents v ip2
    end) (World s e).
Proof.
  intros es Hs Hd Hib Href Hl Hinum Hbuf Hall Hk Hget Hfit Hio. pose proof Hs as [Htx Esb Els Elz Hip Hm Hf]. destruct (dir_length v ip Hd) as [El Es]. fold es in Es.
  unfold dirlink. wp_step. eapply (fs_dirlookup (6 * length es + write_io sb (16 * dir_slot es) 16)); [exact Hs|done|done|done|fold es; eapply io_ready_le; [|exact Hio]; lia|].
  fold es. unfold dir_get in *. destruct (dir_find (fname name) es) as [[p x]|] eqn:Ef; cbn [fmap option_fmap option_map] in *.
  - destruct (iget_tbl (k_inodes o) d (fst x)) as [[j tbl']|] eqn:Et; [|by destruct (Hget p x)]. exists j, tbl'. split; [done|]. intros s1 e1 Hs1 _.
    destruct (iget_iput_entry _ _ _ _ _ Et Hip Href) as (ip' & Hip' & Hval & Hback).
    wp_step. eapply fs_iput; [exact Hs1|exact Hip'|by left; auto|]. intros s2 Hs2. wp_step. eexists _, v, ip. split; [|done]. by split.
  - intros s1 e1 Hs1 Hio1. pose proof Hs1 as [Htx1 _ _ _ Hip1 _ _]. wp_step. eapply tx_inode_at; [exact Htx1|exact Hip1|].
    assert (i_size ip / 16 = length es) as Ediv by (rewrite Es, Z.mul_comm; by apply Z.div_mul). change sizeof_dirent with 16. rewrite Ediv.
    wp_step. change 0 with (16 * Z.of_nat 0) at 1. eapply (fs_dirlink_slot _ 0 (write_io sb (16 * dir_slot es) 16)); [exact Hs1|done|done|fold es; lia|fold es; by rewrite Nat.sub_0_r|].
    fold es. rewrite drop_0, Nat.add_0_l. intros s2 e2 Hs2 Hio2. fold (dirent_bytes name inum). specialize (Hfit eq_refl).
    assert (MAXFILE * BSIZE = 274432) as EM by reflexivity. rewrite u32_small by (destruct Hfit; lia). wp_step. pose proof (length_dirent_bytes name inum) as Hde.
    replace 16 with (Z.of_nat (length (dirent_bytes name inum))) at 2 by lia.
    eapply (fs_writei_fits d Hdev i ino sb ls lz ds Hgeom 0); [exact Hs2|done|apply Hd|apply Hd|by rewrite Hde|rewrite Hde, Nat.add_0_r; exact Hio2|].
    rewrite Hde. intros o' v' ip' s3 e3 Hs3 _ _ Hw Hok' _. change (negb (Z.of_nat 16 =? 16)) with false. cbv iota. wp_step.
    destruct (dir_ok_written (length es) (dir_slot es) _ _ _ _ _ Hd eq_refl (dir_slot_le es) Hde Hw Hok') as [Hd' Ees].
    destruct (files_ok_written d sb ls lz ds Hgeom _ _ v v' ip ip' ips k Hib Hw) as [F1 F2]; [apply Hs3|apply Hs3|done..|].
    exists o', v', ip'. split; [done|]. split; [done|]. split; [done|]. split; [|done]. intros nm. fold (dir_get es nm). rewrite Ees, dirent_bytes_fields by lia.
    apply (dir_get_put es (fname name) inum nm); [unfold dir_get; fold es; by rewrite Ef|lia].
Qed.
End Dir.

(** ** A small tree: the root directory and a file [a] in it *)

Definition root_ip : inode := mkinode 1 1 1 1 T_DIR 0 0 1 48 (46 :: replicate 12 0).
Definition free_ip : inode := mkinode 0 0 0 0 0 0 0 0 0 [].
Definition tree_fs : gmap Z (list Z) :=
  <[32 := put_dinode 128 demo_ip (put_dinode 64 root_ip (replicate BSIZE 0))]>
  (<[45 := replicate 5 255 ++ 127 :: replicate 1018 0]>
  (<[46 := dirent_bytes [46] 1 ++ dirent_bytes [46; 46] 1 ++ dirent_bytes [97] 2 ++ replicate 976 0]> ∅)).

Lemma tree_fs_length n : length (disk_block tree_fs n) = BSIZE.
Proof.
  unfold tree_fs, disk_block. rewrite !lookup_insert. destruct (decide (32 = n)); [vm_compute; reflexivity|]. destruct (decide (45 = n)); [vm_compute; reflexivity|].
  destruct (decide (46 = n)); [vm_compute; reflexivity|]. rewrite lookup_empty. apply length_replicate.
Qed.

Lemma tree_meta : meta_used demo_sb 46 (disk_block tree_fs).
Proof.
  intros c Hc. assert (forallb (fun k : nat => used demo_sb (disk_block tree_fs) k) (seq 0 46) = true) as Hall by (vm_compute; reflexivity).
  rewrite forallb_forall in Hall. replace c with (Z.of_nat (Z.to_nat c)) by lia. apply Hall. apply in_seq. lia.
Qed.

(** The root directory and the file as files. *)
Lemma tree_root : iblock_ok demo_sb 2 30 46 root_ip /\ file_ok demo_sb 46 1 (disk_block tree_fs) root_ip /\ inode_ok root_ip /\ no_holes (disk_block tree_fs) root_ip.
Proof.
  split; [exact demo_iblock|]. split; [|split].
  - apply (small_file _ _ _ _ _ 46); [reflexivity..|]. intros _. split; [cbn; lia|vm_compute; reflexivity].
  - split; vm_compute; (split; congruence).
  - intros p Hp. cbn in Hp. assert (p / BSIZE = 0) as -> by (apply Z.div_small; unfold BSIZE; lia). discriminate.
Qed.

Lemma tree_file : file_ok demo_sb 46 1 (disk_block tree_fs) demo_ip.
Proof. apply (small_file _ _ _ _ _ 0); [reflexivity..|]. intros []. reflexivity. Qed.

Lemma tree_entries : dirents (contents (disk_block tree_fs) root_ip) = [(1, [46]); (1, [46; 46]); (2, [97])].
Proof. vm_compute. reflexivity. Qed.

Definition tree_table : list inode := [root_ip; free_ip; free_ip].

#[local] Existing Instance ideal_disk.

(** The machine inside an operation on this disk. *)
Definition kst_tree : kst := set_k_inodes tree_table (set_k_sb demo_sb (kst_mounted tree_fs)).
Definition kst_tree_tx : kst := final kst_tree (begin_op (World kst_tree [])).

Lemma kst_tree_rest : exists o, cst 1 0 o ∅ tree_fs [] kst_tree /\ at_rest 1 0 demo_sb 2 30 46 tree_fs o root_ip /\ k_log o = demo_log /\
  k_inodes o = tree_table /\ k_sleeplocks o = ∅.
Proof.
  destruct (kst_mounted_cst tree_fs tree_fs_length) as (o & Hs & Elog).
  assert (k_sleeplocks o = ∅) as El.
  { rewrite <- (cst_out _ _ _ _ _ _ _ Hs). unfold outside. cbn [k_sleeplocks set_k_sleeplocks set_k_bufs set_k_disk set_k_dwrites]. rewrite kst_mounted_locks by exact tree_fs_length. reflexivity. }
  exists (set_k_inodes tree_table (set_k_sb demo_sb o)). split; [by apply cst_set_fs|]. split; [|split; [exact Elog|split; [reflexivity|exact El]]].
  assert (k_log (set_k_inodes tree_table (set_k_sb demo_sb o)) = demo_log) as E by exact Elog. destruct tree_root as (L1 & L4 & L5 & L6).
  split; rewrite ?E; try assumption; try reflexivity; try exact demo_geom; try exact tree_meta.
  - split; [|split]; reflexivity.
  - unfold dinode_is. split_and!; vm_compute; reflexivity.
Qed.

#[global] Opaque kst_tree.

Lemma kst_tree_tx_state : exists o, fstate 1 0 0 demo_sb 2 30 46 tree_fs [] o ∅ (disk_block tree_fs) root_ip kst_tree_tx /\
  k_log o = set_lg_outstanding 1 demo_log /\ k_inodes o = tree_table /\ k_sleeplocks o = ∅.
Proof.
  destruct kst_tree_rest as (o & Hs & Hrest & Elog & Etbl & El). unfold kst_tree_tx.
  apply (wp_final begin_op (fun s => exists o, fstate 1 0 0 demo_sb 2 30 46 tree_fs [] o ∅ (disk_block tree_fs) root_ip s /\
    k_log o = set_lg_outstanding 1 demo_log /\ k_inodes o = tree_table /\ k_sleeplocks o = ∅)).
  eapply (fs_begin_op 1 0 0 demo_sb 2 30 46); [exact Hs|exact Hrest|]. intros s' o' Hs'. exists o'. split; [exact Hs'|].
  split; [unfold o'; by rewrite k_log_set, Elog|]. split; [exact Etbl|exact El].
Qed.

#[global] Opaque kst_tree_tx.

Lemma tree_files : files_ok 1 demo_sb 46 (disk_block tree_fs) [root_ip; demo_ip].
Proof.
  assert (forall n, ~ own (disk_block tree_fs) demo_ip n) as Hno.
  { intros n [Hn [->|(k & _ & <-)]]; [by apply Hn|]. apply Hn. unfold fblock. destruct (k <? NDIRECT)%nat; [|reflexivity]. rewrite nth_lookup. cbn [demo_ip i_addrs].
    destruct (replicate 13 0 !! k) eqn:E; [|reflexivity]. by apply lookup_replicate in E as [-> _]. }
  destruct tree_root as (_ & R2 & R3 & R4). split; [exact tree_meta| |].
  - intros [|[|]] ip [= <-]; [split; [exact R2|split; [exact R3|exact R4]]|]. split; [exact tree_file|]. split; [split; vm_compute; (split; congruence)|]. intros p Hp. cbn in Hp. lia.
  - intros [|[|]] [|[|]] ip ip' [= <-] [= <-] Hne n; [done|intros _; apply Hno|intros Ho; by destruct (Hno n)|done].
Qed.

Lemma tree_free : free_blocks demo_sb (disk_block tree_fs) 2.
Proof.
  exists [47; 48]. split_and!; [|reflexivity|].
  - apply NoDup_cons_2; [|apply NoDup_singleton]. by intros ?%list_elem_of_singleton.
  - repeat apply Forall_cons_2; [..|constructor]; split; try (cbn; lia); vm_compute; reflexivity.
Qed.

Lemma dirlink_correct_witness :
  wp (dirlink 0 [98] 3) (fun r w => r = 0 /\ exists v' ip', dir_get (dirents (contents v' ip')) [98] = Some 3 /\ dir_get (dirents (contents v' ip')) [97] = Some 2 /\
    contents v' demo_ip = []) (World kst_tree_tx []).
Proof.
  destruct kst_tree_tx_state as (o & Hs & Elog & Etbl & _). destruct tree_root as (R1 & R2 & R3 & R4).
  eapply wp_mono; [apply (dirlink_correct 1 ltac:(lia) 0 0 demo_sb 2 30 46 demo_fs_geom tree_fs [] o (disk_block tree_fs) root_ip [98] 3 kst_tree_tx [] [root_ip; demo_ip] 0 Hs)|];
    rewrite ?tree_entries, ?Elog.
  - split; [reflexivity|reflexivity|exact R3|exact R4].
  - exact R1.
  - reflexivity.
  - cbn. lia.
  - lia.
  - reflexivity.
  - exact tree_files.
  - reflexivity.
  - intros p x. vm_compute. discriminate.
  - intros _. change (16 * Z.of_nat (dir_slot [(1, [46]); (1, [46; 46]); (2, [97])])) with 48. assert (write_room 48 16 = 7) as Er by reflexivity.
    split; rewrite ?Er, ?Elog; [lia|cbn; lia|vm_compute; congruence|vm_compute; split; congruence|vm_compute; reflexivity|exact tree_free].
  - done.
  - intros r w (o' & v' & ip' & _ & _ & Hpost). change (dir_get [(1, [46]); (1, [46; 46]); (2, [97])] (fname [98])) with (@None Z) in Hpost.
    destruct Hpost as (Hr & Hget & _ & Hother). split; [exact Hr|]. exists v', ip'. rewrite !Hget. split; [reflexivity|]. split; [reflexivity|]. rewrite (Hother 1%nat demo_ip); [reflexivity|discriminate|reflexivity].
Defined.
