(* ===== verification/FsPath.v ===== *)
(** * kernel/fs.c: path names

    [namex] resolves a path against the directory tree on the disk: the elements
    of the path, the walk through the directories they name, and the references
    and locks on the inodes along the way. *)

From S2P Require Import Prelude KString State Spinlock Norm Printf Sched Sleeplock Vm Proc Bio LruList Cache CacheSpec Blocks Log LogSpec LogTx FsTx Fs FsAlloc FsFile FsWrite FsDir.

(** ** The elements of a path *)

(** The pieces between slashes. *)
Fixpoint split (path : list Z) : list (list Z) :=
  match path with
  | [] => [[]]
  | c :: rest => if c =? chr "/" then [] :: split rest
                 else match split rest with w :: ws => (c :: w) :: ws | [] => [[c]] end
  end.

(** The names a path is made of: the pieces that are not empty. *)
Definition elems (path : list Z) : list (list Z) := fname <$> filter (fun w => w <> []) (split path).

Lemma elems_skip path : elems (skip_slashes path) = elems path.
Proof.
  induction path as [|c rest IH]; [done|]. cbn [skip_slashes]. destruct (c =? chr "/") eqn:E; [|done]. rewrite IH. unfold elems. cbn [split]. rewrite E.
  rewrite filter_cons_False; [done|]. by intros ?.
Qed.

Lemma split_elem path : exists ws, split path = take (elem_len path) path :: ws /\ split (drop (elem_len path) path) = [] :: ws.
Proof.
  induction path as [|c rest (ws & IH1 & IH2)]; [by exists []|]. cbn [elem_len split]. destruct (c =? chr "/") eqn:E.
  - exists (split rest). cbn [take drop split]. by rewrite E.
  - exists ws. cbn [take drop]. by rewrite IH1.
Qed.

Lemma cut_zero a b : cut (a ++ 0 :: b) = cut a.
Proof. induction a as [|c a IH]; [done|]. cbn. destruct (c =? 0); [done|]. by f_equal. Qed.

Lemma skip_slashes_head path c rest : skip_slashes path = c :: rest -> (c =? chr "/") = false.
Proof. induction path as [|x path IH]; [done|]. cbn [skip_slashes]. destruct (x =? chr "/") eqn:E; [exact IH|]. intros [= <- <-]. exact E. Qed.

Lemma skip_slashes_length path : (length (skip_slashes path) <= length path)%nat.
Proof. induction path as [|c path IH]; [done|]. cbn [skip_slashes length]. destruct (c =? chr "/"); cbn [length]; lia. Qed.

Lemma skip_elems path : elems (skip_slashes path) = [] -> skip_slashes path = [].
Proof.
  destruct (skip_slashes path) as [|c rest] eqn:E; [done|]. pose proof (skip_slashes_head _ _ _ E) as Hc. destruct (split_elem (c :: rest)) as (ws & Hs & _).
  unfold elems. rewrite Hs. cbn [elem_len]. rewrite Hc, filter_cons_True by (by intros ?). done.
Qed.

(** [skipelem] takes the first element off the path.  What is left is shorter and
    starts with the next element. *)
Lemma skipelem_spec path name : length name = DIRSIZ ->
  match skipelem path name with
  | None => elems path = []
  | Some (path', name') => elems path = fname name' :: elems path' /\ length name' = DIRSIZ /\ (length path' < length path)%nat /\ (path' = [] <-> elems path' = [])
  end.
Proof.
  intros Hn. unfold skipelem. destruct (skip_slashes path) as [|c rest] eqn:E; [by rewrite <- elems_skip, E|]. set (p := c :: rest) in *.
  pose proof (skip_slashes_head _ _ _ E) as Hc. destruct (split_elem p) as (ws & Hs1 & Hs2). set (len := elem_len p) in *.
  assert (1 <= len <= length p)%nat as Hlen.
  { unfold len. split; [unfold p; cbn [elem_len]; rewrite Hc; lia|]. clear. induction p as [|x p IH]; [done|]. cbn [elem_len length]. destruct (x =? chr "/"); lia. }
  assert (elems path = fname (take len p) :: elems (drop len p)) as Hel.
  { rewrite <- elems_skip, E. unfold elems. rewrite Hs1, Hs2. rewrite (filter_cons_False _ []) by (by intros ?). rewrite filter_cons_True; [done|].
    intros H0. apply (f_equal length) in H0. rewrite length_take in H0. cbn [length] in H0. lia. }
  assert (length p <= length path)%nat as Hp by (rewrite <- E; apply skip_slashes_length). rewrite Hel, elems_skip.
  split_and!; [f_equal|..].
  - unfold fname. destruct (Nat.leb_spec DIRSIZ len) as [Hle|Hgt].
    + f_equal. f_equal. unfold patch. rewrite take_0, app_nil_l, take_take, Nat.min_l, take_app_le by (rewrite ?length_take; lia). by rewrite take_take, Nat.min_id.
    + rewrite (take_ge (take len p)) by (rewrite length_take; lia). unfold patch. rewrite take_0, app_nil_l, <- app_assoc. cbn [app].
      rewrite (take_ge (_ ++ 0 :: _)); [rewrite fmap_app, fmap_cons; symmetry; apply cut_zero|].
      rewrite length_app, length_take. cbn [length]. rewrite length_drop, length_app, length_take. cbn [length]. lia.
  - destruct (Nat.leb_spec DIRSIZ len) as [Hle|Hgt]; rewrite length_patch; rewrite ?length_app, ?length_take; cbn [length]; lia.
  - eapply Nat.le_lt_trans; [apply skip_slashes_length|]. rewrite length_drop. lia.
  - rewrite <- elems_skip. split; [by intros ->|apply skip_elems].
Qed.

(** ** Locking an inode *)

Section Path.
Context `{DiskDriverOk} (d : Z) (Hdev : 0 < d < 2147483648) (i : nat).
Context (sb : superblock) (ls lz ds : Z) (Hgeom : fs_geom sb ls lz ds).

(** Changing a sleep lock that is not a buffer's. *)
Lemma txs_locks (f : gmap sleepid sleeplock -> gmap sleepid sleeplock) dk ws o h v s s' : txs d i dk ws o h v s ->
  (forall m k, f m !! SL_buf k = m !! SL_buf k) -> (forall m, filter (fun p => is_buf_lock (fst p) = false) (f m) = f (filter (fun p => is_buf_lock (fst p) = false) m)) ->
  norm s' = set_k_sleeplocks (f (k_sleeplocks s)) (norm s) -> txs d i dk ws (set_k_sleeplocks (f (k_sleeplocks o)) o) h v s'.
Proof.
  intros (a & [Hc [l [Hok Hidle]] Ho Hdk Hws] & Hm) Hbuf Hfilter Hs'. exists a. split; [|exact Hm].
  assert (norm s' = norm (set_k_sleeplocks (f (k_sleeplocks s)) s)) as E by exact Hs'.
  destruct (norm_fields _ _ E) as (_ & _ & _ & Esl & _ & _ & _ & Efs & Edv & _).
  assert (k_bufs s' = k_bufs s /\ k_disk s' = k_disk s /\ k_dwrites s' = k_dwrites s /\ k_vdisk s' = k_vdisk s) as (Eb & Ed & Ew & Ev).
  { split_and!; [exact (f_equal k_bufs E)|exact (f_equal k_disk E)|exact (f_equal k_dwrites E)|exact (f_equal k_vdisk E)]. }
  split.
  - eapply calm_eq; [exact E|]. apply calm_norm. exact Hc.
  - exists l. split; [|by rewrite Ev]. rewrite Eb, Ed, Esl. cbn [k_sleeplocks set_k_sleeplocks]. destruct Hok as [C1 C2 C3 C4 C5 C6 C7 C8].
    split; try done; intros k b; rewrite Hbuf; [apply C4|apply C6].
  - rewrite (outside_norm _ _ E), <- Ho. unfold outside. cbn [k_sleeplocks set_k_sleeplocks set_k_bufs set_k_disk set_k_dwrites]. by rewrite Hfilter.
  - by rewrite Ed.
  - by rewrite Ew.
Qed.

Lemma set_inodes_id o : set_k_inodes (k_inodes o) o = o.
Proof. by destruct o as [? ? ? ? ? ? ? ? ? [] ?]. Qed.

Lemma set_sleeplocks_id o : set_k_sleeplocks (k_sleeplocks o) o = o.
Proof. by destruct o. Qed.

Lemma txs_norm dk ws o h v s s' : txs d i dk ws o h v s -> norm s' = norm s -> txs d i dk ws o h v s'.
Proof. intros Hs E. rewrite <- (set_sleeplocks_id o). by eapply (txs_locks id). Qed.

Lemma txs_sleeplock dk ws o h v s l : txs d i dk ws o h v s -> is_buf_lock l = false -> k_sleeplocks s !! l = k_sleeplocks o !! l.
Proof.
  intros (a & Hc & _) Hl. rewrite <- (cst_out _ _ _ _ _ _ _ Hc). unfold outside. cbn [k_sleeplocks set_k_sleeplocks set_k_bufs set_k_disk set_k_dwrites].
  destruct (k_sleeplocks s !! l) as [x|] eqn:E; symmetry; [by apply map_lookup_filter_Some_2|]. apply map_lookup_filter_None_2. by left.
Qed.

(** The state in which the running process holds the lock of inode entry [j]. *)
Definition locked (j : nat) (o : kst) : kst := set_k_sleeplocks (<[SL_inode j := mksleep 1 (cur_pid o)]> (k_sleeplocks o)) o.

Lemma tx_lock_inode j dk ws o h v s e (Q : unit -> world kst -> Prop) : txs d i dk ws o h v s -> k_sleeplocks o !! SL_inode j = None ->
  (forall s', txs d i dk ws (locked j o) h v s' -> Q tt (World s' e)) -> wp (acquiresleep (SL_inode j)) Q (World s e).
Proof.
  intros Hs Hl HQ. apply (wp_acquiresleep_calm i); [by eapply txs_calm|by rewrite (txs_sleeplock _ _ _ _ _ _ _ Hs)|]. cbn [st env]. intros s' Hs'. apply HQ. unfold locked.
  assert (cur_pid s = cur_pid o) as Ep by (destruct Hs as (a & Hc & _); by eapply cst_pid). rewrite Ep in Hs'.
  apply (txs_locks (fun m => <[SL_inode j := mksleep 1 (cur_pid o)]> m) _ _ _ _ _ s); [done|by intros; rewrite lookup_insert_ne| |done].
  intros m. by rewrite map_filter_insert_True.
Qed.

Lemma fs_iunlock j ip dk ws o h v s e (Q : unit -> world kst -> Prop) : txs d i dk ws (locked j o) h v s -> k_sleeplocks o !! SL_inode j = None ->
  k_inodes o !! j = Some ip -> 0 < i_ref ip -> (forall s', txs d i dk ws o h v s' -> Q tt (World s' e)) -> wp (iunlock (Some j)) Q (World s e).
Proof.
  intros Hs Hl Hip Hr HQ. unfold iunlock. wp_step. apply (wp_holdingsleep_calm i); [by eapply txs_calm| |]; cbn [st env].
  { unfold sleep_held. rewrite (txs_sleeplock _ _ _ _ _ _ _ Hs) by done. destruct Hs as (a & Hc & _). rewrite (cst_pid _ _ _ _ _ _ _ Hc).
    cbn [locked k_sleeplocks set_k_sleeplocks]. by rewrite lookup_insert_eq. }
  intros s1 E1. pose proof (txs_norm _ _ _ _ _ _ _ Hs E1) as Hs1. wp_step. eapply (tx_inode_at d i j); [exact Hs1|exact Hip|].
  rewrite (proj2 (Z.ltb_ge _ _)) by lia. cbn [negb orb]. apply (wp_releasesleep_calm i); [by eapply txs_calm|]. cbn [st env]. intros s2 E2. apply HQ.
  assert (txs d i dk ws (set_k_sleeplocks (delete (SL_inode j) (k_sleeplocks (locked j o))) (locked j o)) h v s2) as Hs2.
  { apply (txs_locks (delete (SL_inode j)) _ _ _ _ _ s1); [done|by intros; rewrite lookup_delete_ne|intros m; apply map_filter_delete|done]. }
  replace o with (set_k_sleeplocks (delete (SL_inode j) (k_sleeplocks (locked j o))) (locked j o)); [exact Hs2|].
  cbn [locked k_sleeplocks set_k_sleeplocks]. rewrite delete_insert_id by done. by destruct o.
Qed.

(** ** Loading an inode *)

Lemma tx_put_inode f x tbl j dk ws o h v s e (Q : unit -> world kst -> Prop) : txs d i dk ws (set_k_inodes (<[j := x]> tbl) o) h v s -> (j < length tbl)%nat ->
  (forall s', txs d i dk ws (set_k_inodes (<[j := f x]> tbl) o) h v s' -> Q tt (World s' e)) -> wp (modify_inode j f) Q (World s e).
Proof.
  intros Hs Hj HQ. eapply (tx_modify_inode d i j); [exact Hs|]. intros s' Hs'. apply HQ. cbn [k_inodes set_k_inodes] in Hs'.
  assert (alter f j (<[j := x]> tbl) = <[j := f x]> tbl) as E.
  { erewrite alter_insert by (by apply list_lookup_insert_eq). by rewrite list_insert_insert_eq. }
  revert Hs'. change (k_inodes (set_k_inodes (<[j := x]> tbl) o)) with (<[j := x]> tbl). by rewrite E.
Qed.

(** The running system as [namex] finds it, apart from the inode table. *)
Record fs_base (o : kst) (v : Z -> list Z) : Prop := {
  fb_sb : k_sb o = sb;
  fb_ls : lg_start (k_log o) = ls;
  fb_lz : lg_size (k_log o) = lz;
  fb_buf : lg_n (k_log o) < NBUF;
  fb_meta : meta_used sb ds v;
  fb_free : forall j, k_sleeplocks o !! SL_inode j = None
}.

(** An inode in use on the disk. *)
Record live_ok (v : Z -> list Z) (n : Z) : Prop := {
  lv_block : iblock_ok sb ls lz ds (disk_inode d sb v n);
  lv_type : i_type (disk_inode d sb v n) <> 0;
  lv_nlink : i_nlink (disk_inode d sb v n) <> 0;
  lv_file : file_ok sb ds d v (disk_inode d sb v n);
  lv_inode : inode_ok (disk_inode d sb v n);
  lv_holes : no_holes v (disk_inode d sb v n);
  lv_dir : i_type (disk_inode d sb v n) = T_DIR -> i_size (disk_inode d sb v n) mod 16 = 0
}.

(** An entry of the inode table: if it is referenced it is for an inode of [P],
    and it is as on the disk or not loaded. *)
Definition entry_ok (P : Z -> Prop) (v : Z -> list Z) (ip : inode) : Prop :=
  0 <= i_ref ip /\ (0 < i_ref ip -> i_dev ip = d /\ P (i_inum ip) /\ (ip = set_i_ref (i_ref ip) (disk_inode d sb v (i_inum ip)) \/ i_valid ip = 0)).

(** [ilock] of a referenced entry: the entry is as on the disk. *)
Lemma fs_ilock P j ip m dk ws o v s e (Q : unit -> world kst -> Prop) :
  txs d i dk ws o ∅ v s -> fs_base o v -> k_inodes o !! j = Some ip -> entry_ok P v ip -> 0 < i_ref ip -> live_ok v (i_inum ip) -> io_ready i (S m) e ->
  (forall s' e', txs d i dk ws (locked j (set_k_inodes (<[j := set_i_ref (i_ref ip) (disk_inode d sb v (i_inum ip))]> (k_inodes o)) o)) ∅ v s' -> io_ready i m e' -> Q tt (World s' e')) ->
  wp (ilock (Some j)) Q (World s e).
Proof.
  intros Hs [B1 B2 B3 B4 B5 B6] Hip [_ He] Hr Hlive Hio HQ. destruct (He Hr) as (Hd & _ & Hor). unfold ilock. wp_step. eapply (tx_inode_at d i j); [exact Hs|exact Hip|].
  rewrite (proj2 (Z.ltb_ge _ _)) by lia. wp_step. eapply tx_lock_inode; [exact Hs|done|]. intros s1 Hs1. wp_step. eapply (tx_inode_at d i j); [exact Hs1|exact Hip|].
  pose proof (lookup_lt_Some _ _ _ Hip) as Hlt. destruct Hor as [E|Hv].
  { rewrite E. cbn [i_valid set_i_ref disk_inode Z.eqb when]. wp_step. eapply HQ; [|by apply (io_ready_le i (S m)); [lia|]].
    rewrite <- E, list_insert_id by done. by rewrite <- (set_inodes_id o) in Hs1. }
  rewrite Hv. cbn [Z.eqb when]. destruct Hlive as [(Hib & Hnb & Hlog) Lt _ _ _ _ _]. set (n := i_inum ip) in *. unfold iblock in *. cbn [i_inum disk_inode] in *.
  do 3 wp_step. cbn [st]. rewrite (txs_sb d i _ _ _ _ _ _ Hs1). change (k_sb (locked j o)) with (k_sb o). rewrite B1, Hd.
  eapply (tx_bread d (dev_ne d Hdev) i (IBLOCK n sb) m); [exact Hs1|exact Hio| |apply lookup_empty|rewrite map_size_empty; change (k_log (locked j o)) with (k_log o); lia|].
  { split; [destruct Hgeom; lia|]. change (k_log (locked j o)) with (k_log o). by rewrite B2, B3. }
  intros b s2 e2 Hs2 Hio2. rewrite insert_empty in Hs2. wp_step. eapply (tx_read d i); [exact Hs2|apply lookup_singleton_eq|]. intros bf Hbf _. rewrite Hbf.
  assert (txs d i dk ws (set_k_inodes (<[j := ip]> (k_inodes o)) (locked j o)) {[IBLOCK n sb := b]} v s2) as Hs3.
  { rewrite list_insert_id by done. rewrite <- (set_inodes_id (locked j o)) in Hs2. exact Hs2. }
  do 6 (wp_step; eapply tx_put_inode; [exact Hs3|done|]; clear Hs3; intros ? Hs3).
  wp_step. eapply tx_brelse; [exact Hs3|apply lookup_singleton_eq|]. rewrite delete_singleton_eq. clear Hs3. intros s3 Hs3.
  wp_step. eapply tx_put_inode; [exact Hs3|done|]. clear Hs3. intros s4 Hs4. wp_step. eapply (tx_inode_at d i j); [exact Hs4|by apply list_lookup_insert_eq|].
  match type of Hs4 with txs _ _ _ _ (set_k_inodes (<[j := ?x]> _) _) _ _ _ => replace x with (set_i_ref (i_ref ip) (disk_inode d sb v n)) in Hs4
    by (unfold n, disk_inode; rewrite <- Hd; by destruct ip) end.
  cbn [i_type set_i_valid set_i_addrs set_i_size set_i_nlink set_i_minor set_i_major set_i_type]. cbn [i_type disk_inode] in Lt.
  rewrite (proj2 (Z.eqb_neq _ _) Lt). wp_step. by apply HQ.
Qed.

(** ** Resolving a path *)

(** The inode a list of names leads to from inode [n]; with [parent], the
    directory of the last one. *)
Fixpoint resolve (v : Z -> list Z) (parent : bool) (n : Z) (ns : list (list Z)) : option Z :=
  match ns with
  | [] => if parent then None else Some n
  | nm :: ns' =>
      let ip := disk_inode d sb v n in
      if negb (i_type ip =? T_DIR) then None
      else if parent && bool_decide (ns' = []) then Some n
      else match dir_get (dirents (contents v ip)) nm with
           | None => None
           | Some n' => resolve v parent n' ns'
           end
  end.

(** The inodes in use: well formed, and directories name only inodes in use. *)
Definition tree_ok (P : Z -> Prop) (v : Z -> list Z) : Prop :=
  forall n, P n -> live_ok v n /\ forall nm n', i_type (disk_inode d sb v n) = T_DIR -> dir_get (dirents (contents v (disk_inode d sb v n))) nm = Some n' -> P n'.

Definition table_ok (P : Z -> Prop) (v : Z -> list Z) (tbl : list inode) : Prop := Forall (entry_ok P v) tbl.

(** Reads of blocks a round of the loop may need. *)
Definition round_io : nat := S (6 * Z.to_nat (MAXFILE * BSIZE / 16)).

(** What [namex] returns: an entry for the inode, on which the caller has a
    reference more than before, or none, with no reference taken. *)
Definition resolved (refs : list Z) (goal : option Z) (r : option nat) (tbl : list inode) : Prop :=
  match goal with
  | Some n => exists j ip, r = Some j /\ tbl !! j = Some ip /\ i_dev ip = d /\ i_inum ip = n /\ i_ref <$> tbl = alter Z.succ j refs
  | None => r = None /\ i_ref <$> tbl = refs
  end.

Lemma iget_total tbl k n em : iget_find tbl k d n em = inr None -> em = None /\ Forall (fun ip => i_ref ip <> 0) tbl.
Proof.
  revert k em. induction tbl as [|ip tbl IH]; intros k em; cbn [iget_find]; [by intros [= ->]|].
  destruct (_ && _ && _); [done|]. intros [He Hf]%IH. destruct em; [done|]. destruct (Z.eqb_spec (i_ref ip) 0); [done|]. by split; [|constructor].
Qed.

Lemma iget_some tbl n k : i_ref <$> tbl !! k = Some 0 -> exists j tbl', iget_tbl tbl d n = Some (j, tbl').
Proof.
  intros Hk. unfold iget_tbl. destruct (iget_find tbl 0 d n None) as [j|[j|]] eqn:E; [by eexists _, _..|]. exfalso. apply iget_total in E as [_ Hf].
  destruct (tbl !! k) as [ip|] eqn:Hip; [|done]. cbn in Hk. rewrite list.Forall_lookup in Hf. apply (Hf k ip Hip). congruence.
Qed.

(** [iget] adds a reference and keeps the table. *)
Lemma iget_keeps P v tbl n j tbl' : iget_tbl tbl d n = Some (j, tbl') -> table_ok P v tbl -> P n ->
  table_ok P v tbl' /\ i_ref <$> tbl' = alter Z.succ j (i_ref <$> tbl) /\ exists ip, tbl' !! j = Some ip /\ i_dev ip = d /\ i_inum ip = n.
Proof.
  intros (ip & ip' & Hip & -> & Hd & Hn & Hr & Hor)%iget_tbl_spec Ht HP. pose proof (lookup_lt_Some _ _ _ Hip) as Hlt. pose proof (Forall_lookup_1 _ _ _ _ Ht Hip) as [H0 He].
  split_and!.
  - apply Forall_insert; [done|]. split; [lia|]. intros _. split; [done|]. split; [by rewrite Hn|]. destruct Hor as [[Hpos ->]|[_ ?]]; [|by right].
    destruct (He Hpos) as (_ & _ & [E|?]); [left|by right]. exact (f_equal (set_i_ref (i_ref ip + 1)) E).
  - rewrite list_fmap_insert, Hr. rewrite (alter_insert Z.succ _ _ (i_ref ip)); [done|]. by rewrite list_lookup_fmap, Hip.
  - exists ip'. split; [by apply list_lookup_insert_eq|done].
Qed.

(** [iput] gives it back, and never frees an inode in use. *)
Lemma iput_keeps P v tbl j ip : table_ok P v tbl -> tbl !! j = Some ip -> 0 < i_ref ip -> tree_ok P v ->
  (i_ref ip = 1 -> i_valid ip = 0 \/ i_nlink ip <> 0) /\ table_ok P v (<[j := set_i_ref (i_ref ip - 1) ip]> tbl) /\
  i_ref <$> <[j := set_i_ref (i_ref ip - 1) ip]> tbl = alter Z.pred j (i_ref <$> tbl).
Proof.
  intros Ht Hip Hr HP. pose proof (Forall_lookup_1 _ _ _ _ Ht Hip) as [_ He]. destruct (He Hr) as (Hd & Hn & Hor). split_and!.
  - intros _. destruct Hor as [E|?]; [right|by left]. rewrite E. apply (HP _ Hn).
  - apply Forall_insert; [done|]. split; [cbn; lia|]. intros _. split_and!; [done|done|]. destruct Hor as [E|?]; [left|by right]. exact (f_equal (set_i_ref (i_ref ip - 1)) E).
  - rewrite list_fmap_insert. rewrite (alter_insert Z.pred _ _ (i_ref ip)); [done|]. by rewrite list_lookup_fmap, Hip.
Qed.

(** [ilock] keeps the table. *)
Lemma load_keeps P v tbl j ip : table_ok P v tbl -> tbl !! j = Some ip -> 0 < i_ref ip -> let ip1 := set_i_ref (i_ref ip) (disk_inode d sb v (i_inum ip)) in
  table_ok P v (<[j := ip1]> tbl) /\ i_ref <$> <[j := ip1]> tbl = i_ref <$> tbl /\ <[j := ip1]> tbl !! j = Some ip1.
Proof.
  intros Ht Hip Hr ip1. pose proof (Forall_lookup_1 _ _ _ _ Ht Hip) as [H0 He]. destruct (He Hr) as (Hd & Hn & _). split_and!.
  - apply Forall_insert; [done|]. split; [done|]. intros _. split_and!; [done|done|by left].
  - rewrite list_fmap_insert, list_insert_id; [done|]. by rewrite list_lookup_fmap, Hip.
  - apply list_lookup_insert_eq. by eapply lookup_lt_Some.
Qed.

Lemma held_pos rs tbl j ip : Forall (fun r => 0 <= r) rs -> i_ref <$> tbl = alter Z.succ j rs -> tbl !! j = Some ip -> 0 < i_ref ip.
Proof.
  intros Hrs E Hip. apply (f_equal (lookup j)) in E. rewrite list_lookup_fmap, Hip, list_lookup_alter_eq in E. destruct (rs !! j) as [r|] eqn:Hr; [|done].
  cbn in E. injection E as ->. pose proof (Forall_lookup_1 _ _ _ _ Hrs Hr). cbn in *. lia.
Qed.

Lemma pred_succ j (l : list Z) : alter Z.pred j (alter Z.succ j l) = l.
Proof. revert j. induction l as [|x l IH]; intros [|j]; [done..| |]; cbn; f_equal; [lia|apply IH]. Qed.

Lemma succ_comm j k (l : list Z) : alter Z.succ j (alter Z.succ k l) = alter Z.succ k (alter Z.succ j l).
Proof. revert j k. induction l as [|x l IH]; intros [|j] [|k]; try done. cbn. f_equal. apply IH. Qed.

Lemma succ_nonneg j rs : Forall (fun r => 0 <= r) rs -> Forall (fun r => 0 <= r) (alter Z.succ j rs).
Proof. intros Hrs. revert j. induction Hrs as [|x l Hx Hl IH]; intros [|j]; [constructor..| |]; cbn; constructor; auto. lia. Qed.

Lemma fs_iunlockput P rs tbl j ip dk ws o v s e (Q : unit -> world kst -> Prop) :
  txs d i dk ws (locked j (set_k_inodes tbl o)) ∅ v s -> fs_base o v -> tree_ok P v -> table_ok P v tbl -> Forall (fun r => 0 <= r) rs -> i_ref <$> tbl = alter Z.succ j rs ->
  tbl !! j = Some ip -> let tbl' := <[j := set_i_ref (i_ref ip - 1) ip]> tbl in
  (table_ok P v tbl' -> i_ref <$> tbl' = rs -> forall s', txs d i dk ws (set_k_inodes tbl' o) ∅ v s' -> Q tt (World s' e)) ->
  wp (iunlockput (Some j)) Q (World s e).
Proof.
  intros Hs Hbase Htree Ht Hrs Er Hip tbl' HQ. pose proof (held_pos _ _ _ _ Hrs Er Hip) as Hr. destruct (iput_keeps P v tbl j ip Ht Hip Hr Htree) as (H1 & H2 & H3).
  unfold iunlockput. wp_step. eapply (fs_iunlock j ip); [exact Hs|apply Hbase|exact Hip|done|]. intros s1 Hs1.
  eapply (fs_iput d i j ip); [exact Hs1|exact Hip|exact H1|]. intros s2 Hs2. apply HQ; [exact H2|unfold tbl'; by rewrite H3, Er, pred_succ|exact Hs2].
Qed.

(** The locked directory as the routines on files find it. *)
Lemma live_dir tbl j r n dk ws o v s : txs d i dk ws (locked j (set_k_inodes tbl o)) ∅ v s -> fs_base o v -> live_ok v n -> let ip := set_i_ref r (disk_inode d sb v n) in
  tbl !! j = Some ip -> i_type ip = T_DIR -> fstate d i j sb ls lz ds dk ws (locked j (set_k_inodes tbl o)) ∅ v ip s /\ dir_ok v ip.
Proof.
  intros Hs [B1 B2 B3 B4 B5 B6] [L1 L2 L3 [F1 F2 F3 F4 F5] [I1 I2 I3 I4 I5] L6 L7] ip Hip Ht. split; split; try done; try (by split). by apply L7.
Qed.

Section Loop.
Context (P : Z -> Prop) (v : Z -> list Z) (Htree : tree_ok P v) (dk : gmap Z (list Z)) (ws : list (Z * list Z)) (o : kst) (Hbase : fs_base o v) (parent : bool).
(** The references of others, and two entries that nobody refers to. *)
Context (refs : list Z) (Hrefs : Forall (fun r => 0 <= r) refs) (a b : nat) (Hab : a <> b) (Ha : refs !! a = Some 0) (Hb : refs !! b = Some 0).

Lemma free_entry tbl j : i_ref <$> tbl = alter Z.succ j refs -> exists k, i_ref <$> tbl !! k = Some 0.
Proof.
  intros E. destruct (decide (j = a)) as [->|Hne]; [exists b|exists a]; rewrite <- list_lookup_fmap, E, list_lookup_alter_ne; done.
Qed.

(** One step of the walk: the lookup in the locked directory [j], which is given
    up for the entry of the inode found. *)
Lemma fs_enter {B} (none : K B) (next : nat -> K B) m j r n name tbl s e (Q : B -> world kst -> Prop) :
  txs d i dk ws (locked j (set_k_inodes tbl o)) ∅ v s -> table_ok P v tbl -> i_ref <$> tbl = alter Z.succ j refs -> tbl !! j = Some (set_i_ref r (disk_inode d sb v n)) ->
  P n -> i_type (disk_inode d sb v n) = T_DIR -> length name = DIRSIZ -> io_ready i (6 * Z.to_nat (MAXFILE * BSIZE / 16) + m) e ->
  match dir_get (dirents (contents v (disk_inode d sb v n))) (fname name) with
  | None => forall tbl' s' e', txs d i dk ws (set_k_inodes tbl' o) ∅ v s' -> table_ok P v tbl' -> i_ref <$> tbl' = refs -> io_ready i m e' -> wp none Q (World s' e')
  | Some n' => forall j' ip' tbl' s' e', txs d i dk ws (set_k_inodes tbl' o) ∅ v s' -> table_ok P v tbl' -> i_ref <$> tbl' = alter Z.succ j' refs ->
      tbl' !! j' = Some ip' -> i_inum ip' = n' -> io_ready i m e' -> wp (next j') Q (World s' e')
  end ->
  wp (x ← dirlookup j name; match x with None => iunlockput (Some j);; none | Some (j', _) => iunlockput (Some j);; next j' end) Q (World s e).
Proof.
  intros Hs Ht Er Hip HP Ety Hname Hio HQ. destruct (Htree n HP) as [Hlive Hclosed]. set (ip := set_i_ref r (disk_inode d sb v n)) in *.
  destruct (live_dir tbl j r n dk ws o v s Hs Hbase Hlive Hip Ety) as [Hfs Hdir]. fold ip in Hfs, Hdir. destruct (dir_length v ip Hdir) as [_ Es].
  pose proof (io_size _ (do_inode _ _ Hdir)) as Hsz. assert (MAXFILE * BSIZE = 274432) as EM by reflexivity.
  wp_step. eapply (fs_dirlookup d Hdev i j sb ls lz ds Hgeom m); [exact Hfs|exact Hdir|rewrite Hname; unfold DIRSIZ; lia|apply Hbase| |].
  { eapply io_ready_le; [|exact Hio]. rewrite EM. change (274432 / 16) with 17152. lia. }
  assert (dir_get (dirents (contents v (disk_inode d sb v n))) (fname name) = (fun x => fst (snd x)) <$> dir_find (fname name) (dirents (contents v ip))) as Eget by done.
  specialize (Hclosed (fname name)). rewrite Eget in *. clear Eget.
  destruct (dir_find (fname name) (dirents (contents v ip))) as [[p x]|]; cbn [fmap option_fmap option_map fst snd] in *.
  2:{ intros s2 e2 Hs2 Hio2. wp_step. eapply (fs_iunlockput P refs tbl j ip); [apply Hs2|done..|]. intros H2 H3 s3 Hs3. by eapply HQ. }
  destruct (free_entry tbl j Er) as [k Hk]. destruct (iget_some tbl (fst x) k Hk) as (j2 & tbl2 & Eg). exists j2, tbl2. split; [exact Eg|]. intros s2 e2 Hs2 Hio2.
  destruct (iget_keeps P v tbl (fst x) j2 tbl2 Eg Ht (Hclosed _ Ety eq_refl)) as (Ht2 & Er2 & ip2 & Hip2 & Hd2 & Hn2). rewrite Er, succ_comm in Er2.
  assert (exists ip3, tbl2 !! j = Some ip3) as [ip3 Hip3].
  { apply lookup_lt_is_Some_2. apply (f_equal length) in Er2. rewrite length_fmap, !length_alter in Er2. rewrite Er2. apply (f_equal length) in Er.
    rewrite length_fmap, length_alter in Er. rewrite <- Er. by eapply lookup_lt_Some. }
  change (txs d i dk ws (locked j (set_k_inodes tbl2 o)) ∅ v s2) in Hs2.
  wp_step. eapply (fs_iunlockput P (alter Z.succ j2 refs) tbl2 j ip3); [exact Hs2|done|done|exact Ht2|by apply succ_nonneg|exact Er2|exact Hip3|].
  intros Ht3 Er3 s3 Hs3.
  assert (exists ip4, <[j := set_i_ref (i_ref ip3 - 1) ip3]> tbl2 !! j2 = Some ip4 /\ i_inum ip4 = fst x) as (ip4 & Hip4 & Hn4).
  { destruct (decide (j = j2)) as [->|Hne]; [|exists ip2; by rewrite list_lookup_insert_ne]. simplify_eq. eexists. split; [apply list_lookup_insert_eq; by eapply lookup_lt_Some|done]. }
  by eapply HQ.
Qed.

Lemma fs_namex_loop (fuel : nat) : forall m j path name tbl ip s e (Q : option nat * list Z -> world kst -> Prop),
  (length path < fuel)%nat -> length name = DIRSIZ -> txs d i dk ws (set_k_inodes tbl o) ∅ v s -> table_ok P v tbl -> i_ref <$> tbl = alter Z.succ j refs ->
  tbl !! j = Some ip -> io_ready i (fuel * round_io + m) e ->
  (forall tbl' r name' s' e', txs d i dk ws (set_k_inodes tbl' o) ∅ v s' -> table_ok P v tbl' -> resolved refs (resolve v parent (i_inum ip) (elems path)) r tbl' ->
     (parent = true -> r <> None -> list.last (elems path) = Some (fname name')) -> io_ready i m e' -> Q (r, name') (World s' e')) ->
  wp (namex_loop fuel j path parent name) Q (World s e).
Proof.
  induction fuel as [|fuel IH]; intros m j path name tbl ip s e Q Hfuel Hname Hs Ht Er Hip Hio HQ; [lia|]. cbn [namex_loop].
  pose proof (held_pos _ _ _ _ Hrefs Er Hip) as Hr. pose proof (Forall_lookup_1 _ _ _ _ Ht Hip) as He. destruct (proj2 He Hr) as (Hd & HP & _). set (n := i_inum ip) in *.
  destruct (Htree n HP) as [Hlive Hclosed]. assert (io_ready i m e) as Hio0 by (eapply io_ready_le; [|exact Hio]; lia).
  pose proof (skipelem_spec path name Hname) as Hsk. destruct (skipelem path name) as [[path' name']|]; [destruct Hsk as (Eel & Hname' & Hlen & Hnil)|].
  2:{ rewrite Hsk in HQ. cbn [resolve] in HQ. destruct parent.
      - destruct (iput_keeps P v tbl j ip Ht Hip Hr Htree) as (H1 & H2 & H3). wp_step. eapply (fs_iput d i j ip); [exact Hs|exact Hip|exact H1|]. intros s1 Hs1. wp_step.
        eapply (HQ (<[j := set_i_ref (i_ref ip - 1) ip]> tbl)); [exact Hs1|exact H2| |done|done]. split; [done|]. by rewrite H3, Er, pred_succ.
      - wp_step. eapply HQ; [exact Hs|exact Ht| |done|done]. exists j, ip. by split_and!. }
  rewrite Eel in HQ. cbn [resolve] in HQ. match type of HQ with context [resolved refs ?g] => set (G := g) in HQ end.
  wp_step. eapply (fs_ilock P j ip (6 * Z.to_nat (MAXFILE * BSIZE / 16) + (fuel * round_io + m))); [exact Hs|by destruct Hbase|exact Hip|exact He|done|done| |].
  { eapply io_ready_le; [|exact Hio]. unfold round_io. lia. }
  fold n. intros s1 e1 Hs1 Hio1. destruct (load_keeps P v tbl j ip Ht Hip Hr) as (Ht1 & Er1 & Hip1). fold n in Ht1, Er1, Hip1. rewrite Er in Er1.
  set (ip1 := set_i_ref (i_ref ip) (disk_inode d sb v n)) in *. set (tbl1 := <[j := ip1]> tbl) in *.
  change (txs d i dk ws (locked j (set_k_inodes tbl1 o)) ∅ v s1) in Hs1.
  assert (forall s2 e2, txs d i dk ws (locked j (set_k_inodes tbl1 o)) ∅ v s2 -> io_ready i m e2 -> G = None ->
    wp (iunlockput (Some j);; mret (None, name')) Q (World s2 e2)) as Hfail.
  { intros s2 e2 Hs2 Hio2 EG. wp_step. eapply (fs_iunlockput P refs tbl1 j ip1); [exact Hs2|done|done|done|done|done|done|].
    intros H2 H3 s3 Hs3. wp_step. eapply HQ; [exact Hs3|exact H2|by rewrite EG|done|done]. }
  wp_step. eapply (tx_inode_at d i j); [exact Hs1|exact Hip1|]. change (i_type ip1) with (i_type (disk_inode d sb v n)).
  destruct (i_type (disk_inode d sb v n) =? T_DIR) eqn:Ety; cbn [negb] in *.
  2:{ apply Hfail; [done| |done]. eapply io_ready_le; [|exact Hio1]. lia. }
  bool_facts. assert (bool_decide (path' = []) = bool_decide (elems path' = [])) as -> by (by apply bool_decide_ext).
  destruct (parent && bool_decide (elems path' = [])) eqn:Epar.
  { apply andb_true_iff in Epar as [-> Enil%bool_decide_eq_true]. wp_step. eapply (fs_iunlock j ip1); [exact Hs1|apply Hbase|exact Hip1|exact Hr|]. intros s2 Hs2. wp_step.
    eapply HQ; [exact Hs2|exact Ht1| |intros _ _; by rewrite Enil|eapply io_ready_le; [|exact Hio1]; lia]. exists j, ip1. by split_and!. }
  eapply (fs_enter _ (fun j' => namex_loop fuel j' path' parent name') (fuel * round_io + m) j (i_ref ip) n name' tbl1); [exact Hs1|done..|].
  unfold G in *. clear G Hfail. destruct (dir_get (dirents (contents v (disk_inode d sb v n))) (fname name')) as [n'|].
  - intros j' ip' tbl' s2 e2 Hs2 Ht2 Er2 Hip2 <- Hio2. eapply (IH m j' path' name' tbl' ip'); [lia|done..|].
    intros tbl2 r name2 s4 e4 Hs4 Ht4 Hres Hlast Hio4. eapply HQ; [exact Hs4|exact Ht4|exact Hres| |exact Hio4]. intros Hp Hr2. rewrite last_cons. by rewrite (Hlast Hp Hr2).
  - intros tbl' s2 e2 Hs2 Ht2 Er2 Hio2. wp_step. eapply HQ; [exact Hs2|exact Ht2|by split|done|]. eapply io_ready_le; [|exact Hio2]. lia.
Qed.
End Loop.

(** ** [namex] *)

(** Where the walk starts: the root directory, or the current directory of the
    process. *)
Definition starts_at (P : Z -> Prop) (o : kst) (path : list Z) (n : Z) : Prop :=
  if bool_decide (head path = Some (chr "/")) then d = ROOTDEV /\ n = ROOTINO /\ P ROOTINO
  else exists p c ip, k_procs o !! i = Some p /\ p_cwd p = Some c /\ k_inodes o !! c = Some ip /\ 0 < i_ref ip /\ n = i_inum ip.

Lemma tx_proc p dk ws o h v s : txs d i dk ws o h v s -> k_procs o !! i = Some p -> exists p', k_procs s !! i = Some p' /\ p_cwd p' = p_cwd p.
Proof.
  intros (a & Hc & _) Hp. rewrite <- (cst_out _ _ _ _ _ _ _ Hc) in Hp. change (k_procs (outside s)) with (strip <$> k_procs s) in Hp.
  rewrite list_lookup_fmap in Hp. destruct (k_procs s !! i) as [p'|]; [|done]. cbn in Hp. injection Hp as <-. by exists p'.
Qed.

Lemma fs_idup P j ip dk ws o h v s e (Q : option nat -> world kst -> Prop) : txs d i dk ws o h v s -> table_ok P v (k_inodes o) -> k_inodes o !! j = Some ip -> 0 < i_ref ip ->
  (forall s' tbl', txs d i dk ws (set_k_inodes tbl' o) h v s' -> table_ok P v tbl' -> i_ref <$> tbl' = alter Z.succ j (i_ref <$> k_inodes o) ->
     tbl' !! j = Some (set_i_ref (i_ref ip + 1) ip) -> Q (Some j) (World s' e)) -> wp (idup (Some j)) Q (World s e).
Proof.
  intros Hs Ht Hip Hr HQ. pose proof (Forall_lookup_1 _ _ _ _ Ht Hip) as [_ He]. destruct (He Hr) as (Hd & Hn & Hor).
  unfold idup. wp_step. apply wp_acquire; [eapply calm_lock_free; by eapply txs_calm|]. cbn [st env inode_ptr]. do 2 wp_step. unfold modify_inode. do 2 wp_step. cbn [st env].
  change (k_inodes (acquired L_itable s)) with (k_inodes s). rewrite (txs_inodes _ _ _ _ _ _ _ _ Hs), (alter_insert _ _ _ _ Hip).
  wp_step. eapply tx_itable_section; [exact Hs|]. intros s' Hs'. wp_step. eapply HQ; [exact Hs'|..].
  - apply Forall_insert; [done|]. split; [cbn; lia|]. intros _. split_and!; [done|done|]. destruct Hor as [E|?]; [left|by right]. exact (f_equal (set_i_ref (i_ref ip + 1)) E).
  - rewrite list_fmap_insert. rewrite (alter_insert Z.succ _ _ (i_ref ip)); [done|]. by rewrite list_lookup_fmap, Hip.
  - apply list_lookup_insert_eq. by eapply lookup_lt_Some.
Qed.

Lemma table_refs P v tbl : table_ok P v tbl -> Forall (fun r => 0 <= r) (i_ref <$> tbl).
Proof. intros Ht. apply Forall_fmap. eapply list.Forall_impl; [exact Ht|]. intros ip [? _]. done. Qed.

(** The first step of [namex]: a reference on the directory to start from. *)
Lemma fs_start {B} P path n (k : nat -> K B) dk ws o v s e (Q : B -> world kst -> Prop) (a : nat) :
  txs d i dk ws o ∅ v s -> table_ok P v (k_inodes o) -> starts_at P o path n -> i_ref <$> k_inodes o !! a = Some 0 ->
  (forall j ip tbl s', txs d i dk ws (set_k_inodes tbl o) ∅ v s' -> table_ok P v tbl -> i_ref <$> tbl = alter Z.succ j (i_ref <$> k_inodes o) -> tbl !! j = Some ip ->
     i_inum ip = n -> wp (k j) Q (World s' e)) ->
  wp ((if bool_decide (head path = Some (chr "/")) then iget ROOTDEV ROOTINO
       else me ← this_proc; p ← proc_at me; ip ← idup (p_cwd p); inode_ptr ip) ≫= k) Q (World s e).
Proof.
  intros Hs Ht Hst Ha HQ. unfold starts_at in Hst. wp_step. destruct (bool_decide (head path = Some (chr "/"))).
  - destruct Hst as (<- & -> & HP). destruct (iget_some (k_inodes o) ROOTINO a Ha) as (j & tbl & Eg). destruct (iget_keeps P v _ _ _ _ Eg Ht HP) as (H1 & H2 & ip & H3 & _ & H4).
    eapply fs_iget; [exact Hs|exact Eg|]. intros s' Hs'. by eapply HQ.
  - destruct Hst as (p & c & ip & Hp & Hcwd & Hip & Hr & ->). pose proof (txs_calm _ _ _ _ _ _ _ _ Hs) as (Hi & _ & Hcp & _).
    wp_step. apply (wp_this_proc i); [done|done|]. cbn [st env]. pose proof (txs_settle d i _ _ _ _ _ _ Hs) as Hs1. destruct (tx_proc p _ _ _ _ _ _ Hs1 Hp) as (p' & Hp' & Ecwd).
    wp_step. unfold proc_at. do 2 wp_step. apply wp_nth with p'; [exact Hp'|]. wp_step. rewrite Ecwd, Hcwd. eapply (fs_idup P c ip); [exact Hs1|done|done|done|].
    intros s' tbl' Hs' H1 H2 H3. cbn [inode_ptr]. wp_step. by eapply HQ.
Qed.

Lemma fs_namex P path parent name n dk ws o v s e (a b : nat) (Q : option nat * list Z -> world kst -> Prop) :
  txs d i dk ws o ∅ v s -> fs_base o v -> tree_ok P v -> table_ok P v (k_inodes o) -> starts_at P o path n -> length name = DIRSIZ ->
  a <> b -> i_ref <$> k_inodes o !! a = Some 0 -> i_ref <$> k_inodes o !! b = Some 0 -> io_ready i (S (length path) * round_io) e ->
  (forall x tbl s' e', txs d i dk ws (set_k_inodes tbl o) ∅ v s' -> table_ok P v tbl -> resolved (i_ref <$> k_inodes o) (resolve v parent n (elems path)) (fst x) tbl ->
    (parent = true -> fst x <> None -> list.last (elems path) = Some (fname (snd x))) -> Q x (World s' e')) ->
  wp (namex path parent name) Q (World s e).
Proof.
  intros Hs Hbase Htree Ht Hst Hname Hab Ha Hb Hio HQ. unfold namex. eapply (fs_start P path n _ _ _ _ _ _ _ _ a); [exact Hs|done|exact Hst|done|].
  intros j ip tbl s' Hs' Ht' Er Hip <-. rewrite <- list_lookup_fmap in Ha, Hb.
  eapply (fs_namex_loop P v Htree dk ws o Hbase parent (i_ref <$> k_inodes o) (table_refs P v _ Ht) a b Hab Ha Hb _ 0 j path name tbl ip); [lia|done..|by rewrite Nat.add_0_r|].
  intros tbl' r name' s2 e2 Hs2 Ht2 Hres Hlast _. by eapply (HQ (r, name')).
Qed.

(** C5: [namex] resolves a path.  In a well-formed tree of directories it returns
    an inode exactly when the elements of the path, from the root or the current
    directory, name one (its directory, for [nameiparent], with the last name in
    the caller's array).  The caller then has one reference more on the entry of
    that inode, and otherwise every reference count is as before; all locks are
    free again. *)
Theorem namex_correct P path parent name n dk ws o v s e (a b : nat) :
  txs d i dk ws o ∅ v s -> fs_base o v -> tree_ok P v -> table_ok P v (k_inodes o) -> starts_at P o path n -> length name = DIRSIZ ->
  a <> b -> i_ref <$> k_inodes o !! a = Some 0 -> i_ref <$> k_inodes o !! b = Some 0 -> io_ready i (S (length path) * round_io) e ->
  wp (namex path parent name) (fun x w => exists tbl, txs d i dk ws (set_k_inodes tbl o) ∅ v (st w) /\ table_ok P v tbl /\
    resolved (i_ref <$> k_inodes o) (resolve v parent n (elems path)) (fst x) tbl /\
    (parent = true -> fst x <> None -> list.last (elems path) = Some (fname (snd x)))) (World s e).
Proof.
  intros Hs Hbase Htree Ht Hst Hname Hab Ha Hb Hio. eapply (fs_namex P path parent name n _ _ _ _ _ _ a b); [done..|]. intros x tbl s' e' H1 H2 H3 H4. by exists tbl.
Qed.
End Path.

(** ** The small tree *)

Lemma tree_inodes : disk_inode 1 demo_sb (disk_block tree_fs) 1 = root_ip /\ disk_inode 1 demo_sb (disk_block tree_fs) 2 = demo_ip.
Proof. split; vm_compute; reflexivity. Qed.

Lemma tree_live n : n = 1 \/ n = 2 -> live_ok 1 demo_sb 2 30 46 (disk_block tree_fs) n.
Proof.
  destruct tree_inodes as [E1 E2]. intros [-> | ->]; split; rewrite ?E1, ?E2.
  - apply tree_root.
  - discriminate.
  - discriminate.
  - apply tree_root.
  - apply tree_root.
  - apply tree_root.
  - intros _. reflexivity.
  - exact demo_iblock.
  - discriminate.
  - discriminate.
  - exact tree_file.
  - split; vm_compute; (split; congruence).
  - intros p Hp. cbn in Hp. lia.
  - discriminate.
Qed.

Lemma tree_closed : tree_ok 1 demo_sb 2 30 46 (fun n => n = 1 \/ n = 2) (disk_block tree_fs).
Proof.
  intros n Hn. split; [by apply tree_live|]. destruct tree_inodes as [E1 E2]. intros nm n'. destruct Hn as [-> | ->]; rewrite ?E1, ?E2; [intros _|discriminate].
  rewrite tree_entries. unfold dir_get, dir_find. destruct (list_find _ _) as [[k x]|] eqn:E; [|discriminate]. apply list_find_Some in E as (Hk & _).
  intros [= <-]. destruct k as [|[|[|k]]]; [injection Hk as <-..|discriminate]; cbn; lia.
Qed.

Lemma tree_table_ok : table_ok 1 demo_sb (fun n => n = 1 \/ n = 2) (disk_block tree_fs) tree_table.
Proof.
  repeat apply Forall_cons_2; [..|apply Forall_nil_2]; split; cbn; try lia. intros _. split; [reflexivity|]. split; [by left|]. left. by rewrite (proj1 tree_inodes).
Qed.

#[local] Existing Instance ideal_disk.

Lemma kst_tree_base : exists o, txs 1 0 tree_fs [] o ∅ (disk_block tree_fs) kst_tree_tx /\ fs_base demo_sb 2 30 46 o (disk_block tree_fs) /\ k_inodes o = tree_table.
Proof.
  destruct kst_tree_tx_state as (o & [H1 H2 H3 H4 H5 H6 H7] & Elog & Etbl & El). exists o. split; [exact H1|]. split; [|exact Etbl].
  split; try assumption.
  - rewrite Elog. reflexivity.
  - intros j. rewrite El. apply lookup_empty.
Qed.

Lemma namex_correct_witness :
  wp (namex [47; 97] false (replicate DIRSIZ 0)) (fun x w => exists j ip, fst x = Some j /\ k_inodes (st w) !! j = Some ip /\ i_inum ip = 2 /\
    i_ref <$> k_inodes (st w) = alter Z.succ j [1; 0; 0]) (World kst_tree_tx []).
Proof.
  destruct kst_tree_base as (o & Hs & Hbase & Etbl).
  eapply wp_mono; [apply (namex_correct 1 ltac:(lia) 0 demo_sb 2 30 46 demo_fs_geom (fun n => n = 1 \/ n = 2) [47; 97] false (replicate DIRSIZ 0) 1
    tree_fs [] o (disk_block tree_fs) kst_tree_tx [] 1 2 Hs Hbase tree_closed)|]; rewrite ?Etbl.
  - exact tree_table_ok.
  - split; [reflexivity|]. split; [reflexivity|by left].
  - reflexivity.
  - discriminate.
  - reflexivity.
  - reflexivity.
  - done.
  - intros x w (tbl & Htx & _ & Hres & _). assert (resolve 1 demo_sb (disk_block tree_fs) false 1 (elems [47; 97]) = Some 2) as E by (vm_compute; reflexivity).
    rewrite E in Hres. destruct Hres as (j & ip & Hx & Hip & _ & Hn & Er). exists j, ip. rewrite (txs_inodes _ _ _ _ _ _ _ _ Htx).
    split; [exact Hx|]. split; [exact Hip|]. split; [exact Hn|exact Er].
Defined.
