(* ===== verification/Mkfs.v ===== *)
(** * mkfs/mkfs.c: the program that builds the disk image

    A program of the build machine.  The image is a file of 1024-byte sectors;
    calls of the host (open, lseek, read, write) may fail, which is decided by a
    list of answers in the state.  The input files are given by the pieces that
    the calls of [read] return.  A failed host call ends in [die] ([HExit 1]), a
    failed assertion in [HAbort].  Messages are not modelled. *)

From S2P Require Import Prelude State Log Fs FsWrite.

(** ** The state *)

Definition FSSIZE : Z := 2000.
Definition NINODES : Z := 200.

Definition nbitmap : Z := FSSIZE / (BSIZE * 8) + 1.
Definition ninodeblocks : Z := NINODES / IPB + 1.
Definition nlog : Z := LOGSIZE.

Record mkst := mkmkst {
  m_img : gmap Z (list Z);   (* sectors of the image file *)
  m_len : Z;                 (* its length in sectors *)
  m_sb : superblock;
  m_freeinode : Z;
  m_freeblock : Z;
  m_host : list bool;        (* does the next call of the host succeed? *)
  m_failed : bool            (* did one fail? *)
}.

Definition set_img (img : gmap Z (list Z)) (len : Z) (s : mkst) : mkst :=
  mkmkst img len (m_sb s) (m_freeinode s) (m_freeblock s) (m_host s) (m_failed s).
Definition set_sb (sb : superblock) (s : mkst) : mkst :=
  mkmkst (m_img s) (m_len s) sb (m_freeinode s) (m_freeblock s) (m_host s) (m_failed s).
Definition set_freeinode (n : Z) (s : mkst) : mkst :=
  mkmkst (m_img s) (m_len s) (m_sb s) n (m_freeblock s) (m_host s) (m_failed s).
Definition set_freeblock (n : Z) (s : mkst) : mkst :=
  mkmkst (m_img s) (m_len s) (m_sb s) (m_freeinode s) n (m_host s) (m_failed s).
Definition set_host (h : list bool) (f : bool) (s : mkst) : mkst :=
  mkmkst (m_img s) (m_len s) (m_sb s) (m_freeinode s) (m_freeblock s) h f.

(** ** Computations of the host program *)

Inductive hres (A : Type) : Type :=
| HDone (a : A) (s : mkst)
| HExit (code : Z) (s : mkst)
| HAbort (what : string).
Arguments HDone {A}. Arguments HExit {A}. Arguments HAbort {A}.

Definition H (A : Type) : Type := mkst -> hres A.

#[global] Instance H_ret : MRet H := fun A a s => HDone a s.
#[global] Instance H_bind : MBind H := fun A B k c s =>
  match c s with
  | HDone a s => k a s
  | HExit code s => HExit code s
  | HAbort what => HAbort what
  end.

Definition hgets {A} (f : mkst -> A) : H A := fun s => HDone (f s) s.
Definition hmodify (f : mkst -> mkst) : H unit := fun s => HDone tt (f s).
Definition hassert (b : bool) (what : string) : H unit := if b then mret tt else fun _ => HAbort what.
Definition exit1 {A} : H A := fun s => HExit 1 s.

Definition die {A} : H A := exit1.

(** The next call of the host. *)
Definition host : H bool := fun s =>
  match m_host s with
  | [] => HDone true s
  | true :: h => HDone true (set_host h (m_failed s) s)
  | false :: h => HDone false (set_host h true s)
  end.

(** ** The program *)

(** Byte order of the target; [x] of the host is little endian too. *)
Definition xshort (x : Z) : Z := le_val (le_bytes 2 x).
Definition xint (x : Z) : Z := le_val (le_bytes 4 x).

Definition zeroes : list Z := replicate BSIZE 0.

Definition wsect (sec : Z) (buf : list Z) : H unit :=
  ok ← host;
  if negb ok then die else
  ok ← host;
  if negb ok then die else
  hmodify (fun s => let n := u32 (sec * BSIZE) / BSIZE in
    set_img (<[n := buf]> (m_img s)) (Z.max (m_len s) (n + 1)) s).

(** A read behind the end of the file returns fewer bytes, a hole reads as 0. *)
Definition rsect (sec : Z) : H (list Z) :=
  ok ← host;
  if negb ok then die else
  ok ← host;
  if negb ok then die else
  s ← hgets id;
  let n := u32 (sec * BSIZE) / BSIZE in
  if n <? m_len s then mret (default zeroes (m_img s !! n)) else die.

(** [struct dinode] *)
Record dinode := mkdinode {
  d_type : Z;
  d_major : Z;
  d_minor : Z;
  d_nlink : Z;
  d_size : Z;
  d_addrs : list Z
}.

(** An in-memory inode with these fields; the structure at [off] of a block. *)
Definition of_dinode (inum : Z) (din : dinode) : inode :=
  mkinode 1 inum 1 1 (d_type din) (d_major din) (d_minor din) (d_nlink din) (d_size din) (d_addrs din).
Definition get_dinode (off : nat) (b : list Z) : dinode :=
  mkdinode (dip_short off b) (dip_short (off + 2) b) (dip_short (off + 4) b) (dip_short (off + 6) b) (get_le 4 (off + 8) b) (dip_addrs off b).

Definition winode (inum : Z) (ip : dinode) : H unit :=
  sb ← hgets m_sb;
  let bn := IBLOCK inum sb in
  buf ← rsect bn;
  wsect bn (put_dinode (dinode_off inum) (of_dinode inum ip) buf).

Definition rinode (inum : Z) : H dinode :=
  sb ← hgets m_sb;
  let bn := IBLOCK inum sb in
  buf ← rsect bn;
  mret (get_dinode (dinode_off inum) buf).

Definition ialloc (type : Z) : H Z :=
  inum ← hgets m_freeinode;
  hmodify (set_freeinode (u32 (inum + 1)));;
  winode inum (mkdinode (xshort type) 0 0 (xshort 1) (xint 0) (replicate (S NDIRECT) 0));;
  mret inum.

(** The block [balloc] writes: the first [used] bits set. *)
Fixpoint bitmap (used : nat) : list Z :=
  match used with
  | O => zeroes
  | S i => alter (fun x => Z.lor x (Z.shiftl 1 (Z.of_nat i mod 8))) (i / 8)%nat (bitmap i)
  end.

Definition balloc (used : Z) : H unit :=
  hassert (used <? BSIZE * 8) "used < BSIZE*8";;
  sb ← hgets m_sb;
  wsect (sb_bmapstart sb) (bitmap (Z.to_nat used)).

(** [freeblock++] *)
Definition next_block : H Z :=
  c ← hgets m_freeblock;
  hmodify (set_freeblock (u32 (c + 1)));;
  mret c.

Definition din_set_addr (k : nat) (a : Z) (din : dinode) : dinode :=
  mkdinode (d_type din) (d_major din) (d_minor din) (d_nlink din) (d_size din) (<[k := a]> (d_addrs din)).
Definition din_set_size (n : Z) (din : dinode) : dinode :=
  mkdinode (d_type din) (d_major din) (d_minor din) (d_nlink din) n (d_addrs din).

(** The address of [fbn], allocated if there is none. *)
Definition fill_addr (k : nat) (din : dinode) : H dinode :=
  if xint (nth k (d_addrs din) 0) =? 0 then
    c ← next_block;
    mret (din_set_addr k (xint c) din)
  else mret din.

(** Entry [k] of the indirect block, allocated if there is none. *)
Definition ind_entry (k : nat) (din : dinode) : H Z :=
  let ind := xint (nth NDIRECT (d_addrs din) 0) in
  indirect ← rsect ind;
  indirect ← (if word indirect k =? 0 then
                c ← next_block;
                let indirect := set_word k (xint c) indirect in
                wsect ind indirect;;
                mret indirect
              else mret indirect);
  mret (xint (word indirect k)).

Definition file_block (fbn : Z) (din : dinode) : H (dinode * Z) :=
  if fbn <? NDIRECT then
    din ← fill_addr (Z.to_nat fbn) din;
    mret (din, xint (nth (Z.to_nat fbn) (d_addrs din) 0))
  else
    din ← fill_addr NDIRECT din;
    x ← ind_entry (Z.to_nat fbn - NDIRECT) din;
    mret (din, x).

Fixpoint iappend_loop (fuel : nat) (din : dinode) (off : Z) (p : list Z) (n : Z) : H (dinode * Z) :=
  match fuel with
  | O => fun _ => HAbort "iappend: out of fuel"
  | S fuel =>
      if 0 <? n then
        let fbn := off / BSIZE in
        hassert (fbn <? MAXFILE) "fbn < MAXFILE";;
        y ← file_block fbn din;
        let n1 := Z.min n ((fbn + 1) * BSIZE - off) in
        buf ← rsect (snd y);
        wsect (snd y) (patch (Z.to_nat (off - fbn * BSIZE)) (take (Z.to_nat n1) p) buf);;
        iappend_loop fuel (fst y) (off + n1) (drop (Z.to_nat n1) p) (n - n1)
      else mret (din, off)
  end.

Definition iappend (inum : Z) (xp : list Z) (n : Z) : H unit :=
  din ← rinode inum;
  y ← iappend_loop (S (Z.to_nat n)) din (xint (d_size din)) xp n;
  winode inum (din_set_size (xint (snd y)) (fst y)).

(** [struct dirent] with a name of at most [DIRSIZ] characters. *)
Definition mkdirent (inum : Z) (name : list Z) : list Z :=
  le_bytes 2 (xshort inum) ++ take DIRSIZ (name ++ replicate DIRSIZ 0).

Fixpoint forall_sect (n : nat) : H unit :=
  match n with
  | O => mret tt
  | S n => forall_sect n;; wsect n zeroes
  end.

(** [while((cc = read(fd, buf, sizeof(buf))) > 0) iappend(inum, buf, cc);] *)
Fixpoint copy_file (inum : Z) (pieces : list (list Z)) : H unit :=
  match pieces with
  | [] => mret tt
  | buf :: pieces =>
      if (0 <? length buf)%nat then
        iappend inum buf (length buf);;
        copy_file inum pieces
      else mret tt
  end.

Definition starts_user (a : list Z) : bool := bool_decide (take 5 a = bytes "user/").

Definition short_name (a : list Z) : list Z := if starts_user a then drop 5 a else a.
Definition skip_underscore (a : list Z) : list Z :=
  match a with
  | c :: rest => if c =? chr "_" then rest else a
  | [] => []
  end.

(** One argument of the command line; [read_file] gives the pieces in which the
    host returns the contents, [None] if the file cannot be opened. *)
Section Main.
Variable read_file : list Z -> option (list (list Z)).

Definition add_file (rootino : Z) (arg : list Z) : H unit :=
  let shortname := short_name arg in
  hassert (negb (bool_decide (chr "/" ∈ shortname))) "index(shortname, '/') == 0";;
  ok ← host;
  if negb ok then die else
  match read_file arg with
  | None => die
  | Some pieces =>
      inum ← ialloc T_FILE;
      iappend rootino (mkdirent inum (skip_underscore shortname)) 16;;
      copy_file inum pieces
  end.

Fixpoint add_files (rootino : Z) (args : list (list Z)) : H unit :=
  match args with
  | [] => mret tt
  | a :: args => add_file rootino a;; add_files rootino args
  end.

Definition fix_root (rootino : Z) : H unit :=
  din ← rinode rootino;
  let off := xint (d_size din) in
  let off := u32 ((off / BSIZE + 1) * BSIZE) in
  winode rootino (din_set_size (xint off) din).

(** The super block, and its bytes. *)
Definition mkfs_sb : superblock :=
  let nmeta := 2 + nlog + ninodeblocks + nbitmap in
  mksb FSMAGIC (xint FSSIZE) (xint (FSSIZE - nmeta)) (xint NINODES) (xint nlog) (xint 2) (xint (2 + nlog)) (xint (2 + nlog + ninodeblocks)).
Definition sb_bytes (sb : superblock) : list Z :=
  mjoin (le_bytes 4 <$> [sb_magic sb; sb_size sb; sb_nblocks sb; sb_ninodes sb; sb_nlog sb; sb_logstart sb; sb_inodestart sb; sb_bmapstart sb]).

Definition main (argv : list (list Z)) : H Z :=
  match argv with
  | _ :: _ :: args =>
      ok ← host;
      if negb ok then die else
      hmodify (set_img ∅ 0);;
      let nmeta := 2 + nlog + ninodeblocks + nbitmap in
      hmodify (set_sb mkfs_sb);;
      hmodify (set_freeblock nmeta);;
      forall_sect (Z.to_nat FSSIZE);;
      sb ← hgets m_sb;
      wsect 1 (patch 0 (sb_bytes sb) zeroes);;
      rootino ← ialloc T_DIR;
      hassert (rootino =? ROOTINO) "rootino == ROOTINO";;
      iappend rootino (mkdirent rootino (bytes ".")) 16;;
      iappend rootino (mkdirent rootino (bytes "..")) 16;;
      add_files rootino args;;
      fix_root rootino;;
      f ← hgets m_freeblock;
      balloc f;;
      mret 0
  | _ => exit1
  end.
End Main.
