(* ===== verification/MkfsSpec.v ===== *)
(** * The image mkfs builds

    [main] of mkfs/mkfs.c either dies, because a call of the host failed or the
    disk is full, or leaves an image that is a well-formed file system in the
    sense of the theorems about kernel/fs.c, with the given files in it. *)

From Stdlib Require Import FunctionalExtensionality.
From S2P Require Import Prelude State Cache Log LogSpec Fs FsTx FsAlloc FsFile FsWrite Mkfs.

(** ** Reasoning about the program *)

(** A death the program does not have to explain. *)
Definition excused (s : mkst) : Prop := m_failed s = true \/ FSSIZE < m_freeblock s.

Definition hspec {A} (c : H A) (Q : A -> mkst -> Prop) (s : mkst) : Prop :=
  match c s with
  | HDone a s' => Q a s'
  | HExit code s' => code = 1 /\ excused s'
  | HAbort _ => False
  end.

Lemma hspec_bind {A B} (c : H A) (k : A -> H B) Q s : hspec c (fun a s' => hspec (k a) Q s') s -> hspec (c ≫= k) Q s.
Proof. unfold hspec, mbind, H_bind. by destruct (c s). Qed.

Lemma hspec_mono {A} (c : H A) (Q R : A -> mkst -> Prop) s : hspec c Q s -> (forall a s', Q a s' -> R a s') -> hspec c R s.
Proof. unfold hspec. destruct (c s); auto. Qed.

Lemma hspec_ret {A} (a : A) (Q : A -> mkst -> Prop) s : Q a s -> hspec (mret a) Q s.
Proof. done. Qed.
Lemma hspec_gets {A} (f : mkst -> A) (Q : A -> mkst -> Prop) s : Q (f s) s -> hspec (hgets f) Q s.
Proof. done. Qed.
Lemma hspec_modify f (Q : unit -> mkst -> Prop) s : Q tt (f s) -> hspec (hmodify f) Q s.
Proof. done. Qed.
Lemma hspec_assert b what (Q : unit -> mkst -> Prop) s : b = true -> Q tt s -> hspec (hassert b what) Q s.
Proof. by intros ->. Qed.

Ltac h_step :=
  lazymatch goal with
  | |- hspec (_ ≫= _) _ _ => apply hspec_bind
  | |- hspec (mret _) _ _ => apply hspec_ret
  | |- hspec (hgets _) _ _ => apply hspec_gets
  | |- hspec (hmodify _) _ _ => apply hspec_modify
  end.

(** A call of the host: the rest of the state is the same. *)
Definition same (s s' : mkst) : Prop := exists h f, s' = set_host h f s.

Lemma same_refl s : same s s.
Proof. exists (m_host s), (m_failed s). by destruct s. Qed.
Lemma same_trans s1 s2 s3 : same s1 s2 -> same s2 s3 -> same s1 s3.
Proof. intros (h & f & ->) (h' & f' & ->). by exists h', f'. Qed.

Lemma hspec_host {A} (k : H A) Q s : (forall s', same s s' -> hspec k Q s') ->
  hspec (ok ← host; if negb ok then die else k) Q s.
Proof.
  intros Hk. h_step. unfold hspec at 1, host. destruct (m_host s) as [|[] h] eqn:E; cbn [negb].
  - apply Hk, same_refl.
  - apply Hk. by exists h, (m_failed s).
  - unfold hspec, die, exit1. split; [done|by left].
Qed.

Definition sector_ok (sec : Z) : Prop := 0 <= sec < 4194304.

Lemma sector_val sec : sector_ok sec -> u32 (sec * BSIZE) / BSIZE = sec.
Proof. intros Hs. unfold sector_ok in Hs. rewrite u32_small by (unfold BSIZE; lia). apply Z.div_mul. unfold BSIZE. lia. Qed.

Lemma hspec_wsect sec buf s (Q : unit -> mkst -> Prop) : sector_ok sec ->
  (forall s', same (set_img (<[sec := buf]> (m_img s)) (Z.max (m_len s) (sec + 1)) s) s' -> Q tt s') -> hspec (wsect sec buf) Q s.
Proof.
  intros Hs HQ. unfold wsect. apply hspec_host. intros s1 (h1 & f1 & ->). apply hspec_host. intros s2 (h2 & f2 & ->). h_step. rewrite sector_val by done.
  apply HQ. by exists h2, f2.
Qed.

Lemma hspec_rsect sec s (Q : list Z -> mkst -> Prop) : sector_ok sec -> (m_len s <= sec -> FSSIZE < m_freeblock s) ->
  (forall s', same s s' -> sec < m_len s -> Q (default zeroes (m_img s !! sec)) s') -> hspec (rsect sec) Q s.
Proof.
  intros Hs Hx HQ. unfold rsect. apply hspec_host. intros s1 (h1 & f1 & ->). apply hspec_host. intros s2 (h2 & f2 & ->). h_step. h_step.
  rewrite sector_val by done. cbn. destruct (Z.ltb_spec sec (m_len s)) as [Hlt|Hge].
  - h_step. apply HQ; [by exists h2, f2|done].
  - unfold hspec, die, exit1. split; [done|]. right. by apply Hx.
Qed.

Lemma xint_val x : xint x = u32 x.
Proof. unfold xint. by rewrite le_val_bytes. Qed.
Lemma xint_small x : 0 <= x < 4294967296 -> xint x = x.
Proof. intros Hx. rewrite xint_val. by apply u32_small. Qed.

(** ** The layout *)

Lemma mkfs_geom : fs_geom mkfs_sb 2 30 46.
Proof. split; vm_compute; intuition congruence. Qed.
Lemma mkfs_size : sb_size mkfs_sb = 2000.
Proof. reflexivity. Qed.
Lemma mkfs_bmap n : bmap_block mkfs_sb n <-> n = 45.
Proof. unfold bmap_block. change (sb_bmapstart mkfs_sb) with 45. change ((sb_size mkfs_sb - 1) / BPB) with 0. lia. Qed.

(** ** The bitmap *)

Lemma length_bitmap u : length (bitmap u) = BSIZE.
Proof. induction u as [|u IH]; [apply length_replicate|]. cbn [bitmap]. by rewrite length_alter. Qed.

Lemma bitmap_succ (i : nat) : bitmap (S i) = set_bit_in i (bitmap i).
Proof. cbn [bitmap]. unfold set_bit_in. assert (Z.of_nat (i / 8)%nat = Z.of_nat i / 8) as <- by apply (Nat2Z.inj_div i 8). by rewrite Nat2Z.id. Qed.

Lemma bit_in_zeroes k : bit_in zeroes k = false.
Proof.
  unfold bit_in, zeroes. rewrite nth_lookup. destruct (replicate BSIZE 0 !! _) eqn:E; [|apply Z.testbit_0_l].
  apply lookup_replicate in E as [-> _]. apply Z.testbit_0_l.
Qed.

Lemma bit_in_bitmap (u : nat) k : u <= 8192 -> 0 <= k -> bit_in (bitmap u) k = (k <? u).
Proof.
  intros Hu Hk. induction u as [|u IH]; [rewrite bit_in_zeroes; symmetry; apply Z.ltb_ge; lia|].
  rewrite bitmap_succ, bit_in_set by (done || apply length_bitmap || (unfold BPB; lia)). rewrite IH by lia.
  destruct (Z.ltb_spec k u), (Z.ltb_spec k (S u)), (Z.eqb_spec k u); cbn; done || lia.
Qed.

#[global] Opaque bitmap.

(** The super block's block. *)
Definition sb_block : list Z := patch 0 (sb_bytes mkfs_sb) zeroes.

(** ** The image as the kernel will see it

    [v] is the image with the bitmap [balloc] will write. *)
Record mk_rel (v : Z -> list Z) (f : Z) (s : mkst) : Prop := {
  mr_img : forall n, n <> 45 -> default zeroes (m_img s !! n) = v n;
  mr_len : m_len s = 2000;
  mr_sb : m_sb s = mkfs_sb;
  mr_free : m_freeblock s = f;
  mr_range : 46 <= f <= 2000;
  mr_bmap : v 45 = bitmap (Z.to_nat f);
  mr_zero : forall n, f <= n -> v n = zeroes;
  mr_length : forall n, length (v n) = BSIZE;
  mr_low : forall n, n < 32 -> v n = if n =? 1 then sb_block else zeroes
}.

Lemma mk_rel_same v f s s' : mk_rel v f s -> same s s' -> mk_rel v f s'.
Proof. intros [] (h & g & ->). by split. Qed.

(** [wsect] and [rsect] of a block in use. *)
Lemma mk_write v f s n x (Q : unit -> mkst -> Prop) : mk_rel v f s -> 32 <= n < f -> n <> 45 -> length x = BSIZE ->
  (forall s', mk_rel (fupd n x v) f s' -> m_freeinode s' = m_freeinode s -> Q tt s') -> hspec (wsect n x) Q s.
Proof.
  intros Hr Hn Hnb Hx HQ. pose proof Hr as [H1 H2 H3 H4 H5 H6 H7 H8 H9]. apply hspec_wsect; [unfold sector_ok; lia|]. intros s' Hs.
  apply HQ; [|by destruct Hs as (h & g & ->)]. eapply mk_rel_same; [|exact Hs]. split; cbn; try done.
  - intros m Hm. rewrite lookup_insert. unfold fupd. destruct (decide (n = m)) as [<-|]; [by rewrite decide_True|]. rewrite decide_False by done. by apply H1.
  - lia.
  - by rewrite fupd_ne.
  - intros m Hm. rewrite fupd_ne by lia. by apply H7.
  - intros m. unfold fupd. by destruct (decide (m = n)).
  - intros m Hm. rewrite fupd_ne by lia. by apply H9.
Qed.

Lemma mk_read v f s n (Q : list Z -> mkst -> Prop) : mk_rel v f s -> 0 <= n < 2000 -> n <> 45 ->
  (forall s', mk_rel v f s' -> m_freeinode s' = m_freeinode s -> Q (v n) s') -> hspec (rsect n) Q s.
Proof.
  intros Hr Hn Hnb HQ. apply hspec_rsect; [unfold sector_ok; lia|rewrite (mr_len _ _ _ Hr); lia|]. intros s' Hs _. rewrite (mr_img _ _ _ Hr) by done.
  apply HQ; [by eapply mk_rel_same|by destruct Hs as (h & g & ->)].
Qed.

(** [freeblock++] *)
Definition grow (f : Z) (v : Z -> list Z) : Z -> list Z := fupd 45 (bitmap (Z.to_nat (f + 1))) v.

Lemma mk_next v f s (Q : Z -> mkst -> Prop) : mk_rel v f s ->
  (f < 2000 -> forall s', mk_rel (grow f v) (f + 1) s' -> m_freeinode s' = m_freeinode s -> Q f s') ->
  (f = 2000 -> forall s', m_len s' = 2000 -> FSSIZE < m_freeblock s' -> Q 2000 s') ->
  hspec next_block Q s.
Proof.
  intros [H1 H2 H3 H4 H5 H6 H7 H8 H9] HQ Hfull. unfold next_block. h_step. h_step. rewrite H4. h_step. h_step. h_step.
  rewrite u32_small by lia. destruct (decide (f = 2000)) as [E|Hne]; [rewrite E at 1; apply Hfull; [exact E|exact H2|unfold FSSIZE; cbn [m_freeblock set_freeblock]; lia]|].
  apply HQ; [lia| |done]. unfold grow. split; [|done|done|done|lia|apply fupd_eq| | |].
  - intros n Hn. rewrite fupd_ne by done. by apply H1.
  - intros n Hn. rewrite fupd_ne by lia. apply H7. lia.
  - intros n. unfold fupd. destruct (decide (n = 45)); [apply length_bitmap|done].
  - intros n Hn. rewrite fupd_ne by lia. by apply H9.
Qed.

(** ** Allocating a block of a file *)

Lemma used_bitmap v f n : v 45 = bitmap (Z.to_nat f) -> 46 <= f <= 2000 -> 0 <= n < 2000 -> used mkfs_sb v n = (n <? f).
Proof.
  intros Hb Hr Hn. unfold used, BBLOCK. change (sb_bmapstart mkfs_sb) with 45. rewrite (Z.div_small n), (Z.mod_small n) by (unfold BPB; lia).
  change (u32 (0 + 45)) with 45. rewrite Hb, bit_in_bitmap by lia. destruct (Z.ltb_spec n (Z.to_nat f)), (Z.ltb_spec n f); done || lia.
Qed.

(** The file after the allocation of block [k]. *)
Record gain (k : nat) (v : Z -> list Z) (ip : inode) (v' : Z -> list Z) (ip' : inode) : Prop := {
  ga_file : file_ok mkfs_sb 46 1 v' ip';
  ga_step : fstep mkfs_sb 46 (fun _ => False) v ip v' ip';
  ga_block : fblock v' ip' k <> 0;
  ga_fresh : fblock v ip k = 0 -> v' (fblock v' ip' k) = zeroes;
  ga_only : forall k', (k' < MAXBLOCKS)%nat -> k' <> k -> fblock v' ip' k' = fblock v ip k'
}.

Section Alloc.
Context (v : Z -> list Z) (f : Z) (ip : inode).
Context (Hb : v 45 = bitmap (Z.to_nat f)) (Hr : 46 <= f < 2000) (Hzero : forall n, f <= n -> v n = zeroes) (Hlen : forall n, length (v n) = BSIZE).
Context (Hf : file_ok mkfs_sb 46 1 v ip).

Lemma alloc_range : 46 <= f < sb_size mkfs_sb.
Proof. rewrite mkfs_size. lia. Qed.

Lemma alloc_free : used mkfs_sb v f = false.
Proof. rewrite (used_bitmap v f) by (done || lia). apply Z.ltb_irrefl. Qed.

Lemma grow_ne n : n <> 45 -> grow f v n = v n.
Proof. apply fupd_ne. Qed.

Lemma grow_used v' : v' 45 = grow f v 45 -> forall n, 0 <= n < sb_size mkfs_sb -> used mkfs_sb v' n = used mkfs_sb v n || (n =? f).
Proof.
  rewrite mkfs_size. unfold grow. rewrite fupd_eq. intros E n Hn. rewrite (used_bitmap v' (f + 1)), (used_bitmap v f) by (done || lia).
  destruct (Z.ltb_spec n (f + 1)), (Z.ltb_spec n f), (Z.eqb_spec n f); done || lia.
Qed.

Lemma own_data n : own v ip n -> 46 <= n < f.
Proof.
  intros [Hn Hu]%(fo_own _ _ _ _ _ Hf). rewrite mkfs_size in Hn. rewrite (used_bitmap v f) in Hu by (done || lia). apply Z.ltb_lt in Hu. lia.
Qed.

Lemma set_addr_inode k c : exists addrs, set_addr k c ip = set_i_addrs addrs ip.
Proof. by eexists. Qed.
Lemma set_addr_len k c : length (i_addrs (set_addr k c ip)) = S NDIRECT.
Proof. cbn. rewrite length_insert. apply Hf. Qed.
Lemma same_inode : exists addrs, ip = set_i_addrs addrs ip.
Proof. exists (i_addrs ip). by destruct ip. Qed.

Lemma grow_keep (ip' : inode) n : n <> f -> (n = ind_block ip' -> n = 0) -> ~ bmap_block mkfs_sb n -> grow f v n = v n.
Proof. intros _ _ Hn. apply grow_ne. intros ->. by apply Hn, mkfs_bmap. Qed.

Lemma ind_not_bmap : ind_block ip <> 0 -> ind_block ip <> 45 /\ 46 <= ind_block ip < f.
Proof. intros Hi. assert (own v ip (ind_block ip)) as Ho by (by split; [|left]). apply own_data in Ho. lia. Qed.

Lemma direct_gain k : (k < NDIRECT)%nat -> fblock v ip k = 0 -> gain k v ip (grow f v) (set_addr k f ip).
Proof.
  intros Hk Hz. pose proof (fo_len _ _ _ _ _ Hf) as Hl.
  assert (ind_block (set_addr k f ip) = ind_block ip) as Ei by (unfold ind_block; rewrite nth_set_addr by lia; rewrite decide_False; [done|lia]).
  assert (fblock (grow f v) (set_addr k f ip) k = f) as Hnew.
  { unfold fblock. rewrite (proj2 (Nat.ltb_lt _ _)) by done. rewrite nth_set_addr by lia. by rewrite decide_True. }
  assert (forall k', (k' < MAXBLOCKS)%nat -> k' <> k -> fblock (grow f v) (set_addr k f ip) k' = fblock v ip k') as Hsame.
  { intros k' _ Hne. unfold fblock. rewrite Ei. destruct (k' <? NDIRECT)%nat; [rewrite nth_set_addr by lia; by rewrite decide_False|].
    destruct (Z.eqb_spec (ind_block ip) 0); [done|]. by rewrite grow_ne by (by apply ind_not_bmap). }
  assert (k < MAXBLOCKS)%nat as HkM by (unfold MAXBLOCKS; lia).
  split; [| |rewrite Hnew; lia| |done].
  - exact (file_ok_add _ _ _ _ mkfs_geom 1 v _ ip _ f Hf alloc_range alloc_free (grow_used _ eq_refl) (set_addr_len k f) (set_addr_inode k f)
      (grow_keep _) k HkM Hnew Hsame Ei).
  - exact (fstep_add _ _ _ _ mkfs_geom 1 v _ ip _ f Hf alloc_range alloc_free (grow_used _ eq_refl) (set_addr_len k f) (set_addr_inode k f)
      (grow_keep _) k HkM Hz Hnew Hsame Ei _).
  - intros _. rewrite Hnew, grow_ne by lia. apply Hzero. lia.
Qed.

(** The indirect block. *)
Lemma indirect_gain : ind_block ip = 0 ->
  let v' := grow f v in let ip' := set_addr NDIRECT f ip in
  ind_block ip' = f /\ file_ok mkfs_sb 46 1 v' ip' /\ fstep mkfs_sb 46 (fun _ => False) v ip v' ip' /\
  forall k, (k < MAXBLOCKS)%nat -> fblock v' ip' k = fblock v ip k.
Proof.
  intros Hz v' ip'. pose proof (fo_len _ _ _ _ _ Hf) as Hl.
  assert (ind_block ip' = f) as Ei by (unfold ip', ind_block; rewrite nth_set_addr by lia; by rewrite decide_True).
  assert (v' f = replicate BSIZE 0) as Ef by (unfold v'; rewrite grow_ne by lia; apply Hzero; lia).
  assert (forall k, (k < NDIRECT)%nat -> nth k (i_addrs ip') 0 = nth k (i_addrs ip) 0) as Hd.
  { intros k Hk. unfold ip'. rewrite nth_set_addr by lia. rewrite decide_False; [done|lia]. }
  split; [done|]. split; [|split].
  - exact (file_ok_ind _ _ _ _ mkfs_geom 1 v _ ip _ f Hf alloc_range alloc_free (grow_used _ eq_refl) (set_addr_len _ f) (set_addr_inode _ f) (grow_keep _) Hz Ei Ef Hd).
  - exact (fstep_ind _ _ _ _ mkfs_geom 1 v _ ip _ f Hf alloc_range alloc_free (grow_used _ eq_refl) (set_addr_len _ f) (set_addr_inode _ f) (grow_keep _) Hz Ei Ef Hd _).
  - intros k Hk. exact (fblock_ind v v' ip ip' f (set_addr_len _ f) Hz Ei Ef Hd k Hk).
Qed.

(** An entry of the indirect block. *)
Lemma entry_gain k : (NDIRECT <= k < MAXBLOCKS)%nat -> ind_block ip <> 0 -> fblock v ip k = 0 ->
  gain k v ip (fupd (ind_block ip) (set_word (k - NDIRECT) f (v (ind_block ip))) (grow f v)) ip.
Proof.
  intros Hk Hi Hz. destruct (ind_not_bmap Hi) as [Hi45 Hir]. set (ind := ind_block ip) in *. set (v' := fupd ind _ _).
  assert (4 * (k - NDIRECT) + 4 <= length (v ind))%nat as Hkw by (rewrite Hlen; unfold MAXBLOCKS, NDIRECT, NINDIRECT, BSIZE in *; lia).
  assert (fblock v' ip k = f) as Hnew.
  { unfold fblock. rewrite (proj2 (Nat.ltb_ge _ _)) by lia. fold ind. rewrite (proj2 (Z.eqb_neq _ _) Hi). unfold v'. rewrite fupd_eq, word_set_eq by lia. apply u32_small. lia. }
  assert (forall k', (k' < MAXBLOCKS)%nat -> k' <> k -> fblock v' ip k' = fblock v ip k') as Hsame.
  { intros k' Hk' Hne. unfold fblock. destruct (Nat.ltb_spec k' NDIRECT); [done|]. fold ind. destruct (ind =? 0); [done|]. unfold v'.
    rewrite fupd_eq. apply word_set_ne; lia. }
  assert (forall n, n <> f -> (n = ind -> n = 0) -> ~ bmap_block mkfs_sb n -> v' n = v n) as Hkeep.
  { intros n Hn Hni Hbm. unfold v'. rewrite fupd_ne by (intros ->; by apply Hi, Hni). by apply (grow_keep ip). }
  assert (v' 45 = grow f v 45) as E45 by (apply fupd_ne; lia). pose proof (fo_len _ _ _ _ _ Hf) as Hl.
  split; [| |rewrite Hnew; lia| |done].
  - exact (file_ok_add _ _ _ _ mkfs_geom 1 v _ ip _ f Hf alloc_range alloc_free (grow_used _ E45) Hl same_inode Hkeep k ltac:(lia) Hnew Hsame eq_refl).
  - exact (fstep_add _ _ _ _ mkfs_geom 1 v _ ip _ f Hf alloc_range alloc_free (grow_used _ E45) Hl same_inode Hkeep k ltac:(lia) Hz Hnew Hsame eq_refl _).
  - intros _. rewrite Hnew. unfold v'. rewrite fupd_ne, grow_ne by lia. apply Hzero. lia.
Qed.
End Alloc.

(** ** The address of a block *)

Lemma gain_refl k v ip : file_ok mkfs_sb 46 1 v ip -> fblock v ip k <> 0 -> gain k v ip v ip.
Proof. intros Hf Hb. split; [done|apply fstep_refl|done|done|done]. Qed.

Lemma gain_trans_ind k v ip v1 ip1 v2 ip2 : (k < MAXBLOCKS)%nat -> fstep mkfs_sb 46 (fun _ => False) v ip v1 ip1 ->
  (forall k, (k < MAXBLOCKS)%nat -> fblock v1 ip1 k = fblock v ip k) -> gain k v1 ip1 v2 ip2 -> gain k v ip v2 ip2.
Proof.
  intros Hk Hst He [G1 G2 G3 G4 G5]. split; [done| |done| |].
  - by eapply (fstep_trans _ _ _ _ mkfs_geom).
  - intros Hz. apply G4. by rewrite He.
  - intros k' Hk' Hne. rewrite G5 by done. by apply He.
Qed.

Section FileBlock.
Context (inum : Z).

(** Addresses fit a [uint]. *)
Lemma addr_small v f s ip k : mk_rel v f s -> file_ok mkfs_sb 46 1 v ip -> (k < MAXBLOCKS)%nat ->
  (fblock v ip k <> 0 -> 46 <= fblock v ip k < f) /\ (ind_block ip <> 0 -> 46 <= ind_block ip < f).
Proof.
  intros [_ _ _ _ Hr Hb _ _ _] Hf Hk. assert (forall n, own v ip n -> 46 <= n < f) as Ho.
  { intros n Ho. apply (fo_own _ _ _ _ _ Hf) in Ho as [Hn Hu]. rewrite mkfs_size in Hn. rewrite (used_bitmap v f) in Hu by (done || lia). apply Z.ltb_lt in Hu. lia. }
  split; intros Hne; apply Ho; (split; [done|]); [right; by exists k|by left].
Qed.

Lemma fill_addr_spec k v f s din (Q : dinode -> mkst -> Prop) : mk_rel v f s -> (k < length (d_addrs din))%nat ->
  let a := nth k (d_addrs din) 0 in (a <> 0 -> 46 <= a < f) ->
  (a <> 0 -> Q din s) ->
  (a = 0 -> f < 2000 -> forall s', mk_rel (grow f v) (f + 1) s' -> m_freeinode s' = m_freeinode s -> Q (din_set_addr k f din) s') ->
  (forall din' s', nth k (d_addrs din') 0 = 2000 -> m_len s' = 2000 -> FSSIZE < m_freeblock s' -> Q din' s') ->
  hspec (fill_addr k din) Q s.
Proof.
  intros Hrel Hk a Ha H1 H2 H3. unfold fill_addr. fold a. pose proof (mr_range _ _ _ Hrel) as Hr. rewrite xint_small by lia.
  destruct (Z.eqb_spec a 0) as [E|E]; [|h_step; by apply H1]. h_step. apply (mk_next v f); [done| |].
  - intros Hlt s' Hs' Ei. h_step. rewrite xint_small by lia. by apply H2.
  - intros _ s' Hl Hfull. h_step. apply H3; [|done|done]. cbn [din_set_addr d_addrs]. by rewrite nth_lookup, list_lookup_insert_eq.
Qed.

Lemma ind_entry_spec k v f s din (Q : Z -> mkst -> Prop) : let ip := of_dinode inum din in
  mk_rel v f s -> file_ok mkfs_sb 46 1 v ip -> (NDIRECT <= k < MAXBLOCKS)%nat -> ind_block ip <> 0 ->
  (forall v' f' s', mk_rel v' f' s' -> f <= f' -> m_freeinode s' = m_freeinode s -> gain k v ip v' ip -> Q (fblock v' ip k) s') ->
  (forall s', m_len s' = 2000 -> FSSIZE < m_freeblock s' -> Q 2000 s') ->
  hspec (ind_entry (k - NDIRECT) din) Q s.
Proof.
  intros ip Hrel Hf Hk Hi HQ Hfull. unfold ind_entry. destruct (addr_small v f s ip k Hrel Hf ltac:(lia)) as [Hsm Hism]. specialize (Hism Hi).
  pose proof Hrel as [_ _ _ _ Hr Hb Hz Hlen _]. change (nth NDIRECT (d_addrs din) 0) with (ind_block ip). set (ind := ind_block ip) in *.
  rewrite xint_small by lia. assert (4 * (k - NDIRECT) + 4 <= length (v ind))%nat as Hkw by (rewrite Hlen; unfold MAXBLOCKS, NDIRECT, NINDIRECT, BSIZE in *; lia).
  assert (forall v', fblock v' ip k = word (v' ind) (k - NDIRECT)) as Ek.
  { intros v'. unfold fblock. rewrite (proj2 (Nat.ltb_ge _ _)) by lia. fold ind. by rewrite (proj2 (Z.eqb_neq _ _) Hi). }
  h_step. apply (mk_read v f); [done|lia|lia|]. intros s1 Hs1 Ei1. h_step. rewrite <- Ek. destruct (Z.eqb_spec (fblock v ip k) 0) as [E|E].
  - h_step. apply (mk_next v f); [done| |].
    + intros Hlt s2 Hs2 Ei2. rewrite xint_small by lia. h_step.
      assert (gain k v ip (fupd ind (set_word (k - NDIRECT) f (v ind)) (grow f v)) ip) as Hg by (apply entry_gain; done || lia).
      apply (mk_write (grow f v) (f + 1)); [done|lia|lia|rewrite length_set_word by done; apply Hlen|]. intros s3 Hs3 Ei3. h_step. h_step.
      rewrite word_set_eq, u32_small, xint_small by (done || lia). specialize (HQ _ _ _ Hs3 ltac:(lia) ltac:(congruence) Hg). rewrite Ek, fupd_eq, word_set_eq, u32_small in HQ by (done || lia). exact HQ.
    + intros _ s2 Hl2 Hf2. h_step. apply hspec_wsect; [unfold sector_ok; lia|]. intros s3 (h & g & ->). h_step. h_step.
      rewrite word_set_eq by done. change (xint (u32 (xint 2000))) with 2000. apply Hfull; [|done]. change (Z.max (m_len s2) (ind + 1) = 2000). lia.
  - h_step. h_step. rewrite <- Ek. specialize (Hsm E). rewrite xint_small by lia. apply (HQ v f); [done|lia|done|by apply gain_refl].
Qed.

Lemma file_block_spec k v f s din (Q : dinode * Z -> mkst -> Prop) : let ip := of_dinode inum din in
  mk_rel v f s -> file_ok mkfs_sb 46 1 v ip -> (k < MAXBLOCKS)%nat ->
  (forall din' v' f' s', mk_rel v' f' s' -> f <= f' -> m_freeinode s' = m_freeinode s -> gain k v ip v' (of_dinode inum din') ->
     Q (din', fblock v' (of_dinode inum din') k) s') ->
  (forall din' s', m_len s' = 2000 -> FSSIZE < m_freeblock s' -> Q (din', 2000) s') ->
  hspec (file_block k din) Q s.
Proof.
  intros ip Hrel Hf Hk HQ Hfull. pose proof (fo_len _ _ _ _ _ Hf) as Hl. change (i_addrs ip) with (d_addrs din) in Hl. unfold file_block.
  destruct (addr_small v f s ip k Hrel Hf Hk) as [Hsm Hism]. pose proof Hrel as [_ _ _ _ Hr Hb Hz Hlen _].
  destruct (Z.ltb_spec k NDIRECT) as [Hlt|Hge].
  - rewrite Nat2Z.id. assert (fblock v ip k = nth k (d_addrs din) 0) as Ek by (unfold fblock; by rewrite (proj2 (Nat.ltb_lt _ _)) by lia).
    h_step. apply (fill_addr_spec k v f); [done|lia|by rewrite <- Ek|..].
    + intros Ha. h_step. rewrite <- Ek in *. specialize (Hsm Ha). rewrite xint_small by lia. apply (HQ din v f); [done|lia|done|by apply gain_refl].
    + intros Ha Hf2 s' Hs' Ei. h_step. rewrite <- Ek in Ha. assert (gain k v ip (grow f v) (set_addr k f ip)) as Hg by (apply direct_gain; try done; lia).
      assert (fblock (grow f v) (set_addr k f ip) k = f) as Enew.
      { unfold fblock. rewrite (proj2 (Nat.ltb_lt _ _)) by lia. rewrite nth_set_addr by (change (i_addrs ip) with (d_addrs din); lia). by rewrite decide_True. }
      cbn [din_set_addr d_addrs]. rewrite nth_lookup, list_lookup_insert_eq by lia. cbn [default from_option id]. rewrite xint_small by lia.
      rewrite <- Enew at 2. apply (HQ (din_set_addr k f din) (grow f v) (f + 1)); [done|lia|done|exact Hg].
    + intros din' s' E H1 H2. h_step. rewrite E. by apply Hfull.
  - rewrite Nat2Z.id. h_step. apply (fill_addr_spec NDIRECT v f); [done|lia|exact Hism|..].
    + intros Ha. h_step. eapply (ind_entry_spec k v f s din); [done|done|lia|exact Ha| |].
      * intros v' f' s' Hs' Hff Ei Hg. h_step. by apply (HQ din v' f').
      * intros s' H1 H2. h_step. by apply Hfull.
    + intros Ha Hf2 s' Hs' Ei. destruct (indirect_gain v f ip Hb ltac:(lia) Hz Hf Ha) as (E1 & F1 & S1 & B1). h_step.
      eapply (ind_entry_spec k (grow f v) (f + 1) s' (din_set_addr NDIRECT f din)); [done|exact F1|lia| | |].
      * change (ind_block (set_addr NDIRECT f ip) <> 0). lia.
      * intros v' f' s2 Hs2 Hff Ei2 Hg. h_step. apply (HQ (din_set_addr NDIRECT f din) v' f'); [done|lia|congruence|by eapply gain_trans_ind].
      * intros s2 H1 H2. h_step. by apply Hfull.
    + intros din' s' E H1 H2. h_step. unfold ind_entry. h_step. rewrite E. apply hspec_rsect; [vm_compute; intuition congruence|done|]. intros s'' _ Hx. exfalso.
      change (xint 2000) with 2000 in Hx. lia.
Qed.

(** ** Appending *)

(** The blocks of the file are zero behind [off]. *)
Definition zero_from (off : Z) (v : Z -> list Z) (ip : inode) : Prop :=
  forall p, off <= p < MAXFILE * BSIZE -> fblock v ip (Z.to_nat (p / BSIZE)) <> 0 -> fbyte v ip p = 0.

Lemma zero_from_gain off k v ip v' ip' : 0 <= off -> (k < MAXBLOCKS)%nat -> gain k v ip v' ip' -> zero_from off v ip -> zero_from off v' ip'.
Proof.
  intros Hoff Hk [G1 G2 G3 G4 G5] Hz p Hp Hb. assert (Z.to_nat (p / BSIZE) < MAXBLOCKS)%nat as Hk' by (apply block_of_byte; lia).
  destruct (decide (fblock v ip (Z.to_nat (p / BSIZE)) = 0)) as [E|E].
  - destruct (decide (Z.to_nat (p / BSIZE) = k)) as [Ek|Ek]; [|rewrite G5 in Hb by done; done]. unfold fbyte. rewrite Ek in *. rewrite G4 by done.
    unfold zeroes. rewrite nth_lookup. destruct (replicate BSIZE 0 !! _) eqn:El; [|done]. by apply lookup_replicate in El as [-> _].
  - rewrite (st_byte _ _ _ _ _ _ _ G2); [by apply Hz|lia|done|tauto].
Qed.

Lemma zero_from_overwritten off v ip k c : file_ok mkfs_sb 46 1 v ip -> (k < MAXBLOCKS)%nat -> fblock v ip k <> 0 -> length (v (fblock v ip k)) = BSIZE ->
  0 <= off -> off / BSIZE = k -> (Z.to_nat (off mod BSIZE) + length c <= BSIZE)%nat -> zero_from off v ip ->
  zero_from (off + length c) (overwritten v ip k (Z.to_nat (off mod BSIZE)) c) ip.
Proof.
  intros Hf Hk Ha Hl Hoff Ek Hq Hz p Hp Hb. rewrite (fblock_overwritten mkfs_sb 46 1) in Hb by done. pose proof (Z.mod_pos_bound off BSIZE ltac:(unfold BSIZE; lia)) as Hmod.
  rewrite (fbyte_overwritten mkfs_sb 46 1) by (done || lia). rewrite decide_False; [apply Hz; [lia|done]|].
  intros [E1 E2]. unfold BSIZE in *. Z.div_mod_to_equations. lia.
Qed.

Lemma iappend_loop_spec : forall (fuel : nat) din v f s off p n (Q : dinode * Z -> mkst -> Prop), let ip := of_dinode inum din in
  mk_rel v f s -> file_ok mkfs_sb 46 1 v ip -> 0 <= off -> n = Z.of_nat (length p) -> off + n <= MAXFILE * BSIZE -> n < fuel -> zero_from off v ip ->
  (forall din' v' f' s', let ip' := of_dinode inum din' in
     mk_rel v' f' s' -> f <= f' -> m_freeinode s' = m_freeinode s -> file_ok mkfs_sb 46 1 v' ip' ->
     fstep mkfs_sb 46 (fun q => off <= q < off + n) v ip v' ip' -> file_bytes v' ip' off (length p) = p ->
     (forall q, off <= q < off + n -> fblock v' ip' (Z.to_nat (q / BSIZE)) <> 0) -> zero_from (off + n) v' ip' -> Q (din', off + n) s') ->
  hspec (iappend_loop fuel din off p n) Q s.
Proof.
  induction fuel as [|fuel IH]; intros din v f s off p n Q ip Hrel Hf Hoff Hn Hmax Hfu Hz HQ; [lia|]. cbn [iappend_loop].
  pose proof (Z.mod_pos_bound off BSIZE ltac:(unfold BSIZE; lia)) as Hmod.
  destruct (Z.ltb_spec 0 n) as [Hlt|Hge].
  2: { assert (n = 0) as En by lia. rewrite En, Z.add_0_r in *. destruct p; [|cbn in Hn; lia]. h_step. apply (HQ din v f); try done; [apply fstep_refl|lia]. }
  assert (0 <= off / BSIZE) as Hdiv by (apply Z.div_pos; unfold BSIZE; lia).
  set (k := Z.to_nat (off / BSIZE)) in *. assert (off / BSIZE = k) as Ek by (unfold k; lia). rewrite Ek.
  assert (k < MAXBLOCKS)%nat as Hk by (apply block_of_byte; lia).
  h_step. apply hspec_assert; [apply Z.ltb_lt; unfold MAXFILE, MAXBLOCKS in *; lia|].
  h_step. apply (file_block_spec k v f); [done|done|done| |].
  2: { intros din' s' Hl Hfull. cbn [snd]. h_step. apply hspec_rsect; [vm_compute; intuition congruence|done|]. intros s2 _ Hx. exfalso. lia. }
  intros din1 v1 f1 s1 Hrel1 Hf1 Ei1 Hg. cbn [fst snd]. set (ip1 := of_dinode inum din1) in *. pose proof Hg as [G1 G2 G3 _ _].
  destruct (addr_small v1 f1 s1 ip1 k Hrel1 G1 Hk) as [Hsm _]. specialize (Hsm G3). pose proof (mr_range _ _ _ Hrel1) as Hr1. pose proof (mr_length _ _ _ Hrel1) as Hlen1.
  h_step. apply (mk_read v1 f1); [done|lia|lia|]. intros s2 Hrel2 Ei2. h_step.
  assert (off - k * BSIZE = off mod BSIZE) as -> by (unfold BSIZE in *; Z.div_mod_to_equations; lia).
  set (n1 := Z.min n ((k + 1) * BSIZE - off)). assert (n1 = Z.min n (BSIZE - off mod BSIZE)) as En1 by (unfold n1, BSIZE in *; Z.div_mod_to_equations; lia).
  set (c := take (Z.to_nat n1) p). assert (Z.of_nat (length c) = n1) as Hc by (unfold c; rewrite length_take; lia).
  assert (Z.to_nat (off mod BSIZE) + length c <= BSIZE)%nat as Hq by lia.
  apply (mk_write v1 f1); [done|lia|lia|rewrite length_patch; [apply Hlen1|rewrite Hlen1; lia]|]. intros s3 Hrel3 Ei3.
  change (fupd _ (patch _ c _) v1) with (overwritten v1 ip1 k (Z.to_nat (off mod BSIZE)) c) in Hrel3. set (v2 := overwritten v1 ip1 k _ c) in *.
  assert (file_ok mkfs_sb 46 1 v2 ip1) as Hf2 by (by apply (file_ok_overwritten _ _ _ _ mkfs_geom)).
  assert (zero_from (off + n1) v2 ip1) as Hz2.
  { rewrite <- Hc. apply zero_from_overwritten; try done. by eapply zero_from_gain. }
  assert (fstep mkfs_sb 46 (fun q => off <= q < off + n1) v1 ip1 v2 ip1) as Hst2.
  { apply (fstep_overwritten _ _ _ _ mkfs_geom 1); [done..|]. intros q Hp1 Hp2. unfold BSIZE in *. Z.div_mod_to_equations. lia. }
  assert (file_bytes v2 ip1 off (length c) = c) as Hbytes by (apply (file_bytes_overwritten 1 mkfs_sb 46); try done; unfold BSIZE in *; Z.div_mod_to_equations; lia).
  assert (forall q, off <= q < off + n1 -> fblock v2 ip1 (Z.to_nat (q / BSIZE)) <> 0) as Hpm.
  { intros q Hp. assert (q / BSIZE = k) as -> by (unfold BSIZE in *; Z.div_mod_to_equations; lia). rewrite Nat2Z.id. unfold v2. by rewrite (fblock_overwritten mkfs_sb 46 1). }
  apply (IH din1 v2 f1); [done|done|lia|rewrite length_drop; lia|lia|lia|done|].
  intros din' v' f' s' ip' Hrel' Hff' Ei' Hf' Hst' Hb' Hp' Hz'. replace (off + n1 + (n - n1)) with (off + n) in * by lia.
  apply (HQ din' v' f'); [done|lia|congruence|done| | | |done].
  - eapply (fstep_trans _ _ _ _ mkfs_geom); [eapply fstep_mono; [|exact G2]; done|].
    eapply (fstep_trans _ _ _ _ mkfs_geom); [eapply fstep_mono; [|exact Hst2]; cbn; lia|]. eapply fstep_mono; [|exact Hst']. cbn. lia.
  - rewrite <- (take_drop (Z.to_nat n1) p). fold c. rewrite length_app, file_bytes_app. rewrite Hc. f_equal; [|exact Hb'].
    rewrite <- Hbytes at 2. eapply file_bytes_step; [exact Hst'|lia|lia|]. intros q Hp. split; [cbn; lia|]. apply Hpm. lia.
  - intros q Hp. destruct (decide (q < off + n1)); [|apply Hp'; lia]. rewrite (st_block _ _ _ _ _ _ _ Hst'); [apply Hpm; lia|apply block_of_byte; lia|apply Hpm; lia].
Qed.
End FileBlock.

(** ** The inodes of the image *)

Lemma iblock_val inum : 1 <= inum < 200 -> IBLOCK inum mkfs_sb = 32 + inum / 16 /\ 32 <= IBLOCK inum mkfs_sb <= 44.
Proof.
  intros Hi. unfold IBLOCK, IPB. change (sb_inodestart mkfs_sb) with 32. assert (0 <= inum / 16 < 13) by (split; [apply Z.div_pos; lia|apply Z.div_lt_upper_bound; lia]).
  rewrite u32_small by lia. lia.
Qed.

Lemma iblock_ok_mkfs ip : 1 <= i_inum ip < 200 -> iblock_ok mkfs_sb 2 30 46 ip.
Proof. intros Hi. destruct (iblock_val _ Hi) as [_ Hr]. unfold iblock_ok, iblock. rewrite mkfs_bmap. lia. Qed.

(** An inode in the same block is not touched. *)
Lemma get_dinode_other off off' ip bs : (off + 64 <= off' \/ off' + 64 <= off)%nat -> (off + 64 <= length bs)%nat -> length (i_addrs ip) = S NDIRECT ->
  get_dinode off' (put_dinode off ip bs) = get_dinode off' bs.
Proof.
  intros Ho Hl Ha. unfold put_dinode, put_addrs.
  assert (length (mjoin (le_bytes 4 <$> i_addrs ip)) = 52%nat) as Hm by (rewrite length_addr_bytes, Ha; reflexivity).
  set (b1 := patch off (le_bytes 2 (u16 (i_type ip))) bs).
  assert (length b1 = length bs) as L1 by (apply length_patch; rewrite length_le_bytes; lia).
  set (b2 := patch (off + 2) (le_bytes 2 (u16 (i_major ip))) b1).
  assert (length b2 = length bs) as L2 by (rewrite <- L1; apply length_patch; rewrite length_le_bytes; lia).
  set (b3 := patch (off + 4) (le_bytes 2 (u16 (i_minor ip))) b2).
  assert (length b3 = length bs) as L3 by (rewrite <- L2; apply length_patch; rewrite length_le_bytes; lia).
  set (b4 := patch (off + 6) (le_bytes 2 (u16 (i_nlink ip))) b3).
  assert (length b4 = length bs) as L4 by (rewrite <- L3; apply length_patch; rewrite length_le_bytes; lia).
  set (b5 := patch (off + 8) (le_bytes 4 (i_size ip)) b4).
  assert (length b5 = length bs) as L5 by (rewrite <- L4; apply length_patch; rewrite length_le_bytes; lia).
  assert (forall n o, (off' <= o)%nat -> (o + n <= off' + 64)%nat -> get_le n o (patch (off + 12) (mjoin (le_bytes 4 <$> i_addrs ip)) b5) = get_le n o bs) as Hg.
  { intros n o H1 H2. rewrite get_le_patch_ne by lia. skip b5. skip b4. skip b3. skip b2. skip b1. done. }
  unfold get_dinode, dip_short, dip_addrs. rewrite !Hg by lia. f_equal. apply list_fmap_ext. intros k j [-> Hj]%lookup_seq. apply Hg; unfold NDIRECT in *; lia.
Qed.

Lemma dinode_off_other i j : 1 <= i < 200 -> 1 <= j < 200 -> i <> j -> IBLOCK i mkfs_sb = IBLOCK j mkfs_sb ->
  (dinode_off i + 64 <= dinode_off j \/ dinode_off j + 64 <= dinode_off i)%nat.
Proof.
  intros Hi Hj Hne E. destruct (iblock_val i Hi) as [Ei _], (iblock_val j Hj) as [Ej _]. rewrite Ei, Ej in E. unfold dinode_off, IPB.
  pose proof (Z.mod_pos_bound i 16 ltac:(lia)). pose proof (Z.mod_pos_bound j 16 ltac:(lia)).
  assert (i mod 16 <> j mod 16) by (intros Em; apply Hne; pose proof (Z.div_mod i 16); pose proof (Z.div_mod j 16); lia). lia.
Qed.

Lemma disk_inode_is v inum ip : i_dev ip = 1 -> i_inum ip = inum -> i_ref ip = 1 -> i_valid ip = 1 -> dinode_is (dinode_off inum) ip (v (IBLOCK inum mkfs_sb)) ->
  disk_inode 1 mkfs_sb v inum = ip.
Proof. intros H1 H2 H3 H4 (T1 & T2 & T3 & T4 & T5 & T6). unfold disk_inode. rewrite T1, T2, T3, T4, T5, T6. destruct ip; cbn in *; congruence. Qed.

Record mk_files (v : Z -> list Z) (f : Z) (s : mkst) (ips : list inode) : Prop := {
  mf_rel : mk_rel v f s;
  mf_free : m_freeinode s = 1 + length ips;
  mf_count : (length ips < 200)%nat;
  mf_ok : files_ok 1 mkfs_sb 46 v ips;
  mf_disk : forall (k : nat) ip, ips !! k = Some ip -> disk_inode 1 mkfs_sb v (k + 1) = ip;
  mf_zero : forall (k : nat) ip, ips !! k = Some ip -> zero_from (i_size ip) v ip
}.

Lemma mk_files_inum v f s ips (k : nat) ip : mk_files v f s ips -> ips !! k = Some ip -> ip = of_dinode (k + 1) (get_dinode (dinode_off (k + 1)) (v (IBLOCK (k + 1) mkfs_sb))) /\ 1 <= k + 1 < 200.
Proof. intros Hm Hk. rewrite <- (mf_disk _ _ _ _ Hm k ip Hk). split; [done|]. apply lookup_lt_Some in Hk. pose proof (mf_count _ _ _ _ Hm). lia. Qed.

(** Reading and writing inodes. *)
Lemma mk_rinode v f s inum (Q : dinode -> mkst -> Prop) : mk_rel v f s -> 1 <= inum < 200 ->
  (forall s', mk_rel v f s' -> m_freeinode s' = m_freeinode s -> Q (get_dinode (dinode_off inum) (v (IBLOCK inum mkfs_sb))) s') -> hspec (rinode inum) Q s.
Proof.
  intros Hr Hi HQ. destruct (iblock_val inum Hi) as [_ Hb]. unfold rinode. h_step. h_step. rewrite (mr_sb _ _ _ Hr). h_step.
  apply (mk_read v f); [done|lia|lia|]. intros s' Hs' Ei. h_step. by apply HQ.
Qed.

Lemma mk_winode v f s inum din (Q : unit -> mkst -> Prop) : mk_rel v f s -> 1 <= inum < 200 -> length (d_addrs din) = S NDIRECT ->
  (forall s', mk_rel (fupd (IBLOCK inum mkfs_sb) (put_dinode (dinode_off inum) (of_dinode inum din) (v (IBLOCK inum mkfs_sb))) v) f s' ->
     m_freeinode s' = m_freeinode s -> Q tt s') -> hspec (winode inum din) Q s.
Proof.
  intros Hr Hi Ha HQ. destruct (iblock_val inum Hi) as [_ Hb]. pose proof (mr_range _ _ _ Hr) as Hf. unfold winode. h_step. h_step. rewrite (mr_sb _ _ _ Hr). h_step.
  apply (mk_read v f); [done|lia|lia|]. intros s1 Hs1 E1. apply (mk_write v f); [done|lia|lia| |].
  - pose proof (mr_length _ _ _ Hr (IBLOCK inum mkfs_sb)) as Hl. pose proof (dinode_off_range inum). rewrite <- Hl. apply length_put_dinode; [lia|done].
  - intros s2 Hs2 E2. apply HQ; [done|congruence].
Qed.

Lemma meta_used_rel v f s : mk_rel v f s -> meta_used mkfs_sb 46 v.
Proof. intros Hr c Hc. destruct Hr as [_ _ _ _ Hr Hb _ _ _]. rewrite (used_bitmap v f) by (done || lia). apply Z.ltb_lt. lia. Qed.

(** The on-disk inodes after a write of inode [inum]. *)
Lemma disk_inode_other v v1 v' inum j ip2 : 1 <= inum < 200 -> 1 <= j < 200 -> inum <> j -> length (v1 (IBLOCK inum mkfs_sb)) = BSIZE ->
  length (i_addrs ip2) = S NDIRECT -> v1 (IBLOCK j mkfs_sb) = v (IBLOCK j mkfs_sb) ->
  v' = fupd (IBLOCK inum mkfs_sb) (put_dinode (dinode_off inum) ip2 (v1 (IBLOCK inum mkfs_sb))) v1 -> disk_inode 1 mkfs_sb v' j = disk_inode 1 mkfs_sb v j.
Proof.
  intros Hi Hj Hne Hl Ha E ->. set (x := put_dinode _ _ _). change (of_dinode j (get_dinode (dinode_off j) (fupd (IBLOCK inum mkfs_sb) x v1 (IBLOCK j mkfs_sb))) = of_dinode j (get_dinode (dinode_off j) (v (IBLOCK j mkfs_sb)))).
  f_equal. rewrite <- E. destruct (decide (IBLOCK j mkfs_sb = IBLOCK inum mkfs_sb)) as [Eb|Nb]; [|by rewrite fupd_ne].
  rewrite Eb, fupd_eq. apply get_dinode_other; [|rewrite Hl; apply dinode_off_range|done]. by apply dinode_off_other.
Qed.

Lemma zero_from_kept off v v' ip : (forall n, own v ip n -> v' n = v n) -> (forall k, fblock v' ip k = fblock v ip k) -> 0 <= off -> zero_from off v ip -> zero_from off v' ip.
Proof.
  intros Hk Hb Hoff Hz p Hp Hne. rewrite Hb in Hne. destruct (fbyte_ext v v' ip p Hk Hne ltac:(lia)) as [_ ->]. by apply Hz.
Qed.

Lemma patch_end (k : nat) (bs l : list Z) : length l = k -> patch k bs l = l ++ bs.
Proof. intros <-. unfold patch. rewrite take_ge, drop_ge, app_nil_r by lia. done. Qed.

Lemma iappend_spec v f s ips (k : nat) ip xp n (Q : unit -> mkst -> Prop) :
  mk_files v f s ips -> ips !! k = Some ip -> n = Z.of_nat (length xp) -> 0 < n -> i_size ip + n <= MAXFILE * BSIZE ->
  (forall v' f' s' ip', mk_files v' f' s' (<[k := ip']> ips) -> f <= f' -> contents v' ip' = contents v ip ++ xp ->
     i_type ip' = i_type ip -> i_nlink ip' = i_nlink ip ->
     (forall k' ip2, k' <> k -> ips !! k' = Some ip2 -> contents v' ip2 = contents v ip2) -> Q tt s') ->
  hspec (iappend (k + 1) xp n) Q s.
Proof.
  intros Hm Hk Hn Hpos Hmax HQ. destruct (mk_files_inum _ _ _ _ _ _ Hm Hk) as [Eip Hinum]. set (inum := Z.of_nat k + 1) in *.
  pose proof Hm as [Hrel Hfree Hcount Hok Hdisk Hzero]. destruct (fl_file _ _ _ _ _ Hok k ip Hk) as (Hf & Hiok & Hnh).
  assert (MAXFILE * BSIZE = 274432) as EM by reflexivity. pose proof (io_size _ Hiok) as Hsz.
  unfold iappend. h_step. apply (mk_rinode v f); [done|done|]. intros s1 Hrel1 Ei1. set (din := get_dinode _ _) in *.
  assert (d_size din = i_size ip) as Ed by (by rewrite Eip). rewrite xint_small by lia. rewrite Ed.
  h_step. apply (iappend_loop_spec inum _ din v f); rewrite <- ?Eip; [done|done|lia|done|lia|lia|by apply (Hzero k)|].
  intros din' v1 f1 s2 ip1 Hrel2 Hff Ei2 Hf1 Hst Hbytes Hpres Hz. cbn [fst snd]. set (off := i_size ip) in *. rewrite xint_small by lia.
  assert (length (d_addrs din') = S NDIRECT) as Hl' by (apply Hf1).
  destruct (st_inode _ _ _ _ _ _ _ Hst) as [addrs Eip1]. set (ip2 := of_dinode inum (din_set_size (off + n) din')).
  assert (ip2 = resized off n ip1) as Ers.
  { unfold resized. rewrite Eip1. cbn [i_size set_i_addrs]. fold off. rewrite (proj2 (Z.ltb_lt off (off + n))) by lia. rewrite <- Eip1. done. }
  assert (inode_ok ip2) as Hok2.
  { rewrite Ers. unfold resized. rewrite Eip1. cbn [i_size set_i_addrs]. fold off. rewrite (proj2 (Z.ltb_lt off (off + n))) by lia. destruct Hiok. split; try done. cbn. lia. }
  assert (i_inum ip = inum) as Enum by (by rewrite Eip). destruct (iblock_val inum Hinum) as [_ Hibr].
  assert (iblock_ok mkfs_sb 2 30 46 ip) as Hib by (apply iblock_ok_mkfs; by rewrite Enum). destruct Hib as (Hib1 & Hib2 & Hib3).
  assert (file_ok mkfs_sb 46 1 v1 ip2) as Hf2 by (rewrite Ers; by apply file_ok_resized).
  apply (mk_winode v1 f1); [done|done|done|]. intros s3 Hrel3 Ei3. fold ip2 in Hrel3. set (v2 := fupd _ _ v1) in *.
  assert (written_file mkfs_sb 46 off xp v ip v2 ip2) as Hw.
  { unfold v2. rewrite Ers. rewrite <- Enum. rewrite Hn in *. apply (written_file_of 1 mkfs_sb 2 30 46 mkfs_geom off xp v ip v1 ip1); try done; try lia; rewrite <- ?Ers; try done. apply (mr_length _ _ _ Hrel2). }
  assert (file_ok mkfs_sb 46 1 v2 ip2) as Hf3 by (apply (file_ok_meta 1 mkfs_sb 2 30 46 mkfs_geom); [done|lia|rewrite mkfs_bmap; lia]).
  destruct (files_ok_written 1 mkfs_sb 2 30 46 mkfs_geom off xp v v2 ip ip2 ips k (conj Hib1 (conj Hib2 Hib3)) Hw (meta_used_rel _ _ _ Hrel3) Hf3 Hok2 Hk Hok) as [Hok3 Hother].
  assert (disk_inode 1 mkfs_sb v2 inum = ip2) as Edisk.
  { apply disk_inode_is; try done. pose proof (wf_disk _ _ _ _ _ _ _ _ Hw) as Hd. unfold iblock in Hd. by rewrite Enum in Hd. }
  assert (forall k' ip3, k' <> k -> ips !! k' = Some ip3 -> disk_inode 1 mkfs_sb v2 (k' + 1) = ip3 /\ zero_from (i_size ip3) v2 ip3) as Hrest.
  { intros k' ip3 Hne H3. destruct (mk_files_inum _ _ _ _ _ _ Hm H3) as [_ Hj]. destruct (iblock_val _ Hj) as [_ Hjr]. split.
    - rewrite <- (Hdisk k' ip3 H3). eapply (disk_inode_other v v1 v2 inum (k' + 1) ip2); try done; [lia|apply (mr_length _ _ _ Hrel2)|].
      apply (st_other _ _ _ _ _ _ _ Hst); [rewrite mkfs_bmap; lia|left; lia|]. intros Ho%(fo_own _ _ _ _ _ Hf). destruct Ho. lia.
    - destruct (fl_file _ _ _ _ _ Hok k' ip3 H3) as (Hf3' & Hok3' & Hnh3). assert (disjoint v ip3 ip) as Hdj by (by eapply (fl_disjoint _ _ _ _ _ Hok k' k)).
      apply (zero_from_kept _ v); [| |apply Hok3'|by apply (Hzero k')]; intros; [by eapply (other_kept 1 mkfs_sb 2 30 46 mkfs_geom)|by eapply (other_fblock 1 mkfs_sb 2 30 46 mkfs_geom)]. }
  pose proof (lookup_lt_Some _ _ _ Hk) as Hkl.
  apply (HQ v2 f1 s3 ip2); [|done| | | |done].
  - split; [done|rewrite length_insert; congruence|by rewrite length_insert|done| |].
    + intros k' ip3. destruct (decide (k' = k)) as [->|Hne]; [rewrite list_lookup_insert_eq by done; by intros [= <-]|].
      rewrite list_lookup_insert_ne by done. intros H3. by apply Hrest.
    + intros k' ip3. destruct (decide (k' = k)) as [->|Hne]; [rewrite list_lookup_insert_eq by done; intros [= <-]|].
      * change (i_size ip2) with (off + n). intros p Hp. unfold v2. rewrite (fblock_meta 1 mkfs_sb 46 v1 ip2 _ _ Hf2) by lia. intros Hb.
        rewrite (fbyte_meta 1 mkfs_sb 46 v1 ip2 _ _ Hf2) by (done || lia). rewrite Ers in *. rewrite fblock_resized in Hb. unfold fbyte. rewrite fblock_resized. by apply Hz.
      * rewrite list_lookup_insert_ne by done. intros H3. by apply (Hrest k').
  - rewrite (contents_written mkfs_sb 46 off xp v ip v2 ip2); [|unfold off; lia|done]. apply patch_end. unfold contents, off. by rewrite length_file_bytes.
  - rewrite Ers. unfold resized. rewrite Eip1. by destruct (_ <? _).
  - rewrite Ers. unfold resized. rewrite Eip1. by destruct (_ <? _).
Qed.

(** ** The image as a list of files

    Inode [k + 1] has the type and the contents of entry [k]. *)

Definition entry_is (v : Z -> list Z) (ip : inode) (e : Z * list Z) : Prop :=
  i_type ip = e.1 /\ i_nlink ip = 1 /\ contents v ip = e.2.

Definition image (v : Z -> list Z) (f : Z) (fs : list (Z * list Z)) (s : mkst) : Prop :=
  exists ips, mk_files v f s ips /\ Forall2 (entry_is v) ips fs.

(** A change of metadata outside the bitmap. *)
Lemma files_ok_meta v ips n x : n < 46 -> n <> 45 -> files_ok 1 mkfs_sb 46 v ips -> meta_used mkfs_sb 46 (fupd n x v) -> let v' := fupd n x v in
  files_ok 1 mkfs_sb 46 v' ips /\ forall k ip, ips !! k = Some ip -> contents v' ip = contents v ip /\ forall off, 0 <= off -> zero_from off v ip -> zero_from off v' ip.
Proof.
  intros Hn Hnb [_ Hfile Hdis] Hm v'. assert (~ bmap_block mkfs_sb n) as Hbm by (by rewrite mkfs_bmap).
  assert (forall k ip m, ips !! k = Some ip -> own v ip m -> v' m = v m) as Hkeep.
  { intros k ip m Hk Ho. apply fupd_ne. destruct (Hfile k ip Hk) as (Hf & _). by eapply (meta_own 1 mkfs_sb 46). }
  split.
  - split; [done| |].
    + intros k ip Hk. destruct (Hfile k ip Hk) as (Hf & Hok & Hnh). split_and!; [by apply (file_ok_meta 1 mkfs_sb 2 30 46 mkfs_geom)|done|].
      intros p Hp. unfold v'. rewrite (fblock_meta 1 mkfs_sb 46) by done. by apply Hnh.
    + intros k k' ip ip' Hk Hk' Hne m. destruct (Hfile k ip Hk) as (Hf & _), (Hfile k' ip' Hk') as (Hf' & _). unfold v'.
      rewrite !(own_meta 1 mkfs_sb 46) by done. by apply (Hdis k k').
  - intros k ip Hk. destruct (Hfile k ip Hk) as (Hf & Hok & Hnh). split; [apply contents_ext; [intros m; by apply (Hkeep k)|done|apply Hok]|].
    intros off Hoff Hz. eapply (zero_from_kept _ v); [intros m; by apply (Hkeep k)| |done|done]. intros k'. by apply (fblock_meta 1 mkfs_sb 46).
Qed.

(** Adding an empty file. *)
Lemma files_ok_snoc v ips ip : files_ok 1 mkfs_sb 46 v ips -> i_dev ip = 1 -> i_addrs ip = replicate 13 0 -> i_size ip = 0 -> inode_ok ip -> files_ok 1 mkfs_sb 46 v (ips ++ [ip]).
Proof.
  intros [Hm Hfile Hdis] Hd Ha Hs Hok. assert (file_ok mkfs_sb 46 1 v ip) as Hf by (by apply (small_file _ _ _ _ _ 0)).
  assert (forall n, ~ own v ip n) as Hno.
  { intros n [Hn [->|(k & _ & <-)]]; apply Hn; [unfold ind_block; by rewrite Ha|]. unfold fblock, ind_block. rewrite Ha. destruct (_ <? _)%nat; [|done].
    rewrite nth_lookup. destruct (_ !! k) eqn:E; [|done]. by apply lookup_replicate in E as [-> _]. }
  split; [done| |].
  - intros k ip' [Hk|[_ Hk]]%lookup_app_Some; [by apply (Hfile k)|]. apply list_lookup_singleton_Some in Hk as [_ <-]. split_and!; [done|done|]. intros p Hp. lia.
  - intros k k' ip1 ip2 [Hk|[Hl Hk]]%lookup_app_Some [Hk'|[Hl' Hk']]%lookup_app_Some Hne n H1 H2.
    + by eapply (Hdis k k').
    + apply list_lookup_singleton_Some in Hk' as [_ <-]. by eapply Hno.
    + apply list_lookup_singleton_Some in Hk as [_ <-]. by eapply Hno.
    + apply list_lookup_singleton_Some in Hk as [? _]. apply list_lookup_singleton_Some in Hk' as [? _]. lia.
Qed.

Lemma ialloc_spec v f fs s ty (Q : Z -> mkst -> Prop) : image v f fs s -> ty = T_DIR \/ ty = T_FILE -> (length fs < 199)%nat ->
  (forall v' s', image v' f (fs ++ [(ty, [])]) s' -> Q (length fs + 1) s') -> hspec (ialloc ty) Q s.
Proof.
  intros (ips & Hm & Hfs) Hty Hlen HQ. pose proof (Forall2_length Hfs) as El. pose proof Hm as [Hrel Hfree Hcount Hok Hdisk Hzero].
  set (inum := Z.of_nat (length fs) + 1) in *. assert (m_freeinode s = inum) as Ef by (rewrite Hfree; unfold inum; lia). assert (1 <= inum < 200) as Hi by (unfold inum; lia).
  unfold ialloc. h_step. h_step. rewrite Ef. h_step. h_step. rewrite u32_small by lia. h_step.
  assert (xshort ty = ty) as -> by (destruct Hty as [-> | ->]; reflexivity). change (xshort 1) with 1. change (xint 0) with 0.
  set (din := mkdinode ty 0 0 1 0 (replicate (S NDIRECT) 0)). set (ip := of_dinode inum din). destruct (iblock_val inum Hi) as [_ Hb].
  assert (inode_ok ip) as Hiok by (destruct Hty as [-> | ->]; split; vm_compute; (split; congruence)).
  apply (mk_winode v f); [destruct Hrel; by split|done|done|]. intros s' Hrel' Ei. fold ip in Hrel'. set (v' := fupd _ _ v) in *. h_step. apply (HQ v').
  destruct (files_ok_meta v ips (IBLOCK inum mkfs_sb) (put_dinode (dinode_off inum) ip (v (IBLOCK inum mkfs_sb))) ltac:(lia) ltac:(lia) Hok (meta_used_rel _ _ _ Hrel')) as [Hok' Hc].
  fold v' in Hok', Hc. pose proof (mr_length _ _ _ Hrel) as Hbl.
  exists (ips ++ [ip]). split; [split|].
  - done.
  - rewrite Ei, length_app. cbn. lia.
  - rewrite length_app. cbn. lia.
  - by apply files_ok_snoc.
  - intros k ip' [Hk|[Hl Hk]]%lookup_app_Some.
    + destruct (mk_files_inum _ _ _ _ _ _ Hm Hk) as [_ Hj]. rewrite <- (Hdisk k ip' Hk). apply lookup_lt_Some in Hk.
      by apply (disk_inode_other v v v' inum (k + 1) ip); try done; [unfold inum; lia].
    + apply list_lookup_singleton_Some in Hk as [Hk <-]. replace (k + 1) with inum by (unfold inum; lia). apply disk_inode_is; try done. unfold v'. rewrite fupd_eq.
      apply dinode_roundtrip; [|rewrite Hbl; apply dinode_off_range]. destruct Hiok as [T1 T2 T3 T4 T5]. split; try done. by repeat constructor.
  - intros k ip' [Hk|[Hl Hk]]%lookup_app_Some.
    + apply (Hc k ip' Hk); [|by apply (Hzero k)]. destruct (fl_file _ _ _ _ _ Hok k ip' Hk) as (_ & Hok1 & _). apply Hok1.
    + apply list_lookup_singleton_Some in Hk as [_ <-]. intros p Hp Hne. exfalso. apply Hne. unfold fblock, ind_block. cbn [ip of_dinode i_addrs d_addrs din].
      destruct (_ <? _)%nat; [|done]. rewrite nth_lookup. destruct (_ !! _) eqn:E; [|done]. by apply lookup_replicate in E as [-> _].
  - apply Forall2_app; [|by repeat constructor]. apply Forall2_same_length_lookup. split; [done|]. intros k ip' e Hk He.
    destruct (Forall2_lookup_lr _ _ _ _ _ _ Hfs Hk He) as (T1 & T2 & T3). split_and!; [done|done|]. rewrite <- T3. by apply (Hc k).
Qed.

Lemma image_size v f fs s ips k ip e : mk_files v f s ips -> Forall2 (entry_is v) ips fs -> ips !! k = Some ip -> fs !! k = Some e -> i_size ip = length e.2.
Proof.
  intros Hm Hfs Hk He. destruct (Forall2_lookup_lr _ _ _ _ _ _ Hfs Hk He) as (_ & _ & Ec). rewrite <- Ec. unfold contents. rewrite length_file_bytes.
  destruct (fl_file _ _ _ _ _ (mf_ok _ _ _ _ Hm) k ip Hk) as (_ & Hok & _). pose proof (io_size _ Hok). lia.
Qed.

Lemma image_append v f fs s (k : nat) ty c xp n (Q : unit -> mkst -> Prop) : image v f fs s -> fs !! k = Some (ty, c) -> n = Z.of_nat (length xp) -> 0 < n ->
  length c + n <= MAXFILE * BSIZE ->
  (forall v' f' s', image v' f' (<[k := (ty, c ++ xp)]> fs) s' -> Q tt s') -> hspec (iappend (k + 1) xp n) Q s.
Proof.
  intros (ips & Hm & Hfs) Hk Hn Hpos Hmax HQ. destruct (Forall2_lookup_r _ _ _ _ _ Hfs Hk) as (ip & Hip & E1 & E2 & E3).
  pose proof (image_size _ _ _ _ _ _ _ _ Hm Hfs Hip Hk) as Esz. cbn [fst snd] in *.
  eapply iappend_spec; [exact Hm|exact Hip|done|done|lia|]. intros v' f' s' ip' Hm' Hff Hc Ht Hl Hother. apply (HQ v' f'). exists (<[k := ip']> ips). split; [done|].
  apply Forall2_same_length_lookup. split; [rewrite !length_insert; by eapply Forall2_length|]. intros j ipj ej.
  destruct (decide (j = k)) as [->|Hne].
  - pose proof (lookup_lt_Some _ _ _ Hip). pose proof (lookup_lt_Some _ _ _ Hk). rewrite !list_lookup_insert_eq by done. intros [= <-] [= <-].
    split_and!; cbn; congruence.
  - rewrite !list_lookup_insert_ne by done. intros Hj He. destruct (Forall2_lookup_lr _ _ _ _ _ _ Hfs Hj He) as (T1 & T2 & T3).
    split_and!; [done|done|]. rewrite <- T3. by apply (Hother j).
Qed.

Lemma copy_file_spec (k : nat) ty pieces : forall v f fs s c (Q : unit -> mkst -> Prop), image v f fs s -> fs !! k = Some (ty, c) ->
  Forall (fun b => b <> []) pieces -> Z.of_nat (length (c ++ mjoin pieces)) <= MAXFILE * BSIZE ->
  (forall v' f' s', image v' f' (<[k := (ty, c ++ mjoin pieces)]> fs) s' -> Q tt s') -> hspec (copy_file (k + 1) pieces) Q s.
Proof.
  induction pieces as [|b pieces IH]; intros v f fs s c Q Hi Hk Hne Hmax HQ; cbn [copy_file].
  - h_step. apply (HQ v f). change (mjoin []) with (@nil Z). rewrite app_nil_r. by rewrite list_insert_id.
  - inversion_clear Hne as [|? ? Hb Hps]. change (mjoin (b :: pieces)) with (b ++ mjoin pieces) in *. rewrite !length_app in Hmax.
    assert (0 < length b)%nat as Hlb by (destruct b; [done|cbn; lia]). rewrite (proj2 (Nat.ltb_lt _ _)) by done.
    h_step. eapply (image_append v f fs s k ty c b); [done|done|done|lia|lia|]. intros v1 f1 s1 Hi1. pose proof (lookup_lt_Some _ _ _ Hk).
    eapply (IH v1 f1 _ s1 (c ++ b)); [exact Hi1|by rewrite list_lookup_insert_eq|done|rewrite !length_app; lia|]. intros v' f' s'. rewrite list_insert_insert_eq, <- app_assoc. apply HQ.
Qed.

Section Files.
Context (read_file : list Z -> option (list (list Z))).

(** A file of the command line that fits. *)
Definition input_ok (arg c : list Z) : Prop :=
  (chr "/" ∉ short_name arg) /\ Z.of_nat (length c) <= MAXFILE * BSIZE /\
  exists pieces, read_file arg = Some pieces /\ Forall (fun b => b <> []) pieces /\ mjoin pieces = c.

Definition file_name (arg : list Z) : list Z := skip_underscore (short_name arg).

Lemma length_mkdirent inum name : length (mkdirent inum name) = 16%nat.
Proof. unfold mkdirent. rewrite length_app, length_le_bytes, length_take, length_app, length_replicate. unfold DIRSIZ. lia. Qed.

Lemma insert_last {A} (x y z : A) l : <[S (length l) := y]> (x :: l ++ [z]) = x :: l ++ [y].
Proof. change (x :: l ++ [z]) with ((x :: l) ++ [z]). rewrite insert_app_r_alt by (cbn; lia). cbn [length]. by rewrite Nat.sub_diag. Qed.

Lemma add_file_spec arg c v f d fs s (Q : unit -> mkst -> Prop) : image v f ((T_DIR, d) :: fs) s -> input_ok arg c -> (length fs < 198)%nat -> length d + 16 <= MAXFILE * BSIZE ->
  (forall v' f' s', image v' f' ((T_DIR, d ++ mkdirent (length fs + 2) (file_name arg)) :: fs ++ [(T_FILE, c)]) s' -> Q tt s') ->
  hspec (add_file read_file 1 arg) Q s.
Proof.
  intros Hi (Hslash & Hlen & pieces & Hread & Hne & Hc) Hl Hd HQ. unfold add_file. h_step. apply hspec_assert; [by rewrite bool_decide_false|].
  apply hspec_host. intros s1 (h & g & ->). rewrite Hread. h_step.
  assert (image v f ((T_DIR, d) :: fs) (set_host h g s)) as Hi1.
  { destruct Hi as (ips & [M1 M2 M3 M4 M5 M6] & Hfs). exists ips. split; [|done]. split; try done. eapply mk_rel_same; [exact M1|by exists h, g]. }
  eapply (ialloc_spec v f _ _ T_FILE); [exact Hi1|by right|cbn; lia|]. intros v1 s1 Hi2. cbn [length] in *. replace (S (length fs) + 1) with (length fs + 2) by lia.
  h_step. eapply (image_append v1 f _ s1 0 T_DIR d (mkdirent (length fs + 2) (skip_underscore (short_name arg))) 16); [exact Hi2|done|by rewrite length_mkdirent|lia|lia|].
  intros v2 f2 s2 Hi3. cbn [insert list_insert app] in Hi3. replace (length fs + 2) with (Z.of_nat (S (length fs)) + 1) by lia.
  eapply (copy_file_spec (S (length fs)) T_FILE pieces v2 f2 _ s2 []); [exact Hi3| |done|by rewrite Hc|].
  - by apply (list_lookup_middle (_ :: fs) []).
  - intros v' f' s' Hi'. apply (HQ v' f'). revert Hi'. rewrite Hc. cbn [app]. rewrite insert_last.
    by replace (S (length fs) + 1) with (length fs + 2) by lia.
Qed.

(** The directory and the files after some arguments. *)
Fixpoint dir_entries (inum : Z) (args : list (list Z)) : list Z :=
  match args with
  | [] => []
  | a :: args => mkdirent inum (file_name a) ++ dir_entries (inum + 1) args
  end.

Lemma length_dir_entries inum args : length (dir_entries inum args) = (16 * length args)%nat.
Proof. revert inum. induction args as [|a args IH]; intros inum; cbn [dir_entries length]; [lia|]. rewrite length_app, length_mkdirent, IH. lia. Qed.

Lemma add_files_spec args : forall cs v f d fs s (Q : unit -> mkst -> Prop), image v f ((T_DIR, d) :: fs) s -> Forall2 input_ok args cs ->
  (length fs + length args <= 198)%nat -> length d + 16 * length args <= MAXFILE * BSIZE ->
  (forall v' f' s', image v' f' ((T_DIR, d ++ dir_entries (length fs + 2) args) :: fs ++ ((T_FILE,.) <$> cs)) s' -> Q tt s') ->
  hspec (add_files read_file 1 args) Q s.
Proof.
  induction args as [|a args IH]; intros cs v f d fs s Q Hi Hall Hl Hd HQ; inversion Hall as [|? c ? cs' Ha Hrest]; subst; cbn [add_files].
  - h_step. apply (HQ v f). cbn [dir_entries fmap list_fmap]. by rewrite !app_nil_r.
  - cbn [length] in *. h_step. eapply (add_file_spec a c); [exact Hi|done|lia|lia|]. intros v1 f1 s1 Hi1.
    eapply (IH cs'); [exact Hi1|done|rewrite length_app; cbn; lia|rewrite length_app, length_mkdirent; lia|]. intros v' f' s' Hi'. apply (HQ v' f').
    revert Hi'. rewrite length_app, <- !app_assoc. cbn [dir_entries fmap list_fmap app length].
    by replace (Z.of_nat (length fs + 1) + 2) with (length fs + 2 + 1) by lia.
Qed.
End Files.

(** ** The size of the root directory *)

Definition padded (d : list Z) : list Z := d ++ replicate (Z.to_nat (BSIZE - length d mod BSIZE)) 0.

Lemma files_ok_resize v ip ips n : files_ok 1 mkfs_sb 46 v (ip :: ips) -> no_holes v (set_i_size n ip) -> inode_ok (set_i_size n ip) -> files_ok 1 mkfs_sb 46 v (set_i_size n ip :: ips).
Proof.
  intros [Hm Hfile Hdis] Hnh Hok. split; [done| |].
  - intros [|k] ip' Hk; [|by apply (Hfile (S k))]. injection Hk as <-. destruct (Hfile 0%nat ip eq_refl) as (Hf & _). split_and!; [by destruct Hf; split|done|done].
  - intros [|k] [|k'] ip1 ip2 H1 H2 Hne; [done|..].
    + injection H1 as <-. exact (Hdis 0%nat (S k') ip ip2 eq_refl H2 Hne).
    + injection H2 as <-. exact (Hdis (S k) 0%nat ip1 ip H1 eq_refl Hne).
    + exact (Hdis (S k) (S k') ip1 ip2 H1 H2 Hne).
Qed.

Lemma file_bytes_zero v ip off (len : nat) : (forall p, off <= p < off + len -> fbyte v ip p = 0) -> file_bytes v ip off len = replicate len 0.
Proof.
  intros Hz. symmetry. apply replicate_as_Forall. split; [apply length_file_bytes|]. apply list.Forall_forall. intros x Hx.
  apply list_elem_of_fmap in Hx as (j & -> & Hj). apply elem_of_seq in Hj. symmetry. apply Hz. lia.
Qed.

Section Root.
Context (v : Z -> list Z) (f : Z) (s : mkst) (ip : inode) (ips : list inode) (Hm : mk_files v f s (ip :: ips)).
Let L : Z := i_size ip.
Let n : Z := (L / BSIZE + 1) * BSIZE.
Context (Hmod : L mod BSIZE <> 0) (HL : L <= 16384).

Lemma root_sizes : 0 < L < n /\ n <= 17408 /\ n - L = BSIZE - L mod BSIZE.
Proof.
  destruct (fl_file _ _ _ _ _ (mf_ok _ _ _ _ Hm) 0%nat ip eq_refl) as (_ & Hok & _). pose proof (io_size _ Hok) as Hs. fold L in Hs.
  unfold n, BSIZE in *. Z.div_mod_to_equations. lia.
Qed.

Lemma root_holes : no_holes v (set_i_size n ip).
Proof.
  destruct (fl_file _ _ _ _ _ (mf_ok _ _ _ _ Hm) 0%nat ip eq_refl) as (_ & _ & Hnh). pose proof root_sizes as (H1 & H2 & H3).
  intros p Hp. change (0 <= p < n) in Hp. change (fblock v ip (Z.to_nat (p / BSIZE)) <> 0). destruct (decide (p < L)); [apply Hnh; unfold L in *; lia|].
  assert (p / BSIZE = (L - 1) / BSIZE) as -> by (unfold n, BSIZE in *; Z.div_mod_to_equations; lia). apply Hnh. unfold L in *. lia.
Qed.

Lemma root_inode_ok : inode_ok (set_i_size n ip).
Proof.
  destruct (fl_file _ _ _ _ _ (mf_ok _ _ _ _ Hm) 0%nat ip eq_refl) as (_ & [] & _). pose proof root_sizes. assert (MAXFILE * BSIZE = 274432) as EM by reflexivity.
  split; try done. change (0 <= n <= MAXFILE * BSIZE). lia.
Qed.

Lemma root_contents : contents v (set_i_size n ip) = padded (contents v ip).
Proof.
  pose proof root_sizes as (H1 & H2 & H3). unfold padded. assert (length (contents v ip) = Z.to_nat L) as El by apply length_file_bytes. rewrite El.
  rewrite Z2Nat.id, <- H3 by lia. unfold contents at 1. change (i_size (set_i_size n ip)) with n. replace (Z.to_nat n) with (Z.to_nat L + Z.to_nat (n - L))%nat by lia.
  rewrite file_bytes_app. f_equal. apply file_bytes_zero. intros p Hp. assert (MAXFILE * BSIZE = 274432) as EM by reflexivity. rewrite Z.add_0_l in Hp.
  apply (mf_zero _ _ _ _ Hm 0%nat ip eq_refl); [unfold L in *; lia|]. apply root_holes. change (0 <= p < n). lia.
Qed.
End Root.

Lemma fix_root_spec v f d fs s (Q : unit -> mkst -> Prop) : image v f ((T_DIR, d) :: fs) s -> Z.of_nat (length d) mod BSIZE <> 0 -> Z.of_nat (length d) <= 16384 ->
  (forall v' s', image v' f ((T_DIR, padded d) :: fs) s' -> Q tt s') -> hspec (fix_root 1) Q s.
Proof.
  intros (ips & Hm & Hfs) Hmod Hd HQ. inversion Hfs as [|ip e ips' fs' (T1 & T2 & T3) Hrest]; subst. cbn [fst snd] in *.
  pose proof (image_size _ _ _ _ _ 0%nat ip (T_DIR, d) Hm Hfs eq_refl eq_refl) as Esz. cbn [snd] in Esz. rewrite <- Esz in Hmod, Hd.
  destruct (mk_files_inum _ _ _ _ 0%nat ip Hm eq_refl) as [Eip Hi]. change (0%nat + 1) with 1 in *. pose proof Hm as [Hrel Hfree Hcount Hok Hdisk Hzero].
  pose proof (root_sizes v f s ip ips' Hm Hmod Hd) as (H1 & H2 & H3). set (n := (i_size ip / BSIZE + 1) * BSIZE) in *.
  unfold fix_root. h_step. apply (mk_rinode v f); [done|done|]. intros s1 Hrel1 E1. set (din := get_dinode _ _) in *.
  assert (d_size din = i_size ip) as Ed by (by rewrite Eip). rewrite (xint_small (d_size din)) by lia. rewrite Ed. fold n. rewrite u32_small, xint_small by lia.
  apply (mk_winode v f); [done|done|done|]. intros s2 Hrel2 E2. set (ip2 := set_i_size n ip).
  assert (of_dinode 1 (din_set_size n din) = ip2) as E by (unfold ip2; by rewrite Eip). rewrite E in Hrel2. set (v' := fupd _ _ v) in Hrel2. apply (HQ v').
  destruct (iblock_val 1 Hi) as [_ Hb]. pose proof (mr_length _ _ _ Hrel) as Hbl.
  pose proof (root_inode_ok v f s ip ips' Hm Hmod Hd) as Hiok. fold n ip2 in Hiok.
  assert (files_ok 1 mkfs_sb 46 v (ip2 :: ips')) as Hok2 by (apply files_ok_resize; [done|by apply (root_holes v f s ip ips')|done]).
  destruct (files_ok_meta v (ip2 :: ips') (IBLOCK 1 mkfs_sb) (put_dinode (dinode_off 1) ip2 (v (IBLOCK 1 mkfs_sb))) ltac:(lia) ltac:(lia) Hok2 (meta_used_rel _ _ _ Hrel2)) as [Hok' Hc].
  fold v' in Hok', Hc. destruct (fl_file _ _ _ _ _ Hok2 0%nat ip2 eq_refl) as (Hf2 & _ & _).
  exists (ip2 :: ips'). split; [split|].
  - done.
  - rewrite E2, E1. exact Hfree.
  - done.
  - done.
  - intros [|k] ip' Hk.
    + injection Hk as <-. apply disk_inode_is; try done; [by unfold ip2; rewrite Eip..|]. unfold v'. rewrite fupd_eq.
      apply dinode_roundtrip; [|rewrite Hbl; apply dinode_off_range]. pose proof (io_size _ Hiok). assert (MAXFILE * BSIZE = 274432) as EM by reflexivity.
      destruct Hiok as [I1 I2 I3 I4 I5]. split; try done; [lia|eapply (addrs_range 1 mkfs_sb 2 30 46 mkfs_geom); exact Hf2|apply Hf2].
    + change ((ip :: ips') !! S k = Some ip') in Hk. destruct (mk_files_inum _ _ _ _ _ _ Hm Hk) as [_ Hj]. rewrite <- (Hdisk (S k) ip' Hk). eapply (disk_inode_other v v v' 1 (S k + 1) ip2); try done; [lia|by apply Hf2].
  - intros [|k] ip' Hk.
    + injection Hk as <-. destruct (Hc 0%nat ip2 eq_refl) as [_ Hzz]. apply Hzz; [change (0 <= n); lia|]. intros p Hp. change (n <= p < MAXFILE * BSIZE) in Hp.
      apply (Hzero 0%nat ip eq_refl). lia.
    + apply (Hc (S k) ip' Hk); [|by apply (Hzero (S k))]. destruct (fl_file _ _ _ _ _ Hok (S k) ip' Hk) as (_ & Hok1 & _). apply Hok1.
  - constructor.
    + split_and!; [done|done|]. cbn [snd]. destruct (Hc 0%nat ip2 eq_refl) as [-> _]. rewrite <- T3. by apply (root_contents v f s ip ips' Hm).
    + apply Forall2_same_length_lookup. split; [by eapply Forall2_length|]. intros k ip' e Hk He.
      destruct (Forall2_lookup_lr _ _ _ _ _ _ Hrest Hk He) as (I1 & I2 & I3). split_and!; [done|done|]. rewrite <- I3. by apply (Hc (S k)).
Qed.

(** ** The program *)

Lemma forall_sect_spec (n : nat) : forall s (Q : unit -> mkst -> Prop), (n <= 2000)%nat -> m_img s = ∅ -> m_len s = 0 ->
  (forall s', (forall k, default zeroes (m_img s' !! k) = zeroes) -> m_len s' = n -> m_sb s' = m_sb s -> m_freeblock s' = m_freeblock s ->
     m_freeinode s' = m_freeinode s -> Q tt s') -> hspec (forall_sect n) Q s.
Proof.
  induction n as [|n IH]; intros s Q Hn Hi Hl HQ; cbn [forall_sect].
  - h_step. apply HQ; try done. intros k. by rewrite Hi, lookup_empty.
  - h_step. apply IH; [lia|done|done|]. intros s1 H1 H2 H3 H4 H5. apply hspec_wsect; [unfold sector_ok; lia|]. intros s2 (h & g & ->).
    apply HQ; cbn; try done; [|lia]. intros k. rewrite lookup_insert. destruct (decide (Z.of_nat n = k)); [done|apply H1].
Qed.

Lemma sb_block_val : sb_of_bytes sb_block = mkfs_sb /\ length sb_block = BSIZE.
Proof. split; vm_compute; reflexivity. Qed.

Definition empty_image : Z -> list Z := fupd 45 (bitmap 46) (fupd 1 sb_block (fun _ => zeroes)).

Lemma empty_image_ok s : (forall n, n <> 45 -> default zeroes (m_img s !! n) = empty_image n) -> m_len s = 2000 -> m_sb s = mkfs_sb -> m_freeblock s = 46 -> m_freeinode s = 1 ->
  image empty_image 46 [] s.
Proof.
  intros H1 H2 H3 H4 H5. assert (mk_rel empty_image 46 s) as Hrel.
  { unfold empty_image. split; [exact H1|exact H2|exact H3|exact H4|lia|apply fupd_eq| | |].
    - intros n Hn. rewrite !fupd_ne by lia. done.
    - intros n. unfold fupd. destruct (decide (n = 45)); [apply length_bitmap|]. destruct (decide (n = 1)); [apply sb_block_val|apply length_replicate].
    - intros n Hn. rewrite fupd_ne by lia. unfold fupd. destruct (decide (n = 1)) as [->|Hne]; [done|]. by rewrite (proj2 (Z.eqb_neq _ _) Hne). }
  exists []. split; [|constructor]. split; try done; [cbn; lia|]. split; [by eapply meta_used_rel|done|done].
Qed.

(** The last step: the bitmap is written, the image is what [v] says. *)
Lemma finish {A} (c : H A) v f fs s Q : image v f fs s ->
  (forall s', disk_block (m_img s') = v -> image v f fs s' -> hspec c Q s') -> hspec (g ← hgets m_freeblock; balloc g;; c) Q s.
Proof.
  intros (ips & Hm & Hfs) HQ. pose proof Hm as [Hrel Hfree Hcount Hok Hdisk Hzero]. pose proof Hrel as [R1 R2 R3 R4 R5 R6 R7 R8 R9]. h_step. h_step. rewrite R4. unfold balloc.
  do 2 h_step. apply hspec_assert; [apply Z.ltb_lt; unfold BSIZE; lia|]. h_step. h_step. rewrite R3. change (sb_bmapstart mkfs_sb) with 45.
  apply hspec_wsect; [unfold sector_ok; lia|]. intros s' (h & g & ->).
  assert (forall n, disk_block (m_img (set_host h g (set_img (<[45:=bitmap (Z.to_nat f)]> (m_img s)) (Z.max (m_len s) (45 + 1)) s))) n = v n) as Hv.
  { intros n. unfold disk_block. cbn [m_img set_host set_img]. rewrite lookup_insert. destruct (decide (45 = n)) as [<-|Hne]; [by rewrite R6|]. by apply R1. }
  apply HQ; [by apply functional_extensionality|]. exists ips. split; [|done]. split; try done. split; try done.
  - intros n _. apply Hv.
  - change (Z.max (m_len s) (45 + 1) = 2000). lia.
Qed.

Lemma image_inodes v f fs s : image v f fs s -> exists ips, mk_files v f s ips /\ ips = disk_inode 1 mkfs_sb v <$> seqZ 1 (length fs) /\ Forall2 (entry_is v) ips fs.
Proof.
  intros (ips & Hm & Hfs). exists ips. split; [done|]. split; [|done]. apply list_eq. intros k. rewrite list_lookup_fmap, <- (Forall2_length Hfs).
  destruct (decide (k < length ips)%nat) as [Hlt|Hge].
  - destruct (lookup_lt_is_Some_2 ips k Hlt) as [ip Hip]. rewrite Hip, lookup_seqZ_lt by lia. cbn. rewrite <- (mf_disk _ _ _ _ Hm k ip Hip). f_equal. f_equal. lia.
  - rewrite lookup_ge_None_2 by lia. rewrite lookup_seqZ_ge by lia. done.
Qed.

Definition root_dir (args : list (list Z)) : list Z := padded (mkdirent 1 (bytes ".") ++ mkdirent 1 (bytes "..") ++ dir_entries 2 args).

Lemma main_spec read_file prog img args cs s0 :
  m_freeinode s0 = 1 -> Forall2 (input_ok read_file) args cs -> (length args <= 198)%nat -> (2 + Z.of_nat (length args)) mod 64 <> 0 ->
  hspec (main read_file (prog :: img :: args)) (fun code s => code = 0 /\ exists f, image (disk_block (m_img s)) f ((T_DIR, root_dir args) :: ((T_FILE,.) <$> cs)) s) s0.
Proof.
  intros Hino Hall Hn Hmod. unfold main. apply hspec_host. intros s1 (h & g & ->). do 6 h_step.
  h_step. apply forall_sect_spec; [unfold FSSIZE; lia|done|done|]. intros s1 I1 I2 I3 I4 I5. h_step. h_step. rewrite I3. change (m_sb (set_freeblock _ (set_sb _ _))) with mkfs_sb.
  h_step. apply hspec_wsect; [unfold sector_ok; lia|]. fold sb_block. intros s2 (h2 & g2 & ->).
  assert (image empty_image 46 [] (set_host h2 g2 (set_img (<[1:=sb_block]> (m_img s1)) (Z.max (m_len s1) (1 + 1)) s1))) as Hi0.
  { apply empty_image_ok; [| |exact I3|exact I4|change (m_freeinode s1 = 1); rewrite I5; exact Hino].
    - intros n Hn45. unfold empty_image. rewrite fupd_ne by done. cbn [m_img set_host set_img]. rewrite lookup_insert. unfold fupd.
      destruct (decide (1 = n)) as [<-|Hne]; [done|]. rewrite decide_False by done. apply I1.
    - change (Z.max (m_len s1) (1 + 1) = 2000). rewrite I2. reflexivity. }
  h_step. eapply (ialloc_spec _ _ _ _ T_DIR); [exact Hi0|by left|cbn; lia|]. intros v1 s3 Hi1. change (length [] + 1) with 1. h_step. apply hspec_assert; [done|].
  assert (MAXFILE * BSIZE = 274432) as EM by reflexivity.
  h_step. eapply (image_append v1 46 _ s3 0 T_DIR [] (mkdirent 1 (bytes ".")) 16); [exact Hi1|done|by rewrite length_mkdirent|lia|cbn [length]; lia|]. intros v2 f2 s4 Hi2.
  cbn [insert list_insert app] in Hi2.
  h_step. eapply (image_append v2 f2 _ s4 0 T_DIR (mkdirent 1 (bytes ".")) (mkdirent 1 (bytes "..")) 16); [exact Hi2|done|by rewrite length_mkdirent|lia|rewrite length_mkdirent; lia|].
  intros v3 f3 s5 Hi3. cbn [insert list_insert app] in Hi3. set (d0 := mkdirent 1 (bytes ".") ++ mkdirent 1 (bytes "..")) in *.
  assert (length d0 = 32%nat) as Hd0 by (unfold d0; by rewrite length_app, !length_mkdirent).
  h_step. eapply (add_files_spec read_file args cs v3 f3 d0 [] s5); [exact Hi3|done|cbn; lia|rewrite Hd0; lia|]. intros v4 f4 s6 Hi4. cbn [app length] in Hi4. change (0%nat + 2) with 2 in Hi4.
  set (d := d0 ++ dir_entries 2 args) in *. assert (length d = (32 + 16 * length args)%nat) as Hd by (unfold d; by rewrite length_app, Hd0, length_dir_entries).
  h_step. eapply (fix_root_spec v4 f4 d); [exact Hi4|rewrite Hd; unfold BSIZE; Z.div_mod_to_equations; lia|lia|]. intros v5 s7 Hi5.
  apply (finish _ v5 f4 _ _ _ Hi5). intros s8 Ev Hi6. h_step. split; [done|]. exists f4. rewrite Ev. unfold root_dir. by rewrite app_assoc.
Qed.

(** ** Mounting the image *)

(** A kernel that has mounted the disk and loaded inode [inum] of a well-formed
    image is at rest in the sense of the theorems about kernel/fs.c. *)
Lemma mounted_at_rest dk (n : nat) inum ino o : let u := disk_block dk in let ip := disk_inode 1 mkfs_sb u inum in
  (forall b, length (u b) = BSIZE) -> hdr_n (u 2) = 0 -> files_ok 1 mkfs_sb 46 u (disk_inode 1 mkfs_sb u <$> seqZ 1 n) -> (n < 200)%nat -> 1 <= inum <= n ->
  log_geom 1 (k_log o) -> lg_start (k_log o) = 2 -> lg_size (k_log o) = 30 -> lg_n (k_log o) = 0 -> lg_outstanding (k_log o) = 0 -> lg_committing (k_log o) = 0 ->
  k_sb o = mkfs_sb -> k_inodes o !! ino = Some ip -> at_rest 1 ino mkfs_sb 2 30 46 dk o ip.
Proof.
  intros u ip Hlen Hhdr Hok Hn Hinum Hg L1 L2 L3 L4 L5 Hsb Hip.
  assert ((disk_inode 1 mkfs_sb u <$> seqZ 1 n) !! Z.to_nat (inum - 1) = Some ip) as Hk.
  { rewrite list_lookup_fmap, lookup_seqZ_lt by lia. cbn. unfold ip. do 2 f_equal. lia. }
  destruct (fl_file _ _ _ _ _ Hok _ _ Hk) as (Hf & Hiok & Hnh). split; try done; [by apply Hok|apply iblock_ok_mkfs; cbn; lia].
Qed.

(** C10: the image mkfs builds.  With at most 198 files of at most [MAXFILE] blocks
    and names without a slash, [main] returns 0, or dies with status 1 and then a
    call of the host failed or the disk is full.  If it returns, the disk has the
    layout the super block describes, an empty log and a bitmap that marks a prefix
    of the disk; the inodes form a well-formed file system for the kernel; inode 1
    is the root directory with [.], [..] and an entry for each file, padded with
    zeros to a block; and inode [k + 2] is the [k]-th file with its contents. *)
Theorem mkfs_correct read_file prog img args cs s0 :
  m_freeinode s0 = 1 -> Forall2 (input_ok read_file) args cs -> (length args <= 198)%nat -> (2 + Z.of_nat (length args)) mod 64 <> 0 ->
  hspec (main read_file (prog :: img :: args)) (fun code s => let u := disk_block (m_img s) in
    code = 0 /\ m_len s = FSSIZE /\ sb_of_bytes (u 1) = mkfs_sb /\ hdr_n (u 2) = 0 /\
    (forall n, 0 <= n < FSSIZE -> used mkfs_sb u n = (n <? m_freeblock s)) /\
    files_ok 1 mkfs_sb 46 u (disk_inode 1 mkfs_sb u <$> seqZ 1 (1 + length args)) /\
    i_type (disk_inode 1 mkfs_sb u 1) = T_DIR /\
    disk_contents 1 mkfs_sb u 1 = root_dir args /\
    forall (k : nat) c, cs !! k = Some c ->
      i_type (disk_inode 1 mkfs_sb u (k + 2)) = T_FILE /\ i_nlink (disk_inode 1 mkfs_sb u (k + 2)) = 1 /\ disk_contents 1 mkfs_sb u (k + 2) = c) s0.
Proof.
  intros Hino Hall Hn Hmod. eapply hspec_mono; [by apply main_spec|]. intros code s [-> (f & Hi)]. cbv zeta. set (u := disk_block (m_img s)) in *.
  destruct (image_inodes _ _ _ _ Hi) as (ips & Hm & Eips & Hfs). pose proof Hm as [Hrel _ _ Hok Hdisk _]. pose proof Hrel as [R1 R2 R3 R4 R5 R6 R7 R8 R9].
  assert (forall (k : nat) e, ((T_DIR, root_dir args) :: ((T_FILE,.) <$> cs)) !! k = Some e -> entry_is u (disk_inode 1 mkfs_sb u (k + 1)) e) as Hentry.
  { intros k e He. destruct (Forall2_lookup_r _ _ _ _ _ Hfs He) as (ip & Hip & Hen). by rewrite (Hdisk k ip Hip). }
  assert (length ((T_DIR, root_dir args) :: ((T_FILE,.) <$> cs)) = (1 + length args)%nat) as El.
  { cbn [length]. by rewrite length_fmap, (Forall2_length Hall). }
  split_and!.
  - done.
  - exact R2.
  - rewrite R9 by lia. apply sb_block_val.
  - rewrite R9 by lia. vm_compute. reflexivity.
  - intros n Hn'. rewrite R4. by apply used_bitmap.
  - rewrite Eips, El in Hok. by rewrite Nat2Z.inj_add in Hok.
  - apply (Hentry 0%nat _ eq_refl).
  - destruct (Hentry 0%nat _ eq_refl) as (_ & _ & E). cbn [snd] in E. change (0%nat + 1) with 1 in E. unfold disk_contents. exact E.
  - intros k c Hc. replace (Z.of_nat k + 2) with (Z.of_nat (S k) + 1) by lia. apply (Hentry (S k) (T_FILE, c)). change (((T_FILE,.) <$> cs) !! k = Some (T_FILE, c)). by rewrite list_lookup_fmap, Hc.
Qed.



(** ** An image with two files *)

Definition demo_read (a : list Z) : option (list (list Z)) := if bool_decide (a = bytes "README") then Some [bytes "hello"] else Some [[1; 2]; [3]].
Definition demo_mkst : mkst := mkmkst ∅ 0 (mksb 0 0 0 0 0 0 0 0) 1 0 [true; true] false.

Lemma demo_inputs : Forall2 (input_ok demo_read) [bytes "README"; bytes "user/_cat"] [bytes "hello"; [1; 2; 3]].
Proof.
  assert (forall a c ps, bool_decide (chr "/" ∈ short_name a) = false -> (Z.of_nat (length c) <=? MAXFILE * BSIZE) = true -> demo_read a = Some ps ->
    Forall (fun b => b <> []) ps -> mjoin ps = c -> input_ok demo_read a c) as Hok.
  { intros a c ps H1 H2 H3 H4 H5. split_and!; [by eapply bool_decide_eq_false_1|by apply Z.leb_le|by exists ps]. }
  constructor; [|constructor; [|constructor]].
  - apply (Hok _ _ [bytes "hello"]); try (vm_compute; reflexivity). by repeat constructor.
  - apply (Hok _ _ [[1; 2]; [3]]); try (vm_compute; reflexivity). by repeat constructor.
Qed.

Lemma mkfs_correct_witness :
  hspec (main demo_read [bytes "mkfs"; bytes "fs.img"; bytes "README"; bytes "user/_cat"])
    (fun code s => code = 0 /\ disk_contents 1 mkfs_sb (disk_block (m_img s)) 3 = [1; 2; 3]) demo_mkst.
Proof.
  eapply hspec_mono; [apply (mkfs_correct demo_read _ _ _ _ demo_mkst eq_refl demo_inputs); vm_compute; [lia|congruence]|].
  intros code s (H1 & _ & _ & _ & _ & _ & _ & _ & H2). split; [exact H1|]. apply (H2 1%nat [1; 2; 3]). reflexivity.
Defined.

