(* ===== verification/MkfsTree.v ===== *)
(** * From the image builder to path names

    The root directory that mkfs writes, as a map from names to inodes, and what a
    kernel that has mounted the image finds under the name of a file. *)

From S2P Require Import Prelude KString State Spinlock Norm Printf Sched Sleeplock Vm Proc Bio LruList Cache CacheSpec Blocks Log LogSpec LogTx FsTx Fs FsAlloc FsFile FsWrite FsDir FsPath Mkfs MkfsSpec.

(** ** The root directory *)

Lemma fname_nul l k : fname (take DIRSIZ (l ++ replicate k 0)) = fname l.
Proof.
  unfold fname. rewrite take_take, Nat.min_id. destruct (decide (DIRSIZ <= length l)%nat) as [Hle|Hgt]; [by rewrite take_app_le by lia|].
  rewrite take_app_ge by lia. rewrite (take_ge l) by lia. rewrite fmap_app. rewrite take_replicate, fmap_replicate. change (0 mod 256) with 0.
  destruct ((DIRSIZ - length l) `min` k)%nat; cbn [replicate]; [|apply cut_zero]. by rewrite app_nil_r.
Qed.

Lemma dirents_mkdirent inum name rest : 0 <= inum < 65536 -> dirents (mkdirent inum name ++ rest) = (inum, fname name) :: dirents rest.
Proof.
  intros Hi. pose proof (length_mkdirent inum name) as Hl. rewrite (dirents_app 1) by lia. rewrite (dirents_one _ Hl). cbn [app]. f_equal.
  unfold mkdirent, de_inum, de_name, get_le. rewrite drop_0, take_app_length' by (by rewrite length_le_bytes). rewrite drop_app_length' by (by rewrite length_le_bytes).
  rewrite le_val_bytes, take_take, Nat.min_id, fname_nul. f_equal. unfold xshort. rewrite le_val_bytes. change (256 ^ 2%nat) with 65536. by rewrite !(Z.mod_small inum) by lia.
Qed.

(** The entries of the files. *)
Fixpoint file_entries (inum : Z) (args : list (list Z)) : list (Z * list Z) :=
  match args with
  | [] => []
  | a :: args => (inum, fname (file_name a)) :: file_entries (inum + 1) args
  end.

Lemma dirents_entries inum args rest : 0 <= inum -> inum + length args < 65536 -> dirents (dir_entries inum args ++ rest) = file_entries inum args ++ dirents rest.
Proof.
  revert inum. induction args as [|a args IH]; intros inum H0 Hl; [done|]. cbn [dir_entries file_entries length] in *. rewrite <- app_assoc, dirents_mkdirent by lia.
  rewrite IH by lia. done.
Qed.

Lemma file_entries_lookup inum args (k : nat) a : args !! k = Some a -> file_entries inum args !! k = Some (inum + k, fname (file_name a)).
Proof.
  revert inum k. induction args as [|b args IH]; intros inum [|k] Hk; [done|done| |].
  - injection Hk as ->. cbn. by rewrite Z.add_0_r.
  - cbn [file_entries]. change (file_entries (inum + 1) args !! k = Some (inum + S k, fname (file_name a))). rewrite (IH (inum + 1) k Hk). do 2 f_equal. lia.
Qed.

Lemma file_entries_range inum args e : e ∈ file_entries inum args -> inum <= fst e < inum + length args.
Proof.
  revert inum. induction args as [|a args IH]; intros inum He; [by apply not_elem_of_nil in He|]. cbn [file_entries length] in *.
  apply elem_of_cons in He as [->|He%IH]; cbn [fst]; lia.
Qed.

Lemma file_entries_names inum args : snd <$> file_entries inum args = fname ∘ file_name <$> args.
Proof. revert inum. induction args as [|a args IH]; intros inum; [done|]. cbn. f_equal. apply IH. Qed.

(** The zeros at the end name nothing. *)
Lemma dirents_zero k e : e ∈ dirents (replicate k 0) -> fst e = 0.
Proof.
  unfold dirents. intros (j & -> & _)%list_elem_of_fmap. unfold dirent_at, de_inum, get_le. cbn [fst]. rewrite drop_replicate, take_replicate, drop_replicate, take_replicate.
  generalize (2 `min` (16 `min` (k - 16 * j) - 0))%nat. intros q. induction q as [|q IH]; [done|]. cbn [replicate le_val]. rewrite IH. done.
Qed.

Definition root_entries (args : list (list Z)) : list (Z * list Z) := [(1, [46]); (1, [46; 46])] ++ file_entries 2 args.

Lemma dirents_root args : (length args <= 198)%nat -> exists zs, dirents (root_dir args) = root_entries args ++ zs /\ Forall (fun e => fst e = 0) zs.
Proof.
  intros Hn. unfold root_dir, padded. match goal with |- context [replicate ?k 0] => set (q := k) end. exists (dirents (replicate q 0)). split.
  - rewrite <- !app_assoc, !dirents_mkdirent by lia. rewrite dirents_entries by lia. done.
  - apply list.Forall_forall. intros e He. by eapply dirents_zero.
Qed.

(** The names in the root directory; they are distinct when the arguments give
    distinct names. *)
Definition root_names (args : list (list Z)) : list (list Z) := [46] :: [46; 46] :: (fname ∘ file_name <$> args).

Lemma dir_get_distinct es zs (k : nat) n nm : NoDup (snd <$> es) -> es !! k = Some (n, nm) -> n <> 0 -> dir_get (es ++ zs) nm = Some n.
Proof.
  intros Hnd Hk Hn. unfold dir_get, dir_find. assert (list_find (names nm) (es ++ zs) = Some (k, (n, nm))) as ->; [|done]. apply list_find_Some.
  split; [by apply lookup_app_l_Some|]. split; [done|]. intros j y Hj Hlt [_ Ey]. rewrite lookup_app_l in Hj by (apply lookup_lt_Some in Hk; lia).
  assert (j = k); [|lia]. eapply (NoDup_lookup _ _ _ nm Hnd); rewrite list_lookup_fmap; [by rewrite Hj; cbn; rewrite Ey|by rewrite Hk].
Qed.

Lemma root_get args (k : nat) a : (length args <= 198)%nat -> NoDup (root_names args) -> args !! k = Some a -> dir_get (dirents (root_dir args)) (fname (file_name a)) = Some (k + 2).
Proof.
  intros Hn Hnd Hk. destruct (dirents_root args Hn) as (zs & -> & _). apply (dir_get_distinct _ _ (S (S k))); [|change (file_entries 2 args !! k = Some (k + 2, fname (file_name a)))|lia].
  - change (NoDup ([46] :: [46; 46] :: (snd <$> file_entries 2 args))). by rewrite file_entries_names.
  - rewrite (file_entries_lookup 2 args k a Hk). do 2 f_equal. lia.
Qed.

Lemma root_range args nm n : (length args <= 198)%nat -> dir_get (dirents (root_dir args)) nm = Some n -> 1 <= n <= 1 + length args.
Proof.
  intros Hn. destruct (dirents_root args Hn) as (zs & -> & Hzs). unfold dir_get, dir_find. destruct (list_find _ _) as [[k x]|] eqn:E; [|done]. intros [= <-].
  apply list_find_Some in E as (Hk & [Hx _] & _). apply list_elem_of_lookup_2, elem_of_app in Hk as [Hk|Hk].
  - apply elem_of_app in Hk as [Hk|Hk%file_entries_range]; [|lia]. apply elem_of_cons in Hk as [->|Hk]; [cbn; lia|]. apply list_elem_of_singleton in Hk as ->. cbn. lia.
  - rewrite list.Forall_forall in Hzs. by apply Hzs in Hk.
Qed.

(** ** The tree of the image *)

Lemma image_tree u args n : (length args <= 198)%nat -> n = (1 + length args)%nat ->
  files_ok 1 mkfs_sb 46 u (disk_inode 1 mkfs_sb u <$> seqZ 1 n) ->
  (forall k, 1 <= k <= n -> i_nlink (disk_inode 1 mkfs_sb u k) = 1 /\ i_type (disk_inode 1 mkfs_sb u k) = (if k =? 1 then T_DIR else T_FILE)) ->
  contents u (disk_inode 1 mkfs_sb u 1) = root_dir args ->
  tree_ok 1 mkfs_sb 2 30 46 (fun k => 1 <= k <= n) u.
Proof.
  intros Hn En Hok Htype Hroot k Hk. destruct (Htype k Hk) as [Hnl Hty].
  assert ((disk_inode 1 mkfs_sb u <$> seqZ 1 n) !! Z.to_nat (k - 1) = Some (disk_inode 1 mkfs_sb u k)) as Hl.
  { rewrite list_lookup_fmap, lookup_seqZ_lt by lia. cbn. do 2 f_equal. lia. }
  destruct (fl_file _ _ _ _ _ Hok _ _ Hl) as (Hf & Hiok & Hnh). split.
  - split; try assumption.
    + apply iblock_ok_mkfs. cbn. lia.
    + rewrite Hty. by destruct (k =? 1).
    + by rewrite Hnl.
    + rewrite Hty. destruct (Z.eqb_spec k 1) as [->|]; [intros _|done].
      assert (length (contents u (disk_inode 1 mkfs_sb u 1)) = Z.to_nat (i_size (disk_inode 1 mkfs_sb u 1))) as El by apply length_file_bytes.
      rewrite Hroot in El. unfold root_dir, padded in El. set (e := _ ++ _ ++ dir_entries 2 args) in El.
      rewrite length_app, length_replicate in El. pose proof (io_size _ Hiok) as Hsz. unfold BSIZE in *.
      assert (i_size (disk_inode 1 mkfs_sb u 1) = length e + (1024 - length e mod 1024)) as -> by (pose proof (Z.mod_pos_bound (length e) 1024 ltac:(lia)); lia).
      Z.div_mod_to_equations. lia.
  - intros nm n' Hdir Hget. rewrite Hty in Hdir. destruct (Z.eqb_spec k 1) as [->|]; [|done]. rewrite Hroot in Hget. apply root_range in Hget; [|done]. lia.
Qed.

(** What the image of [main] gives a kernel. *)
Lemma image_kernel u f args cs s : let fs := (T_DIR, root_dir args) :: ((T_FILE,.) <$> cs) in
  image u f fs s -> length cs = length args -> (length args <= 198)%nat ->
  sb_of_bytes (u 1) = mkfs_sb /\ (forall n, length (u n) = BSIZE) /\ meta_used mkfs_sb 46 u /\ tree_ok 1 mkfs_sb 2 30 46 (fun n => 1 <= n <= (1 + length args)%nat) u /\
  i_type (disk_inode 1 mkfs_sb u 1) = T_DIR /\ disk_contents 1 mkfs_sb u 1 = root_dir args /\
  forall (k : nat) c, cs !! k = Some c -> disk_contents 1 mkfs_sb u (k + 2) = c.
Proof.
  intros fs Hi Hcs Hn. destruct (image_inodes _ _ _ _ Hi) as (ips & [Hrel _ _ Hok Hdisk _] & Eips & Hfs).
  assert (length fs = (1 + length args)%nat) as El by (unfold fs; cbn [length]; rewrite length_fmap; lia). rewrite Eips, El in Hok.
  assert (forall (q : nat) x, fs !! q = Some x -> entry_is u (disk_inode 1 mkfs_sb u (q + 1)) x) as Hentry.
  { intros q x Hx. destruct (Forall2_lookup_r _ _ _ _ _ Hfs Hx) as (ip & Hip & Hen). by rewrite (Hdisk q ip Hip). }
  destruct (Hentry 0%nat _ eq_refl) as (Ht1 & _ & Hc1). change (0%nat + 1) with 1 in *. split_and!.
  - rewrite (mr_low _ _ _ Hrel) by lia. apply sb_block_val.
  - apply (mr_length _ _ _ Hrel).
  - apply Hok.
  - apply (image_tree u args); [done|done|exact Hok| |exact Hc1]. intros q Hq. destruct (lookup_lt_is_Some_2 fs (Z.to_nat (q - 1))) as [x Hx]; [lia|].
    destruct (Hentry _ _ Hx) as (E1 & E2 & _). replace (Z.to_nat (q - 1) + 1) with q in E1, E2 by lia. split; [done|]. rewrite E1.
    destruct (Z.eqb_spec q 1) as [->|Hne]; [by injection Hx as <-|]. destruct (Z.to_nat (q - 1)) as [|m] eqn:Em; [lia|].
    change (((T_FILE,.) <$> cs) !! m = Some x) in Hx. by apply list_lookup_fmap_Some in Hx as (y & -> & _).
  - exact Ht1.
  - exact Hc1.
  - intros k c Hc. replace (Z.of_nat k + 2) with (Z.of_nat (S k) + 1) by lia. apply (Hentry (S k) (T_FILE, c)).
    change (((T_FILE,.) <$> cs) !! k = Some (T_FILE, c)). by rewrite list_lookup_fmap, Hc.
Qed.

Lemma split_word w : chr "/" ∉ w -> split w = [w].
Proof.
  induction w as [|c w IH]; intros Hw; [done|]. apply not_elem_of_cons in Hw as [Hc Hw]. cbn [split]. rewrite (proj2 (Z.eqb_neq c (chr "/"))) by congruence. by rewrite (IH Hw).
Qed.

Lemma elems_file w : chr "/" ∉ w -> w <> [] -> elems (chr "/" :: w) = [fname w].
Proof.
  intros Hw Hne. unfold elems. cbn [split]. rewrite Z.eqb_refl, (split_word w Hw). rewrite filter_cons_False by (by intros ?). by rewrite filter_cons_True.
Qed.

Lemma file_name_slash a : chr "/" ∉ short_name a -> chr "/" ∉ file_name a.
Proof.
  unfold file_name. destruct (short_name a) as [|c rest]; [done|]. cbn [skip_underscore]. destruct (c =? chr "_"); [|done]. intros Hn Hin. apply Hn. by right.
Qed.

(** ** The theorem *)

Section Boot.
Context `{DiskDriverOk} (i : nat).

(** The inode table of a kernel that has just started. *)
Definition fresh_table (tbl : list inode) : Prop := length tbl = NINODE /\ Forall (fun ip => i_ref ip = 0) tbl.

(** C11: a file given to mkfs is found by the kernel under its name.  After [main]
    of mkfs with distinct names, in an operation of a kernel that has mounted the
    image, [namei] of a slash and the name of the [k]-th file returns an entry for
    the inode whose contents on the disk are those of the file. *)
Theorem mkfs_namei read_file prog img args cs s0 :
  m_freeinode s0 = 1 -> Forall2 (input_ok read_file) args cs -> (length args <= 198)%nat -> (2 + Z.of_nat (length args)) mod 64 <> 0 -> NoDup (root_names args) ->
  hspec (main read_file (prog :: img :: args)) (fun code s => let u := disk_block (m_img s) in let sb := sb_of_bytes (u 1) in
    code = 0 /\ (forall n, length (u n) = BSIZE) /\ sb = mkfs_sb /\ forall (k : nat) a c ws o s' e, let path := chr "/" :: file_name a in
    args !! k = Some a -> cs !! k = Some c -> file_name a <> [] -> txs 1 i (m_img s) ws o ∅ u s' -> k_sb o = sb ->
    lg_start (k_log o) = sb_logstart sb -> lg_size (k_log o) = sb_nlog sb -> lg_n (k_log o) < NBUF -> (forall j, k_sleeplocks o !! SL_inode j = None) ->
    fresh_table (k_inodes o) -> io_ready i (S (length path) * round_io) e ->
    wp (namei path) (fun r w => exists j ip, r = Some j /\ k_inodes (st w) !! j = Some ip /\ i_dev ip = ROOTDEV /\ disk_contents 1 sb u (i_inum ip) = c) (World s' e)) s0.
Proof.
  intros Hino Hall Hn Hmod Hnd. eapply hspec_mono; [by apply main_spec|]. intros code s [-> (f & Hi)] u sb.
  destruct (image_kernel _ _ _ _ _ Hi (eq_sym (Forall2_length Hall)) Hn) as (Es & Hlen & Hmeta & Htree & Hdir & Hroot & Hfile). split_and!; [done|exact Hlen|exact Es|].
  intros k a c ws o s' e path Ha Hc Hne Hs Hsb L1 L2 L3 Hlk [Htbl Hfresh] Hio.
  fold u in Es, Hmeta, Htree, Hdir, Hroot, Hfile.
  fold sb in Es. clearbody sb. rewrite Es in Hsb, L1, L2 |- *.
  assert (resolve 1 mkfs_sb u false ROOTINO (elems path) = Some (k + 2)) as Hres.
  { destruct (Forall2_lookup_l _ _ _ _ _ Hall Ha) as (c' & _ & Hslash & _). unfold path. rewrite elems_file by (try done; by apply file_name_slash).
    unfold resolve. change ROOTINO with 1. rewrite Hdir. cbn [Z.eqb negb andb]. fold (disk_contents 1 mkfs_sb u 1). by rewrite Hroot, (root_get args k a). }
  assert (forall q, (q < NINODE)%nat -> i_ref <$> k_inodes o !! q = Some 0) as Hfree.
  { intros q Hq. destruct (lookup_lt_is_Some_2 (k_inodes o) q) as [ip Hip]; [lia|]. rewrite Hip. cbn. f_equal. exact (Forall_lookup_1 _ _ _ _ Hfresh Hip). }
  unfold namei. wp_step.
  eapply (fs_namex 1 ltac:(lia) i mkfs_sb 2 30 46 mkfs_geom (fun n => 1 <= n <= (1 + length args)%nat) path false _ ROOTINO _ _ _ _ _ _ 0 1);
    [exact Hs|split; [exact Hsb|exact L1|exact L2|exact L3|exact Hmeta|exact Hlk]|exact Htree| | |apply length_replicate|done|apply Hfree; unfold NINODE; lia|apply Hfree; unfold NINODE; lia|exact Hio|].
  - eapply list.Forall_impl; [exact Hfresh|]. intros ip E. cbv beta in E. split; lia.
  - unfold starts_at, path. cbn [head]. rewrite bool_decide_true by done. split; [done|]. split; [done|]. unfold ROOTINO. lia.
  - intros x tbl s2 e2 Hs2 _ Hx _. rewrite Hres in Hx. destruct Hx as (j & ip & Ej & Hip & Hd & Hnum & _). wp_step. exists j, ip.
    cbn [st]. rewrite (txs_inodes _ _ _ _ _ _ _ _ Hs2). split_and!; [done|done|done|]. rewrite Hnum. by apply Hfile.
Qed.
End Boot.

(** ** A machine on the image of two files *)

#[local] Existing Instance ideal_disk.

(** The kernel with disk [dk] mounted, inside its first operation. *)
Definition kst_booted (dk : gmap Z (list Z)) : kst := set_k_inodes (replicate NINODE free_ip) (set_k_sb mkfs_sb (kst_mounted dk)).
Definition kst_booted_tx (dk : gmap Z (list Z)) : kst := final (kst_booted dk) (begin_op (World (kst_booted dk) [])).

Lemma kst_booted_state dk : (forall n, length (disk_block dk n) = BSIZE) -> exists o, txs 1 0 dk [] o ∅ (disk_block dk) (kst_booted_tx dk) /\
  k_sb o = mkfs_sb /\ k_log o = set_lg_outstanding 1 demo_log /\ k_sleeplocks o = ∅ /\ k_inodes o = replicate NINODE free_ip.
Proof.
  intros Hdk. destruct (kst_mounted_cst dk Hdk) as (o & Hs & Elog). unfold kst_booted_tx.
  assert (k_sleeplocks o = ∅) as El.
  { rewrite <- (cst_out _ _ _ _ _ _ _ Hs). unfold outside. cbn [k_sleeplocks set_k_sleeplocks set_k_bufs set_k_disk set_k_dwrites]. rewrite kst_mounted_locks by exact Hdk. reflexivity. }
  apply (wp_final begin_op (fun s => exists o, txs 1 0 dk [] o ∅ (disk_block dk) s /\
    k_sb o = mkfs_sb /\ k_log o = set_lg_outstanding 1 demo_log /\ k_sleeplocks o = ∅ /\ k_inodes o = replicate NINODE free_ip)).
  set (o1 := set_k_inodes (replicate NINODE free_ip) (set_k_sb mkfs_sb o)). assert (k_log o1 = demo_log) as E1 by exact Elog.
  eapply (tx_begin_op 1 0 dk [] o1); rewrite ?E1; [by apply cst_set_fs|exact demo_geom|reflexivity..|].
  intros s' Hs'. eexists. split; [exact Hs'|]. split; [reflexivity|]. split; [apply k_log_set|]. split; [exact El|reflexivity].
Qed.

#[global] Opaque kst_booted_tx.

Lemma mkfs_namei_witness :
  hspec (main demo_read [bytes "mkfs"; bytes "fs.img"; bytes "README"; bytes "user/_cat"])
    (fun code s => code = 0 /\ wp (namei (bytes "/cat")) (fun r w => exists j ip, r = Some j /\ k_inodes (st w) !! j = Some ip /\
      disk_contents 1 mkfs_sb (disk_block (m_img s)) (i_inum ip) = [1; 2; 3]) (World (kst_booted_tx (m_img s)) [])) demo_mkst.
Proof.
  eapply hspec_mono; [apply (mkfs_namei 0 demo_read _ _ _ _ demo_mkst eq_refl demo_inputs)|].
  - cbn. lia.
  - vm_compute. congruence.
  - apply (bool_decide_unpack _). vm_compute. exact I.
  - intros code s (H1 & Hlen & Es & H2). split; [exact H1|]. destruct (kst_booted_state (m_img s) Hlen) as (o & Hs & Esb & Elog & El & Etbl).
    eapply wp_mono; [apply (H2 1%nat (bytes "user/_cat") [1; 2; 3] [] o _ []); rewrite ?Es, ?Elog, ?Etbl|].
    + reflexivity.
    + reflexivity.
    + discriminate.
    + exact Hs.
    + exact Esb.
    + reflexivity.
    + reflexivity.
    + reflexivity.
    + intros j. rewrite El. apply lookup_empty.
    + split; [apply length_replicate|]. apply Forall_replicate. reflexivity.
    + exact I.
    + intros r w (j & ip & Hr & Hip & _ & Hc). exists j, ip. rewrite Es in Hc. split; [exact Hr|]. split; [exact Hip|exact Hc].
Defined.
