(* ===== verification/Pipe.v ===== *)
(** * kernel/pipe.c: pipes

    A pipe is a ring buffer in a page of its own.  ([pipealloc], which needs the
    file table, is in [File].) *)

From S2P Require Import Prelude State KString Spinlock Norm Printf Sched Sleeplock Kalloc Vm Proc.

Definition PIPESIZE : Z := 512.

(** Dereferencing a pipe pointer: the page must hold a pipe. *)
Definition pipe_at (pi : Z) : K pipe :=
  s ← get;
  match k_pipes s !! pi with
  | Some p => mret p
  | None => fault "not a pipe"
  end.
Definition modify_pipe (pi : Z) (f : pipe -> pipe) : K unit :=
  modify (fun s => set_k_pipes (alter f pi (k_pipes s)) s).

(** [pi->data[pi->nwrite++ % PIPESIZE] = ch] and
    [pi->data[pi->nread++ % PIPESIZE]]. *)
Definition pipe_put (ch : Z) (p : pipe) : pipe :=
  set_pi_nwrite (u32 (pi_nwrite p + 1))
    (set_pi_data (<[Z.to_nat (pi_nwrite p mod PIPESIZE) := ch]> (pi_data p)) p).
Definition pipe_front (p : pipe) : Z := nth (Z.to_nat (pi_nread p mod PIPESIZE)) (pi_data p) 0.
Definition pipe_drop (p : pipe) : pipe := set_pi_nread (u32 (pi_nread p + 1)) p.

Section Pipe.
Context `{KernelImage}.

Definition pipeclose (pi : Z) (writable : bool) : K unit :=
  acquire (L_pipe pi);;
  pipe_at pi;;
  (if writable then
     modify_pipe pi (set_pi_writeopen 0);;
     wakeup (Ch_pipe_nread pi)
   else
     modify_pipe pi (set_pi_readopen 0);;
     wakeup (Ch_pipe_nwrite pi));;
  p ← pipe_at pi;
  if (pi_readopen p =? 0) && (pi_writeopen p =? 0) then
    release (L_pipe pi);;
    modify (fun s => set_k_pipes (delete pi (k_pipes s)) s);;
    kfree pi
  else release (L_pipe pi).

End Pipe.

(** The loop of [pipewrite]: every round stores a byte or sleeps.  [None] when it
    returned -1, with the lock released. *)
Fixpoint pipewrite_loop (fuel : nat) (pi : Z) (pr : nat) (addr i n : Z) : K (option Z) :=
  match fuel with
  | O => fault "pipewrite: out of fuel"
  | S fuel =>
      if i <? n then
        p ← pipe_at pi;
        dead ← (if pi_readopen p =? 0 then mret true else k ← killed pr; mret (negb (k =? 0)));
        if (dead : bool) then
          release (L_pipe pi);;
          mret None
        else
        p ← pipe_at pi;
        if pi_nwrite p =? u32 (pi_nread p + PIPESIZE) then
          wakeup (Ch_pipe_nread pi);;
          sleep (Ch_pipe_nwrite pi) (L_pipe pi);;
          pipewrite_loop fuel pi pr addr i n
        else
          q ← proc_at pr;
          x ← copyin (p_pagetable q) (u64 (addr + i)) 1;
          if snd x =? -1 then mret (Some i) else
          modify_pipe pi (pipe_put (nth 0 (fst x) 0));;
          pipewrite_loop fuel pi pr addr (i + 1) n
      else mret (Some i)
  end.

Definition pipewrite (pi addr n : Z) : K Z :=
  pr ← this_proc;
  acquire (L_pipe pi);;
  r ← env_fuel (fun fuel => pipewrite_loop (fuel + Z.to_nat n) pi pr addr 0 n);
  match r with
  | None => mret (-1)
  | Some i =>
      wakeup (Ch_pipe_nread pi);;
      release (L_pipe pi);;
      mret i
  end.

(** Waiting for data; [false] when it returned -1, with the lock released. *)
Fixpoint piperead_wait (fuel : nat) (pi : Z) (pr : nat) : K bool :=
  match fuel with
  | O => fault "piperead: out of fuel"
  | S fuel =>
      p ← pipe_at pi;
      if (pi_nread p =? pi_nwrite p) && negb (pi_writeopen p =? 0) then
        k ← killed pr;
        if negb (k =? 0) then
          release (L_pipe pi);;
          mret false
        else
          sleep (Ch_pipe_nread pi) (L_pipe pi);;
          piperead_wait fuel pi pr
      else mret true
  end.

Fixpoint piperead_loop (fuel : nat) (pi : Z) (pr : nat) (addr i n : Z) : K Z :=
  match fuel with
  | O => fault "piperead: out of fuel"
  | S fuel =>
      if i <? n then
        p ← pipe_at pi;
        if pi_nread p =? pi_nwrite p then mret i else
        let ch := pipe_front p in
        modify_pipe pi pipe_drop;;
        q ← proc_at pr;
        r ← copyout (p_pagetable q) (u64 (addr + i)) [ch];
        if r =? -1 then mret i else
        piperead_loop fuel pi pr addr (i + 1) n
      else mret i
  end.

Definition piperead (pi addr n : Z) : K Z :=
  pr ← this_proc;
  acquire (L_pipe pi);;
  ok ← env_fuel (fun fuel => piperead_wait fuel pi pr);
  if negb ok then mret (-1) else
  i ← piperead_loop (S (Z.to_nat n)) pi pr addr 0 n;
  wakeup (Ch_pipe_nwrite pi);;
  release (L_pipe pi);;
  mret i.
