(* ===== verification/PipeSpec.v ===== *)
(** * Pipes are queues

    The ring buffer of kernel/pipe.c with its two free-running 32-bit counters
    implements a queue of at most [PIPESIZE] bytes: [pipewrite] appends bytes read
    from the writer's memory, [piperead] removes bytes from the front and stores
    them in the reader's memory. *)

From S2P Require Import Prelude State KString Spinlock Norm Printf Sched Sleeplock Kalloc Vm PageTable UserMem UserSpace UserCopy Proc Pipe.

(** ** The ring buffer *)

(** The pipe holds the bytes [q], the oldest first. *)
Record pipe_rep (p : pipe) (q : list Z) : Prop := {
  pr_len : length (pi_data p) = Z.to_nat PIPESIZE;
  pr_read : 0 <= pi_nread p < 4294967296;
  pr_write : pi_nwrite p = u32 (pi_nread p + length q);
  pr_room : (length q <= Z.to_nat PIPESIZE)%nat;
  pr_data : forall (k : nat) c, q !! k = Some c -> pi_data p !! Z.to_nat ((pi_nread p + k) mod PIPESIZE) = Some c
}.

Lemma pipesize_divides x : u32 x mod PIPESIZE = x mod PIPESIZE.
Proof.
  unfold u32, PIPESIZE. rewrite <- Znumtheory.Zmod_div_mod; [done|lia|lia|]. by exists 8388608.
Qed.

Lemma pipe_empty p q : pipe_rep p q -> (pi_nread p =? pi_nwrite p) = true <-> q = [].
Proof.
  intros [H1 H2 H3 H4 H5]. rewrite Z.eqb_eq, H3. unfold PIPESIZE in H4. split.
  - intros E. destruct q as [|c q]; [done|]. exfalso. cbn [length] in *. unfold u32 in E.
    destruct (decide (pi_nread p + S (length q) < 4294967296)); [rewrite Z.mod_small in E; lia|].
    replace (pi_nread p + S (length q)) with (pi_nread p + S (length q) - 4294967296 + 1 * 4294967296) in E by lia.
    rewrite Z_mod_plus_full, Z.mod_small in E; lia.
  - intros ->. cbn. rewrite Z.add_0_r, u32_small; done.
Qed.

Lemma pipe_full p q : pipe_rep p q -> (pi_nwrite p =? u32 (pi_nread p + PIPESIZE)) = true <-> length q = Z.to_nat PIPESIZE.
Proof.
  intros [H1 H2 H3 H4 H5]. rewrite Z.eqb_eq, H3. unfold u32, PIPESIZE in *. split; [|intros ->; done].
  intros E. assert (Hz : (512 - length q) mod 4294967296 = 0).
  { replace (512 - length q) with (pi_nread p + 512 - (pi_nread p + length q)) by lia. rewrite Zminus_mod, E, Z.sub_diag. done. }
  rewrite Z.mod_small in Hz by lia. lia.
Qed.

Lemma pipe_put_rep p q ch : pipe_rep p q -> (length q < Z.to_nat PIPESIZE)%nat -> pipe_rep (pipe_put ch p) (q ++ [ch]).
Proof.
  intros [H1 H2 H3 H4 H5] Hroom. assert (Hm : forall x, 0 <= x mod PIPESIZE < PIPESIZE) by (intros x; apply Z.mod_pos_bound; done).
  split; cbn.
  - by rewrite length_insert.
  - done.
  - rewrite H3, length_app. cbn. unfold u32. rewrite Zplus_mod_idemp_l. f_equal. lia.
  - rewrite length_app. cbn. lia.
  - rewrite H3, pipesize_divides. intros k c Hk. apply lookup_app_Some in Hk as [Hk|[Hk1 Hk2]].
    + rewrite list_lookup_insert_ne; [by apply H5|]. pose proof (lookup_lt_Some _ _ _ Hk). intros E. apply Z2Nat.inj in E; [|apply Hm..].
      assert (Hd : (length q - k) mod PIPESIZE = 0).
      { replace (length q - k) with (pi_nread p + length q - (pi_nread p + k)) by lia. rewrite Zminus_mod, E, Z.sub_diag. done. }
      unfold PIPESIZE in *. rewrite Z.mod_small in Hd; lia.
    + apply list_lookup_singleton_Some in Hk2 as [Hk2 <-]. replace k with (length q) by lia.
      apply list_lookup_insert_eq. rewrite H1. pose proof (Hm (pi_nread p + length q)). lia.
Qed.

Lemma pipe_take_rep p c q : pipe_rep p (c :: q) -> pipe_front p = c /\ pipe_rep (pipe_drop p) q.
Proof.
  intros [H1 H2 H3 H4 H5]. split.
  - unfold pipe_front. specialize (H5 O c eq_refl). rewrite Z.add_0_r in H5. by apply nth_lookup_Some.
  - split; cbn [pipe_drop set_pi_nread pi_data pi_nread pi_nwrite].
    + done.
    + apply u32_range.
    + rewrite H3. cbn [length]. unfold u32. rewrite Zplus_mod_idemp_l. f_equal. lia.
    + cbn in H4. lia.
    + intros k x Hk. specialize (H5 (S k) x Hk). rewrite <- H5. do 2 f_equal.
      rewrite <- (pipesize_divides (pi_nread p + S k)), <- (pipesize_divides (u32 (pi_nread p + 1) + k)). f_equal.
      unfold u32. rewrite Zplus_mod_idemp_l. f_equal. lia.
Qed.

(** ** The routines *)

Section Code.
Context `{KernelImageOk} (pi : Z) (pr : nat).

Lemma wp_killed_nested j p (Q : Z -> world kst -> Prop) s e : intr_ok s -> 0 < c_noff (k_cpu s) -> lock_free (L_proc j) s ->
  k_procs s !! j = Some p -> Q (p_killed p) (World s e) -> wp (killed j) Q (World s e).
Proof.
  intros Hi Hn Hf Hp HQ. unfold killed. wp_step. apply wp_acquire; [done|]. wp_step. apply (wp_proc_at j p); [done|].
  wp_step. apply (wp_release_crit (L_proc j) id); [inert_tac|done|done|]. cbn [id]. rewrite settle_nested by done. wp_step. done.
Qed.

(** Inside the critical section of the pipe: its memory and its pipes. *)
Definition inside (s : kst) (m : gmap Z Z) (ps : gmap Z pipe) : kst := set_k_pipes ps (set_k_mem m (acquired (L_pipe pi) s)).

Lemma wp_pipe_at s m ps p e (Q : pipe -> world kst -> Prop) : ps !! pi = Some p -> Q p (World (inside s m ps) e) -> wp (pipe_at pi) Q (World (inside s m ps) e).
Proof.
  intros Hp HQ. unfold pipe_at. do 2 wp_step. cbn [st]. change (k_pipes (inside s m ps)) with ps. by rewrite Hp.
Qed.

Lemma wp_modify_pipe f s m ps p e (Q : unit -> world kst -> Prop) : ps !! pi = Some p ->
  Q tt (World (inside s m (<[pi := f p]> ps)) e) -> wp (modify_pipe pi f) Q (World (inside s m ps) e).
Proof.
  intros Hp HQ. unfold modify_pipe. wp_step. cbn [st env]. change (k_pipes (inside s m ps)) with ps.
  replace (alter f pi ps) with (<[pi := f p]> ps); [exact HQ|]. apply map_eq. intros n. destruct (decide (n = pi)) as [->|Hne].
  - by rewrite lookup_insert_eq, lookup_alter_eq, Hp.
  - by rewrite lookup_insert_ne, lookup_alter_ne.
Qed.

Context (s : kst) (Hc : calm pr s) (proc : State.proc) (Hproc : k_procs s !! pr = Some proc).
Context (l : list Z).

Lemma inside_ok m ps : intr_ok (inside s m ps) /\ 0 < c_noff (k_cpu (inside s m ps)) /\ (forall j, lock_free (L_proc j) (inside s m ps)) /\
  k_procs (inside s m ps) = k_procs s /\ k_mem (inside s m ps) = m.
Proof.
  pose proof Hc as ([Hn1 Hn2] & Hl & _ & _ & Hlen & _). unfold intr_ok, lock_free. cbn. split_and!; try done; [lia..|].
  intros j. rewrite lookup_insert_ne by done. by rewrite Hl.
Qed.

(** The write loop, with room for all that is left. *)
Lemma wp_pipewrite_loop (fuel n : nat) addr i ps p q e (Q : option Z -> world kst -> Prop) :
  let m := k_mem s in
  uspace m (p_pagetable proc) l -> p_killed proc = 0 -> pi_readopen p <> 0 -> ps !! pi = Some p -> pipe_rep p q ->
  (n < fuel)%nat -> 0 <= i -> 0 <= addr -> addr + i + n <= 18446744073709551616 -> (length q + n <= Z.to_nat PIPESIZE)%nat ->
  (forall bs p', uread m (p_pagetable proc) (addr + i) bs -> (length bs <= n)%nat ->
     (length bs = n \/ uacc m (p_pagetable proc) (addr + i + length bs) = false) ->
     pipe_rep p' (q ++ bs) -> pi_readopen p' = pi_readopen p -> pi_writeopen p' = pi_writeopen p ->
     Q (Some (i + length bs)) (World (inside s m (<[pi := p']> ps)) e)) ->
  wp (pipewrite_loop fuel pi pr addr i (i + n)) Q (World (inside s m ps) e).
Proof.
  intros m Hus Hkill Hopen Hp Hrep Hf Hi Ha Hrange Hroom HQ.
  revert i p q ps n Hopen Hp Hrep Hf Hi Hrange Hroom Q HQ. induction fuel as [|fuel IH]; intros; [lia|]. cbn [pipewrite_loop].
  destruct n as [|n].
  { change (Z.of_nat 0) with 0. rewrite Z.add_0_r, (proj2 (Z.ltb_ge i i)) by lia. apply wp_ret. specialize (HQ [] p). rewrite insert_id in HQ by done.
    rewrite app_nil_r in HQ. cbn [length] in HQ. change (Z.of_nat 0) with 0 in HQ. rewrite !Z.add_0_r in HQ. apply HQ; try done. by left. }
  rewrite (proj2 (Z.ltb_lt i (i + S n))) by lia. wp_step. apply (wp_pipe_at s m ps p); [done|].
  destruct (inside_ok m ps) as (Hi1 & Hn1 & Hl1 & Ep & Em).
  destruct (pi_readopen p =? 0) eqn:E0; bool_facts; [done|].
  wp_step. wp_step. eapply (wp_killed_nested pr proc); [done|done|apply Hl1|by rewrite Ep|]. rewrite Hkill. wp_step.
  cbn [Z.eqb negb]. wp_step. apply (wp_pipe_at s m ps p); [done|].
  destruct (pi_nwrite p =? u32 (pi_nread p + PIPESIZE)) eqn:Efull; [apply (pipe_full _ _ Hrep) in Efull; lia|].
  wp_step. apply (wp_proc_at pr proc); [cbn [st]; by rewrite Ep|]. wp_step.
  rewrite u64_small by lia. eapply (wp_copyin (p_pagetable proc) l (addr + i) 1); [lia|cbn [st]; by rewrite Em|]. cbn [st]. rewrite Em.
  intros bs r Hbs [[-> Hlen]|(-> & Hlen & Hno)]; cbn [fst snd].
  - destruct bs as [|b [|]]; try done. change (0 =? -1) with false. cbn [nth].
    wp_step. apply (wp_modify_pipe _ s m ps p); [done|]. replace (i + S n) with (i + 1 + n) by lia.
    apply (IH (i + 1) (pipe_put b p) (q ++ [b])); try done; [apply lookup_insert_eq|apply pipe_put_rep; [done|lia]|lia|lia|lia|rewrite length_app; cbn; lia|].
    intros bs p' Hrd Hlen' Hend Hrep' Ho1 Ho2. rewrite insert_insert_eq. replace (i + 1 + length bs) with (i + S (length bs)) by lia.
    apply (HQ (b :: bs) p'); try done.
    + apply (uread_app _ _ _ [b] bs); [done|]. cbn [length]. by replace (addr + i + 1%nat) with (addr + (i + 1)) by lia.
    + cbn. lia.
    + cbn [length]. destruct Hend as [<-|Hend]; [by left|right]. rewrite <- Hend. f_equal. lia.
    + by rewrite <- app_assoc in Hrep'.
  - assert (bs = []) as -> by (destruct bs; [done|cbn in Hlen; lia]). rewrite Z.eqb_refl. apply wp_ret.
    specialize (HQ [] p). rewrite insert_id in HQ by done. rewrite app_nil_r in HQ. cbn [length] in *. change (Z.of_nat 0) with 0 in *. rewrite !Z.add_0_r in *.
    apply HQ; try done; [lia|by right].
Qed.

Lemma copied_src m root dstva src src' (k : nat) m' : (forall j : nat, (j < k)%nat -> src !! j = src' !! j) ->
  copied m root l dstva src k m' -> copied m root l dstva src' k m'.
Proof.
  intros Hsrc [C1 C2 C3 C4]. split; [done|done| |done]. intros va. rewrite C3. case_decide; [|done]. by rewrite Hsrc by lia.
Qed.

(** The read loop delivers [k] bytes of the queue [q].  When byte [k] cannot be
    stored in the reader's memory it is lost. *)
Definition read_outcome (m : gmap Z Z) (root addr : Z) (n k : nat) (q q' : list Z) : Prop :=
  (k = Nat.min n (length q) /\ q' = drop k q) \/
  ((k < Nat.min n (length q))%nat /\ uacc m root (addr + k) = false /\ q' = drop (S k) q).

Lemma wp_piperead_loop (fuel n : nat) addr i m ps p q e (Q : Z -> world kst -> Prop) :
  let root := p_pagetable proc in
  uspace m root l -> ps !! pi = Some p -> pipe_rep p q ->
  (n < fuel)%nat -> 0 <= i -> 0 <= addr -> addr + i + n <= 18446744073709551616 ->
  (forall k m' p' q', copied m root l (addr + i) q k m' -> read_outcome m root (addr + i) n k q q' ->
     pipe_rep p' q' -> pi_readopen p' = pi_readopen p -> pi_writeopen p' = pi_writeopen p ->
     Q (i + k) (World (inside s m' (<[pi := p']> ps)) e)) ->
  wp (piperead_loop fuel pi pr addr i (i + n)) Q (World (inside s m ps) e).
Proof.
  intros root Hus Hp Hrep Hf Hi Ha Hrange HQ.
  revert i m p q ps n Hus Hp Hrep Hf Hi Hrange Q HQ. induction fuel as [|fuel IH]; intros; [lia|]. cbn [piperead_loop].
  assert (Hstop : Nat.min n (length q) = O -> Q i (World (inside s m ps) e)).
  { intros E. specialize (HQ O m p q). rewrite insert_id in HQ by done. change (Z.of_nat 0) with 0 in HQ. rewrite Z.add_0_r in HQ.
    apply HQ; try done; [by apply copied_nil|left]. by rewrite E. }
  destruct n as [|n].
  { change (Z.of_nat 0) with 0. rewrite Z.add_0_r, (proj2 (Z.ltb_ge i i)) by lia. apply wp_ret. by apply Hstop. }
  rewrite (proj2 (Z.ltb_lt i (i + S n))) by lia. wp_step. apply (wp_pipe_at s m ps p); [done|].
  destruct q as [|c q].
  { rewrite (proj2 (pipe_empty _ _ Hrep) eq_refl). apply wp_ret, Hstop. cbn. lia. }
  destruct (pi_nread p =? pi_nwrite p) eqn:E; [apply (pipe_empty _ _ Hrep) in E; done|].
  destruct (pipe_take_rep _ _ _ Hrep) as [Hfr Hrep']. rewrite Hfr.
  wp_step. apply (wp_modify_pipe _ s m ps p); [done|]. set (ps' := <[pi := pipe_drop p]> ps).
  destruct (inside_ok m ps') as (_ & _ & _ & Ep & Em).
  wp_step. apply (wp_proc_at pr proc); [cbn [st]; by rewrite Ep|]. wp_step. rewrite u64_small by lia.
  eapply (wp_copyout root l (addr + i) [c]); [lia|cbn [st]; by rewrite Em|]. cbn [st env]. rewrite Em.
  intros r k m' Hcp Hr.
  change (set_k_mem m' (inside s m ps')) with (inside s m' ps').
  destruct Hr as [[-> ->]|(-> & Hk & Hno)].
  - change (0 =? -1) with false. cbv iota. replace (i + S n) with (i + 1 + n) by lia.
    assert (Hcp1 : copied m root l (addr + i) (c :: q) 1 m').
    { eapply copied_src; [|exact Hcp]. intros j Hj. by replace j with O by (cbn in Hj; lia). }
    apply (IH (i + 1) m' (pipe_drop p) q); try done; [apply Hcp|apply lookup_insert_eq|lia|lia|lia|].
    intros k m'' p' q' Hcp' Hout Hrep'' Ho1 Ho2. unfold ps'. rewrite insert_insert_eq. replace (i + 1 + k) with (i + S k) by lia.
    apply (HQ (S k) m'' p' q'); try done.
    + apply (copied_app m m' m'' root l (addr + i) (c :: q) 1 k); [cbn; lia|done|]. cbn [drop].
      by replace (addr + i + 1%nat) with (addr + (i + 1)) by lia.
    + unfold read_outcome in *. cbn [length]. destruct Hout as [[-> ->]|(Hk & Hno & ->)]; [left|right].
      * split; [lia|done].
      * split_and!; [lia| |done]. rewrite <- Hno. unfold uacc. rewrite (cp_pte _ _ _ _ _ _ _ Hcp).
        by replace (addr + i + S k) with (addr + (i + 1) + k) by lia.
  - rewrite Z.eqb_refl. apply wp_ret. assert (k = O) as -> by (cbn in Hk; lia). change (Z.of_nat 0) with 0 in *. rewrite Z.add_0_r in Hno.
    assert (E' : i = i + 0%nat) by lia. rewrite E' at 1. apply (HQ O m' (pipe_drop p) q); try done.
    + eapply copied_src; [|exact Hcp]. intros j Hj. lia.
    + right. split_and!; [cbn; lia|by change (Z.of_nat 0) with 0; rewrite Z.add_0_r|done].
Qed.

(** Leaving: wake the other side, release, return. *)
Lemma wp_pipe_leave ch m ps (r : Z) e (Q : Z -> world kst -> Prop) :
  (forall s', norm s' = set_k_pipes ps (set_k_mem m (norm s)) -> Q r (World s' e)) ->
  wp (wakeup ch;; release (L_pipe pi);; mret r) Q (World (inside s m ps) e).
Proof.
  intros HQ. destruct (inside_ok m ps) as (Hi1 & Hn1 & Hl1 & Ep & Em). pose proof Hc as (Hio & Hl & Hcp & Hpr & Hlen & _).
  wp_step. apply wp_wakeup; cbn [st env]; [done|by rewrite Ep|intros j _ _; apply Hl1|].
  rewrite (settle_nested (inside s m ps)) by done. set (W := woken _ _ _).
  wp_step. apply (wp_release_crit (L_pipe pi) (fun s => set_k_procs W (set_k_pipes ps (set_k_mem m s)))); [inert_tac|done|unfold lock_free; by rewrite Hl|].
  wp_step. apply HQ. rewrite norm_procs; [by rewrite <- (norm_settle s)|]. unfold W. rewrite strip_woken, Ep. done.
Qed.

End Code.

Lemma inside_id pi s : inside pi s (k_mem s) (k_pipes s) = acquired (L_pipe pi) s.
Proof. by destruct s as [? ? ? ? ? ? ? ? [] ? ?]. Qed.

Section Calls.
Context `{KernelImageOk}.

Lemma calm_settle i s : calm i s -> calm i (settle s).
Proof. intros Hc. eapply calm_eq; [apply norm_settle|]. by apply calm_norm. Qed.

Lemma wp_pipewrite pi pr proc l addr (n : nat) p q (Q : Z -> world kst -> Prop) s e :
  calm pr s -> k_procs s !! pr = Some proc -> uspace (k_mem s) (p_pagetable proc) l -> p_killed proc = 0 ->
  k_pipes s !! pi = Some p -> pi_readopen p <> 0 -> pipe_rep p q -> (length q + n <= Z.to_nat PIPESIZE)%nat ->
  0 <= addr -> addr + n <= 18446744073709551616 ->
  (forall bs p' s', uread (k_mem s) (p_pagetable proc) addr bs -> (length bs <= n)%nat ->
     (length bs = n \/ uacc (k_mem s) (p_pagetable proc) (addr + length bs) = false) ->
     pipe_rep p' (q ++ bs) -> pi_readopen p' = pi_readopen p -> pi_writeopen p' = pi_writeopen p ->
     norm s' = set_k_pipes (<[pi := p']> (k_pipes s)) (norm s) -> Q (length bs) (World s' e)) ->
  wp (pipewrite pi addr n) Q (World s e).
Proof.
  intros Hc Hproc Hus Hk Hp Ho Hrep Hroom Ha Hrange HQ. pose proof Hc as (Hio & Hl & Hcp & Hpr & Hlen & _). unfold pipewrite.
  wp_step. apply (wp_this_proc pr); [done|done|]. cbn [st env].
  wp_step. apply wp_acquire; [unfold lock_free; cbn; by rewrite Hl|]. cbn [st env]. rewrite <- inside_id.
  wp_step. apply wp_env_fuel. cbn [env]. rewrite Nat2Z.id. change (k_mem (settle s)) with (k_mem s). change (k_pipes (settle s)) with (k_pipes s).
  apply (wp_pipewrite_loop pi pr (settle s) (calm_settle _ _ Hc) proc Hproc l _ n addr 0 _ p q); try done; try lia.
  change (k_mem (settle s)) with (k_mem s). rewrite !Z.add_0_r. intros bs p' Hrd Hlen' Hend Hrep' Ho1 Ho2. rewrite Z.add_0_l.
  apply (wp_pipe_leave pi pr (settle s) (calm_settle _ _ Hc)). intros s' Hs'. apply (HQ bs p'); try done.
  rewrite Hs', norm_settle. change (k_mem s) with (k_mem (norm s)). by destruct (norm s) as [? ? ? ? ? ? ? ? [] ? ?].
Qed.

Lemma wp_piperead pi pr proc l addr (n : nat) p q (Q : Z -> world kst -> Prop) s e :
  let root := p_pagetable proc in
  calm pr s -> k_procs s !! pr = Some proc -> uspace (k_mem s) root l ->
  k_pipes s !! pi = Some p -> pipe_rep p q -> q <> [] \/ pi_writeopen p = 0 ->
  0 <= addr -> addr + n <= 18446744073709551616 ->
  (forall k m' p' q' s', copied (k_mem s) root l addr q k m' -> read_outcome (k_mem s) root addr n k q q' -> pipe_rep p' q' ->
     pi_readopen p' = pi_readopen p -> pi_writeopen p' = pi_writeopen p ->
     norm s' = set_k_pipes (<[pi := p']> (k_pipes s)) (set_k_mem m' (norm s)) -> Q k (World s' e)) ->
  wp (piperead pi addr n) Q (World s e).
Proof.
  intros root Hc Hproc Hus Hp Hrep Hready Ha Hrange HQ. pose proof Hc as (Hio & Hl & Hcp & Hpr & Hlen & _). unfold piperead.
  wp_step. apply (wp_this_proc pr); [done|done|]. cbn [st env].
  wp_step. apply wp_acquire; [unfold lock_free; cbn; by rewrite Hl|]. cbn [st env]. rewrite <- inside_id.
  wp_step. apply wp_env_fuel. cbn [env piperead_wait]. wp_step. apply (wp_pipe_at pi (settle s) _ _ p); [done|].
  assert ((pi_nread p =? pi_nwrite p) && negb (pi_writeopen p =? 0) = false) as ->.
  { apply andb_false_iff. destruct Hready as [Hq|Hw]; [left|right; by rewrite Hw].
    destruct (pi_nread p =? pi_nwrite p) eqn:E; [|done]. apply (pipe_empty _ _ Hrep) in E. done. }
  wp_step. cbn [negb]. wp_step. rewrite Nat2Z.id. change (k_mem (settle s)) with (k_mem s). change (k_pipes (settle s)) with (k_pipes s).
  apply (wp_piperead_loop pi pr (settle s) (calm_settle _ _ Hc) proc Hproc l _ n addr 0 _ _ p q); try done; try lia.
  rewrite !Z.add_0_r. intros k m' p' q' Hcp' Hout Hrep' Ho1 Ho2. rewrite Z.add_0_l.
  apply (wp_pipe_leave pi pr (settle s) (calm_settle _ _ Hc)). intros s' Hs'. apply (HQ k m' p' q'); try done.
  by rewrite Hs', norm_settle.
Qed.

(** C29: [pipewrite] refines appending to a queue.  With the read end open and room
    for [n] bytes, it returns the number of bytes of the writer's memory at [addr]
    it appended, which is [n] unless the memory becomes inaccessible there; nothing
    else changes. *)
Theorem pipewrite_queue pi pr proc l addr (n : nat) p q s e :
  calm pr s -> k_procs s !! pr = Some proc -> uspace (k_mem s) (p_pagetable proc) l -> p_killed proc = 0 ->
  k_pipes s !! pi = Some p -> pi_readopen p <> 0 -> pipe_rep p q -> (length q + n <= Z.to_nat PIPESIZE)%nat ->
  0 <= addr -> addr + n <= 18446744073709551616 ->
  wp (pipewrite pi addr n) (fun r w' => exists bs p', r = length bs /\ uread (k_mem s) (p_pagetable proc) addr bs /\
    (length bs = n \/ (length bs < n)%nat /\ uacc (k_mem s) (p_pagetable proc) (addr + length bs) = false) /\
    pipe_rep p' (q ++ bs) /\ norm (st w') = set_k_pipes (<[pi := p']> (k_pipes s)) (norm s)) (World s e).
Proof.
  intros. apply (wp_pipewrite pi pr proc l addr n p q); [done..|]. intros bs p' s' Hrd Hlen Hend Hrep _ _ Hs'. exists bs, p'.
  split_and!; try done. destruct Hend; [by left|]. destruct (decide (length bs = n)); [by left|right]. split; [lia|done].
Qed.

(** C30: [piperead] refines taking from a queue.  With bytes in the pipe, or the
    write end closed, it returns without waiting the number [k] of bytes it took
    from the front of the queue and stored at [addr]: all that are there, up to [n];
    if the reader's memory is inaccessible at byte [k], that byte is lost. *)
Theorem piperead_queue pi pr proc l addr (n : nat) p q s e :
  calm pr s -> k_procs s !! pr = Some proc -> uspace (k_mem s) (p_pagetable proc) l ->
  k_pipes s !! pi = Some p -> pipe_rep p q -> q <> [] \/ pi_writeopen p = 0 ->
  0 <= addr -> addr + n <= 18446744073709551616 ->
  wp (piperead pi addr n) (fun r w' => exists (k : nat) m' p' q', r = k /\ copied (k_mem s) (p_pagetable proc) l addr q k m' /\
    read_outcome (k_mem s) (p_pagetable proc) addr n k q q' /\ pipe_rep p' q' /\
    norm (st w') = set_k_pipes (<[pi := p']> (k_pipes s)) (set_k_mem m' (norm s))) (World s e).
Proof.
  intros. apply (wp_piperead pi pr proc l addr n p q); [done..|]. intros k m' p' q' s' Hcp Hout Hrep _ _ Hs'. by exists k, m', p', q'.
Qed.

(** C28: what a process writes to an empty pipe is what it then reads from it: [n]
    bytes from accessible memory at [src] arrive at [dst], in order. *)
Theorem pipe_roundtrip pi pr proc l src dst (n : nat) p s e :
  let m := k_mem s in let root := p_pagetable proc in
  calm pr s -> k_procs s !! pr = Some proc -> uspace m root l -> p_killed proc = 0 ->
  k_pipes s !! pi = Some p -> pi_readopen p <> 0 -> pipe_rep p [] -> (0 < n <= Z.to_nat PIPESIZE)%nat ->
  0 <= src -> src + n <= 18446744073709551616 -> 0 <= dst -> dst + n <= 18446744073709551616 ->
  (forall k : nat, (k < n)%nat -> uacc m root (src + k) = true) -> (forall k : nat, (k < n)%nat -> uacc m root (dst + k) = true) ->
  wp (a ← pipewrite pi src n; b ← piperead pi dst n; mret (a, b)) (fun r w' => r = (Z.of_nat n, Z.of_nat n) /\
    forall k : nat, (k < n)%nat -> umem (k_mem (st w')) root (dst + k) = umem m root (src + k)) (World s e).
Proof.
  intros m root Hc Hproc Hus Hk Hp Ho Hrep Hn Hs1 Hs2 Hd1 Hd2 Hsrc Hdst. wp_step.
  apply (wp_pipewrite pi pr proc l src n p []); [done..|cbn; lia|done|done|]. intros bs p1 s1 Hrd Hlen Hend Hrep1 _ _ Hn1.
  assert (Hbs : length bs = n).
  { destruct Hend as [|Hno]; [done|]. destruct (decide (length bs = n)); [done|]. unfold m, root in Hsrc. rewrite Hsrc in Hno by lia. done. }
  wp_step. destruct (norm_lookup (set_k_pipes (<[pi := p1]> (k_pipes s)) s) s1 pr proc (eq_sym Hn1) Hproc) as (proc1 & Hproc1 & Es).
  assert (Ert : p_pagetable proc1 = root) by exact (f_equal p_pagetable Es).
  assert (Em : k_mem s1 = m) by exact (f_equal k_mem Hn1).
  assert (Epi : k_pipes s1 = <[pi := p1]> (k_pipes s)) by exact (f_equal k_pipes Hn1).
  apply (wp_piperead pi pr proc1 l dst n p1 bs); rewrite ?Ert, ?Em, ?Epi; try done.
  - eapply calm_eq; [exact Hn1|]. by apply (calm_norm pr s).
  - apply lookup_insert_eq.
  - left. intros ->. cbn in Hbs. lia.
  - intros k m' p' q' s' Hcp Hout _ _ _ Hn2. wp_step. assert (Em' : k_mem s' = m') by exact (f_equal k_mem Hn2).
    assert (k = n) as ->.
    { destruct Hout as [[-> _]|(Hk1 & Hno & _)]; [lia|]. rewrite Hdst in Hno by lia. done. }
    rewrite Hbs. split; [done|]. intros k Hk2. cbn [st]. rewrite Em', (cp_umem _ _ _ _ _ _ _ Hcp), decide_True by lia.
    replace (Z.to_nat (dst + k - dst)) with k by lia. destruct (lookup_lt_is_Some_2 bs k) as [b Hb]; [lia|]. rewrite Hb.
    pose proof (Hrd k b Hb) as Hu. unfold m, root. rewrite Hu. f_equal. cbn [default]. unfold umem in Hu. destruct (uacc (k_mem s) (p_pagetable proc) (src + k)); [|done].
    injection Hu as <-. apply Z.mod_small, rd_range.
Qed.

End Calls.

(** ** An instance *)

Definition pipe0 : pipe := mkpipe (replicate (Z.to_nat PIPESIZE) 0) 0 0 1 1.
Definition demo_proc : proc := set_p_pagetable demo_root proc0.
Definition kst_pipe : kst :=
  set_k_mem (k_mem kst_user) (set_k_pipes (<[4096 := pipe0]> ∅)
    (set_k_procs (<[O := demo_proc]> (replicate NPROC proc0)) (set_k_cpu (mkcpu (Some O) 0 false) kst0))).

Lemma calm_set_pipes i x s : calm i s -> calm i (set_k_pipes x s).
Proof. done. Qed.

Lemma kst_pipe_calm : calm 0 kst_pipe.
Proof.
  unfold calm, intr_ok, kst_pipe. cbn [k_cpu k_locks k_procs set_k_mem set_k_pipes set_k_glob set_k_procs set_k_cpu c_noff c_proc].
  split_and!; [lia|lia|done|done|unfold NPROC; lia|by rewrite length_insert, length_replicate|done].
Qed.

Lemma pipe0_rep : pipe_rep pipe0 [].
Proof. split; [done|cbn; lia|done|cbn; lia|done]. Qed.

(** Reading fields that were just set. *)
Lemma k_mem_set m s : k_mem (set_k_mem m s) = m.
Proof. done. Qed.
Lemma k_pipes_set m ps s : k_pipes (set_k_mem m (set_k_pipes ps s)) = ps.
Proof. done. Qed.
Lemma k_procs_set m ps x s : k_procs (set_k_mem m (set_k_pipes ps (set_k_procs x s))) = x.
Proof. done. Qed.

Lemma kst_pipe_mem : k_mem kst_pipe = k_mem kst_user.
Proof. apply k_mem_set. Qed.
Lemma kst_pipe_pipe : k_pipes kst_pipe !! 4096 = Some pipe0.
Proof. unfold kst_pipe. rewrite k_pipes_set. apply lookup_insert_eq. Qed.
Lemma kst_pipe_proc : k_procs kst_pipe !! O = Some demo_proc.
Proof. unfold kst_pipe. rewrite k_procs_set. apply list_lookup_insert_eq. rewrite length_replicate. unfold NPROC. lia. Qed.

#[global] Opaque kst_pipe.

Lemma kst_pipe_space : exists l, @uspace demo_image (k_mem kst_pipe) demo_root l.
Proof. rewrite kst_pipe_mem. destruct kst_user_ok as (l & (_ & _ & Hus) & _). by exists l. Qed.

Lemma kst_pipe_acc va : 0 <= va < demo_sz -> uacc (k_mem kst_pipe) demo_root va = true.
Proof. rewrite kst_pipe_mem. apply demo_acc. Qed.

Lemma pipewrite_queue_witness : wp (pipewrite 4096 4000 5) (fun r w' => r = 5) (World kst_pipe []).
Proof.
  destruct kst_pipe_space as [l Hus]. eapply wp_mono.
  - apply (@pipewrite_queue demo_image demo_image_ok 4096 0 demo_proc l 4000 5 pipe0 [] kst_pipe []
      kst_pipe_calm kst_pipe_proc Hus eq_refl kst_pipe_pipe); [done|apply pipe0_rep|unfold PIPESIZE; cbn [length]; lia|lia|lia].
  - intros r w' (bs & p' & -> & _ & [-> |[Hlt Hno]] & _); [reflexivity|].
    rewrite kst_pipe_acc in Hno by (unfold demo_sz; lia). done.
Defined.

Lemma piperead_queue_witness :
  wp (piperead 4096 4000 5) (fun r w' => r = 0) (World (set_k_pipes (<[4096 := set_pi_writeopen 0 pipe0]> ∅) kst_pipe) []).
Proof.
  destruct kst_pipe_space as [l Hus]. set (s := set_k_pipes _ kst_pipe).
  assert (Em : k_mem s = k_mem kst_pipe) by (unfold s; by destruct kst_pipe as [? ? ? ? ? ? ? ? [] ? ?]).
  eapply wp_mono.
  - apply (@piperead_queue demo_image demo_image_ok 4096 0 demo_proc l 4000 5 (set_pi_writeopen 0 pipe0) [] s []).
    + apply calm_set_pipes, kst_pipe_calm.
    + rewrite <- kst_pipe_proc. unfold s. by destruct kst_pipe as [? ? ? ? ? ? ? ? [] ? ?].
    + rewrite Em. exact Hus.
    + unfold s. by destruct kst_pipe as [? ? ? ? ? ? ? ? [] ? ?].
    + by destruct pipe0_rep; split.
    + right. reflexivity.
    + lia.
    + lia.
  - intros r w' (k & m' & p' & q' & -> & _ & [[-> _]|(Hk & _)] & _); [reflexivity|cbn in Hk; lia].
Defined.

Lemma pipe_roundtrip_witness :
  wp (a ← pipewrite 4096 100 5; b ← piperead 4096 5000 5; mret (a, b)) (fun r w' => r = (5, 5) /\
    umem (k_mem (st w')) demo_root 5002 = umem (k_mem kst_pipe) demo_root 102) (World kst_pipe []).
Proof.
  destruct kst_pipe_space as [l Hus]. eapply wp_mono.
  - apply (@pipe_roundtrip demo_image demo_image_ok 4096 0 demo_proc l 100 5000 5 pipe0 kst_pipe []
      kst_pipe_calm kst_pipe_proc Hus eq_refl kst_pipe_pipe); [done|apply pipe0_rep|unfold PIPESIZE; lia|lia|lia|lia|lia|..];
      intros k Hk; apply kst_pipe_acc; unfold demo_sz; lia.
  - intros r w' [Hr Hm]. split; [exact Hr|]. exact (Hm 2%nat ltac:(lia)).
Defined.
