(* ===== verification/Console.v ===== *)
(** * kernel/uart.c and kernel/console.c: the console

    The transmit buffer of the UART, the console's [read] and [write] routines
    and the input interrupt with its line editing. *)

From S2P Require Import Prelude State KString Spinlock Norm Printf Sched Sleeplock Vm Proc.

Definition UART_TX_BUF_SIZE : Z := 32.
Definition INPUT_BUF_SIZE : Z := 128.
Definition CONSOLE : nat := 1.

(** ** uart.c *)

(** [WriteReg(reg, v)] for a configuration register. *)
Definition write_reg (reg v : Z) : K unit := modify_uart (fun u => set_ut_cfg (ut_cfg u ++ [(reg, v)]) u).

Definition uartinit : K unit :=
  write_reg 1 0;;                 (* IER: disable interrupts *)
  write_reg 3 128;;               (* LCR: set-baud mode *)
  write_reg 0 3;;                 (* LSB of the divisor *)
  write_reg 1 0;;                 (* MSB of the divisor *)
  write_reg 3 3;;                 (* LCR: eight bits *)
  write_reg 2 7;;                 (* FCR: enable and clear the FIFOs *)
  write_reg 1 3;;                 (* IER: enable both interrupts *)
  initlock L_uart_tx.

(** [ReadReg(LSR) & LSR_TX_IDLE] *)
Definition read_tx_idle : K bool :=
  u ← gets k_uart;
  modify_uart (fun u => set_ut_lsr (tail (ut_lsr u)) u);;
  mret (default true (head (ut_lsr u))).

(** The [while (1)] of [uartstart]: every round but the last sends a byte of the
    buffer. *)
Fixpoint uartstart_loop (fuel : nat) : K unit :=
  match fuel with
  | O => fault "uartstart: out of fuel"
  | S fuel =>
      u ← gets k_uart;
      if ut_w u =? ut_r u then mret tt else
      idle ← read_tx_idle;
      if negb idle then mret tt else
      let c := nth (Z.to_nat (ut_r u mod UART_TX_BUF_SIZE)) (ut_buf u) 0 in
      modify_uart (fun u => set_ut_r (u64 (ut_r u + 1)) u);;
      wakeup Ch_uart_tx;;
      write_thr c;;
      uartstart_loop fuel
  end.

Definition uartstart : K unit := uartstart_loop (S (Z.to_nat UART_TX_BUF_SIZE)).

Fixpoint uartputc_wait (fuel : nat) : K unit :=
  match fuel with
  | O => fault "uartputc: out of fuel"
  | S fuel =>
      u ← gets k_uart;
      if ut_w u =? u64 (ut_r u + UART_TX_BUF_SIZE) then
        sleep Ch_uart_tx L_uart_tx;;
        uartputc_wait fuel
      else mret tt
  end.

Definition uart_store (c : Z) (u : uartst) : uartst :=
  set_ut_w (u64 (ut_w u + 1)) (set_ut_buf (<[Z.to_nat (ut_w u mod UART_TX_BUF_SIZE) := u8 c]> (ut_buf u)) u).

Definition uartputc (c : Z) : K unit :=
  acquire L_uart_tx;;
  env_fuel uartputc_wait;;
  modify_uart (uart_store c);;
  uartstart;;
  release L_uart_tx.

Definition uartgetc : K Z :=
  u ← gets k_uart;
  match ut_rx u with
  | [] => mret (-1)
  | c :: rx => modify_uart (set_ut_rx rx);; mret c
  end.

(** ** console.c *)

Definition modify_cons (f : consst -> consst) : K unit := modify (fun s => set_k_cons (f (k_cons s)) s).

(** [C('x')] *)
Definition ctrl (s : string) : Z := chr s - chr "@".

Fixpoint consolewrite_loop (fuel : nat) (src : origin) (i n : Z) : K Z :=
  match fuel with
  | O => fault "consolewrite: out of fuel"
  | S fuel =>
      if i <? n then
        x ← either_copyin (origin_add src i) 1;
        if snd x =? -1 then mret i else
        uartputc (nth 0 (fst x) 0);;
        consolewrite_loop fuel src (i + 1) n
      else mret i
  end.

Definition consolewrite (src : origin) (n : Z) : K Z := consolewrite_loop (S (Z.to_nat n)) src 0 n.

(** Waiting for input; [false] when it returned -1, with the lock released. *)
Fixpoint consoleread_wait (fuel : nat) : K bool :=
  match fuel with
  | O => fault "consoleread: out of fuel"
  | S fuel =>
      c ← gets k_cons;
      if cons_r c =? cons_w c then
        me ← this_proc;
        k ← killed me;
        if negb (k =? 0) then
          release L_cons;;
          mret false
        else
          sleep Ch_cons L_cons;;
          consoleread_wait fuel
      else mret true
  end.

(** The loop of [consoleread]; [None] when it returned -1.  Otherwise the final
    [n], and the bytes delivered. *)
Fixpoint consoleread_loop (fuel : nat) (d : dest) (n target : Z) (acc : list Z) : K (option (Z * list Z)) :=
  match fuel with
  | O => fault "consoleread: out of fuel"
  | S fuel =>
      if 0 <? n then
        ok ← env_fuel consoleread_wait;
        if negb ok then mret None else
        cn ← gets k_cons;
        let c := nth (Z.to_nat (cons_r cn mod INPUT_BUF_SIZE)) (cons_buf cn) 0 in
        modify_cons (fun cn => set_cons_r (u32 (cons_r cn + 1)) cn);;
        if c =? ctrl "D" then
          when (u32 n <? target) (modify_cons (fun cn => set_cons_r (u32 (cons_r cn - 1)) cn));;
          mret (Some (n, acc))
        else
        r ← either_copyout d [c];
        if r =? -1 then mret (Some (n, acc)) else
        if c =? 10 then mret (Some (n - 1, acc ++ [c])) else
        consoleread_loop fuel (dest_add d 1) (n - 1) target (acc ++ [c])
      else mret (Some (n, acc))
  end.

Definition consoleread (d : dest) (n : Z) : K (Z * list Z) :=
  let target := u32 n in
  acquire L_cons;;
  r ← consoleread_loop (S (Z.to_nat n)) d n target [];
  match r with
  | None => mret (-1, [])
  | Some (n, acc) =>
      release L_cons;;
      mret (s32 (target - n), acc)
  end.

(** Kill line: erase back to the last newline or to [cons.w]; the buffer size
    bounds the rounds. *)
Fixpoint kill_line (fuel : nat) : K unit :=
  match fuel with
  | O => fault "consoleintr: out of fuel"
  | S fuel =>
      cn ← gets k_cons;
      if negb (cons_e cn =? cons_w cn) &&
         negb (nth (Z.to_nat (u32 (cons_e cn - 1) mod INPUT_BUF_SIZE)) (cons_buf cn) 0 =? 10) then
        modify_cons (fun cn => set_cons_e (u32 (cons_e cn - 1)) cn);;
        consputc BACKSPACE;;
        kill_line fuel
      else mret tt
  end.

(** The process with the largest pid: the loop of the control-C case. *)
Fixpoint largest_pid (todo : list nat) (cur : nat) : K nat :=
  match todo with
  | [] => mret cur
  | i :: todo =>
      p ← proc_at i;
      c ← proc_at cur;
      if negb (bool_decide (p_state p = UNUSED)) && (p_pid c <? p_pid p)
      then largest_pid todo i else largest_pid todo cur
  end.

Definition cons_store (c : Z) (cn : consst) : consst :=
  set_cons_e (u32 (cons_e cn + 1)) (set_cons_buf (<[Z.to_nat (cons_e cn mod INPUT_BUF_SIZE) := u8 c]> (cons_buf cn)) cn).

Definition consoleintr (c : Z) : K unit :=
  acquire L_cons;;
  (if c =? ctrl "P" then procdump
   else if c =? ctrl "U" then kill_line (S (Z.to_nat INPUT_BUF_SIZE))
   else if c =? ctrl "C" then
     cur ← largest_pid (seq 0 NPROC) 0;
     p ← proc_at cur;
     match p_parent p with
     | None => fault "consoleintr: current_proc->parent is null"
     | Some j =>
         q ← proc_at j;
         when (negb (p_pid q =? 1)) (setkilled cur)
     end
   else if (c =? ctrl "H") || (c =? 127) then
     cn ← gets k_cons;
     when (negb (cons_e cn =? cons_w cn))
       (modify_cons (fun cn => set_cons_e (u32 (cons_e cn - 1)) cn);;
        consputc BACKSPACE)
   else
     cn ← gets k_cons;
     when (negb (c =? 0) && (u32 (cons_e cn - cons_r cn) <? INPUT_BUF_SIZE))
       (let c := if c =? 13 then 10 else c in
        consputc c;;
        modify_cons (cons_store c);;
        cn ← gets k_cons;
        when ((c =? 10) || (c =? ctrl "D") || (u32 (cons_e cn - cons_r cn) =? INPUT_BUF_SIZE))
          (modify_cons (fun cn => set_cons_w (cons_e cn) cn);;
           wakeup Ch_cons)));;
  release L_cons.

(** The [while (1)] of [uartintr]: every round but the last takes a byte from the
    receiver. *)
Fixpoint uartintr_loop (fuel : nat) : K unit :=
  match fuel with
  | O => fault "uartintr: out of fuel"
  | S fuel =>
      c ← uartgetc;
      if c =? -1 then mret tt else
      consoleintr c;;
      uartintr_loop fuel
  end.

Definition uartintr : K unit :=
  u ← gets k_uart;
  uartintr_loop (S (length (ut_rx u)));;
  acquire L_uart_tx;;
  uartstart;;
  release L_uart_tx.

Definition consoleinit : K unit :=
  initlock L_cons;;
  uartinit;;
  modify (fun s => set_k_devsw (alter (set_dev_read (Some consoleread_ptr)) CONSOLE (k_devsw s)) s);;
  modify (fun s => set_k_devsw (alter (set_dev_write (Some consolewrite_ptr)) CONSOLE (k_devsw s)) s).
