(* ===== verification/File.v ===== *)
(** * kernel/file.c: the file table, and [pipealloc] of kernel/pipe.c

    Reference-counted open files that dispatch to pipes, devices and inodes. *)

From S2P Require Import Prelude State KString Spinlock Norm Printf Sched Sleeplock Kalloc Vm Proc Bio Log Fs Pipe Console.

Definition file_at (f : nat) : K file := s ← get; nth_or_fault (k_files s) f.
Definition modify_file (f : nat) (g : file -> file) : K unit :=
  modify (fun s => set_k_files (alter g f (k_files s)) s).

Definition fileinit : K unit := initlock L_ftable.

Definition filealloc_visit (f : nat) : K (option nat) :=
  x ← file_at f;
  if f_ref x =? 0 then
    modify_file f (set_f_ref 1);;
    release L_ftable;;
    mret (Some f)
  else mret None.

Definition filealloc : K (option nat) :=
  acquire L_ftable;;
  r ← foreach (seq 0 NFILE) filealloc_visit;
  match r with
  | Some f => mret (Some f)
  | None =>
      release L_ftable;;
      mret None
  end.

Definition filedup (f : nat) : K nat :=
  acquire L_ftable;;
  x ← file_at f;
  if f_ref x <? 1 then panic "filedup" else
  modify_file f (fun x => set_f_ref (f_ref x + 1) x);;
  release L_ftable;;
  mret f.

(** [struct stat] as the bytes [copyout] sends, with [pad] what the padding
    bytes of the local variable hold. *)
Definition stat_bytes (st : stat) (pad : list Z) : list Z :=
  le_bytes 4 (u32 (st_dev st)) ++ le_bytes 4 (st_ino st) ++ le_bytes 2 (u16 (st_type st)) ++
  le_bytes 2 (u16 (st_nlink st)) ++ take 4 pad ++ le_bytes 8 (st_size st).

Section File.
Context `{KernelImage} `{DiskDriver}.

Definition fileclose (f : nat) : K unit :=
  acquire L_ftable;;
  x ← file_at f;
  if f_ref x <? 1 then panic "fileclose" else
  modify_file f (fun x => set_f_ref (f_ref x - 1) x);;
  ff ← file_at f;
  if 0 <? f_ref ff then release L_ftable else
  modify_file f (set_f_ref 0);;
  modify_file f (set_f_type FD_NONE);;
  release L_ftable;;
  match f_type ff with
  | FD_PIPE => pipeclose (f_pipe ff) (negb (f_writable ff =? 0))
  | FD_INODE | FD_DEVICE =>
      begin_op;;
      iput (f_ip ff);;
      end_op
  | FD_NONE => mret tt
  end.

Definition filestat (pad : list Z) (f : nat) (addr : Z) : K Z :=
  me ← this_proc;
  x ← file_at f;
  match f_type x with
  | FD_INODE | FD_DEVICE =>
      ilock (f_ip x);;
      i ← inode_ptr (f_ip x);
      st ← stati i;
      iunlock (f_ip x);;
      p ← proc_at me;
      r ← copyout (p_pagetable p) addr (stat_bytes st pad);
      if r <? 0 then mret (-1) else mret 0
  | _ => mret (-1)
  end.

(** [devsw[major]], or [None] when the major number is out of range. *)
Definition devsw_at (major : Z) : K (option devsw) :=
  if (major <? 0) || (NDEV <=? major) then mret None else
  s ← get;
  d ← nth_or_fault (k_devsw s) (Z.to_nat major);
  mret (Some d).

Definition fileread (f : nat) (addr n : Z) : K Z :=
  x ← file_at f;
  if f_readable x =? 0 then mret (-1) else
  match f_type x with
  | FD_PIPE => piperead (f_pipe x) addr n
  | FD_DEVICE =>
      d ← devsw_at (f_major x);
      match d ≫= dev_read with
      | None => mret (-1)
      | Some consoleread_ptr => r ← consoleread (ToUser addr) n; mret (fst r)
      end
  | FD_INODE =>
      ilock (f_ip x);;
      x ← file_at f;
      i ← inode_ptr (f_ip x);
      r ← readi i (ToUser addr) (f_off x) (u32 n);
      when (0 <? fst r) (modify_file f (fun x => set_f_off (u32 (f_off x + fst r)) x));;
      iunlock (f_ip x);;
      mret (fst r)
  | FD_NONE => panic "fileread"
  end.

(** Bytes per transaction of [filewrite]. *)
Definition filewrite_max : Z := ((MAXOPBLOCKS - 1 - 1 - 2) / 2) * BSIZE.

(** The chunk loop: the final [i]. *)
Fixpoint filewrite_loop (fuel : nat) (f : nat) (addr i n : Z) : K Z :=
  match fuel with
  | O => fault "filewrite: out of fuel"
  | S fuel =>
      if i <? n then
        let n1 := if filewrite_max <? n - i then filewrite_max else n - i in
        begin_op;;
        x ← file_at f;
        ilock (f_ip x);;
        x ← file_at f;
        ip ← inode_ptr (f_ip x);
        r ← writei ip (FromUser (u64 (addr + i))) (f_off x) (u32 n1);
        when (0 <? r) (modify_file f (fun x => set_f_off (u32 (f_off x + r)) x));;
        iunlock (f_ip x);;
        end_op;;
        if negb (r =? n1) then mret i else filewrite_loop fuel f addr (i + r) n
      else mret i
  end.

Definition filewrite (f : nat) (addr n : Z) : K Z :=
  x ← file_at f;
  if f_writable x =? 0 then mret (-1) else
  match f_type x with
  | FD_PIPE => pipewrite (f_pipe x) addr n
  | FD_DEVICE =>
      d ← devsw_at (f_major x);
      match d ≫= dev_write with
      | None => mret (-1)
      | Some consolewrite_ptr => consolewrite (FromUser addr) n
      end
  | FD_INODE =>
      i ← filewrite_loop (S (Z.to_nat n)) f addr 0 n;
      mret (if i =? n then n else -1)
  | FD_NONE => panic "filewrite"
  end.

(** ** pipe.c: pipealloc *)

(** The [bad] exit: it gives back what was allocated. *)
Definition pipealloc_bad (pi : Z) (f0 f1 : option nat) : K (option (nat * nat)) :=
  when (negb (pi =? 0)) (kfree pi);;
  match f0 with Some f => fileclose f | None => mret tt end;;
  match f1 with Some f => fileclose f | None => mret tt end;;
  mret None.

(** A fresh pipe in the page [pi]: the buffer is what the page holds after the
    24-byte spin lock. *)
Definition pipe_init (pi : Z) (m : gmap Z Z) : pipe :=
  mkpipe (rd_bytes (Z.to_nat PIPESIZE) m (pi + 24)) 0 0 1 1.

(** The two files on success, [None] for the return value -1. *)
Definition pipealloc : K (option (nat * nat)) :=
  f0 ← filealloc;
  match f0 with
  | None => pipealloc_bad 0 None None
  | Some a =>
      f1 ← filealloc;
      match f1 with
      | None => pipealloc_bad 0 f0 None
      | Some b =>
          pi ← kalloc;
          if pi =? 0 then pipealloc_bad 0 f0 f1 else
          modify (fun s => set_k_pipes (<[pi := pipe_init pi (k_mem s)]> (k_pipes s)) s);;
          initlock (L_pipe pi);;
          modify_file a (set_f_type FD_PIPE);;
          modify_file a (set_f_readable 1);;
          modify_file a (set_f_writable 0);;
          modify_file a (set_f_pipe pi);;
          modify_file b (set_f_type FD_PIPE);;
          modify_file b (set_f_readable 0);;
          modify_file b (set_f_writable 1);;
          modify_file b (set_f_pipe pi);;
          mret (Some (a, b))
      end
  end.

End File.
