(* ===== verification/Fork.v ===== *)
(** * kernel/proc.c: creating and ending processes

    [fork], [exit], [userinit] and [forkret], which involve the file system. *)

From S2P Require Import Prelude State KString Spinlock Norm Printf Sched Sleeplock Kalloc Vm Proc Bio Log Fs Pipe Console File.

(** Offsets in [struct trapframe]. *)
Definition tf_kernel_satp : Z := 0.
Definition tf_kernel_sp : Z := 8.
Definition tf_kernel_trap : Z := 16.
Definition tf_epc : Z := 24.
Definition tf_kernel_hartid : Z := 32.
Definition tf_sp : Z := 48.
Definition tf_a (n : Z) : Z := 112 + 8 * n.
Definition sizeof_trapframe : nat := 288.

(** [p->trapframe->field]: reading and writing through the trapframe pointer. *)
Definition tf_get (i : nat) (field : Z) : K Z :=
  p ← proc_at i;
  if p_trapframe p =? 0 then fault "null trapframe" else load64 (p_trapframe p + field).
Definition tf_set (i : nat) (field v : Z) : K unit :=
  p ← proc_at i;
  if p_trapframe p =? 0 then fault "null trapframe" else store64 (p_trapframe p + field) v.

Definition initcode : list Z :=
  [23; 5; 0; 0; 19; 5; 69; 2;
   151; 5; 0; 0; 147; 133; 53; 2;
   147; 8; 112; 0; 115; 0; 0; 0;
   147; 8; 32; 0; 115; 0; 0; 0;
   239; 240; 159; 255; 47; 105; 110; 105;
   116; 0; 0; 36; 0; 0; 0; 0;
   0; 0; 0; 0].

Section Fork.
Context `{KernelImage} `{DiskDriver}.

Definition userinit : K unit :=
  p ← allocproc;
  modify (set_k_initproc p);;
  match p with
  | None => fault "userinit: no process"
  | Some i =>
      x ← proc_at i;
      uvmfirst (p_pagetable x) initcode;;
      modify_proc i (set_p_sz PGSIZE);;
      tf_set i tf_epc 0;;
      tf_set i tf_sp PGSIZE;;
      modify_proc i (fun p => set_p_name (safestrcpy_bytes (p_name p) (bytes "initcode") 16) p);;
      cwd ← namei (bytes "/");
      modify_proc i (set_p_cwd cwd);;
      modify_proc i (set_p_state RUNNABLE);;
      release (L_proc i)
  end.

(** [*(np->trapframe) = *(p->trapframe)] *)
Definition copy_trapframe (src dst : Z) : K unit :=
  if (src =? 0) || (dst =? 0) then fault "null trapframe" else
  modify (fun s => set_k_mem (wr_bytes (k_mem s) dst (rd_bytes sizeof_trapframe (k_mem s) src)) s).

Definition fork : K Z :=
  i ← this_proc;
  np ← allocproc;
  match np with
  | None => mret (-1)
  | Some j =>
      p ← proc_at i;
      q ← proc_at j;
      r ← uvmcopy (p_pagetable p) (p_pagetable q) (p_sz p);
      if r <? 0 then
        freeproc j;;
        release (L_proc j);;
        mret (-1)
      else
      modify_proc j (set_p_sz (p_sz p));;
      copy_trapframe (p_trapframe p) (p_trapframe q);;
      tf_set j (tf_a 0) 0;;
      foreach (seq 0 NOFILE) (fun fd =>
        p ← proc_at i;
        o ← nth_or_fault (p_ofile p) fd;
        match o with
        | None => mret (@None unit)
        | Some f =>
            f ← filedup f;
            modify_proc j (fun q => set_p_ofile (<[fd := Some f]> (p_ofile q)) q);;
            mret None
        end);;
      p ← proc_at i;
      cwd ← idup (p_cwd p);
      modify_proc j (set_p_cwd cwd);;
      modify_proc j (fun q => set_p_name (safestrcpy_bytes (p_name q) (p_name p) 16) q);;
      q ← proc_at j;
      let pid := p_pid q in
      release (L_proc j);;
      acquire L_wait;;
      modify_proc j (set_p_parent (Some i));;
      release L_wait;;
      acquire (L_proc j);;
      modify_proc j (set_p_state RUNNABLE);;
      release (L_proc j);;
      mret pid
  end.

(** [exit] does not return. *)
Definition exit (status : Z) : K Empty_set :=
  i ← this_proc;
  init ← gets k_initproc;
  if bool_decide (Some i = init) then panic "init exiting" else
  foreach (seq 0 NOFILE) (fun fd =>
    p ← proc_at i;
    o ← nth_or_fault (p_ofile p) fd;
    match o with
    | None => mret (@None unit)
    | Some f =>
        fileclose f;;
        modify_proc i (fun p => set_p_ofile (<[fd := None]> (p_ofile p)) p);;
        mret None
    end);;
  begin_op;;
  p ← proc_at i;
  iput (p_cwd p);;
  end_op;;
  modify_proc i (set_p_cwd None);;
  acquire L_wait;;
  reparent i;;
  p ← proc_at i;
  wakeup (proc_chan (p_parent p));;
  acquire (L_proc i);;
  modify_proc i (set_p_xstate status);;
  modify_proc i (set_p_state ZOMBIE);;
  release L_wait;;
  sched;;
  panic "zombie exit".

End Fork.
