(* ===== verification/Exec.v ===== *)
(** * kernel/exec.c: replacing the memory of a process by a program *)

From S2P Require Import Prelude State KString Spinlock Norm Printf Sched Sleeplock Kalloc Vm Proc Bio Log Fs Pipe Console File Fork.

Definition ELF_MAGIC : Z := 1179403647.
Definition ELF_PROG_LOAD : Z := 1.

(** [struct elfhdr] (64 bytes) and [struct proghdr] (56 bytes). *)
Definition sizeof_elfhdr : Z := 64.
Definition elf_magic (bs : list Z) : Z := get_le 4 0 bs.
Definition elf_entry (bs : list Z) : Z := get_le 8 24 bs.
Definition elf_phoff (bs : list Z) : Z := get_le 8 32 bs.
Definition elf_phnum (bs : list Z) : Z := get_le 2 56 bs.
Definition sizeof_proghdr : Z := 56.
Definition ph_type (bs : list Z) : Z := get_le 4 0 bs.
Definition ph_flags (bs : list Z) : Z := get_le 4 4 bs.
Definition ph_off (bs : list Z) : Z := get_le 8 8 bs.
Definition ph_vaddr (bs : list Z) : Z := get_le 8 16 bs.
Definition ph_filesz (bs : list Z) : Z := get_le 8 32 bs.
Definition ph_memsz (bs : list Z) : Z := get_le 8 40 bs.

Definition flags2perm (flags : Z) : Z :=
  let perm := if Z.land flags 1 =? 0 then 0 else PTE_X in
  if Z.land flags 2 =? 0 then perm else Z.lor perm PTE_W.

(** The part of the path after the last slash. *)
Fixpoint last_elem (path last : list Z) : list Z :=
  match path with
  | [] => last
  | c :: path => last_elem path (if c =? chr "/" then path else last)
  end.

(** [strlen] of a string in kernel memory; the strings [exec] gets fit in a page. *)
Definition kstrlen (a : Z) : K Z :=
  s ← get;
  match strlen (Z.to_nat PGSIZE) (k_mem s) a with
  | Some n => mret n
  | None => fault "strlen: no terminator"
  end.

Section Exec.
Context `{KernelImage} `{DiskDriver}.

Fixpoint loadseg_loop (fuel : nat) (pagetable va : Z) (ip : nat) (offset sz i : Z) : K Z :=
  match fuel with
  | O => fault "loadseg: out of fuel"
  | S fuel =>
      if i <? sz then
        pa ← walkaddr pagetable (u64 (va + i));
        if pa =? 0 then panic "loadseg: address should exist" else
        let n := if sz - i <? PGSIZE then sz - i else PGSIZE in
        r ← readi ip (ToKernel pa) (u32 (offset + i)) n;
        if negb (u32 (fst r) =? n) then mret (-1) else
        loadseg_loop fuel pagetable va ip offset sz (u32 (i + PGSIZE))
      else mret 0
  end.

Definition loadseg (pagetable va : Z) (ip : nat) (offset sz : Z) : K Z :=
  loadseg_loop (Z.to_nat (sz / PGSIZE + 2)) pagetable va ip offset sz 0.

(** The loop over the program headers, [n] of which are left: whether it
    finished, and the size reached. *)
Fixpoint exec_segments (n : nat) (ip : nat) (pagetable off sz : Z) : K (bool * Z) :=
  match n with
  | O => mret (true, sz)
  | S n =>
      x ← readi ip ToLocal (u32 off) sizeof_proghdr;
      if negb (fst x =? sizeof_proghdr) then mret (false, sz) else
      let ph := snd x in
      if negb (ph_type ph =? ELF_PROG_LOAD) then exec_segments n ip pagetable (s32 (off + sizeof_proghdr)) sz else
      if ph_memsz ph <? ph_filesz ph then mret (false, sz) else
      if u64 (ph_vaddr ph + ph_memsz ph) <? ph_vaddr ph then mret (false, sz) else
      if negb (ph_vaddr ph mod PGSIZE =? 0) then mret (false, sz) else
      sz1 ← uvmalloc pagetable sz (u64 (ph_vaddr ph + ph_memsz ph)) (flags2perm (ph_flags ph));
      if sz1 =? 0 then mret (false, sz) else
      r ← loadseg pagetable (ph_vaddr ph) ip (u32 (ph_off ph)) (u32 (ph_filesz ph));
      if r <? 0 then mret (false, sz1) else
      exec_segments n ip pagetable (s32 (off + sizeof_proghdr)) sz1
  end.

(** Pushing the argument strings: the stack pointer and [ustack[0..argc)], or
    [None] for the [bad] exit. *)
Fixpoint exec_args (argv : list Z) (pagetable sp stackbase : Z) (ustack : list Z) : K (option (Z * list Z)) :=
  match argv with
  | [] => mret (Some (sp, ustack))
  | a :: argv =>
      if (MAXARG <=? length ustack)%nat then mret None else
      len ← kstrlen a;
      let sp := u64 (sp - (len + 1)) in
      let sp := sp - sp mod 16 in
      if sp <? stackbase then mret None else
      bs ← gets (fun s => rd_bytes (Z.to_nat (len + 1)) (k_mem s) a);
      r ← copyout pagetable sp bs;
      if r <? 0 then mret None else
      exec_args argv pagetable sp stackbase (ustack ++ [sp])
  end.

(** The label [bad]. *)
Definition exec_bad (pagetable sz : Z) (ip : option nat) : K Z :=
  when (negb (pagetable =? 0)) (proc_freepagetable pagetable sz);;
  match ip with
  | Some _ => iunlockput ip;; end_op
  | None => mret tt
  end;;
  mret (-1).

(** From the allocation of the stack to the end, once the segments are loaded. *)
Definition exec_commit (path argv elf : list Z) (pagetable sz : Z) : K Z :=
  me ← this_proc;
  p ← proc_at me;
  let oldsz := p_sz p in
  let sz := PGROUNDUP sz in
  sz1 ← uvmalloc pagetable sz (u64 (sz + 2 * PGSIZE)) PTE_W;
  if sz1 =? 0 then exec_bad pagetable sz None else
  let sz := sz1 in
  uvmclear pagetable (u64 (sz - 2 * PGSIZE));;
  let sp := sz in
  let stackbase := u64 (sp - PGSIZE) in
  x ← exec_args argv pagetable sp stackbase [];
  match x with
  | None => exec_bad pagetable sz None
  | Some (sp, ustack) =>
      let argc := Z.of_nat (length ustack) in
      if MAXARG <=? argc then fault "exec: ustack" else
      let sp := u64 (sp - (argc + 1) * 8) in
      let sp := sp - sp mod 16 in
      if sp <? stackbase then exec_bad pagetable sz None else
      r ← copyout pagetable sp (mjoin (le_bytes 8 <$> (ustack ++ [0])));
      if r <? 0 then exec_bad pagetable sz None else
      tf_set me (tf_a 1) sp;;
      modify_proc me (fun p => set_p_name (safestrcpy_bytes (p_name p) (last_elem path path) 16) p);;
      p ← proc_at me;
      let oldpagetable := p_pagetable p in
      modify_proc me (set_p_pagetable pagetable);;
      modify_proc me (set_p_sz sz);;
      tf_set me tf_epc (elf_entry elf);;
      tf_set me tf_sp sp;;
      proc_freepagetable oldpagetable oldsz;;
      mret argc
  end.

Definition exec (path argv : list Z) : K Z :=
  me ← this_proc;
  begin_op;;
  o ← namei path;
  match o with
  | None =>
      end_op;;
      mret (-1)
  | Some ip =>
      ilock (Some ip);;
      x ← readi ip ToLocal 0 sizeof_elfhdr;
      if negb (fst x =? sizeof_elfhdr) then exec_bad 0 0 (Some ip) else
      let elf := snd x in
      if negb (elf_magic elf =? ELF_MAGIC) then exec_bad 0 0 (Some ip) else
      pagetable ← proc_pagetable me;
      if pagetable =? 0 then exec_bad 0 0 (Some ip) else
      y ← exec_segments (Z.to_nat (elf_phnum elf)) ip pagetable (s32 (elf_phoff elf)) 0;
      if negb (fst y) then exec_bad pagetable (snd y) (Some ip) else
      iunlockput (Some ip);;
      end_op;;
      exec_commit path argv elf pagetable (snd y)
  end.

End Exec.
