(* ===== verification/Sysfile.v ===== *)
(** * kernel/syscall.c (argument fetching) and kernel/sysfile.c

    The system calls on files: argument checking and the calls into file.c and
    fs.c.  A system call returns an [int] or a [uint64]; -1 stands for the
    all-ones value. *)

From S2P Require Import Prelude State KString Spinlock Norm Printf Sched Sleeplock Kalloc Vm Proc Bio Log Fs Pipe Console File Fork Exec.

Definition O_RDONLY : Z := 0.
Definition O_WRONLY : Z := 1.
Definition O_RDWR : Z := 2.
Definition O_CREATE : Z := 512.
Definition O_TRUNC : Z := 1024.

(** ** Fetching arguments (syscall.c) *)

(** The word at a user address, or [None] for the return value -1. *)
Definition fetchaddr (addr : Z) : K (option Z) :=
  me ← this_proc;
  p ← proc_at me;
  if (p_sz p <=? addr) || (p_sz p <? u64 (addr + 8)) then mret None else
  x ← copyin (p_pagetable p) addr 8;
  if negb (snd x =? 0) then mret None else mret (Some (le_val (fst x))).

(** The bytes stored in the buffer, and the length of the string or -1. *)
Definition fetchstr (addr : Z) (max : nat) : K (list Z * Z) :=
  me ← this_proc;
  p ← proc_at me;
  x ← copyinstr (p_pagetable p) addr max;
  if snd x <? 0 then mret (fst x, -1) else mret (fst x, Z.of_nat (length (cstring (fst x)))).

Definition argraw (n : Z) : K Z :=
  me ← this_proc;
  if (n <? 0) || (5 <? n) then panic "argraw" else tf_get me (tf_a n).
Definition argint (n : Z) : K Z := x ← argraw n; mret (s32 x).
Definition argaddr (n : Z) : K Z := argraw n.

(** The string without its terminator and its length, or the length -1. *)
Definition argstr (n : Z) (max : nat) : K (list Z * Z) :=
  addr ← argaddr n;
  x ← fetchstr addr max;
  mret (cstring (fst x), snd x).

(** ** sysfile.c *)

(** The descriptor and the file, or [None] for -1. *)
Definition argfd (n : Z) : K (option (Z * nat)) :=
  fd ← argint n;
  if (fd <? 0) || (NOFILE <=? fd) then mret None else
  me ← this_proc;
  p ← proc_at me;
  f ← nth_or_fault (p_ofile p) (Z.to_nat fd);
  match f with
  | None => mret None
  | Some f => mret (Some (fd, f))
  end.

Definition set_ofile (me : nat) (fd : Z) (f : option nat) : K unit :=
  modify_proc me (fun p => set_p_ofile (<[Z.to_nat fd := f]> (p_ofile p)) p).

Definition fdalloc (f : nat) : K Z :=
  me ← this_proc;
  r ← foreach (seq 0 NOFILE) (fun fd =>
    p ← proc_at me;
    o ← nth_or_fault (p_ofile p) fd;
    match o with
    | None => set_ofile me fd (Some f);; mret (Some (Z.of_nat fd))
    | Some _ => mret None
    end);
  mret (default (-1) r).

Definition sys_dup : K Z :=
  x ← argfd 0;
  match x with
  | None => mret (-1)
  | Some (_, f) =>
      fd ← fdalloc f;
      if fd <? 0 then mret (-1) else
      filedup f;;
      mret fd
  end.

Section Sysfile.
Context `{KernelImage} `{DiskDriver}.

Definition sys_read : K Z :=
  p ← argaddr 1;
  n ← argint 2;
  x ← argfd 0;
  match x with
  | None => mret (-1)
  | Some (_, f) => fileread f p n
  end.

Definition sys_write : K Z :=
  p ← argaddr 1;
  n ← argint 2;
  x ← argfd 0;
  match x with
  | None => mret (-1)
  | Some (_, f) => filewrite f p n
  end.

Definition sys_close : K Z :=
  x ← argfd 0;
  match x with
  | None => mret (-1)
  | Some (fd, f) =>
      me ← this_proc;
      set_ofile me fd None;;
      fileclose f;;
      mret 0
  end.

Definition sys_fstat (pad : list Z) : K Z :=
  st ← argaddr 1;
  x ← argfd 0;
  match x with
  | None => mret (-1)
  | Some (_, f) => filestat pad f st
  end.

(** [ip->nlink++; iupdate(ip)] and the decrement; [nlink] is a [short]. *)
Definition add_nlink (i : nat) (d : Z) : K unit :=
  modify_inode i (fun ip => set_i_nlink (s16 (i_nlink ip + d)) ip);;
  iupdate i.

(** The label [bad] of [sys_link]. *)
Definition sys_link_bad (i : nat) : K Z :=
  ilock (Some i);;
  add_nlink i (-1);;
  iunlockput (Some i);;
  end_op;;
  mret (-1).

Definition sys_link : K Z :=
  old ← argstr 0 MAXPATH;
  if snd old <? 0 then mret (-1) else
  new ← argstr 1 MAXPATH;
  if snd new <? 0 then mret (-1) else
  begin_op;;
  o ← namei (fst old);
  match o with
  | None =>
      end_op;;
      mret (-1)
  | Some i =>
      ilock (Some i);;
      ip ← inode_at i;
      if i_type ip =? T_DIR then
        iunlockput (Some i);;
        end_op;;
        mret (-1)
      else
      add_nlink i 1;;
      iunlock (Some i);;
      x ← nameiparent (fst new);
      match fst x with
      | None => sys_link_bad i
      | Some d =>
          ilock (Some d);;
          dp ← inode_at d;
          ip ← inode_at i;
          r ← (if negb (i_dev dp =? i_dev ip) then mret (-1) else dirlink d (snd x) (i_inum ip));
          if r <? 0 then
            iunlockput (Some d);;
            sys_link_bad i
          else
            iunlockput (Some d);;
            iput (Some i);;
            end_op;;
            mret 0
      end
  end.

Fixpoint isdirempty_loop (fuel : nat) (dp : nat) (off : Z) : K bool :=
  match fuel with
  | O => fault "isdirempty: out of fuel"
  | S fuel =>
      d ← inode_at dp;
      if u32 off <? i_size d then
        de ← read_dirent dp (u32 off) "isdirempty: readi";
        if negb (de_inum de =? 0) then mret false else isdirempty_loop fuel dp (s32 (off + sizeof_dirent))
      else mret true
  end.

Definition isdirempty (dp : nat) : K bool :=
  d ← inode_at dp;
  isdirempty_loop (Z.to_nat (i_size d / sizeof_dirent + 2)) dp (2 * sizeof_dirent).

(** The label [bad] of [sys_unlink]. *)
Definition sys_unlink_bad (d : nat) : K Z :=
  iunlockput (Some d);;
  end_op;;
  mret (-1).

Definition sys_unlink : K Z :=
  path ← argstr 0 MAXPATH;
  if snd path <? 0 then mret (-1) else
  begin_op;;
  x ← nameiparent (fst path);
  match fst x with
  | None =>
      end_op;;
      mret (-1)
  | Some d =>
      let name := snd x in
      ilock (Some d);;
      if (namecmp name (bytes ".") =? 0) || (namecmp name (bytes "..") =? 0) then sys_unlink_bad d else
      o ← dirlookup d name;
      match o with
      | None => sys_unlink_bad d
      | Some (i, off) =>
          ilock (Some i);;
          ip ← inode_at i;
          if i_nlink ip <? 1 then panic "unlink: nlink < 1" else
          nonempty ← (if i_type ip =? T_DIR then e ← isdirempty i; mret (negb e) else mret false);
          if (nonempty : bool) then
            iunlockput (Some i);;
            sys_unlink_bad d
          else
          r ← writei d (FromLocal (replicate 16 0)) off sizeof_dirent;
          if negb (r =? sizeof_dirent) then panic "unlink: writei" else
          when (i_type ip =? T_DIR) (add_nlink d (-1));;
          iunlockput (Some d);;
          add_nlink i (-1);;
          iunlockput (Some i);;
          end_op;;
          mret 0
      end
  end.

(** The label [fail] of [create]. *)
Definition create_fail (i d : nat) : K (option nat) :=
  modify_inode i (set_i_nlink 0);;
  iupdate i;;
  iunlockput (Some i);;
  iunlockput (Some d);;
  mret None.

Definition create (path : list Z) (type major minor : Z) : K (option nat) :=
  x ← nameiparent path;
  match fst x with
  | None => mret None
  | Some d =>
      let name := snd x in
      ilock (Some d);;
      o ← dirlookup d name;
      match o with
      | Some (i, _) =>
          iunlockput (Some d);;
          ilock (Some i);;
          ip ← inode_at i;
          if (type =? T_FILE) && ((i_type ip =? T_FILE) || (i_type ip =? T_DEVICE)) then mret (Some i) else
          iunlockput (Some i);;
          mret None
      | None =>
          dp ← inode_at d;
          o ← ialloc (i_dev dp) type;
          match o with
          | None =>
              iunlockput (Some d);;
              mret None
          | Some i =>
              ilock (Some i);;
              modify_inode i (set_i_major major);;
              modify_inode i (set_i_minor minor);;
              modify_inode i (set_i_nlink 1);;
              iupdate i;;
              ip ← inode_at i;
              dp ← inode_at d;
              r ← (if type =? T_DIR then
                     r ← dirlink i (bytes ".") (i_inum ip);
                     if r <? 0 then mret r else dirlink i (bytes "..") (i_inum dp)
                   else mret 0);
              if r <? 0 then create_fail i d else
              r ← dirlink d name (i_inum ip);
              if r <? 0 then create_fail i d else
              when (type =? T_DIR) (add_nlink d 1);;
              iunlockput (Some d);;
              mret (Some i)
          end
      end
  end.

(** The part of [sys_open] that has the locked inode. *)
Definition sys_open_inode (i : nat) (omode : Z) : K Z :=
  ip ← inode_at i;
  if (i_type ip =? T_DEVICE) && ((i_major ip <? 0) || (NDEV <=? i_major ip)) then
    iunlockput (Some i);;
    end_op;;
    mret (-1)
  else
  o ← filealloc;
  fd ← match o with None => mret (-1) | Some f => fdalloc f end;
  match o with
  | None =>
      iunlockput (Some i);;
      end_op;;
      mret (-1)
  | Some f =>
      if fd <? 0 then
        fileclose f;;
        iunlockput (Some i);;
        end_op;;
        mret (-1)
      else
      (if i_type ip =? T_DEVICE then
         modify_file f (set_f_type FD_DEVICE);;
         modify_file f (set_f_major (i_major ip))
       else
         modify_file f (set_f_type FD_INODE);;
         modify_file f (set_f_off 0));;
      modify_file f (set_f_ip (Some i));;
      modify_file f (set_f_readable (if Z.land omode O_WRONLY =? 0 then 1 else 0));;
      modify_file f (set_f_writable
        (if negb (Z.land omode O_WRONLY =? 0) || negb (Z.land omode O_RDWR =? 0) then 1 else 0));;
      when (negb (Z.land omode O_TRUNC =? 0) && (i_type ip =? T_FILE)) (itrunc i);;
      iunlock (Some i);;
      end_op;;
      mret fd
  end.

Definition sys_open : K Z :=
  omode ← argint 1;
  path ← argstr 0 MAXPATH;
  if snd path <? 0 then mret (-1) else
  begin_op;;
  if negb (Z.land omode O_CREATE =? 0) then
    o ← create (fst path) T_FILE 0 0;
    match o with
    | None => end_op;; mret (-1)
    | Some i => sys_open_inode i omode
    end
  else
    o ← namei (fst path);
    match o with
    | None => end_op;; mret (-1)
    | Some i =>
        ilock (Some i);;
        ip ← inode_at i;
        if (i_type ip =? T_DIR) && negb (omode =? O_RDONLY) then
          iunlockput (Some i);;
          end_op;;
          mret (-1)
        else sys_open_inode i omode
    end.

Definition sys_mkdir : K Z :=
  begin_op;;
  path ← argstr 0 MAXPATH;
  o ← (if snd path <? 0 then mret None else create (fst path) T_DIR 0 0);
  match o with
  | None => end_op;; mret (-1)
  | Some i =>
      iunlockput (Some i);;
      end_op;;
      mret 0
  end.

Definition sys_mknod : K Z :=
  begin_op;;
  major ← argint 1;
  minor ← argint 2;
  path ← argstr 0 MAXPATH;
  o ← (if snd path <? 0 then mret None else create (fst path) T_DEVICE (s16 major) (s16 minor));
  match o with
  | None => end_op;; mret (-1)
  | Some i =>
      iunlockput (Some i);;
      end_op;;
      mret 0
  end.

Definition sys_chdir : K Z :=
  me ← this_proc;
  begin_op;;
  path ← argstr 0 MAXPATH;
  o ← (if snd path <? 0 then mret None else namei (fst path));
  match o with
  | None => end_op;; mret (-1)
  | Some i =>
      ilock (Some i);;
      ip ← inode_at i;
      if negb (i_type ip =? T_DIR) then
        iunlockput (Some i);;
        end_op;;
        mret (-1)
      else
      iunlock (Some i);;
      p ← proc_at me;
      iput (p_cwd p);;
      end_op;;
      modify_proc me (set_p_cwd (Some i));;
      mret 0
  end.

(** The loop of [sys_exec]: the pages of the argument strings fetched, and
    whether the terminating null pointer was found. *)
Fixpoint fetch_argv (n : nat) (uargv : Z) (argv : list Z) : K (bool * list Z) :=
  match n with
  | O => mret (false, argv)
  | S n =>
      o ← fetchaddr (u64 (uargv + 8 * length argv));
      match o with
      | None => mret (false, argv)
      | Some uarg =>
          if uarg =? 0 then mret (true, argv) else
          page ← kalloc;
          if page =? 0 then mret (false, argv) else
          x ← fetchstr uarg (Z.to_nat PGSIZE);
          modify (fun s => set_k_mem (wr_bytes (k_mem s) page (fst x)) s);;
          if snd x <? 0 then mret (false, argv ++ [page]) else
          fetch_argv n uargv (argv ++ [page])
      end
  end.

Definition sys_exec : K Z :=
  uargv ← argaddr 1;
  path ← argstr 0 MAXPATH;
  if snd path <? 0 then mret (-1) else
  x ← fetch_argv MAXARG uargv [];
  ret ← (if (fst x : bool) then exec (fst path) (snd x) else mret (-1));
  foreach (snd x) (fun page => kfree page;; mret (@None unit));;
  mret ret.

Definition sys_pipe : K Z :=
  me ← this_proc;
  fdarray ← argaddr 0;
  o ← pipealloc;
  match o with
  | None => mret (-1)
  | Some (rf, wf) =>
      fd0 ← fdalloc rf;
      fd1 ← (if fd0 <? 0 then mret (-1) else fdalloc wf);
      if fd1 <? 0 then
        when (0 <=? fd0) (set_ofile me fd0 None);;
        fileclose rf;;
        fileclose wf;;
        mret (-1)
      else
      p ← proc_at me;
      r ← copyout (p_pagetable p) fdarray (le_bytes 4 fd0);
      r ← (if r <? 0 then mret r else copyout (p_pagetable p) (u64 (fdarray + 4)) (le_bytes 4 fd1));
      if r <? 0 then
        set_ofile me fd0 None;;
        set_ofile me fd1 None;;
        fileclose rf;;
        fileclose wf;;
        mret (-1)
      else mret 0
  end.

End Sysfile.
