(* ===== verification/Syscall.v ===== *)
(** * kernel/sysproc.c and kernel/syscall.c: system calls

    The system calls on processes and the dispatch through the table of system
    calls. *)

From S2P Require Import Prelude State KString Spinlock Norm Printf Sched Sleeplock Kalloc Vm Proc Bio Log Fs Pipe Console File Fork Exec Sysfile.

Section Syscall.
Context `{KernelImage} `{DiskDriver}.

(** What the kernel stack holds where [ps] and [filestat] place the local
    variables they do not initialise completely. *)
Variable stack : list Z.

(** ** sysproc.c *)

Definition sys_exit : K Z :=
  n ← argint 0;
  e ← exit n;
  match (e : Empty_set) with end.

Definition sys_getpid : K Z :=
  me ← this_proc;
  p ← proc_at me;
  mret (p_pid p).

Definition sys_fork : K Z := fork.

Definition sys_wait : K Z :=
  p ← argaddr 0;
  wait p.

Definition sys_sbrk : K Z :=
  n ← argint 0;
  me ← this_proc;
  p ← proc_at me;
  let addr := p_sz p in
  r ← growproc n;
  if r <? 0 then mret (-1) else mret addr.

(** [while (ticks - ticks0 < n)]: the difference is unsigned, so [n] is converted
    to unsigned.  Each sleep uses up an action of the environment. *)
Fixpoint sys_sleep_loop (fuel : nat) (ticks0 n : Z) : K Z :=
  match fuel with
  | O => fault "sys_sleep: out of fuel"
  | S fuel =>
      ticks ← gets k_ticks;
      if u32 (ticks - ticks0) <? u32 n then
        me ← this_proc;
        k ← killed me;
        if negb (k =? 0) then
          release L_ticks;;
          mret (-1)
        else
          sleep Ch_ticks L_ticks;;
          sys_sleep_loop fuel ticks0 n
      else
        release L_ticks;;
        mret 0
  end.

Definition sys_sleep : K Z :=
  n ← argint 0;
  acquire L_ticks;;
  ticks0 ← gets k_ticks;
  env_fuel (fun fuel => sys_sleep_loop fuel ticks0 n).

Definition sys_kill : K Z :=
  pid ← argint 0;
  kill pid.

Definition sys_uptime : K Z :=
  acquire L_ticks;;
  xticks ← gets k_ticks;
  release L_ticks;;
  mret xticks.

Definition sys_ps : K Z :=
  start ← argint 0;
  count ← argint 1;
  ps stack (u8 start) (u8 count).

Definition sys_schedls : K Z :=
  schedls;;
  mret 0.

Definition sys_schedset : K Z :=
  id ← argint 0;
  schedset id;;
  mret 0.

(** ** syscall.c *)

(** The table [syscalls[]], by the numbers of syscall.h. *)
Definition syscalls : list (option (K Z)) :=
  [None; Some sys_fork; Some sys_exit; Some sys_wait; Some sys_pipe; Some sys_read; Some sys_kill; Some sys_exec;
   Some (sys_fstat stack); Some sys_chdir; Some sys_dup; Some sys_getpid; Some sys_sbrk; Some sys_sleep;
   Some sys_uptime; Some sys_open; Some sys_write; Some sys_mknod; Some sys_unlink; Some sys_link; Some sys_mkdir;
   Some sys_close; Some sys_ps; Some sys_schedls; Some sys_schedset].

Definition syscall : K unit :=
  me ← this_proc;
  a7 ← tf_get me (tf_a 7);
  let num := s32 a7 in
  match (if 0 <? num then mjoin (syscalls !! Z.to_nat num) else None) with
  | Some handler =>
      r ← handler;
      tf_set me (tf_a 0) (u64 r)
  | None =>
      p ← proc_at me;
      printf ("%d %s: unknown sys call %d" ++ NL) [PInt (p_pid p); PStr (Some (cstring (p_name p))); PInt num];;
      tf_set me (tf_a 0) (u64 (-1))
  end.

End Syscall.
