(* ===== verification/Trap.v ===== *)
(** * kernel/trap.c, kernel/plic.c, kernel/trampoline.S: traps

    The C trap handlers, the interrupt controller, and the assembly routines
    that save and restore the user registers. *)

From S2P Require Import Prelude State KString Spinlock Norm Printf Sched Sleeplock Kalloc Vm Proc Bio Log Fs Pipe Console File Fork Exec Sysfile Syscall.

(** ** plic.c *)

Definition UART0_IRQ : Z := 10.
Definition VIRTIO0_IRQ : Z := 1.
Definition PLIC_SENABLE (hart : Z) : Z := PLIC + 8320 + hart * 256.
Definition PLIC_SPRIORITY (hart : Z) : Z := PLIC + 2101248 + hart * 8192.

Definition modify_plic (f : plicst -> plicst) : K unit := modify (fun s => set_k_plic (f (k_plic s)) s).
Definition plic_write (a v : Z) : K unit := modify_plic (fun p => set_pl_cfg (pl_cfg p ++ [(a, v)]) p).

Definition plicinit : K unit :=
  plic_write (PLIC + UART0_IRQ * 4) 1;;
  plic_write (PLIC + VIRTIO0_IRQ * 4) 1.

Definition plicinithart : K unit :=
  hart ← gets (fun s => Z.of_nat (k_hart s));
  plic_write (PLIC_SENABLE hart) (Z.lor (Z.shiftl 1 UART0_IRQ) (Z.shiftl 1 VIRTIO0_IRQ));;
  plic_write (PLIC_SPRIORITY hart) 0.

(** Reading the claim register takes the pending interrupt; 0 if there is none. *)
Definition plic_claim : K Z :=
  p ← gets k_plic;
  match pl_pending p with
  | [] => mret 0
  | irq :: l =>
      modify_plic (fun p => set_pl_pending l (set_pl_service (irq :: pl_service p) p));;
      mret irq
  end.

(** Writing it ends the service of the interrupt. *)
Definition plic_complete (irq : Z) : K unit :=
  modify_plic (fun p => set_pl_service (filter (fun x => x <> irq) (pl_service p)) p).

(** ** trap.c *)

Definition modify_csr (f : csrs -> csrs) : K unit := modify (fun s => set_k_csr (f (k_csr s)) s).

Section Trap.
Context `{KernelImage} `{DiskDriver}.
Variable stack : list Z.

Definition trapinit : K unit := initlock L_ticks.

Definition trapinithart : K unit := modify_csr (set_r_stvec kernelvec_addr).

Definition clockintr : K unit :=
  acquire L_ticks;;
  modify (fun s => set_k_ticks (u32 (k_ticks s + 1)) s);;
  wakeup Ch_ticks;;
  release L_ticks.

Definition devintr : K Z :=
  c ← gets k_csr;
  let scause := r_scause c in
  if negb (Z.land scause 9223372036854775808 =? 0) && (Z.land scause 255 =? 9) then
    irq ← plic_claim;
    (if irq =? UART0_IRQ then uartintr
     else if irq =? VIRTIO0_IRQ then virtio_disk_intr
     else when (negb (irq =? 0)) (printf ("unexpected interrupt irq=%d" ++ NL) [PInt irq]));;
    when (negb (irq =? 0)) (plic_complete irq);;
    mret 1
  else if scause =? 9223372036854775809 then
    h ← gets k_hart;
    when (h =? 0)%nat clockintr;;
    modify_csr (fun c => set_r_sip (andnot64 (r_sip c) 2) c);;
    mret 2
  else mret 0.

(** Returns the value for [satp] with which it jumps to [userret]. *)
Definition usertrapret : K Z :=
  me ← this_proc;
  intr_off;;
  modify_csr (set_r_stvec (TRAMPOLINE + uservec_off));;
  satp ← gets k_satp;
  tf_set me tf_kernel_satp satp;;
  p ← proc_at me;
  tf_set me tf_kernel_sp (u64 (p_kstack p + PGSIZE));;
  tf_set me tf_kernel_trap usertrap_addr;;
  h ← gets (fun s => Z.of_nat (k_hart s));
  tf_set me tf_kernel_hartid h;;
  modify_csr (set_r_spp false);;
  modify_csr (set_r_spie true);;
  epc ← tf_get me tf_epc;
  modify_csr (set_r_sepc epc);;
  p ← proc_at me;
  mret (MAKE_SATP (p_pagetable p)).

(** [exit] in a place where its absence of a result is to be used. *)
Definition exit_now {A} (status : Z) : K A := e ← exit status; match (e : Empty_set) with end.

Definition usertrap : K Z :=
  c ← gets k_csr;
  if r_spp c then panic "usertrap: not from user mode" else
  modify_csr (set_r_stvec kernelvec_addr);;
  me ← this_proc;
  c ← gets k_csr;
  tf_set me tf_epc (r_sepc c);;
  which_dev ←
    (if r_scause c =? 8 then
       k ← killed me;
       (if negb (k =? 0) then exit_now (-1) else mret tt);;
       epc ← tf_get me tf_epc;
       tf_set me tf_epc (u64 (epc + 4));;
       intr_on;;
       syscall stack;;
       mret 0
     else
       d ← devintr;
       if negb (d =? 0) then mret d else
       p ← proc_at me;
       printf ("usertrap(): unexpected scause %p pid=%d" ++ NL) [PPtr (r_scause c); PInt (p_pid p)];;
       printf ("            sepc=%p stval=%p" ++ NL) [PPtr (r_sepc c); PPtr (r_stval c)];;
       setkilled me;;
       mret 0);
  k ← killed me;
  (if negb (k =? 0) then exit_now (-1) else mret tt);;
  when (which_dev =? 2) (yield YIELD_TIMER);;
  usertrapret.

Definition kerneltrap : K unit :=
  c ← gets k_csr;
  if negb (r_spp c) then panic "kerneltrap: not from supervisor mode" else
  ie ← intr_get;
  if (ie : bool) then panic "kerneltrap: interrupts enabled" else
  which_dev ← devintr;
  if which_dev =? 0 then
    printf ("scause %p" ++ NL) [PPtr (r_scause c)];;
    printf ("sepc=%p stval=%p" ++ NL) [PPtr (r_sepc c); PPtr (r_stval c)];;
    panic "kerneltrap"
  else
  (if which_dev =? 2 then
     me ← myproc;
     match me with
     | None => mret tt
     | Some i =>
         i ← this_proc;
         p ← proc_at i;
         when (bool_decide (p_state p = RUNNING)) (yield YIELD_OTHER)
     end
   else mret tt);;
  modify_csr (set_r_sepc (r_sepc c));;
  modify_csr (fun r => set_r_spp (r_spp c) (set_r_spie (r_spie c) r));;
  modify (set_k_sie false).

(** proc.c: the first thing a new process does in the kernel. *)
Definition forkret : K Z :=
  me ← this_proc;
  release (L_proc me);;
  first ← gets k_first;
  when (negb (first =? 0))
    (modify (set_k_first 0);;
     fsinit ROOTDEV);;
  usertrapret.

End Trap.

(** ** trampoline.S

    The integer registers x0 to x31 of the hart as a list, by number. *)

Definition ra : nat := 1.
Definition sp : nat := 2.
Definition gp : nat := 3.
Definition tp : nat := 4.
Definition t0 : nat := 5.
Definition t1 : nat := 6.
Definition t2 : nat := 7.
Definition s0 : nat := 8.
Definition s1 : nat := 9.
Definition a0 : nat := 10.
Definition a1 : nat := 11.
Definition a2 : nat := 12.
Definition a3 : nat := 13.
Definition a4 : nat := 14.
Definition a5 : nat := 15.
Definition a6 : nat := 16.
Definition a7 : nat := 17.
Definition s2 : nat := 18.
Definition s3 : nat := 19.
Definition s4 : nat := 20.
Definition s5 : nat := 21.
Definition s6 : nat := 22.
Definition s7 : nat := 23.
Definition s8 : nat := 24.
Definition s9 : nat := 25.
Definition s10 : nat := 26.
Definition s11 : nat := 27.
Definition t3 : nat := 28.
Definition t4 : nat := 29.
Definition t5 : nat := 30.
Definition t6 : nat := 31.

(** The registers the [sd] and the [ld] sequences name, with their offsets. *)
Definition tf_layout : list (nat * Z) :=
  [(ra, 40); (sp, 48); (gp, 56); (tp, 64); (t0, 72); (t1, 80); (t2, 88); (s0, 96); (s1, 104);
   (a1, 120); (a2, 128); (a3, 136); (a4, 144); (a5, 152); (a6, 160); (a7, 168);
   (s2, 176); (s3, 184); (s4, 192); (s5, 200); (s6, 208); (s7, 216); (s8, 224); (s9, 232); (s10, 240); (s11, 248);
   (t3, 256); (t4, 264); (t5, 272); (t6, 280)].

(** The machine as the trampoline sees it: registers, memory (the trapframe page
    at physical address [tf], mapped at [TRAPFRAME]), [sscratch], [satp], [pc]. *)
Record tstate := mkts { ts_regs : list Z; ts_mem : gmap Z Z; ts_sscratch : Z; ts_satp : Z; ts_pc : Z }.

Definition reg (r : nat) (s : tstate) : Z := nth r (ts_regs s) 0.
Definition set_reg (r : nat) (v : Z) (s : tstate) : tstate :=
  mkts (<[r := v]> (ts_regs s)) (ts_mem s) (ts_sscratch s) (ts_satp s) (ts_pc s).

(** [sd r, off(a0)] and [ld r, off(a0)] with [a0 = TRAPFRAME]. *)
Definition sd (tf : Z) (x : nat * Z) (s : tstate) : tstate :=
  mkts (ts_regs s) (st64 (ts_mem s) (tf + snd x) (reg (fst x) s)) (ts_sscratch s) (ts_satp s) (ts_pc s).
Definition ld (tf : Z) (x : nat * Z) (s : tstate) : tstate := set_reg (fst x) (ld64 (ts_mem s) (tf + snd x)) s.

Definition run_all (f : nat * Z -> tstate -> tstate) (l : list (nat * Z)) (s : tstate) : tstate :=
  foldl (fun s x => f x s) s l.

(** Up to the last store to the trapframe. *)
Definition uservec_save (tf : Z) (s : tstate) : tstate :=
  let s := mkts (ts_regs s) (ts_mem s) (reg a0 s) (ts_satp s) (ts_pc s) in
  let s := set_reg a0 TRAPFRAME s in
  let s := run_all (sd tf) tf_layout s in
  let s := set_reg t0 (ts_sscratch s) s in
  sd tf (t0, 112) s.

(** The loads of the kernel's stack pointer, hart id, [usertrap] and page table, and the jump. *)
Definition uservec_enter (tf : Z) (s : tstate) : tstate :=
  let s := ld tf (sp, 8) s in
  let s := ld tf (tp, 32) s in
  let s := ld tf (t0, 16) s in
  let s := ld tf (t1, 0) s in
  let s := mkts (ts_regs s) (ts_mem s) (ts_sscratch s) (reg t1 s) (ts_pc s) in
  mkts (ts_regs s) (ts_mem s) (ts_sscratch s) (ts_satp s) (reg t0 s).

Definition uservec (tf : Z) (s : tstate) : tstate := uservec_enter tf (uservec_save tf s).

(** [sret] continues at the program counter [sepc]. *)
Definition userret (tf sepc : Z) (s : tstate) : tstate :=
  let s := mkts (ts_regs s) (ts_mem s) (ts_sscratch s) (reg a0 s) (ts_pc s) in
  let s := set_reg a0 TRAPFRAME s in
  let s := run_all (ld tf) tf_layout s in
  let s := ld tf (a0, 112) s in
  mkts (ts_regs s) (ts_mem s) (ts_sscratch s) (ts_satp s) sepc.

(** ** Saving and restoring the user registers *)

(** Slots that do not overlap. *)
Definition apart (x y : nat * Z) : Prop := snd x + 8 <= snd y \/ snd y + 8 <= snd x.

Lemma run_sd_regs tf l s : ts_regs (run_all (sd tf) l s) = ts_regs s.
Proof. unfold run_all. revert s. induction l as [|x l IH]; intros s; cbn; [done|]. by rewrite IH. Qed.

Lemma run_sd_frame tf l a s : (forall x, x ∈ l -> tf + snd x + 8 <= a \/ a + 8 <= tf + snd x) ->
  ld64 (ts_mem (run_all (sd tf) l s)) a = ld64 (ts_mem s) a.
Proof.
  unfold run_all. revert s. induction l as [|x l IH]; intros s Hl; cbn; [done|].
  rewrite IH by (intros; apply Hl; by right). cbn. apply ld64_st64_ne.
  destruct (Hl x) as [?|?]; [by left|lia..].
Qed.

(** Each slot holds the register that was stored in it. *)
Lemma run_sd_slot tf l x s : ForallOrdPairs apart l -> x ∈ l -> 0 <= reg (fst x) s < 18446744073709551616 ->
  ld64 (ts_mem (run_all (sd tf) l s)) (tf + snd x) = reg (fst x) s.
Proof.
  intros Hp. revert s. induction Hp as [|y l Hy Hp IH]; intros s Hx Hr; [by apply elem_of_nil in Hx|].
  apply elem_of_cons in Hx as [->|Hx]; cbn.
  - change (foldl (fun s x => sd tf x s) ?s l) with (run_all (sd tf) l s). rewrite run_sd_frame.
    + cbn. by apply ld64_st64.
    + intros z Hz. rewrite list.Forall_forall in Hy. destruct (Hy z Hz) as [?|?]; lia.
  - apply (IH (sd tf y s)); [done|exact Hr].
Qed.

Lemma run_ld_mem tf l s : ts_mem (run_all (ld tf) l s) = ts_mem s.
Proof. unfold run_all. revert s. induction l as [|x l IH]; intros s; cbn; [done|]. by rewrite IH. Qed.

Lemma run_ld_length tf l s : length (ts_regs (run_all (ld tf) l s)) = length (ts_regs s).
Proof.
  unfold run_all. revert s. induction l as [|x l IH]; intros s; cbn; [done|]. rewrite IH. cbn. by rewrite length_insert.
Qed.

Lemma reg_set_eq r v s : (r < length (ts_regs s))%nat -> reg r (set_reg r v s) = v.
Proof. intros H. unfold reg; cbn. rewrite nth_lookup, list_lookup_insert_eq by done. done. Qed.
Lemma reg_set_ne r r' v s : r <> r' -> reg r (set_reg r' v s) = reg r s.
Proof. intros H. unfold reg; cbn. by rewrite !nth_lookup, list_lookup_insert_ne by done. Qed.

Lemma run_ld_other tf l r s : r ∉ l.*1 -> reg r (run_all (ld tf) l s) = reg r s.
Proof.
  unfold run_all. revert s. induction l as [|x l IH]; intros s Hr; cbn; [done|].
  rewrite fmap_cons, not_elem_of_cons in Hr. destruct Hr as [Hne Hr]. rewrite IH by done. by apply reg_set_ne.
Qed.

Lemma run_ld_slot tf l x s : NoDup (l.*1) -> x ∈ l -> (fst x < length (ts_regs s))%nat ->
  reg (fst x) (run_all (ld tf) l s) = ld64 (ts_mem s) (tf + snd x).
Proof.
  unfold run_all. revert s. induction l as [|y l IH]; intros s Hnd Hx Hlen; [by apply elem_of_nil in Hx|].
  rewrite fmap_cons in Hnd. apply list.NoDup_cons in Hnd as [Hy Hnd]. apply elem_of_cons in Hx as [->|Hx]; cbn.
  - change (foldl (fun s x => ld tf x s) ?s l) with (run_all (ld tf) l s). rewrite run_ld_other by done. by apply reg_set_eq.
  - rewrite IH; [done|done|done|]. cbn. by rewrite length_insert.
Qed.

Lemma tf_layout_apart : ForallOrdPairs apart tf_layout.
Proof. unfold tf_layout. repeat (constructor; [repeat (constructor; [unfold apart; cbn; lia|]); constructor|]). constructor. Qed.

Lemma tf_layout_nodup : NoDup (tf_layout.*1).
Proof. apply (bool_decide_unpack _). by vm_compute. Qed.

(** Every register but x0 and a0 is in the layout. *)
Lemma tf_layout_all r : (0 < r < 32)%nat -> r <> a0 -> exists off, (r, off) ∈ tf_layout /\ 40 <= off /\ off + 8 <= 288 /\
  (off + 8 <= 112 \/ 120 <= off).
Proof.
  intros Hr Hne. assert (Hb : Forall (fun r => r = a0 \/ r = 0%nat \/ exists off, (r, off) ∈ tf_layout /\ 40 <= off /\ off + 8 <= 288 /\
    (off + 8 <= 112 \/ 120 <= off)) (seq 0 32)).
  { cbn [seq]. repeat (apply list.Forall_cons; split; [|]); try apply list.Forall_nil_2;
      first [by left | by right; left | right; right; eexists; split; [by repeat first [apply list_elem_of_here | apply list_elem_of_further]|lia]]. }
  rewrite list.Forall_forall in Hb. destruct (Hb r) as [?|[?|?]]; [by apply elem_of_seq; lia|lia|lia|done].
Qed.

Lemma run_sd_sscratch tf l s : ts_sscratch (run_all (sd tf) l s) = ts_sscratch s.
Proof. unfold run_all. revert s. induction l as [|x l IH]; intros s; cbn; [done|]. by rewrite IH. Qed.

#[local] Opaque run_all.

Lemma ld_mem tf x s : ts_mem (ld tf x s) = ts_mem s.
Proof. done. Qed.
Lemma ld_sscratch tf x s : ts_sscratch (ld tf x s) = ts_sscratch s.
Proof. done. Qed.
Lemma reg_ld r tf x s : reg r (ld tf x s) = reg r (set_reg (fst x) (ld64 (ts_mem s) (tf + snd x)) s).
Proof. done. Qed.
Lemma reg_pc r s pc : reg r (mkts (ts_regs s) (ts_mem s) (ts_sscratch s) (ts_satp s) pc) = reg r s.
Proof. done. Qed.
Lemma enter_mem tf s : ts_mem (uservec_enter tf s) = ts_mem s.
Proof. done. Qed.
Lemma set_reg_mem r v s : ts_mem (set_reg r v s) = ts_mem s.
Proof. done. Qed.
Lemma sd_mem tf x s : ts_mem (sd tf x s) = st64 (ts_mem s) (tf + snd x) (reg (fst x) s).
Proof. done. Qed.

Lemma save_last tf s1 : (5 < length (ts_regs s1))%nat ->
  ts_mem (sd tf (t0, 112) (set_reg t0 (ts_sscratch s1) s1)) = st64 (ts_mem s1) (tf + 112) (ts_sscratch s1).
Proof. intros H. rewrite sd_mem, set_reg_mem. cbn [fst snd]. f_equal. by rewrite reg_set_eq. Qed.
Lemma save_eq tf s : uservec_save tf s = let s1 := run_all (sd tf) tf_layout (set_reg a0 TRAPFRAME
           (mkts (ts_regs s) (ts_mem s) (reg a0 s) (ts_satp s) (ts_pc s))) in sd tf (t0, 112) (set_reg t0 (ts_sscratch s1) s1).
Proof. reflexivity. Qed.
(** Where the kernel continues. *)
Lemma enter_regs tf s : length (ts_regs s) = 32%nat ->
  reg sp (uservec_enter tf s) = ld64 (ts_mem s) (tf + 8) /\ reg tp (uservec_enter tf s) = ld64 (ts_mem s) (tf + 32) /\
  ts_satp (uservec_enter tf s) = ld64 (ts_mem s) (tf + 0) /\ ts_pc (uservec_enter tf s) = ld64 (ts_mem s) (tf + 16).
Proof.
  intros Hlen. unfold uservec_enter, ld, set_reg, reg, sp, tp, t0, t1. cbn [fst snd ts_regs ts_mem ts_satp ts_pc].
  rewrite !nth_lookup. split_and!;
    repeat first [rewrite list_lookup_insert_eq by (rewrite ?length_insert; lia) | rewrite list_lookup_insert_ne by lia]; done.
Qed.

(** The memory [uservec] leaves: the stored registers, then a0. *)
Lemma uservec_mem tf s : length (ts_regs s) = 32%nat ->
  ts_mem (uservec tf s) =
    st64 (ts_mem (run_all (sd tf) tf_layout (set_reg a0 TRAPFRAME
           (mkts (ts_regs s) (ts_mem s) (reg a0 s) (ts_satp s) (ts_pc s))))) (tf + 112) (reg a0 s).
Proof.
  intros Hlen. unfold uservec. rewrite enter_mem, save_eq. cbv zeta. rewrite save_last.
  - by rewrite run_sd_sscratch.
  - rewrite run_sd_regs; cbn; rewrite length_insert, Hlen; lia.
Qed.

(** What [uservec] leaves in the trapframe. *)
Lemma uservec_slots tf s r : length (ts_regs s) = 32%nat -> (forall r, 0 <= reg r s < 18446744073709551616) ->
  (0 < r < 32)%nat -> r <> a0 ->
  exists off, (r, off) ∈ tf_layout /\ 40 <= off /\ off + 8 <= 288 /\ ld64 (ts_mem (uservec tf s)) (tf + off) = reg r s.
Proof.
  intros Hlen Hreg Hr Hne. destruct (tf_layout_all r Hr Hne) as (off & Hin & Hlo & Hhi & Ho). exists off. split_and!; [done..|].
  rewrite uservec_mem by done. rewrite ld64_st64_ne by lia. set (s1' := set_reg a0 TRAPFRAME _).
  assert (reg r s1' = reg r s) as Hreq by (unfold s1'; by rewrite reg_set_ne).
  rewrite <- Hreq. apply (run_sd_slot tf tf_layout (r, off)); [apply tf_layout_apart|done|]. cbn [fst]. rewrite Hreq. apply Hreg.
Qed.

Lemma uservec_slot_a0 tf s : length (ts_regs s) = 32%nat -> (forall r, 0 <= reg r s < 18446744073709551616) ->
  ld64 (ts_mem (uservec tf s)) (tf + 112) = reg a0 s.
Proof. intros Hlen Hreg. rewrite uservec_mem by done. by apply ld64_st64. Qed.

(** The kernel's words of the trapframe are not written. *)
Lemma uservec_kernel_words tf s a : length (ts_regs s) = 32%nat -> a + 8 <= tf + 40 ->
  ld64 (ts_mem (uservec tf s)) a = ld64 (ts_mem s) a.
Proof.
  intros Hlen Ha. rewrite uservec_mem by done. rewrite ld64_st64_ne by lia. rewrite run_sd_frame; [done|].
  assert (Hall : Forall (fun x => 40 <= snd x) tf_layout) by (unfold tf_layout; repeat (constructor; [cbn; lia|]); constructor).
  rewrite list.Forall_forall in Hall. intros x Hx. specialize (Hall x Hx). lia.
Qed.

(** C31: a trap from user space and the return to it do not disturb the program:
    whatever the kernel does to the registers, and to memory outside the saved
    registers of the trapframe, [userret] restores all 31 registers that
    [uservec] found, with the page table it is given and at the program counter
    [sepc]; and [uservec] enters the kernel on the stack, hart number, page
    table and entry point the trapframe prescribes. *)
Theorem trampoline_roundtrip tf sepc s k :
  length (ts_regs s) = 32%nat -> (forall r, 0 <= reg r s < 18446744073709551616) ->
  length (ts_regs k) = 32%nat -> (forall a, tf + 40 <= a < tf + 288 -> (ts_mem k).[a] = (ts_mem (uservec tf s)).[a]) ->
  (forall r, (0 < r < 32)%nat -> reg r (userret tf sepc k) = reg r s) /\
  ts_pc (userret tf sepc k) = sepc /\ ts_satp (userret tf sepc k) = reg a0 k /\
  reg sp (uservec tf s) = ld64 (ts_mem s) (tf + 8) /\ reg tp (uservec tf s) = ld64 (ts_mem s) (tf + 32) /\
  ts_satp (uservec tf s) = ld64 (ts_mem s) (tf + 0) /\ ts_pc (uservec tf s) = ld64 (ts_mem s) (tf + 16).
Proof.
  intros Hlen Hreg Hk Hagree.
  assert (Hld : forall off, 40 <= off -> off + 8 <= 288 -> ld64 (ts_mem k) (tf + off) = ld64 (ts_mem (uservec tf s)) (tf + off)).
  { intros off H1 H2. apply ld64_ext. intros b Hb. apply Hagree. lia. }
  set (k1 := set_reg a0 TRAPFRAME (mkts (ts_regs k) (ts_mem k) (ts_sscratch k) (reg a0 k) (ts_pc k))).
  assert (Hk1 : length (ts_regs k1) = 32%nat) by (cbn; by rewrite length_insert).
  assert (Hsave : length (ts_regs (uservec_save tf s)) = 32%nat).
  { unfold uservec_save. cbn [sd ts_regs set_reg]. by rewrite length_insert, run_sd_regs; cbn; rewrite length_insert. }
  destruct (enter_regs tf (uservec_save tf s) Hsave) as (Esp & Etp & Esatp & Epc).
  rewrite <- (enter_mem tf) in Esp, Etp, Esatp, Epc. fold (uservec tf s) in Esp, Etp, Esatp, Epc.
  rewrite uservec_kernel_words in Esp, Etp, Esatp, Epc by lia.
  split; [|split; [done|split; [reflexivity|done]]].
  intros r Hr. unfold userret. cbv zeta. fold k1. rewrite reg_pc, reg_ld, run_ld_mem. cbn [fst snd]. destruct (decide (r = a0)) as [->|Hne].
  - rewrite reg_set_eq by (rewrite run_ld_length, Hk1; unfold a0; lia). change (ts_mem k1) with (ts_mem k).
    rewrite Hld by lia. by apply uservec_slot_a0.
  - rewrite reg_set_ne by done. destruct (uservec_slots tf s r Hlen Hreg Hr Hne) as (off & Hin & Ho1 & Ho2 & <-).
    rewrite (run_ld_slot tf tf_layout (r, off)); [|apply tf_layout_nodup|done|cbn [fst]; lia].
    cbn [snd]. change (ts_mem k1) with (ts_mem k). by apply Hld.
Qed.

Definition demo_tstate : tstate := mkts (Z.of_nat <$> seq 0 32) ∅ 0 5 4096.

Lemma trampoline_roundtrip_witness :
  let k := uservec 8192 demo_tstate in
  (forall r, (0 < r < 32)%nat -> reg r (userret 8192 4100 k) = reg r demo_tstate) /\ ts_pc (userret 8192 4100 k) = 4100.
Proof.
  intros k. assert (Hreg : forall r, 0 <= reg r demo_tstate < 18446744073709551616).
  { intros r. unfold reg. destruct (decide (r < 32)%nat) as [Hr|Hr].
    - rewrite nth_lookup. cbn [demo_tstate ts_regs]. rewrite list_lookup_fmap, lookup_seq_lt by done. cbn. lia.
    - rewrite nth_overflow by (cbn; lia). lia. }
  destruct (trampoline_roundtrip 8192 4100 demo_tstate k) as (H1 & H2 & _);
    [reflexivity|exact Hreg|reflexivity|reflexivity|exact (conj H1 H2)].
Defined.
