(* ===== verification/Virtio.v ===== *)
(** * kernel/virtio_disk.c: the disk driver, and kernel/main.c

    The descriptor table, the available and the used ring as the driver uses
    them.  The device is the part of the environment that consumes the available
    ring and fills the used ring. *)

From S2P Require Import Prelude State KString Spinlock Norm Printf Sched Sleeplock Kalloc Vm Bio.

Definition NUM : nat := 8.
Definition VRING_DESC_F_NEXT : Z := 1.
Definition VRING_DESC_F_WRITE : Z := 2.
Definition VIRTIO_BLK_T_IN : Z := 0.
Definition VIRTIO_BLK_T_OUT : Z := 1.

Definition modify_vdisk (f : vdisk -> vdisk) : K unit := modify (fun s => set_k_vdisk (f (k_vdisk s)) s).

(** Reading and writing [*R(r)]. *)
Definition mmio_read (r : Z) : K Z := gets (fun s => default 0 (v_regs (k_vdisk s) !! r)).
Definition mmio_write (r v : Z) : K unit :=
  modify_vdisk (fun d => set_v_writes (v_writes d ++ [(r, u32 v)]) d).

Definition clear_bits (x : Z) (bits : list Z) : Z := foldl (fun x b => Z.ldiff x (Z.shiftl 1 b)) x bits.

Definition disk_init : K unit :=
  initlock L_vdisk;;
  magic ← mmio_read 0;
  version ← mmio_read 4;
  device ← mmio_read 8;
  vendor ← mmio_read 12;
  if negb (magic =? 1953655158) || negb (version =? 2) || negb (device =? 2) || negb (vendor =? 1431127377)
  then panic "could not find virtio disk" else
  mmio_write 112 0;;
  mmio_write 112 1;;
  mmio_write 112 3;;
  features ← mmio_read 16;
  mmio_write 32 (clear_bits features [5; 7; 11; 12; 27; 29; 28]);;
  mmio_write 112 11;;
  status ← mmio_read 112;
  if Z.land status 8 =? 0 then panic "virtio disk FEATURES_OK unset" else
  mmio_write 48 0;;
  ready ← mmio_read 68;
  if negb (ready =? 0) then panic "virtio disk should not be ready" else
  max ← mmio_read 52;
  if max =? 0 then panic "virtio disk has no queue 0" else
  if max <? NUM then panic "virtio disk max queue too short" else
  desc ← kalloc;
  avail ← kalloc;
  used ← kalloc;
  if (desc =? 0) || (avail =? 0) || (used =? 0) then panic "virtio disk kalloc" else
  clear_page desc;;
  modify_vdisk (set_v_desc (replicate NUM (mkdesc VA_null 0 0 0)));;
  clear_page avail;;
  modify_vdisk (fun d => set_v_avail_idx 0 (set_v_avail_ring (replicate NUM 0) d));;
  clear_page used;;
  modify_vdisk (fun d => set_v_usedp_idx 0 (set_v_usedp_ring (replicate NUM 0) d));;
  mmio_write 56 NUM;;
  mmio_write 128 desc;;
  mmio_write 132 (Z.shiftr desc 32);;
  mmio_write 144 avail;;
  mmio_write 148 (Z.shiftr avail 32);;
  mmio_write 160 used;;
  mmio_write 164 (Z.shiftr used 32);;
  mmio_write 68 1;;
  modify_vdisk (set_v_free (replicate NUM 1));;
  mmio_write 112 (Z.lor status 4).

(** ** Descriptors *)

Definition disk_free (i : nat) : K Z := d ← gets k_vdisk; nth_or_fault (v_free d) i.
Definition set_disk_free (i : nat) (x : Z) : K unit :=
  modify_vdisk (fun d => set_v_free (<[i := x]> (v_free d)) d).
Definition desc_at (i : nat) : K virtq_desc := d ← gets k_vdisk; nth_or_fault (v_desc d) i.
Definition modify_desc (i : nat) (f : virtq_desc -> virtq_desc) : K unit :=
  modify_vdisk (fun d => set_v_desc (alter f i (v_desc d)) d).

Definition alloc_desc : K (option nat) :=
  foreach (seq 0 NUM) (fun i =>
    f ← disk_free i;
    if f =? 0 then mret None else
    set_disk_free i 0;;
    mret (Some i)).

Definition free_desc (i : nat) : K unit :=
  if (NUM <=? i)%nat then panic "free_desc 1" else
  f ← disk_free i;
  if negb (f =? 0) then panic "free_desc 2" else
  modify_desc i (set_d_addr VA_null);;
  modify_desc i (set_d_len 0);;
  modify_desc i (set_d_flags 0);;
  modify_desc i (set_d_next 0);;
  set_disk_free i 1;;
  wakeup Ch_vdisk.

(** The chain has at most [NUM] descriptors: freeing one twice panics. *)
Fixpoint free_chain (fuel : nat) (i : nat) : K unit :=
  match fuel with
  | O => fault "free_chain: out of fuel"
  | S fuel =>
      d ← desc_at i;
      free_desc i;;
      if negb (Z.land (d_flags d) VRING_DESC_F_NEXT =? 0) then free_chain fuel (Z.to_nat (d_next d)) else mret tt
  end.

(** The descriptors still to be allocated are [n]; [got] are those allocated. *)
Fixpoint alloc_descs (n : nat) (got : list nat) : K (option (list nat)) :=
  match n with
  | O => mret (Some got)
  | S n =>
      o ← alloc_desc;
      match o with
      | Some i => alloc_descs n (got ++ [i])
      | None =>
          foreach got (fun i => free_desc i;; mret (@None unit));;
          mret None
      end
  end.

Definition alloc3_desc : K (option (list nat)) := alloc_descs 3 [].

(** ** Transfers *)

(** The [while (1)] around [alloc3_desc]; each sleep uses up an action of the
    environment. *)
Fixpoint wait_desc (fuel : nat) : K (list nat) :=
  match fuel with
  | O => fault "virtio_disk_rw: out of fuel"
  | S fuel =>
      o ← alloc3_desc;
      match o with
      | Some idx => mret idx
      | None =>
          sleep Ch_vdisk L_vdisk;;
          wait_desc fuel
      end
  end.

(** [while (b->disk == 1) sleep(b, &disk.vdisk_lock);] *)
Fixpoint wait_done (fuel : nat) (b : nat) : K unit :=
  match fuel with
  | O => fault "virtio_disk_rw: out of fuel"
  | S fuel =>
      x ← buf_at b;
      if b_disk x =? 1 then
        sleep (Ch_buf b) L_vdisk;;
        wait_done fuel b
      else mret tt
  end.

Definition set_info_b (i : nat) (b : option nat) : K unit :=
  modify_vdisk (fun d => set_v_info_b (<[i := b]> (v_info_b d)) d).

Definition disk_rw (b : nat) (write : bool) : K unit :=
  x ← buf_at b;
  let sector := u32 (b_blockno x * 2) in
  acquire L_vdisk;;
  idx ← env_fuel wait_desc;
  let i0 := nth 0 idx 0%nat in
  let i1 := nth 1 idx 0%nat in
  let i2 := nth 2 idx 0%nat in
  modify_vdisk (fun d => set_v_ops (<[i0 := mkreq (if write then VIRTIO_BLK_T_OUT else VIRTIO_BLK_T_IN) 0 sector]> (v_ops d)) d);;
  modify_desc i0 (fun _ => mkdesc (VA_ops i0) 16 VRING_DESC_F_NEXT i1);;
  modify_desc i1 (fun _ =>
    mkdesc (VA_data b) BSIZE (Z.lor (if write then 0 else VRING_DESC_F_WRITE) VRING_DESC_F_NEXT) i2);;
  modify_vdisk (fun d => set_v_info_status (<[i0 := 255]> (v_info_status d)) d);;
  modify_desc i2 (fun _ => mkdesc (VA_status i0) 1 VRING_DESC_F_WRITE 0);;
  modify_buf b (set_b_disk 1);;
  set_info_b i0 (Some b);;
  modify_vdisk (fun d => set_v_avail_ring (<[Z.to_nat (v_avail_idx d mod NUM) := Z.of_nat i0]> (v_avail_ring d)) d);;
  modify_vdisk (fun d => set_v_avail_idx (u16 (v_avail_idx d + 1)) d);;
  mmio_write 80 0;;
  env_fuel (fun fuel => wait_done fuel b);;
  set_info_b i0 None;;
  free_chain (S NUM) i0;;
  release L_vdisk.

(** The loop over the new entries of the used ring: at most [NUM] requests are
    in flight. *)
Fixpoint disk_intr_loop (fuel : nat) : K unit :=
  match fuel with
  | O => fault "virtio_disk_intr: out of fuel"
  | S fuel =>
      d ← gets k_vdisk;
      if v_used_idx d =? v_usedp_idx d then mret tt else
      id ← nth_or_fault (v_usedp_ring d) (Z.to_nat (v_used_idx d mod NUM));
      status ← nth_or_fault (v_info_status d) (Z.to_nat id);
      if negb (status =? 0) then panic "virtio_disk_intr status" else
      o ← nth_or_fault (v_info_b d) (Z.to_nat id);
      match o with
      | None => fault "virtio_disk_intr: no buffer"
      | Some b =>
          modify_buf b (set_b_disk 0);;
          wakeup (Ch_buf b);;
          modify_vdisk (fun d => set_v_used_idx (u16 (v_used_idx d + 1)) d);;
          disk_intr_loop fuel
      end
  end.

Definition disk_intr : K unit :=
  acquire L_vdisk;;
  status ← mmio_read 96;
  mmio_write 100 (Z.land status 3);;
  disk_intr_loop (S NUM);;
  release L_vdisk.

Definition virtio_driver : DiskDriver :=
  {| virtio_disk_init := disk_init; virtio_disk_rw := disk_rw; virtio_disk_intr := disk_intr |}.
