(* ===== verification/VirtioSpec.v ===== *)
(** * The disk driver transfers blocks

    The driver of kernel/virtio_disk.c together with a device that does what the
    virtio specification says satisfies the interface [DiskDriverOk] that the
    buffer cache is verified against. *)

From S2P Require Import Prelude State Spinlock Norm Printf Sched Sleeplock Vm Bio LruList Cache Virtio.

(** ** The device and the rest of the machine *)

Definition desc0 : virtq_desc := mkdesc VA_null 0 0 0.
Definition has (x bit : Z) : bool := negb (Z.land x bit =? 0).

(** The transfer a request asks for: the data goes to the disk or to the buffer. *)
Definition transfer (r : virtio_blk_req) (b : nat) (x : buf) (s : kst) : kst :=
  let n := q_sector r / 2 in
  if q_type r =? VIRTIO_BLK_T_OUT
  then set_k_disk (<[n := b_data x]> (k_disk s)) (set_k_dwrites ((n, b_data x) :: k_dwrites s) s)
  else set_k_bufs (<[b := set_b_data (disk_block (k_disk s) n) x]> (k_bufs s)) s.

(** After a notification the device takes the next entry of the available ring,
    follows the chain of three descriptors, does the transfer, stores the status 0
    and appends the chain to the used ring. *)
Definition device (s : kst) : kst :=
  let v := k_vdisk s in
  if negb (bool_decide (list.last (v_writes v) = Some (80, 0))) || (v_usedp_idx v =? v_avail_idx v) then s else
  let id := nth (Z.to_nat (v_usedp_idx v mod NUM)) (v_avail_ring v) 0 in
  let d0 := nth (Z.to_nat id) (v_desc v) desc0 in
  let d1 := nth (Z.to_nat (d_next d0)) (v_desc v) desc0 in
  let d2 := nth (Z.to_nat (d_next d1)) (v_desc v) desc0 in
  match d_addr d0, d_addr d1, d_addr d2, v_ops v !! Z.to_nat id with
  | VA_ops k, VA_data b, VA_status t, Some r =>
      let input := q_type r =? VIRTIO_BLK_T_IN in
      if (k =? Z.to_nat id)%nat && (d_len d0 =? 16) && has (d_flags d0) VRING_DESC_F_NEXT && (d_len d1 =? BSIZE) && has (d_flags d1) VRING_DESC_F_NEXT &&
         Bool.eqb input (has (d_flags d1) VRING_DESC_F_WRITE) && has (d_flags d2) VRING_DESC_F_WRITE && (d_len d2 =? 1)
      then
        match k_bufs s !! b with
        | Some x =>
            let v := set_v_info_status (<[t := 0]> (v_info_status v)) v in
            let v := set_v_usedp_ring (<[Z.to_nat (v_usedp_idx v mod NUM) := id]> (v_usedp_ring v)) v in
            set_k_vdisk (set_v_usedp_idx (u16 (v_usedp_idx v + 1)) v) (transfer r b x s)
        | None => s
        end
      else s
  | _, _, _, _ => s
  end.

Definition set_proc (o : option nat) (s : kst) : kst := set_k_cpu (mkcpu o (c_noff (k_cpu s)) (c_intena (k_cpu s))) s.

(** The scheduler takes process [i] off the hart and releases its lock; it runs
    it again when it is runnable. *)
Definition off_cpu (i : nat) (s : kst) : kst := set_proc None (leave (unlock (L_proc i) s)).
Definition on_cpu (i : nat) (s : kst) : kst :=
  match k_procs s !! i with
  | Some p => if bool_decide (p_state p = RUNNABLE)
              then acquired (L_proc i) (set_k_procs (alter (set_p_state RUNNING) i (k_procs s)) (set_proc (Some i) s))
              else s
  | None => s
  end.

(** What happens while process [i] waits for the disk: the device completes the
    request and interrupts, and the process is run again. *)
Definition serve (i : nat) (s : kst) : kst :=
  let s1 := device (off_cpu i s) in on_cpu i (final s1 (disk_intr (World s1 []))).

(** ** Sleeping *)

Section Sleep.
Context (i : nat) (lk : lockid) (Hlk : lk <> L_proc i).

Lemma handover s : calm i s -> leave (unlock lk (acquired (L_proc i) (acquired lk s))) = acquired (L_proc i) (settle s).
Proof.
  intros ([Hn1 Hn2] & Hl & Hp & Hi & Hlen & Hnoff).
  assert (forall x y, delete lk (<[L_proc i := x]> (<[lk := y]> (∅ : gmap lockid spinlock))) = <[L_proc i := x]> ∅) as Hmap.
  { intros x y. apply map_eq. intros l. destruct (decide (l = lk)) as [->|Hne]; [by rewrite lookup_delete_eq, lookup_insert_ne, lookup_empty|].
    rewrite lookup_delete_ne by done. destruct (decide (l = L_proc i)) as [->|Hne']; [by rewrite !lookup_insert_eq|]. by rewrite !lookup_insert_ne. }
  destruct s as [hart [cp noff intena] sie lks slk mem fl procs glob fs dev]. cbn [k_locks k_cpu c_proc c_noff k_sie] in Hn1, Hn2, Hl, Hp, Hlen, Hnoff. subst.
  cbv beta iota zeta delta [leave unlock acquired enter settle set_k_sie set_k_cpu set_k_locks k_hart k_cpu k_sie k_locks k_sleeplocks k_mem k_freelist k_procs k_glob k_fs k_dev c_proc c_noff c_intena].
  rewrite Hmap. reflexivity.
Qed.

Lemma intena_restore l s : c_noff (k_cpu s) = 0 -> set_k_cpu (set_c_intena (k_sie s) (k_cpu (acquired l s))) (acquired l s) = acquired l s.
Proof. intros Hn. unfold acquired, enter. rewrite Hn. reflexivity. Qed.

(** The process table when the process waits. *)
Definition asleep (ch : chan) (ps : list proc) : list proc := promote <$> alter (set_p_state SLEEPING) i (alter (set_p_chan ch) i ps).

Lemma wp_sleep ch s1 s2 f e (Q : unit -> world kst -> Prop) : calm i s1 ->
  f (acquired (L_proc i) (set_k_procs (asleep ch (k_procs s1)) (settle s1))) = acquired (L_proc i) s2 -> calm i s2 -> k_sie s2 = k_sie s1 ->
  (exists p, k_procs s2 !! i = Some p /\ p_state p = RUNNING) ->
  Q tt (World (acquired lk (set_k_procs (alter (set_p_chan Ch_null) i (k_procs s2)) (settle s2))) e) ->
  wp (sleep ch lk) Q (World (acquired lk s1) (f :: e)).
Proof.
  intros Hc Hf Hc2 Hsie (p2 & Hp2 & Hrun) HQ. pose proof Hc as ([Hn1 Hn2] & Hl & Hp & Hi & Hlen & Hnoff). unfold sleep.
  assert (forall l, intr_ok (acquired l s1)) as Hok by (intros l; unfold intr_ok; cbn; rewrite Hnoff; split; [lia|done]).
  wp_step. apply (wp_this_proc i); [apply Hok|exact Hp|]. cbn [st env]. rewrite settle_id by (cbn; rewrite Hnoff; done).
  wp_step. apply wp_acquire; [unfold lock_free; cbn; rewrite Hl; by rewrite lookup_insert_ne|]. cbn [st env].
  wp_step. apply wp_release; cbn [st env]; [unfold lock_held; cbn; rewrite lookup_insert_ne by done; apply lookup_insert_eq|done|cbn; lia|].
  rewrite handover by done. unfold modify_proc. do 4 wp_step.
  set (w1 := acquired (L_proc i) (set_k_procs (asleep ch (k_procs s1)) (settle s1))) in *.
  assert (intr_ok w1) as Hok1 by (unfold intr_ok; cbn; rewrite Hnoff; split; [lia|done]).
  wp_step. unfold sched. wp_step. wp_step. cbn [st env].
  wp_step. apply (wp_this_proc i); [exact Hok1|exact Hp|]. cbn [st env]. rewrite settle_id by (cbn; rewrite Hnoff; done).
  match goal with |- wp _ _ (World ?x _) => change x with w1 end.
  wp_step. unfold holding. wp_step. cbn [st]. unfold lock_of. cbn [w1 k_locks acquired set_k_locks]. rewrite lookup_insert_eq. cbn [default from_option id locked lk_cpu].
  rewrite bool_decide_eq_true_2 by done. cbn [Z.eqb negb andb].
  wp_step. wp_step. cbn [st]. assert ((c_noff (k_cpu w1) =? 1) = true) as -> by (cbn; by rewrite Hnoff). cbn [negb].
  destruct (calm_proc i s1 Hc) as (p & Hpi & _).
  assert (exists q, k_procs w1 !! i = Some q /\ p_state q = SLEEPING) as (q & Hq & Hst).
  { exists (promote (set_p_state SLEEPING (set_p_chan ch p))). split.
    - cbn. unfold asleep. by rewrite list_lookup_fmap, !list_lookup_alter_eq, Hpi.
    - unfold promote. cbn. by repeat case_match. }
  wp_step. apply (wp_proc_at i q); [exact Hq|]. rewrite Hst, bool_decide_false by done.
  wp_step. unfold intr_get. wp_step. cbn [st]. change (k_sie w1) with false. cbv iota. wp_step. wp_step. cbn [st].
  wp_step. apply wp_wait_next; [unfold is_running; rewrite Hq, Hst; by rewrite bool_decide_false|]. rewrite Hf.
  pose proof Hc2 as ([Hm1 Hm2] & Hl2 & Hp2' & _ & Hlen2 & Hnoff2).
  apply wp_wait_now; [unfold is_running; cbn; rewrite Hp2, Hrun; by rewrite bool_decide_true|]. unfold modify_cpu. wp_step.
  wp_step. wp_step. cbn [st env].
  assert (c_intena (k_cpu w1) = k_sie s2) as -> by (rewrite Hsie; cbn; by rewrite Hnoff). rewrite intena_restore by done.
  wp_step. apply (wp_release_crit (L_proc i) (set_k_procs (alter (set_p_chan Ch_null) i (k_procs s2)))); [inert_tac|by split|unfold lock_free; by rewrite Hl2|].
  apply wp_acquire; [unfold lock_free; cbn; by rewrite Hl2|]. exact HQ.
Qed.
End Sleep.

(** ** States inside the driver *)

Definition dst (B : list buf) (V : vdisk) (P : list proc) (D : gmap Z (list Z)) (W : list (Z * list Z)) (s : kst) : kst :=
  set_k_bufs B (set_k_vdisk V (set_k_procs P (set_k_disk D (set_k_dwrites W s)))).

Lemma dst_id s : dst (k_bufs s) (k_vdisk s) (k_procs s) (k_disk s) (k_dwrites s) s = s.
Proof. by destruct s as [? ? ? ? ? ? ? ? ? [] []]. Qed.

(** No lock is held on the hart, which runs [me]. *)
Definition quiet (me : option nat) (s : kst) : Prop :=
  k_locks s = ∅ /\ c_proc (k_cpu s) = me /\ c_noff (k_cpu s) = 0.

Lemma calm_quiet i s : calm i s -> quiet (Some i) s.
Proof. intros (_ & Hl & Hp & _ & _ & Hn). done. Qed.

Section Driver.
Context (me : option nat) (s : kst) (Hq : quiet me s).
Implicit Types (B : list buf) (V : vdisk) (P : list proc) (D : gmap Z (list Z)) (W : list (Z * list Z)).

(** In the critical section. *)
Definition crit B V P D W : kst := acquired L_vdisk (dst B V P D W s).

Lemma w_acquire B V P D W e (Q : unit -> world kst -> Prop) : Q tt (World (crit B V P D W) e) -> wp (acquire L_vdisk) Q (World (dst B V P D W s) e).
Proof. intros HQ. destruct Hq as (Hl & _ & _). apply wp_acquire; [unfold lock_free; cbn; by rewrite Hl|]. exact HQ. Qed.

Lemma w_release B V P D W e (Q : unit -> world kst -> Prop) : Q tt (World (dst B V P D W (settle s)) e) -> wp (release L_vdisk) Q (World (crit B V P D W) e).
Proof.
  intros HQ. destruct Hq as (Hl & Hp & Hn). apply (wp_release_crit L_vdisk (dst B V P D W)); [inert_tac|unfold intr_ok; rewrite Hn; split; [lia|lia]|unfold lock_free; by rewrite Hl|].
  exact HQ.
Qed.

Lemma w_vdisk f B V P D W e (Q : unit -> world kst -> Prop) : Q tt (World (crit B (f V) P D W) e) -> wp (modify_vdisk f) Q (World (crit B V P D W) e).
Proof. intros HQ. unfold modify_vdisk. wp_step. exact HQ. Qed.

Lemma w_buf j f B V P D W e (Q : unit -> world kst -> Prop) : Q tt (World (crit (alter f j B) V P D W) e) -> wp (modify_buf j f) Q (World (crit B V P D W) e).
Proof. intros HQ. unfold modify_buf. wp_step. exact HQ. Qed.

Lemma w_get B V P D W e (Q : vdisk -> world kst -> Prop) : Q V (World (crit B V P D W) e) -> wp (gets k_vdisk) Q (World (crit B V P D W) e).
Proof. intros HQ. wp_step. exact HQ. Qed.

Lemma w_wakeup ch B V P D W e (Q : unit -> world kst -> Prop) : length P = NPROC ->
  Q tt (World (crit B V (woken ch me P) D W) e) -> wp (wakeup ch) Q (World (crit B V P D W) e).
Proof.
  intros Hl HQ. destruct Hq as (Hlk & Hp & Hnoff). apply wp_wakeup; cbn [st env].
  - unfold intr_ok. cbn. rewrite Hnoff. split; [lia|done].
  - exact Hl.
  - intros j Hj _. unfold lock_free. cbn. rewrite Hlk. by rewrite lookup_insert_ne.
  - rewrite settle_id by (cbn; rewrite Hnoff; done). unfold crit at 1. change (c_proc (k_cpu (acquired _ _))) with (c_proc (k_cpu s)). rewrite Hp. exact HQ.
Qed.

Lemma length_woken ch o P : length (woken ch o P) = length P.
Proof. unfold woken. apply length_imap. Qed.

(** The interrupt handler with one completed request, whose chain starts at [id]. *)
Lemma w_intr B V P D W e (id j : nat) (Q : unit -> world kst -> Prop) : length P = NPROC ->
  u16 (v_used_idx V + 1) = v_usedp_idx V -> v_used_idx V <> v_usedp_idx V -> v_usedp_ring V !! Z.to_nat (v_used_idx V mod NUM) = Some (Z.of_nat id) ->
  v_info_status V !! id = Some 0 -> v_info_b V !! id = Some (Some j) ->
  (forall V', v_desc V' = v_desc V -> v_avail_idx V' = v_avail_idx V -> v_avail_ring V' = v_avail_ring V -> v_usedp_idx V' = v_usedp_idx V -> v_usedp_ring V' = v_usedp_ring V ->
     v_free V' = v_free V -> v_used_idx V' = v_usedp_idx V -> v_info_b V' = v_info_b V -> v_info_status V' = v_info_status V -> v_ops V' = v_ops V ->
     Q tt (World (dst (alter (set_b_disk 0) j B) V' (woken (Ch_buf j) me P) D W (settle s)) e)) ->
  wp disk_intr Q (World (dst B V P D W s) e).
Proof.
  intros Hl Hidx Hne Hring Hstat Hinfo HQ. unfold disk_intr. wp_step. apply w_acquire. wp_step. unfold mmio_read. wp_step. unfold mmio_write. wp_step. apply w_vdisk.
  set (V1 := set_v_writes _ V). wp_step. cbn [disk_intr_loop]. wp_step. apply w_get. change (v_used_idx V1) with (v_used_idx V). change (v_usedp_idx V1) with (v_usedp_idx V).
  rewrite (proj2 (Z.eqb_neq _ _) Hne). wp_step. apply (wp_nth _ _ (Z.of_nat id)); [exact Hring|]. rewrite Nat2Z.id. wp_step. apply (wp_nth _ _ 0); [exact Hstat|]. cbn [Z.eqb negb].
  wp_step. apply (wp_nth _ _ (Some j)); [exact Hinfo|]. wp_step. apply w_buf. wp_step. apply w_wakeup; [done|]. wp_step. apply w_vdisk.
  set (V2 := set_v_used_idx _ V1). cbn [NUM disk_intr_loop]. wp_step. apply w_get. change (v_used_idx V2) with (u16 (v_used_idx V + 1)). change (v_usedp_idx V2) with (v_usedp_idx V).
  rewrite Hidx, Z.eqb_refl. wp_step. apply w_release. by apply HQ.
Qed.

(** ** Descriptors *)

Lemma w_free_at k x B V P D W e (Q : Z -> world kst -> Prop) : v_free V !! k = Some x -> Q x (World (crit B V P D W) e) -> wp (disk_free k) Q (World (crit B V P D W) e).
Proof. intros Hx HQ. unfold disk_free. wp_step. apply w_get. by apply (wp_nth _ _ x). Qed.

(** The search finds the first free descriptor. *)
Lemma w_alloc_from (n a k : nat) B V P D W e (Q : option nat -> world kst -> Prop) :
  (forall j, (a <= j < a + k)%nat -> v_free V !! j = Some 0) -> v_free V !! (a + k)%nat = Some 1 -> (k < n)%nat ->
  Q (Some (a + k)%nat) (World (crit B (set_v_free (<[(a + k)%nat := 0]> (v_free V)) V) P D W) e) ->
  wp (foreach (seq a n) (fun i => f ← disk_free i; if f =? 0 then mret None else set_disk_free i 0;; mret (Some i))) Q (World (crit B V P D W) e).
Proof.
  revert a k. induction n as [|n IH]; intros a k Hz H1 Hk HQ; [lia|]. cbn [seq foreach]. wp_step. wp_step. destruct k as [|k].
  - rewrite Nat.add_0_r in *. apply (w_free_at _ 1); [done|]. cbn [Z.eqb]. wp_step. unfold set_disk_free. apply w_vdisk. wp_step. wp_step. exact HQ.
  - apply (w_free_at _ 0); [apply Hz; lia|]. cbn [Z.eqb]. wp_step. apply (IH (S a) k); [intros j Hj; apply Hz; lia|by replace (S a + k)%nat with (a + S k)%nat by lia|lia|].
    by replace (S a + k)%nat with (a + S k)%nat by lia.
Qed.

Lemma w_alloc3 B V P D W e (Q : option (list nat) -> world kst -> Prop) : v_free V = replicate NUM 1 ->
  Q (Some [0; 1; 2]%nat) (World (crit B (set_v_free [0; 0; 0; 1; 1; 1; 1; 1] V) P D W) e) -> wp alloc3_desc Q (World (crit B V P D W) e).
Proof.
  intros Hf HQ. unfold alloc3_desc. cbn [alloc_descs]. unfold alloc_desc.
  wp_step. apply (w_alloc_from NUM 0 0); [intros; lia|by rewrite Hf|unfold NUM; lia|]. rewrite Hf.
  wp_step. apply (w_alloc_from NUM 0 1); [|done|unfold NUM; lia|]. { intros j Hj. by replace j with 0%nat by lia. }
  wp_step. apply (w_alloc_from NUM 0 2); [|done|unfold NUM; lia|]. { intros j Hj. destruct j as [|[|]]; [done|done|lia]. }
  wp_step. exact HQ.
Qed.

(** Freeing a descriptor. *)
Definition freed (k : nat) (V : vdisk) : vdisk :=
  set_v_free (<[k := 1]> (v_free V)) (set_v_desc (alter (fun d => set_d_next 0 (set_d_flags 0 (set_d_len 0 (set_d_addr VA_null d)))) k (v_desc V)) V).

Lemma w_free_desc k B V P D W e (Q : unit -> world kst -> Prop) : (k < NUM)%nat -> v_free V !! k = Some 0 -> length P = NPROC ->
  Q tt (World (crit B (freed k V) (woken Ch_vdisk me P) D W) e) -> wp (free_desc k) Q (World (crit B V P D W) e).
Proof.
  intros Hk Hf Hl HQ. unfold free_desc. rewrite (proj2 (Nat.leb_gt _ _)) by done. wp_step. apply (w_free_at _ 0); [done|]. cbn [Z.eqb negb].
  unfold modify_desc, set_disk_free. do 5 (wp_step; apply w_vdisk). apply w_wakeup; [done|]. revert HQ.
  match goal with |- Q tt (World (crit B ?x _ _ _) _) -> Q tt (World (crit B ?y _ _ _) _) => assert (x = y) as -> end; [|done].
  unfold freed. cbn [v_desc v_free set_v_desc]. rewrite !alter_alter. done.
Qed.

Lemma w_desc_at k d B V P D W e (Q : virtq_desc -> world kst -> Prop) : v_desc V !! k = Some d -> Q d (World (crit B V P D W) e) -> wp (desc_at k) Q (World (crit B V P D W) e).
Proof. intros Hd HQ. unfold desc_at. wp_step. apply w_get. by apply (wp_nth _ _ d). Qed.

(** Freeing the chain 0, 1, 2. *)
Lemma w_free_chain B V P D W e (d0 d1 d2 : virtq_desc) (Q : unit -> world kst -> Prop) : length P = NPROC ->
  v_free V = [0; 0; 0; 1; 1; 1; 1; 1] -> v_desc V !! 0%nat = Some d0 -> v_desc V !! 1%nat = Some d1 -> v_desc V !! 2%nat = Some d2 ->
  has (d_flags d0) VRING_DESC_F_NEXT = true -> d_next d0 = 1 -> has (d_flags d1) VRING_DESC_F_NEXT = true -> d_next d1 = 2 -> has (d_flags d2) VRING_DESC_F_NEXT = false ->
  Q tt (World (crit B (freed 2 (freed 1 (freed 0 V))) (woken Ch_vdisk me (woken Ch_vdisk me (woken Ch_vdisk me P))) D W) e) ->
  wp (free_chain (S NUM) 0) Q (World (crit B V P D W) e).
Proof.
  intros Hl Hf E0 E1 E2 F0 N0 F1 N1 F2 HQ. unfold has in *. unfold NUM. cbn [free_chain].
  wp_step. apply (w_desc_at _ d0); [done|]. wp_step. apply w_free_desc; [unfold NUM; lia|by rewrite Hf|done|]. rewrite F0, N0.
  change (Z.to_nat 1) with 1%nat. wp_step. apply (w_desc_at _ d1); [cbn [freed v_desc set_v_free set_v_desc]; by rewrite list_lookup_alter_ne|].
  wp_step. apply w_free_desc; [unfold NUM; lia|cbn [freed v_free set_v_free]; by rewrite Hf|by rewrite length_woken|]. rewrite F1, N1.
  change (Z.to_nat 2) with 2%nat. wp_step. apply (w_desc_at _ d2); [cbn [freed v_desc set_v_free set_v_desc]; by rewrite !list_lookup_alter_ne|].
  wp_step. apply w_free_desc; [unfold NUM; lia|cbn [freed v_free set_v_free]; by rewrite Hf|by rewrite !length_woken|]. rewrite F2. wp_step. exact HQ.
Qed.
End Driver.

(** ** A request *)

(** The arrays of the driver have [NUM] entries. *)
Record sized (V : vdisk) : Prop := {
  sz_desc : length (v_desc V) = NUM;
  sz_avail : length (v_avail_ring V) = NUM;
  sz_used : length (v_usedp_ring V) = NUM;
  sz_info : length (v_info_b V) = NUM;
  sz_status : length (v_info_status V) = NUM;
  sz_ops : length (v_ops V) = NUM
}.

(** No request is in flight. *)
Definition idle (V : vdisk) : Prop :=
  sized V /\ v_free V = replicate NUM 1 /\ v_avail_idx V = v_used_idx V /\ v_usedp_idx V = v_used_idx V /\ 0 <= v_used_idx V < 65536.

(** One request is: block [n] from or to buffer [j], in descriptors 0, 1 and 2. *)
Record in_flight (write : bool) (j : nat) (n : Z) (V : vdisk) : Prop := {
  fl_size : sized V;
  fl_free : v_free V = [0; 0; 0; 1; 1; 1; 1; 1];
  fl_d0 : v_desc V !! 0%nat = Some (mkdesc (VA_ops 0) 16 VRING_DESC_F_NEXT 1);
  fl_d1 : v_desc V !! 1%nat = Some (mkdesc (VA_data j) BSIZE (Z.lor (if write then 0 else VRING_DESC_F_WRITE) VRING_DESC_F_NEXT) 2);
  fl_d2 : v_desc V !! 2%nat = Some (mkdesc (VA_status 0) 1 VRING_DESC_F_WRITE 0);
  fl_info : v_info_b V !! 0%nat = Some (Some j);
  fl_ops : v_ops V !! 0%nat = Some (mkreq (if write then VIRTIO_BLK_T_OUT else VIRTIO_BLK_T_IN) 0 (u32 (n * 2)));
  fl_range : 0 <= v_used_idx V < 65536
}.

Record posted (write : bool) (j : nat) (n : Z) (V : vdisk) : Prop := {
  po_flight : in_flight write j n V;
  po_notify : list.last (v_writes V) = Some (80, 0);
  po_idx : v_usedp_idx V = v_used_idx V /\ v_avail_idx V = u16 (v_used_idx V + 1);
  po_ring : v_avail_ring V !! Z.to_nat (v_used_idx V mod NUM) = Some 0
}.

Record completed (write : bool) (j : nat) (n : Z) (V : vdisk) : Prop := {
  cp_flight : in_flight write j n V;
  cp_idx : v_usedp_idx V = u16 (v_used_idx V + 1) /\ v_avail_idx V = u16 (v_used_idx V + 1);
  cp_ring : v_usedp_ring V !! Z.to_nat (v_used_idx V mod NUM) = Some 0;
  cp_status : v_info_status V !! 0%nat = Some 0
}.

Lemma u16_next x : 0 <= x < 65536 -> u16 (x + 1) <> x.
Proof. unfold u16. intros Hx. Z.div_mod_to_equations. lia. Qed.

Lemma ring_pos (x : Z) : (Z.to_nat (x mod NUM) < NUM)%nat.
Proof. pose proof (Z.mod_pos_bound x NUM ltac:(unfold NUM; lia)). lia. Qed.

(** The effect of a transfer on buffers, disk and write log. *)
Definition moved_bufs (write : bool) (j : nat) (n : Z) (x : buf) (D : gmap Z (list Z)) (B : list buf) : list buf :=
  if write then B else <[j := set_b_data (disk_block D n) x]> B.
Definition moved_disk (write : bool) (n : Z) (x : buf) (D : gmap Z (list Z)) : gmap Z (list Z) := if write then <[n := b_data x]> D else D.
Definition moved_log (write : bool) (n : Z) (x : buf) (W : list (Z * list Z)) : list (Z * list Z) := if write then (n, b_data x) :: W else W.

Lemma device_posted write j n x B V P D W s : posted write j n V -> B !! j = Some x -> 0 <= n < 2147483648 ->
  exists V', completed write j n V' /\ v_used_idx V' = v_used_idx V /\
    device (dst B V P D W s) = dst (moved_bufs write j n x D B) V' P (moved_disk write n x D) (moved_log write n x W) s.
Proof.
  intros [[Hsz Hf D0 D1 D2 Hi Ho Hr] Hnot [Hidx Hav] Hring] HB Hn. set (k := Z.to_nat (v_used_idx V mod NUM)) in *.
  set (V1 := set_v_info_status (<[0%nat := 0]> (v_info_status V)) V). set (V2 := set_v_usedp_ring (<[k := 0]> (v_usedp_ring V1)) V1).
  set (V' := set_v_usedp_idx (u16 (v_usedp_idx V2 + 1)) V2). exists V'. destruct Hsz as [S1 S2 S3 S4 S5 S6].
  assert (k < NUM)%nat as Hk by apply ring_pos. split; [|split; [done|]].
  - split; [split|..]; try done.
    + split; cbn; rewrite ?length_insert; done.
    + cbn. by rewrite Hidx.
    + cbn. apply list_lookup_insert_eq. by rewrite S3.
    + cbn. apply list_lookup_insert_eq. rewrite S5. unfold NUM. lia.
  - assert (u32 (n * 2) / 2 = n) as En by (rewrite u32_small by lia; apply Z.div_mul; lia).
    unfold device. change (k_vdisk (dst B V P D W s)) with V. rewrite Hnot, bool_decide_true by done. cbn [negb orb]. rewrite Hidx, Hav.
    rewrite (proj2 (Z.eqb_neq (v_used_idx V) (u16 (v_used_idx V + 1)))) by (intros E; symmetry in E; by apply u16_next in E). fold k.
    rewrite (nth_lookup (v_avail_ring V)), Hring. cbn [default from_option id]. change (Z.to_nat 0) with 0%nat.
    rewrite !(nth_lookup (v_desc V)), D0. cbn [default from_option id d_next d_addr d_flags d_len]. change (Z.to_nat 1) with 1%nat. rewrite D1.
    cbn [default from_option id d_next d_addr d_flags d_len]. change (Z.to_nat 2) with 2%nat. rewrite D2, Ho. cbn [default from_option id d_next d_addr d_flags d_len q_type].
    change (k_bufs (dst B V P D W s)) with B. rewrite HB. fold V1.
    destruct write; cbn [moved_bufs moved_disk moved_log].
    + match goal with |- (if ?c then _ else _) = _ => change c with true end. cbv iota. unfold transfer. cbn [q_sector q_type]. rewrite En.
      change (v_usedp_idx V1) with (v_usedp_idx V). rewrite Hidx. fold k V2. unfold V'. reflexivity.
    + match goal with |- (if ?c then _ else _) = _ => change c with true end. cbv iota. unfold transfer. cbn [q_sector q_type]. rewrite En.
      change (v_usedp_idx V1) with (v_usedp_idx V). rewrite Hidx. fold k V2. unfold V'. reflexivity.
Qed.

(** The request is done: only the driver's bookkeeping remains. *)
Definition finished (write : bool) (j : nat) (n : Z) (V : vdisk) : Prop :=
  in_flight write j n V /\ v_usedp_idx V = v_used_idx V /\ v_avail_idx V = v_used_idx V.

Lemma settle_dst B V P D W s : settle (dst B V P D W s) = dst B V P D W (settle s).
Proof. reflexivity. Qed.

Lemma set_proc_back i s : c_proc (k_cpu s) = Some i -> set_proc (Some i) (set_proc None s) = s.
Proof. intros Hp. destruct s as [? [cp noff intena] ? ? ? ? ? ? ? ? ?]. cbn in Hp. by subst. Qed.

Lemma length_asleep i ch P : length (asleep i ch P) = length P.
Proof. unfold asleep. by rewrite length_fmap, !length_alter. Qed.

Lemma asleep_lookup i ch P p : P !! i = Some p -> exists q, asleep i ch P !! i = Some q /\ p_state q = SLEEPING /\ p_chan q = ch.
Proof.
  intros Hp. exists (promote (set_p_state SLEEPING (set_p_chan ch p))). unfold asleep. rewrite list_lookup_fmap, !list_lookup_alter_eq, Hp.
  split; [done|]. unfold promote. cbn. split; by repeat case_match.
Qed.

Lemma strip_alter f i (P : list proc) : (forall p, strip (f p) = strip p) -> strip <$> alter f i P = strip <$> P.
Proof.
  intros Hf. apply list_eq. intros k. rewrite !list_lookup_fmap. destruct (decide (k = i)) as [->|Hne]; [|by rewrite list_lookup_alter_ne].
  rewrite list_lookup_alter_eq. destruct (P !! i); cbn; [by rewrite Hf|done].
Qed.

Lemma strip_asleep i ch P : strip <$> asleep i ch P = strip <$> P.
Proof.
  unfold asleep. rewrite <- list_fmap_compose. rewrite (list_fmap_ext _ strip) by (intros k p _; unfold promote; cbn; by repeat case_match).
  by rewrite !strip_alter.
Qed.

Lemma serve_posted i s write j n x B V P D W : calm i s -> settle s = s -> length P = NPROC -> posted write j n V -> B !! j = Some x -> 0 <= n < 2147483648 ->
  exists V' P', finished write j n V' /\ length P' = NPROC /\ strip <$> P' = strip <$> P /\ (exists p, P' !! i = Some p /\ p_state p = RUNNING) /\
    serve i (acquired (L_proc i) (dst B V (asleep i (Ch_buf j) P) D W s)) =
    acquired (L_proc i) (dst (alter (set_b_disk 0) j (moved_bufs write j n x D B)) V' P' (moved_disk write n x D) (moved_log write n x W) s).
Proof.
  intros Hc Hset Hl Hpo HB Hn. pose proof Hc as ([Hn1 Hn2] & Hlk & Hp & Hi & _ & Hnoff). set (P1 := asleep i (Ch_buf j) P).
  assert (length P1 = NPROC) as Hl1 by (unfold P1; by rewrite length_asleep).
  set (sN := set_proc None s). assert (quiet None sN) as Hq by done. assert (settle sN = sN) as HsN by (unfold sN; by rewrite <- Hset at 2).
  unfold serve, off_cpu. rewrite crit_exit; [|by split|unfold lock_free; change (k_locks (dst ?a ?b ?c ?d ?e ?f)) with (k_locks f); by rewrite Hlk]. rewrite settle_dst, Hset.
  change (set_proc None (dst B V P1 D W s)) with (dst B V P1 D W sN).
  destruct (device_posted write j n x B V P1 D W sN Hpo HB Hn) as (V1 & [Hfl [C1 C2] C3 C4] & Eu & ->).
  set (B1 := moved_bufs write j n x D B). set (D1 := moved_disk write n x D). set (W1 := moved_log write n x W).
  assert (exists V2, finished write j n V2 /\ final (dst B1 V1 P1 D1 W1 sN) (disk_intr (World (dst B1 V1 P1 D1 W1 sN) [])) =
    dst (alter (set_b_disk 0) j B1) V2 (woken (Ch_buf j) None P1) D1 W1 sN) as (V2 & Hfin & ->).
  { apply (wp_final disk_intr (fun y => exists V2, finished write j n V2 /\ y = dst (alter (set_b_disk 0) j B1) V2 (woken (Ch_buf j) None P1) D1 W1 sN)).
    pose proof Hfl as [[S1 S2 S3 S4 S5 S6] F1 F2 F3 F4 F5 F6 F7].
    apply (w_intr None sN Hq B1 V1 P1 D1 W1 [] 0 j); [done|by rewrite C1|rewrite C1; intros E; symmetry in E; by apply u16_next in E|exact C3|exact C4|apply Hfl|].
    intros V' E1 E2 E3 E4 E5 E6 E7 E8 E9 E10. exists V'. rewrite HsN. split; [|done].
    split; [|split; congruence]. split; try congruence; [split; congruence|]. rewrite E7, C1. unfold u16. apply Z.mod_pos_bound. lia. }
  destruct (lookup_lt_is_Some_2 P i) as [p Hpi]; [by rewrite Hl|]. destruct (asleep_lookup i (Ch_buf j) P p Hpi) as (q & Hqi & Hqs & Hqc). fold P1 in Hqi.
  assert (woken (Ch_buf j) None P1 !! i = Some (set_p_state RUNNABLE q)) as Hwi.
  { unfold woken. rewrite list_lookup_imap, Hqi. cbn [fmap option_fmap option_map]. rewrite decide_False by done. unfold wake. rewrite Hqs, Hqc, !bool_decide_true by done. done. }
  unfold on_cpu. change (k_procs (dst ?a ?b ?c ?d ?e ?f)) with c. rewrite Hwi. cbn [p_state set_p_state]. rewrite bool_decide_true by done.
  exists V2, (alter (set_p_state RUNNING) i (woken (Ch_buf j) None P1)). split_and!.
  - done.
  - by rewrite length_alter, length_woken.
  - rewrite strip_alter, strip_woken by done. apply strip_asleep.
  - exists (set_p_state RUNNING (set_p_state RUNNABLE q)). by rewrite list_lookup_alter_eq, Hwi.
  - f_equal. set (P2 := alter _ _ _). transitivity (dst (alter (set_b_disk 0) j B1) V2 P2 D1 W1 (set_proc (Some i) sN)); [reflexivity|]. unfold sN. by rewrite set_proc_back.
Qed.

(** ** [virtio_disk_rw] *)

Lemma acquired_settle l s : c_noff (k_cpu s) = 0 -> acquired l (settle s) = acquired l s.
Proof. intros Hn. unfold acquired, enter, settle. cbn [k_cpu set_k_cpu c_noff c_proc c_intena k_sie]. rewrite Hn. reflexivity. Qed.

Lemma calm_dst i B V P D W s : calm i s -> length P = NPROC -> calm i (dst B V P D W s).
Proof. intros (H1 & H2 & H3 & H4 & _ & H6) Hl. by split_and!; try apply H1. Qed.

Lemma moved_bufs_disk write j n b D B : B !! j = Some b -> b_disk b = 0 ->
  alter (set_b_disk 0) j (moved_bufs write j n (set_b_disk 1 b) D (alter (set_b_disk 1) j B)) = moved_bufs write j n b D B.
Proof.
  intros HB Hd. pose proof (lookup_lt_Some _ _ _ HB) as Hl. apply list_eq. intros k. unfold moved_bufs. destruct (decide (k = j)) as [->|Hne].
  - rewrite list_lookup_alter_eq. destruct write.
    + rewrite list_lookup_alter_eq, HB. cbn. f_equal. destruct b. cbn in *. by subst.
    + rewrite !list_lookup_insert_eq by (by rewrite ?length_alter). cbn. f_equal. destruct b. cbn in *. by subst.
  - rewrite list_lookup_alter_ne by done. destruct write; [by rewrite list_lookup_alter_ne|]. rewrite !list_lookup_insert_ne by done. by rewrite list_lookup_alter_ne.
Qed.

(** The driver's data after the request has been set up. *)
Definition request (write : bool) (j : nat) (n : Z) (V : vdisk) : vdisk :=
  let V := set_v_free [0; 0; 0; 1; 1; 1; 1; 1] V in
  let V := set_v_ops (<[0%nat := mkreq (if write then VIRTIO_BLK_T_OUT else VIRTIO_BLK_T_IN) 0 (u32 (n * 2))]> (v_ops V)) V in
  let V := set_v_desc (alter (fun _ => mkdesc (VA_ops 0) 16 VRING_DESC_F_NEXT 1%nat) 0%nat (v_desc V)) V in
  let V := set_v_desc (alter (fun _ => mkdesc (VA_data j) BSIZE (Z.lor (if write then 0 else VRING_DESC_F_WRITE) VRING_DESC_F_NEXT) 2%nat) 1%nat (v_desc V)) V in
  let V := set_v_info_status (<[0%nat := 255]> (v_info_status V)) V in
  let V := set_v_desc (alter (fun _ => mkdesc (VA_status 0) 1 VRING_DESC_F_WRITE 0) 2%nat (v_desc V)) V in
  let V := set_v_info_b (<[0%nat := Some j]> (v_info_b V)) V in
  let V := set_v_avail_ring (<[Z.to_nat (v_avail_idx V mod NUM) := Z.of_nat 0]> (v_avail_ring V)) V in
  let V := set_v_avail_idx (u16 (v_avail_idx V + 1)) V in
  set_v_writes (v_writes V ++ [(80, u32 0)]) V.

Lemma request_posted write j n V : idle V -> posted write j n (request write j n V).
Proof.
  intros ([S1 S2 S3 S4 S5 S6] & Hf & Ha & Hu & Hr). unfold NUM in *.
  destruct (lookup_lt_is_Some_2 (v_desc V) 0) as [x0 E0]; [lia|]. destruct (lookup_lt_is_Some_2 (v_desc V) 1) as [x1 E1]; [lia|].
  destruct (lookup_lt_is_Some_2 (v_desc V) 2) as [x2 E2]; [lia|].
  split; [split|..]; cbn -[Z.modulo u16]; try done.
  - split; cbn; rewrite ?length_insert, ?length_alter; done.
  - rewrite 2!list_lookup_alter_ne by done. by rewrite list_lookup_alter_eq, E0.
  - rewrite list_lookup_alter_ne, list_lookup_alter_eq by done. by rewrite list_lookup_alter_ne, E1 by done.
  - rewrite list_lookup_alter_eq. by rewrite 2!list_lookup_alter_ne, E2 by done.
  - apply list_lookup_insert_eq. lia.
  - apply list_lookup_insert_eq. lia.
  - by rewrite last_snoc.
  - by rewrite Ha.
  - rewrite Ha. apply list_lookup_insert_eq. rewrite S2. apply (ring_pos (v_used_idx V)).
Qed.

(** The request's resources are given back. *)
Definition cleaned (V : vdisk) : vdisk := freed 2 (freed 1 (freed 0 (set_v_info_b (<[0%nat := None]> (v_info_b V)) V))).

Lemma cleaned_idle write j n V : finished write j n V -> idle (cleaned V).
Proof.
  intros ([[S1 S2 S3 S4 S5 S6] Hf _ _ _ _ _ Hr] & Hu & Ha). split_and!; cbn; try done; try lia.
  - split; cbn; rewrite ?length_alter, ?length_insert; done.
  - by rewrite Hf.
Qed.

Section ReadWrite.
Context (i : nat) (s : kst) (Hc : calm i s) (Hset : settle s = s).
Let Hq : quiet (Some i) s := calm_quiet i s Hc.

(** Waiting for the device. *)
Lemma w_wait write j n x V P D W B e (Q : unit -> world kst -> Prop) (fuel : nat) : length P = NPROC -> posted write j n V -> 0 <= n < 2147483648 ->
  B !! j = Some x -> b_disk x = 1 -> (2 <= fuel)%nat ->
  (forall V' P', finished write j n V' -> length P' = NPROC -> strip <$> P' = strip <$> P ->
     Q tt (World (crit s (alter (set_b_disk 0) j (moved_bufs write j n x D B)) V' P' (moved_disk write n x D) (moved_log write n x W)) e)) ->
  wp (wait_done fuel j) Q (World (crit s B V P D W) (serve i :: e)).
Proof.
  intros Hl Hpo Hn HB Hdisk Hfu HQ. destruct fuel as [|[|fuel]]; [lia..|]. cbn [wait_done].
  destruct (serve_posted i s write j n x B V P D W Hc Hset Hl Hpo HB Hn) as (V' & P' & Hfin & Hl' & Hst & (p & Hp & Hrun) & Hserve).
  wp_step. apply (wp_buf_lookup j x); [exact HB|]. rewrite Hdisk. cbn [Z.eqb Pos.eqb]. wp_step. unfold crit.
  set (B' := alter _ _ _) in Hserve. set (D' := moved_disk _ _ _ _) in *. set (W' := moved_log _ _ _ _) in *.
  eapply (wp_sleep i L_vdisk ltac:(done) (Ch_buf j) (dst B V P D W s) (dst B' V' P' D' W' s)); [by apply calm_dst| |by apply calm_dst|done|by exists p|].
  { rewrite settle_dst, Hset. exact Hserve. }
  rewrite settle_dst, Hset. set (P'' := alter _ _ _). change (set_k_procs P'' (dst B' V' P' D' W' s)) with (dst B' V' P'' D' W' s).
  assert (exists y, B' !! j = Some y /\ b_disk y = 0) as (y & Hy & Hyd).
  { unfold B', moved_bufs. rewrite list_lookup_alter_eq. pose proof (lookup_lt_Some _ _ _ HB). destruct write; [by rewrite HB; eexists|].
    rewrite list_lookup_insert_eq by done. by eexists. }
  wp_step. apply (wp_buf_lookup j y); [exact Hy|]. rewrite Hyd. cbn [Z.eqb]. wp_step. apply (HQ V' P''); [done|unfold P''; by rewrite length_alter|].
  unfold P''. by rewrite strip_alter by done.
Qed.

Lemma w_disk_rw write j b s0 e (Q : unit -> world kst -> Prop) : calm i s0 -> settle s0 = s -> idle (k_vdisk s) -> k_bufs s !! j = Some b -> b_disk b = 0 -> 0 <= b_blockno b < 2147483648 ->
  let n := b_blockno b in
  (forall V' P', idle V' -> strip <$> P' = strip <$> k_procs s ->
     Q tt (World (dst (moved_bufs write j n b (k_disk s) (k_bufs s)) V' P' (moved_disk write n b (k_disk s)) (moved_log write n b (k_dwrites s)) s) e)) ->
  wp (disk_rw j write) Q (World s0 (serve i :: e)).
Proof.
  intros Hc0 Hs0 Hidle HB Hdisk Hn n HQ. unfold disk_rw. wp_step. apply (wp_buf_lookup j b); [by rewrite <- Hs0 in HB|]. fold n. wp_step.
  pose proof Hc as (_ & _ & _ & _ & Hl & _). apply wp_acquire; [by eapply calm_lock_free|]. cbn [st env].
  rewrite <- acquired_settle, Hs0 by apply Hc0. rewrite <- (dst_id s) at 1. fold (crit s (k_bufs s) (k_vdisk s) (k_procs s) (k_disk s) (k_dwrites s)).
  wp_step. apply wp_env_fuel. cbn [wait_desc env length]. wp_step. apply w_alloc3; [apply Hidle|]. wp_step. cbn [nth]. unfold modify_desc, set_info_b, mmio_write.
  do 5 (wp_step; apply w_vdisk). wp_step. apply w_buf. do 4 (wp_step; apply w_vdisk).
  match goal with |- wp _ _ (World (crit s _ ?v _ _ _) _) => change v with (request write j n (k_vdisk s)) end.
  set (x := set_b_disk 1 b). assert (alter (set_b_disk 1) j (k_bufs s) !! j = Some x) as Hx by (by rewrite list_lookup_alter_eq, HB).
  wp_step. apply wp_env_fuel. cbn [env length].
  apply (w_wait write j n x); [done|by apply request_posted|done|exact Hx|done|lia|]. intros V' P' Hfin Hl' Hst.
  wp_step. apply w_vdisk. set (V2 := set_v_info_b _ V'). wp_step. pose proof Hfin as ([_ Hf D0 D1 D2 _ _ _] & _ & _).
  eapply (w_free_chain _ s Hq _ V2 _ _ _ _ _ _ _ _ Hl' Hf D0 D1 D2); [done|done|by destruct write|done|done|].
  eapply w_release; [exact Hq|]. rewrite Hset.
  assert (alter (set_b_disk 0) j (moved_bufs write j n x (k_disk s) (alter (set_b_disk 1) j (k_bufs s))) = moved_bufs write j n b (k_disk s) (k_bufs s)) as ->.
  { by apply moved_bufs_disk. }
  change (moved_disk write n x (k_disk s)) with (moved_disk write n b (k_disk s)). change (moved_log write n x (k_dwrites s)) with (moved_log write n b (k_dwrites s)).
  apply HQ; [by apply (cleaned_idle write j n)|]. by rewrite !strip_woken.
Qed.
End ReadWrite.

(** ** The interface *)

Lemma dnorm_dst B V P D W s : strip <$> P = strip <$> k_procs s -> dnorm (dst B V P D W s) = set_k_bufs B (set_k_disk D (set_k_dwrites W (dnorm s))).
Proof. intros HP. unfold dnorm, norm. cbn [dst k_procs set_k_bufs set_k_vdisk set_k_procs]. rewrite <- HP. reflexivity. Qed.

Lemma dnorm_settle s : dnorm (settle s) = dnorm s.
Proof. unfold dnorm. by rewrite norm_settle. Qed.

(** The environment serves the next [n] requests. *)
Definition serving (i n : nat) (e : list (kst -> kst)) : Prop := exists e', e = replicate n (serve i) ++ e'.

Lemma serving_less i n e : serving i (S n) e -> serving i n e.
Proof. intros (e' & ->). exists (serve i :: e'). rewrite replicate_S_end, <- app_assoc. done. Qed.

(** A transfer, from any calm state. *)
Lemma wp_disk_rw write i n j b w (Q : unit -> world kst -> Prop) :
  calm i (st w) -> idle (k_vdisk (st w)) -> serving i (S n) (env w) -> k_bufs (st w) !! j = Some b -> b_disk b = 0 -> 0 <= b_blockno b < 2147483648 ->
  (forall s' e', idle (k_vdisk s') -> serving i n e' ->
     dnorm s' = set_k_bufs (moved_bufs write j (b_blockno b) b (k_disk (st w)) (k_bufs (st w)))
       (set_k_disk (moved_disk write (b_blockno b) b (k_disk (st w))) (set_k_dwrites (moved_log write (b_blockno b) b (k_dwrites (st w))) (dnorm (st w)))) ->
     Q tt (World s' e')) -> wp (disk_rw j write) Q w.
Proof.
  intros Hc Hidle (e' & He) HB Hdisk Hn HQ. destruct w as [s e]. cbn [st env] in *. subst e. cbn [replicate app].
  assert (calm i (settle s)) as Hc' by (destruct Hc as (H1 & H2 & H3 & H4 & H5 & H6); split_and!; try done; by apply intr_ok_settle).
  apply (w_disk_rw i (settle s) Hc' (settle_idem s) write j b); [done..|].
  intros V' P' Hi HP. apply HQ; [done|by exists e'|]. rewrite dnorm_dst by done. by rewrite dnorm_settle.
Qed.

#[export] Instance virtio_ok : @DiskDriverOk virtio_driver.
Proof.
  refine {| io_ready := serving; disk_idle := idle; io_ready_less := serving_less |}.
  - intros i n j b w Q Hc Hidle He _ HB Hd Hn HQ. by apply (wp_disk_rw false i n j b).
  - intros i n j b w Q Hc Hidle He _ HB Hd Hn HQ. by apply (wp_disk_rw true i n j b).
Defined.

(** C15: the driver and the device transfer one block.  With no request in flight,
    [virtio_disk_rw] returns after the device has served the request and
    interrupted: a read leaves the block of the disk in the buffer, a write the
    buffer's data in the block of the disk; nothing else has changed, and again no
    request is in flight, all descriptors are free and the rings are in step. *)
Theorem virtio_disk_rw_correct write i n j b w :
  calm i (st w) -> idle (k_vdisk (st w)) -> serving i (S n) (env w) -> k_bufs (st w) !! j = Some b -> b_disk b = 0 -> 0 <= b_blockno b < 2147483648 ->
  wp (disk_rw j write) (fun _ w' => let s := st w in
    idle (k_vdisk (st w')) /\ serving i n (env w') /\
    dnorm (st w') = if write then set_k_disk (<[b_blockno b := b_data b]> (k_disk s)) (set_k_dwrites ((b_blockno b, b_data b) :: k_dwrites s) (dnorm s))
                    else set_k_bufs (<[j := set_b_data (disk_block (k_disk s) (b_blockno b)) b]> (k_bufs s)) (dnorm s)) w.
Proof.
  intros Hc Hidle He HB Hd Hn. apply (wp_disk_rw write i n j b); [done..|]. intros s' e' Hi' He' Hs. split; [done|]. split; [done|]. by destruct write.
Qed.

(** A machine with process 0 running, a device that serves one request, and block
    5 of the disk. *)
Definition idle_disk : vdisk :=
  mkvdisk (replicate NUM desc0) 0 (replicate NUM 0) 0 (replicate NUM 0) (replicate NUM 1) 0 (replicate NUM None) (replicate NUM 0) (replicate NUM (mkreq 0 0 0)) ∅ [].
Definition kst_disk : kst :=
  set_k_vdisk idle_disk (set_k_disk {[5 := replicate BSIZE 7]} (set_k_bufs (alter (set_b_blockno 5) 0%nat (k_bufs kst0)) (set_k_cpu (mkcpu (Some O) 0 false) kst0))).

Lemma virtio_disk_rw_correct_witness :
  wp (disk_rw 0 false) (fun _ w' => b_data <$> k_bufs (st w') !! 0%nat = Some (replicate BSIZE 7)) (World kst_disk [serve 0]).
Proof.
  assert (exists b, k_bufs kst_disk !! 0%nat = Some b /\ b_disk b = 0 /\ b_blockno b = 5) as (b & Hb & Hd & Hn) by (eexists; split_and!; reflexivity).
  eapply wp_mono; [apply (virtio_disk_rw_correct false 0 0 0 b (World kst_disk [serve 0])); cbn [st env]|].
  - split_and!; try done; unfold NPROC; lia.
  - split_and!; try done; by split.
  - by exists [].
  - exact Hb.
  - exact Hd.
  - rewrite Hn. lia.
  - intros _ w' (_ & _ & Hs). change (k_bufs (st w')) with (k_bufs (dnorm (st w'))). rewrite Hs. cbn [st]. rewrite Hn.
    change (k_bufs (set_k_bufs ?x ?y)) with x. pose proof (lookup_lt_Some _ _ _ Hb). rewrite list_lookup_insert_eq by done. reflexivity.
Defined.
