(* ===== verification/Main.v ===== *)
(** * kernel/main.c: booting

    The initialisation that hart 0 and the other harts run before they enter
    the scheduler. *)

From S2P Require Import Prelude State KString Spinlock Norm Printf Sched Sleeplock Kalloc Vm Proc Bio Log Fs Pipe Console File Fork Trap.

Section Main.
Context `{KernelImage} `{DiskDriver}.

(** [main] on hart 0, up to the call of [scheduler]. *)
Definition main_boot : K unit :=
  consoleinit;;
  printfinit;;
  printf NL [];;
  printf ("xv6 kernel is booting" ++ NL) [];;
  printf NL [];;
  kinit;;
  kvminit;;
  kvminithart;;
  procinit;;
  trapinit;;
  trapinithart;;
  plicinit;;
  plicinithart;;
  binit;;
  iinit;;
  fileinit;;
  virtio_disk_init;;
  userinit.

(** The other harts, once hart 0 has set [started]. *)
Definition main_other : K unit :=
  hart ← gets (fun s => Z.of_nat (k_hart s));
  printf ("hart %d starting" ++ NL) [PInt hart];;
  kvminithart;;
  trapinithart;;
  plicinithart.

End Main.
