(* ===== verification/Start.v ===== *)
(** * kernel/entry.S, start.c, kernelvec.S, swtch.S: machine-mode start and
    assembly

    The registers are those of [Trap.tstate]; the machine-mode control registers
    are the record [csrs].  [kernelvec] is split at the call of [kerneltrap], and
    what the handler does between its two halves is arbitrary. *)

From S2P Require Import Prelude State Trap.

(** ** Machine-mode registers (riscv.h) *)

Record csrs : Type := Csrs {
  mhartid : Z; mstatus : Z; mepc : Z; satp : Z; medeleg : Z; mideleg : Z; sie : Z;
  pmpaddr0 : Z; pmpcfg0 : Z; mscratch : Z; mtvec : Z; mie : Z; sip : Z }.

Record mach : Type := Mach { csr : csrs; cpu : tstate }.

Definition MSTATUS_MPP_MASK : Z := Z.shiftl 3 11.
Definition MSTATUS_MPP_S : Z := Z.shiftl 1 11.
Definition MSTATUS_MIE : Z := Z.shiftl 1 3.
Definition SIE_SEIE : Z := Z.shiftl 1 9.
Definition SIE_STIE : Z := Z.shiftl 1 5.
Definition SIE_SSIE : Z := Z.shiftl 1 1.
Definition MIE_MTIE : Z := Z.shiftl 1 7.

Definition w_mstatus (x : Z) (c : csrs) : csrs := Csrs (mhartid c) x (mepc c) (satp c) (medeleg c) (mideleg c) (sie c) (pmpaddr0 c) (pmpcfg0 c) (mscratch c) (mtvec c) (mie c) (sip c).
Definition w_mepc (x : Z) (c : csrs) : csrs := Csrs (mhartid c) (mstatus c) x (satp c) (medeleg c) (mideleg c) (sie c) (pmpaddr0 c) (pmpcfg0 c) (mscratch c) (mtvec c) (mie c) (sip c).
Definition w_satp (x : Z) (c : csrs) : csrs := Csrs (mhartid c) (mstatus c) (mepc c) x (medeleg c) (mideleg c) (sie c) (pmpaddr0 c) (pmpcfg0 c) (mscratch c) (mtvec c) (mie c) (sip c).
Definition w_medeleg (x : Z) (c : csrs) : csrs := Csrs (mhartid c) (mstatus c) (mepc c) (satp c) x (mideleg c) (sie c) (pmpaddr0 c) (pmpcfg0 c) (mscratch c) (mtvec c) (mie c) (sip c).
Definition w_mideleg (x : Z) (c : csrs) : csrs := Csrs (mhartid c) (mstatus c) (mepc c) (satp c) (medeleg c) x (sie c) (pmpaddr0 c) (pmpcfg0 c) (mscratch c) (mtvec c) (mie c) (sip c).
Definition w_sie (x : Z) (c : csrs) : csrs := Csrs (mhartid c) (mstatus c) (mepc c) (satp c) (medeleg c) (mideleg c) x (pmpaddr0 c) (pmpcfg0 c) (mscratch c) (mtvec c) (mie c) (sip c).
Definition w_pmpaddr0 (x : Z) (c : csrs) : csrs := Csrs (mhartid c) (mstatus c) (mepc c) (satp c) (medeleg c) (mideleg c) (sie c) x (pmpcfg0 c) (mscratch c) (mtvec c) (mie c) (sip c).
Definition w_pmpcfg0 (x : Z) (c : csrs) : csrs := Csrs (mhartid c) (mstatus c) (mepc c) (satp c) (medeleg c) (mideleg c) (sie c) (pmpaddr0 c) x (mscratch c) (mtvec c) (mie c) (sip c).
Definition w_mscratch (x : Z) (c : csrs) : csrs := Csrs (mhartid c) (mstatus c) (mepc c) (satp c) (medeleg c) (mideleg c) (sie c) (pmpaddr0 c) (pmpcfg0 c) x (mtvec c) (mie c) (sip c).
Definition w_mtvec (x : Z) (c : csrs) : csrs := Csrs (mhartid c) (mstatus c) (mepc c) (satp c) (medeleg c) (mideleg c) (sie c) (pmpaddr0 c) (pmpcfg0 c) (mscratch c) x (mie c) (sip c).
Definition w_mie (x : Z) (c : csrs) : csrs := Csrs (mhartid c) (mstatus c) (mepc c) (satp c) (medeleg c) (mideleg c) (sie c) (pmpaddr0 c) (pmpcfg0 c) (mscratch c) (mtvec c) x (sip c).
Definition w_sip (x : Z) (c : csrs) : csrs := Csrs (mhartid c) (mstatus c) (mepc c) (satp c) (medeleg c) (mideleg c) (sie c) (pmpaddr0 c) (pmpcfg0 c) (mscratch c) (mtvec c) (mie c) x.

Definition w_csr (f : csrs -> csrs) (s : mach) : mach := Mach (f (csr s)) (cpu s).
Definition w_cpu (f : tstate -> tstate) (s : mach) : mach := Mach (csr s) (f (cpu s)).
Definition w_mem (f : gmap Z Z -> gmap Z Z) : mach -> mach :=
  w_cpu (fun t => mkts (ts_regs t) (f (ts_mem t)) (ts_sscratch t) (ts_satp t) (ts_pc t)).
Definition w_tp (x : Z) : mach -> mach := w_cpu (set_reg tp x).
Definition memory (s : mach) : gmap Z Z := ts_mem (cpu s).

Definition CLINT : Z := 33554432.
Definition CLINT_MTIMECMP (hartid : Z) : Z := CLINT + 16384 + 8 * hartid.
Definition CLINT_MTIME : Z := CLINT + 49144.

(** ** entry.S and start.c *)

Section Start.
(** The addresses the linker gives to [stack0], [timer_scratch], [main] and
    [timervec]. *)
Context (stack0 timer_scratch main_addr timervec_addr : Z).

Definition entry (s : mach) : mach :=
  let s := w_cpu (set_reg sp stack0) s in
  let s := w_cpu (set_reg a0 4096) s in
  let s := w_cpu (set_reg a1 (mhartid (csr s))) s in
  let s := w_cpu (fun t => set_reg a1 (u64 (reg a1 t + 1)) t) s in
  let s := w_cpu (fun t => set_reg a0 (u64 (reg a0 t * reg a1 t)) t) s in
  w_cpu (fun t => set_reg sp (u64 (reg sp t + reg a0 t)) t) s.

Definition timerinit (s : mach) : mach :=
  let id := mhartid (csr s) in
  let interval := 1000000 in
  let s := w_mem (fun m => st64 m (CLINT_MTIMECMP id) (u64 (ld64 m CLINT_MTIME + interval))) s in
  let scratch := timer_scratch + 40 * id in
  let s := w_mem (fun m => st64 m (scratch + 24) (CLINT_MTIMECMP id)) s in
  let s := w_mem (fun m => st64 m (scratch + 32) interval) s in
  let s := w_csr (w_mscratch scratch) s in
  let s := w_csr (w_mtvec timervec_addr) s in
  let s := w_csr (fun c => w_mstatus (Z.lor (mstatus c) MSTATUS_MIE) c) s in
  w_csr (fun c => w_mie (Z.lor (mie c) MIE_MTIE) c) s.

(** [mret] continues at [mepc]; the mode it continues in is the field MPP of
    [mstatus]. *)
Definition mret_pc (s : mach) : mach :=
  w_cpu (fun t => mkts (ts_regs t) (ts_mem t) (ts_sscratch t) (ts_satp t) (mepc (csr s))) s.
Definition mpp (c : csrs) : Z := Z.land (Z.shiftr (mstatus c) 11) 3.

Definition start (s : mach) : mach :=
  let x := mstatus (csr s) in
  let x := andnot64 x MSTATUS_MPP_MASK in
  let x := Z.lor x MSTATUS_MPP_S in
  let s := w_csr (w_mstatus x) s in
  let s := w_csr (w_mepc main_addr) s in
  let s := w_csr (w_satp 0) s in
  let s := w_csr (w_medeleg 65535) s in
  let s := w_csr (w_mideleg 65535) s in
  let s := w_csr (fun c => w_sie (Z.lor (Z.lor (Z.lor (sie c) SIE_SEIE) SIE_STIE) SIE_SSIE) c) s in
  let s := w_csr (w_pmpaddr0 18014398509481983) s in
  let s := w_csr (w_pmpcfg0 15) s in
  let s := timerinit s in
  let s := w_tp (mhartid (csr s)) s in
  mret_pc s.
End Start.

(** ** kernelvec.S *)

(** The machine-mode timer interrupt. *)
Definition csrrw_a0 (s : mach) : mach :=
  let old := mscratch (csr s) in
  w_cpu (set_reg a0 old) (w_csr (w_mscratch (reg a0 (cpu s))) s).

Definition m_sd (r base : nat) (off : Z) (s : mach) : mach := w_mem (fun m => st64 m (reg base (cpu s) + off) (reg r (cpu s))) s.
Definition m_ld (r base : nat) (off : Z) (s : mach) : mach := w_cpu (fun t => set_reg r (ld64 (ts_mem t) (reg base t + off)) t) s.

Definition timervec (s : mach) : mach :=
  let s := csrrw_a0 s in
  let s := m_sd a1 a0 0 s in
  let s := m_sd a2 a0 8 s in
  let s := m_sd a3 a0 16 s in
  let s := m_ld a1 a0 24 s in
  let s := m_ld a2 a0 32 s in
  let s := m_ld a3 a1 0 s in
  let s := w_cpu (fun t => set_reg a3 (u64 (reg a3 t + reg a2 t)) t) s in
  let s := m_sd a3 a1 0 s in
  let s := w_cpu (set_reg a1 2) s in
  let s := w_csr (w_sip (reg a1 (cpu s))) s in
  let s := m_ld a3 a0 16 s in
  let s := m_ld a2 a0 8 s in
  let s := m_ld a1 a0 0 s in
  let s := csrrw_a0 s in
  mret_pc s.

(** The registers [kernelvec] pushes, and those it pops (all but [tp]). *)
Definition kv_saved : list (nat * Z) :=
  [(ra, 0); (sp, 8); (gp, 16); (tp, 24); (t0, 32); (t1, 40); (t2, 48); (s0, 56); (s1, 64);
   (a0, 72); (a1, 80); (a2, 88); (a3, 96); (a4, 104); (a5, 112); (a6, 120); (a7, 128);
   (s2, 136); (s3, 144); (s4, 152); (s5, 160); (s6, 168); (s7, 176); (s8, 184); (s9, 192); (s10, 200); (s11, 208);
   (t3, 216); (t4, 224); (t5, 232); (t6, 240)].
Definition kv_restored : list (nat * Z) :=
  [(ra, 0); (sp, 8); (gp, 16); (t0, 32); (t1, 40); (t2, 48); (s0, 56); (s1, 64);
   (a0, 72); (a1, 80); (a2, 88); (a3, 96); (a4, 104); (a5, 112); (a6, 120); (a7, 128);
   (s2, 136); (s3, 144); (s4, 152); (s5, 160); (s6, 168); (s7, 176); (s8, 184); (s9, 192); (s10, 200); (s11, 208);
   (t3, 216); (t4, 224); (t5, 232); (t6, 240)].

(** Every access is relative to the current [sp]. *)
Definition sd_sp (x : nat * Z) (s : tstate) : tstate := sd (reg sp s) x s.
Definition ld_sp (x : nat * Z) (s : tstate) : tstate := ld (reg sp s) x s.

(** Up to the call of [kerneltrap], and after it. *)
Definition kernelvec_save (s : tstate) : tstate :=
  run_all sd_sp kv_saved (set_reg sp (reg sp s - 256) s).
Definition kernelvec_restore (s : tstate) : tstate :=
  let s := run_all ld_sp kv_restored s in
  set_reg sp (reg sp s + 256) s.

(** ** swtch.S *)

Definition context_layout : list (nat * Z) :=
  [(ra, 0); (sp, 8); (s0, 16); (s1, 24); (s2, 32); (s3, 40); (s4, 48); (s5, 56); (s6, 64); (s7, 72);
   (s8, 80); (s9, 88); (s10, 96); (s11, 104)].

(** [swtch(old, new)]: the addresses are in [a0] and [a1]; it returns to [ra]. *)
Definition swtch (s : tstate) : tstate :=
  let s := run_all (sd (reg a0 s)) context_layout s in
  let s := run_all (ld (reg a1 s)) context_layout s in
  mkts (ts_regs s) (ts_mem s) (ts_sscratch s) (ts_satp s) (reg ra s).

(** ** Interrupts in the kernel are transparent *)

Lemma kv_saved_apart : ForallOrdPairs apart kv_saved.
Proof. unfold kv_saved. repeat (constructor; [repeat (constructor; [unfold apart; cbn; lia|]); constructor|]). constructor. Qed.
Lemma kv_restored_nodup : NoDup (kv_restored.*1).
Proof. apply (bool_decide_unpack _). by vm_compute. Qed.
Lemma kv_restored_saved x : x ∈ kv_restored -> x ∈ kv_saved /\ 0 <= x.2 /\ x.2 + 8 <= 256 /\ (x.1 < 32)%nat.
Proof.
  assert (Forall (fun x => x ∈ kv_saved /\ 0 <= x.2 /\ x.2 + 8 <= 256 /\ (x.1 < 32)%nat) kv_restored) as H.
  { apply (bool_decide_unpack _). by vm_compute. }
  rewrite list.Forall_forall in H. apply H.
Qed.
Lemma kv_restored_all r : (0 < r < 32)%nat -> r <> tp -> r ∈ kv_restored.*1.
Proof.
  intros Hr Ht. assert (Forall (fun r => r = 0%nat \/ r = tp \/ r ∈ kv_restored.*1) (seq 0 32)) as H.
  { apply (bool_decide_unpack _). by vm_compute. }
  rewrite list.Forall_forall in H. destruct (H r) as [?|[?|?]]; [apply elem_of_seq; lia|lia|done|done].
Qed.

(** While the pushes do not touch [sp] they go to one frame; so do the pops, when
    the slot of [sp] holds its value. *)
Lemma run_sd_sp l s : run_all sd_sp l s = run_all (sd (reg sp s)) l s.
Proof.
  unfold run_all. revert s. induction l as [|x l IH]; intros s; cbn; [done|]. rewrite IH. done.
Qed.

Lemma run_ld_sp l s : (sp < length (ts_regs s))%nat -> (forall off, (sp, off) ∈ l -> ld64 (ts_mem s) (reg sp s + off) = reg sp s) ->
  run_all ld_sp l s = run_all (ld (reg sp s)) l s.
Proof.
  unfold run_all. revert s. induction l as [|[r off] l IH]; intros s Hlen Hsp; cbn; [done|].
  assert (reg sp (ld_sp (r, off) s) = reg sp s) as E.
  { unfold ld_sp, ld. cbn [fst snd]. destruct (decide (r = sp)) as [->|Hne].
    - rewrite reg_set_eq by done. apply Hsp. left.
    - by rewrite reg_set_ne by congruence. }
  rewrite IH.
  - by rewrite E.
  - unfold ld_sp, ld, set_reg. cbn [ts_regs]. by rewrite length_insert.
  - intros off' Hin. rewrite E. apply Hsp. by right.
Qed.

(** C33: an interrupt taken in the kernel is invisible to the code it interrupts.
    Whatever [kerneltrap] does to the registers, as long as it returns with the
    stack pointer it was called with and leaves the pushed frame alone, after
    [kernelvec] every register but [tp] has the value it had; [tp] keeps the hart
    number of the hart that finishes. *)
Theorem kernelvec_transparent s k :
  length (ts_regs s) = 32%nat -> (forall r, 0 <= reg r s < 18446744073709551616) -> 256 <= reg sp s ->
  length (ts_regs k) = 32%nat -> reg sp k = reg sp (kernelvec_save s) ->
  (forall a, reg sp s - 256 <= a < reg sp s -> (ts_mem k).[a] = (ts_mem (kernelvec_save s)).[a]) ->
  (forall r, (0 < r < 32)%nat -> r <> tp -> reg r (kernelvec_restore k) = reg r s) /\
  reg tp (kernelvec_restore k) = reg tp k /\ ts_mem (kernelvec_restore k) = ts_mem k.
Proof.
  intros Hlen Hreg Hsp Hk Hksp Hframe. set (b := reg sp s - 256). set (s1 := set_reg sp b s).
  assert (reg sp s1 = b) as Hs1 by (apply reg_set_eq; rewrite Hlen; unfold sp; lia).
  assert (kernelvec_save s = run_all (sd b) kv_saved s1) as Hsave by (unfold kernelvec_save; rewrite run_sd_sp; fold b; fold s1; by rewrite Hs1).
  assert (reg sp k = b) as Hkb by (rewrite Hksp, Hsave; unfold reg; rewrite run_sd_regs; exact Hs1).
  assert (forall r, 0 <= reg r s1 < 18446744073709551616) as Hreg1.
  { intros r. destruct (decide (r = sp)) as [->|Hne]; [rewrite Hs1; unfold b; specialize (Hreg sp); lia|]. unfold s1. by rewrite reg_set_ne. }
  assert (forall x, x ∈ kv_restored -> ld64 (ts_mem k) (b + x.2) = reg x.1 s1) as Hslot.
  { intros x Hx. apply kv_restored_saved in Hx as (Hin & H1 & H2 & _).
    rewrite (ld64_ext _ (ts_mem (kernelvec_save s))) by (intros; apply Hframe; unfold b in *; lia).
    rewrite Hsave. by apply run_sd_slot; [apply kv_saved_apart| |]. }
  assert (run_all ld_sp kv_restored k = run_all (ld b) kv_restored k) as Hrun.
  { rewrite run_ld_sp, Hkb; [done|rewrite Hk; unfold sp; lia|]. intros off Hin. rewrite Hkb. rewrite <- Hs1 at 2. exact (Hslot (sp, off) Hin). }
  unfold kernelvec_restore. rewrite Hrun. cbv zeta.
  assert (forall r, r ∈ kv_restored.*1 -> reg r (run_all (ld b) kv_restored k) = reg r s1) as Hres.
  { intros r (x & -> & Hx)%list_elem_of_fmap. rewrite run_ld_slot; [by apply Hslot|apply kv_restored_nodup|done|].
    rewrite Hk. by apply kv_restored_saved in Hx as (_ & _ & _ & ?). }
  split_and!.
  - intros r Hr Ht. pose proof (kv_restored_all r Hr Ht) as Hin. destruct (decide (r = sp)) as [->|Hne].
    + rewrite reg_set_eq by (rewrite run_ld_length, Hk; unfold sp; lia). rewrite Hres, Hs1 by done. unfold b. lia.
    + rewrite reg_set_ne by done. rewrite Hres by done. unfold s1. by rewrite reg_set_ne.
  - rewrite reg_set_ne by done. apply run_ld_other. apply (bool_decide_unpack _). by vm_compute.
  - rewrite set_reg_mem. apply run_ld_mem.
Qed.

Definition kernel_demo : tstate := mkts (Z.of_nat <$> seq 1000 32) ∅ 0 5 4096.

Lemma kernel_demo_range r : 0 <= reg r kernel_demo < 18446744073709551616.
Proof.
  unfold reg. destruct (decide (r < 32)%nat) as [Hr|Hr].
  - rewrite nth_lookup. cbn [kernel_demo ts_regs]. rewrite list_lookup_fmap, lookup_seq_lt by done. cbn. lia.
  - rewrite nth_overflow by (cbn; lia). lia.
Qed.

(** A handler that changes [a0] and moves to another hart. *)
Definition some_handler (s : tstate) : tstate := set_reg tp 3 (set_reg a0 77 s).

Lemma some_handler_frame s : length (ts_regs s) = 32%nat ->
  length (ts_regs (some_handler s)) = 32%nat /\ reg sp (some_handler s) = reg sp s /\ ts_mem (some_handler s) = ts_mem s /\ reg tp (some_handler s) = 3.
Proof.
  intros H. unfold some_handler. split_and!.
  - cbn. by rewrite !length_insert.
  - by rewrite !reg_set_ne.
  - done.
  - apply reg_set_eq. cbn. rewrite length_insert, H. unfold tp. lia.
Qed.

Lemma kernelvec_save_length s : length (ts_regs s) = 32%nat -> length (ts_regs (kernelvec_save s)) = 32%nat.
Proof. intros H. unfold kernelvec_save. rewrite run_sd_sp, run_sd_regs. cbn. by rewrite length_insert. Qed.

Lemma kernelvec_transparent_witness :
  let k := some_handler (kernelvec_save kernel_demo) in
  (forall r, (0 < r < 32)%nat -> r <> tp -> reg r (kernelvec_restore k) = reg r kernel_demo) /\
  reg tp (kernelvec_restore k) = 3 /\ ts_mem (kernelvec_restore k) = ts_mem k.
Proof.
  intros k. destruct (some_handler_frame (kernelvec_save kernel_demo) (kernelvec_save_length kernel_demo eq_refl)) as (H1 & H2 & H3 & H4).
  rewrite <- H4. apply (kernelvec_transparent kernel_demo k eq_refl kernel_demo_range); [vm_compute; discriminate|exact H1|exact H2|].
  intros a _. unfold k. by rewrite H3.
Defined.

(** ** The timer interrupt is transparent *)

Definition nregs (s : mach) : nat := length (ts_regs (cpu s)).
Definition mreg (r : nat) (s : mach) : Z := reg r (cpu s).

Lemma m_ld_eq r b off s : (r < nregs s)%nat -> mreg r (m_ld r b off s) = ld64 (memory s) (mreg b s + off).
Proof. intros H. by apply reg_set_eq. Qed.
Lemma m_ld_ne r r' b off s : r <> r' -> mreg r (m_ld r' b off s) = mreg r s.
Proof. intros H. by apply reg_set_ne. Qed.
Lemma m_ld_mem r b off s : memory (m_ld r b off s) = memory s.
Proof. done. Qed.
Lemma m_ld_csr r b off s : csr (m_ld r b off s) = csr s.
Proof. done. Qed.
Lemma m_ld_nregs r b off s : nregs (m_ld r b off s) = nregs s.
Proof. unfold nregs. cbn. by rewrite length_insert. Qed.
Lemma m_sd_reg x r b off s : mreg x (m_sd r b off s) = mreg x s.
Proof. done. Qed.
Lemma m_sd_mem r b off s : memory (m_sd r b off s) = st64 (memory s) (mreg b s + off) (mreg r s).
Proof. done. Qed.
Lemma m_sd_csr r b off s : csr (m_sd r b off s) = csr s.
Proof. done. Qed.
Lemma m_sd_nregs r b off s : nregs (m_sd r b off s) = nregs s.
Proof. done. Qed.
Lemma set_eq r f s : (r < nregs s)%nat -> mreg r (w_cpu (fun t => set_reg r (f t) t) s) = f (cpu s).
Proof. intros H. by apply reg_set_eq. Qed.
Lemma set_ne r r' f s : r <> r' -> mreg r (w_cpu (fun t => set_reg r' (f t) t) s) = mreg r s.
Proof. intros H. by apply reg_set_ne. Qed.
Lemma set_nregs r f s : nregs (w_cpu (fun t => set_reg r (f t) t) s) = nregs s.
Proof. unfold nregs. cbn. by rewrite length_insert. Qed.

(** What [timerinit] prepares for hart [id]: the scratch area, apart from the
    timer's registers. *)
Record timer_ready (scratch id : Z) (s : mach) : Prop := TimerReady {
  tr_regs : nregs s = 32%nat;
  tr_range : forall r, 0 <= mreg r s < 18446744073709551616;
  tr_scratch : mscratch (csr s) = scratch;
  tr_cmp : ld64 (memory s) (scratch + 24) = CLINT_MTIMECMP id;
  tr_interval : ld64 (memory s) (scratch + 32) = 1000000;
  tr_apart : scratch + 40 <= CLINT_MTIMECMP id \/ CLINT_MTIMECMP id + 8 <= scratch
}.

(** The first half of the handler: registers saved, the next interrupt set. *)
Lemma timer_first s sc s1 : nregs s = 32%nat -> mreg a0 s = sc ->
  (sc + 40 <= ld64 (memory s) (sc + 24) \/ ld64 (memory s) (sc + 24) + 8 <= sc) ->
  s1 = m_ld a3 a1 0 (m_ld a2 a0 32 (m_ld a1 a0 24 (m_sd a3 a0 16 (m_sd a2 a0 8 (m_sd a1 a0 0 s))))) ->
  nregs s1 = 32%nat /\ csr s1 = csr s /\ mreg a0 s1 = sc /\ mreg a1 s1 = ld64 (memory s) (sc + 24) /\
  mreg a2 s1 = ld64 (memory s) (sc + 32) /\ mreg a3 s1 = ld64 (memory s) (ld64 (memory s) (sc + 24)) /\
  (forall r, r <> a1 -> r <> a2 -> r <> a3 -> mreg r s1 = mreg r s) /\
  memory s1 = st64 (st64 (st64 (memory s) sc (mreg a1 s)) (sc + 8) (mreg a2 s)) (sc + 16) (mreg a3 s).
Proof.
  intros Hn Ha0 Hap ->. set (m3 := st64 (st64 (st64 (memory s) sc (mreg a1 s)) (sc + 8) (mreg a2 s)) (sc + 16) (mreg a3 s)).
  set (s0 := m_sd a3 a0 16 (m_sd a2 a0 8 (m_sd a1 a0 0 s))).
  assert (memory s0 = m3) as Hm0 by (unfold s0; rewrite !m_sd_mem, !m_sd_reg, Ha0, Z.add_0_r; done).
  assert (nregs s0 = 32%nat) as Hn0 by done.
  assert (forall r, mreg r s0 = mreg r s) as Hr0 by done.
  assert (forall a, sc + 24 <= a \/ a + 8 <= sc -> ld64 m3 a = ld64 (memory s) a) as Hld.
  { intros a Ha. unfold m3. rewrite !ld64_st64_ne by lia. done. }
  assert (mreg a1 (m_ld a1 a0 24 s0) = ld64 (memory s) (sc + 24)) as H1.
  { rewrite m_ld_eq by (rewrite Hn0; unfold a1; lia). rewrite Hm0, Hr0, Ha0. apply Hld. lia. }
  fold s0. split_and!.
  - by rewrite !m_ld_nregs.
  - done.
  - rewrite !m_ld_ne by done. rewrite Hr0. exact Ha0.
  - rewrite !(m_ld_ne a1) by done. exact H1.
  - rewrite (m_ld_ne a2) by done. rewrite m_ld_eq by (rewrite m_ld_nregs, Hn0; unfold a2; lia).
    rewrite m_ld_mem, (m_ld_ne a0), Hm0, Hr0, Ha0 by done. apply Hld. lia.
  - rewrite m_ld_eq by (rewrite !m_ld_nregs, Hn0; unfold a3; lia). rewrite !m_ld_mem, (m_ld_ne a1), H1, Hm0, Z.add_0_r by done. apply Hld. lia.
  - intros r Hr1 Hr2 Hr3. rewrite !m_ld_ne by done. apply Hr0.
  - by rewrite !m_ld_mem.
Qed.

(** The second half: the timer's register is written, a software interrupt is
    raised, and the three registers are loaded again. *)
Lemma timer_second s sc cmp v1 v2 v3 t1 t3 : nregs s = 32%nat -> mreg a0 s = sc -> mreg a1 s = cmp ->
  (sc + 40 <= cmp \/ cmp + 8 <= sc) ->
  ld64 (memory s) sc = v1 -> ld64 (memory s) (sc + 8) = v2 -> ld64 (memory s) (sc + 16) = v3 ->
  t1 = m_sd a3 a1 0 (w_cpu (fun t => set_reg a3 (u64 (reg a3 t + reg a2 t)) t) s) ->
  t3 = m_ld a1 a0 0 (m_ld a2 a0 8 (m_ld a3 a0 16 (w_csr (w_sip (reg a1 (cpu (w_cpu (set_reg a1 2) t1)))) (w_cpu (set_reg a1 2) t1)))) ->
  nregs t3 = 32%nat /\ csr t3 = w_sip 2 (csr s) /\ mreg a0 t3 = sc /\ mreg a1 t3 = v1 /\ mreg a2 t3 = v2 /\ mreg a3 t3 = v3 /\
  (forall r, r <> a1 -> r <> a2 -> r <> a3 -> mreg r t3 = mreg r s) /\ memory t3 = st64 (memory s) cmp (u64 (mreg a3 s + mreg a2 s)).
Proof.
  intros Hn Ha0 Ha1 Hap H1 H2 H3 Ht1 Ht3. set (x := u64 (mreg a3 s + mreg a2 s)).
  assert (nregs t1 = 32%nat) as Hnt by (subst t1; by rewrite m_sd_nregs, set_nregs).
  assert (reg a1 (cpu (w_cpu (set_reg a1 2) t1)) = 2) as Htwo.
  { apply reg_set_eq. change (a1 < nregs t1)%nat. rewrite Hnt. unfold a1. lia. }
  rewrite Htwo in Ht3.
  set (t2 := w_csr (w_sip 2) (w_cpu (set_reg a1 2) t1)) in *.
  assert (nregs t2 = 32%nat) as Hn2.
  { unfold t2. rewrite Ht1. unfold nregs. cbn. rewrite !length_insert. exact Hn. }
  assert (forall r, r <> a1 -> r <> a3 -> mreg r t2 = mreg r s) as Hr2.
  { intros r Hr1 Hr3. unfold t2. rewrite Ht1. change (mreg r (w_cpu (set_reg a1 2) (w_cpu (fun t => set_reg a3 (u64 (reg a3 t + reg a2 t)) t) s)) = mreg r s).
    rewrite (set_ne r a1 (fun _ => 2)), (set_ne r a3 (fun t => u64 (reg a3 t + reg a2 t))) by done. done. }
  assert (memory t2 = st64 (memory s) cmp x) as Hm2.
  { change (memory t2) with (memory t1). rewrite Ht1, m_sd_mem, (set_ne a1 a3 (fun t => u64 (reg a3 t + reg a2 t))) by done.
    rewrite (set_eq a3 (fun t => u64 (reg a3 t + reg a2 t))) by (rewrite Hn; unfold a3; lia). by rewrite Ha1, Z.add_0_r. }
  assert (mreg a0 t2 = sc) as Ha by (rewrite Hr2 by done; exact Ha0).
  assert (forall k, 0 <= k <= 16 -> ld64 (memory t2) (sc + k) = ld64 (memory s) (sc + k)) as Hld.
  { intros k Hk. rewrite Hm2. apply ld64_st64_ne. lia. }
  rewrite Ht3. split_and!.
  - by rewrite !m_ld_nregs.
  - rewrite !m_ld_csr. unfold t2. by rewrite Ht1.
  - rewrite !m_ld_ne by done. exact Ha.
  - rewrite m_ld_eq by (rewrite !m_ld_nregs, Hn2; unfold a1; lia). rewrite !m_ld_mem, !(m_ld_ne a0), Ha by done.
    rewrite Hld, Z.add_0_r by lia. exact H1.
  - rewrite (m_ld_ne a2), m_ld_eq by (done || (rewrite !m_ld_nregs, Hn2; unfold a2; lia)).
    rewrite !m_ld_mem, !(m_ld_ne a0), Ha by done. rewrite Hld by lia. exact H2.
  - rewrite !(m_ld_ne a3), m_ld_eq by (done || (rewrite Hn2; unfold a3; lia)). rewrite Ha, Hld by lia. exact H3.
  - intros r Hr1 Hr3 Hr4. rewrite !m_ld_ne by done. by apply Hr2.
  - rewrite !m_ld_mem. exact Hm2.
Qed.

(** The machine-mode handler, split where the two lemmas split it. *)
Lemma timervec_halves s :
  timervec s =
  let s1 := csrrw_a0 s in
  let s2 := m_ld a3 a1 0 (m_ld a2 a0 32 (m_ld a1 a0 24 (m_sd a3 a0 16 (m_sd a2 a0 8 (m_sd a1 a0 0 s1))))) in
  let t1 := m_sd a3 a1 0 (w_cpu (fun t => set_reg a3 (u64 (reg a3 t + reg a2 t)) t) s2) in
  let t2 := w_csr (w_sip (reg a1 (cpu (w_cpu (set_reg a1 2) t1)))) (w_cpu (set_reg a1 2) t1) in
  mret_pc (csrrw_a0 (m_ld a1 a0 0 (m_ld a2 a0 8 (m_ld a3 a0 16 t2)))).
Proof. reflexivity. Qed.

Lemma csrrw_nregs s : nregs (csrrw_a0 s) = nregs s.
Proof. unfold nregs. cbn. by rewrite length_insert. Qed.
Lemma csrrw_eq s : (0 < nregs s - 10)%nat -> mreg a0 (csrrw_a0 s) = mscratch (csr s).
Proof. intros H. apply (set_eq a0 (fun _ => mscratch (csr s)) (w_csr (w_mscratch (reg a0 (cpu s))) s)). unfold a0, nregs in *. cbn. lia. Qed.
Lemma csrrw_ne r s : r <> a0 -> mreg r (csrrw_a0 s) = mreg r s.
Proof. intros H. by apply (set_ne r a0 (fun _ => mscratch (csr s)) (w_csr (w_mscratch (reg a0 (cpu s))) s)). Qed.


(** The state before the handler's last two instructions. *)
Lemma timervec_state scratch id s : timer_ready scratch id s ->
  exists t, timervec s = mret_pc (csrrw_a0 t) /\ nregs t = 32%nat /\
    csr t = w_sip 2 (w_mscratch (mreg a0 s) (csr s)) /\ mreg a0 t = scratch /\
    (forall r, r <> a0 -> mreg r t = mreg r s) /\
    memory t = st64 (st64 (st64 (st64 (memory s) scratch (mreg a1 s)) (scratch + 8) (mreg a2 s)) (scratch + 16) (mreg a3 s))
                 (CLINT_MTIMECMP id) (u64 (ld64 (memory s) (CLINT_MTIMECMP id) + 1000000)).
Proof.
  intros [Hn Hr Hsc Hcmp Hiv Hap]. set (cmp := CLINT_MTIMECMP id) in *. rewrite timervec_halves. cbv zeta.
  remember (csrrw_a0 s) as s1 eqn:E1.
  assert (mreg a0 s1 = scratch) as Ha0 by (rewrite E1, csrrw_eq by lia; exact Hsc).
  assert (forall r, r <> a0 -> mreg r s1 = mreg r s) as Hr1 by (intros; rewrite E1; by apply csrrw_ne).
  assert (nregs s1 = 32%nat) as Hn1 by (by rewrite E1, csrrw_nregs).
  assert (memory s1 = memory s) as Hm1 by (by rewrite E1).
  assert (csr s1 = w_mscratch (mreg a0 s) (csr s)) as Hc1 by (by rewrite E1).
  remember (m_ld a3 a1 0 _) as s2 eqn:E2.
  destruct (timer_first s1 scratch s2) as (Hn2 & Hc2 & Hb0 & Hb1 & Hb2 & Hb3 & Hr2 & Hm2); [done|done|by rewrite Hm1, Hcmp|done|].
  rewrite Hm1, Hcmp in Hb1. rewrite Hm1, Hiv in Hb2. rewrite Hm1, Hcmp in Hb3. rewrite Hm1, !Hr1 in Hm2 by done.
  clear E1 E2.
  remember (m_sd a3 a1 0 _) as t1 eqn:E3. remember (m_ld a1 a0 0 _) as t3 eqn:E4.
  destruct (timer_second s2 scratch cmp (mreg a1 s) (mreg a2 s) (mreg a3 s) t1 t3) as (Hn3 & Hc3 & Hd0 & Hd1 & Hd2 & Hd3 & Hr3 & Hm3); [done..| | | |done|done|].
  { rewrite Hm2, !ld64_st64_ne, ld64_st64 by (done || lia). done. }
  { rewrite Hm2, ld64_st64_ne, ld64_st64 by (done || lia). done. }
  { rewrite Hm2, ld64_st64 by done. done. }
  exists t3. split_and!; [done|done|by rewrite Hc3, Hc2, Hc1|done| |by rewrite Hm3, Hm2, Hb2, Hb3].
  intros r Hne. destruct (decide (r = a1)) as [->|]; [done|]. destruct (decide (r = a2)) as [->|]; [done|].
  destruct (decide (r = a3)) as [->|]; [done|]. by rewrite Hr3, Hr2, Hr1.
Qed.

(** C32: the machine-mode timer interrupt is transparent and keeps its own
    preparation.  From a state in which [timerinit]'s scratch area is in place,
    [timervec] returns to the interrupted instruction with every register as it
    was, a supervisor software interrupt pending, the next timer interrupt one
    interval later, no memory changed but its save area and the timer's register,
    and the scratch area still in place for the next interrupt. *)
Theorem timervec_transparent scratch id s : timer_ready scratch id s ->
  timer_ready scratch id (timervec s) /\ (forall r, mreg r (timervec s) = mreg r s) /\
  csr (timervec s) = w_sip 2 (csr s) /\ ts_pc (cpu (timervec s)) = mepc (csr s) /\
  ld64 (memory (timervec s)) (CLINT_MTIMECMP id) = u64 (ld64 (memory s) (CLINT_MTIMECMP id) + 1000000) /\
  (forall a, a < scratch \/ scratch + 24 <= a -> a < CLINT_MTIMECMP id \/ CLINT_MTIMECMP id + 8 <= a ->
             (memory (timervec s)).[a] = (memory s).[a]).
Proof.
  intros Hready. destruct (timervec_state scratch id s Hready) as (t3 & -> & Hn3 & Hc3 & Hd0 & Hr3 & Hm3).
  destruct Hready as [Hn Hr Hsc Hcmp Hiv Hap]. set (cmp := CLINT_MTIMECMP id) in *.
  assert (csr (csrrw_a0 t3) = w_sip 2 (csr s)) as Hcsr.
  { cbn. change (reg a0 (cpu t3)) with (mreg a0 t3). rewrite Hd0, Hc3, <- Hsc. by destruct (csr s). }
  assert (forall r, mreg r (csrrw_a0 t3) = mreg r s) as Hreg.
  { intros r. destruct (decide (r = a0)) as [->|Hne].
    - rewrite csrrw_eq by lia. by rewrite Hc3.
    - rewrite csrrw_ne by done. by apply Hr3. }
  assert (forall x, ld64 (memory (mret_pc (csrrw_a0 t3))) x = ld64 (memory t3) x) as Hld by done.
  assert (forall x, scratch + 24 <= x /\ x + 8 <= scratch + 40 -> ld64 (memory t3) x = ld64 (memory s) x) as Hkeep.
  { intros x Hx. rewrite Hm3, !ld64_st64_ne by lia. done. }
  split_and!.
  - split; rewrite ?Hld; fold cmp.
    + change (nregs (csrrw_a0 t3) = 32%nat). by rewrite csrrw_nregs.
    + intros r. change (0 <= mreg r (csrrw_a0 t3) < 18446744073709551616). rewrite Hreg. apply Hr.
    + change (mscratch (csr (csrrw_a0 t3)) = scratch). rewrite Hcsr. exact Hsc.
    + rewrite Hkeep by lia. exact Hcmp.
    + rewrite Hkeep by lia. exact Hiv.
    + exact Hap.
  - exact Hreg.
  - exact Hcsr.
  - change (mepc (csr (csrrw_a0 t3)) = mepc (csr s)). by rewrite Hcsr.
  - rewrite Hld, Hm3. apply ld64_st64, u64_range.
  - intros a Ha Hb. change ((memory t3).[a] = (memory s).[a]). rewrite Hm3, !st64_frame by lia. done.
Qed.

(** ** start reaches main in supervisor mode *)

Lemma mpp_supervisor x : Z.land (Z.shiftr (Z.lor (Z.lor (andnot64 x MSTATUS_MPP_MASK) MSTATUS_MPP_S) MSTATUS_MIE) 11) 3 = 1.
Proof.
  apply Z.bits_inj'. intros i Hi. rewrite Z.land_spec, Z.shiftr_spec, !Z.lor_spec by lia. unfold andnot64. rewrite Z.land_spec, Z.lxor_spec.
  destruct (decide (i = 0)) as [->|]; [cbn; by rewrite andb_false_r|]. destruct (decide (i = 1)) as [->|]; [cbn; by rewrite andb_false_r|].
  rewrite (Z.bits_above_log2 3 i), (Z.bits_above_log2 1 i) by (cbn; lia). apply andb_false_r.
Qed.

(** What hart [id] finds when [start] has returned to [main]. *)
Lemma start_ready scratch main_addr timervec_addr s :
  nregs s = 32%nat -> (forall r, 0 <= mreg r s < 18446744073709551616) ->
  0 <= mhartid (csr s) < 8 -> 2147483648 <= scratch ->
  let s' := start scratch main_addr timervec_addr s in
  timer_ready (scratch + 40 * mhartid (csr s)) (mhartid (csr s)) s' /\
  ts_pc (cpu s') = main_addr /\ mpp (csr s') = 1 /\ mreg tp s' = mhartid (csr s) /\
  mtvec (csr s') = timervec_addr /\ satp (csr s') = 0.
Proof.
  intros Hn Hr Hid Hsc s'. set (id := mhartid (csr s)) in *.
  set (m := st64 (st64 (st64 (memory s) (CLINT_MTIMECMP id) (u64 (ld64 (memory s) CLINT_MTIME + 1000000)))
                    (scratch + 40 * id + 24) (CLINT_MTIMECMP id)) (scratch + 40 * id + 32) 1000000).
  assert (memory s' = m) as Hm by done.
  assert (forall r, mreg r s' = reg r (set_reg tp id (cpu s))) as Hreg by done.
  split_and!; [split| | | | |]; rewrite ?Hm; try done.
  - unfold nregs. cbn. by rewrite length_insert.
  - intros r. rewrite Hreg. destruct (decide (r = tp)) as [->|]; [|rewrite reg_set_ne by done; apply Hr].
    rewrite reg_set_eq by (change (tp < nregs s)%nat; rewrite Hn; unfold tp; lia). lia.
  - unfold m. rewrite ld64_st64_ne, ld64_st64 by (unfold CLINT_MTIMECMP, CLINT; lia). done.
  - unfold m. apply ld64_st64. lia.
  - unfold CLINT_MTIMECMP, CLINT. lia.
  - apply mpp_supervisor.
  - rewrite Hreg. apply reg_set_eq. change (tp < nregs s)%nat. rewrite Hn. unfold tp. lia.
Qed.

(** The first timer interrupt of hart 2, taken in [main]. *)
Definition reset_demo : mach := Mach (Csrs 2 0 0 0 0 0 0 0 0 0 0 0 0) kernel_demo.
Definition started_demo : mach := start 2147520000 2147484000 2147510000 reset_demo.

Lemma timervec_transparent_witness :
  timer_ready 2147520080 2 (timervec started_demo) /\ ts_pc (cpu (timervec started_demo)) = 2147484000.
Proof.
  destruct (start_ready 2147520000 2147484000 2147510000 reset_demo eq_refl kernel_demo_range) as (Hready & Hpc & _);
    [cbn; lia|lia|]. fold started_demo in Hready, Hpc.
  destruct (timervec_transparent 2147520080 2 started_demo Hready) as (H1 & _ & _ & H2 & _).
  split; [exact H1|]. rewrite H2. reflexivity.
Defined.

(** ** Context switch *)

#[local] Opaque run_all.

Lemma context_layout_apart : ForallOrdPairs apart context_layout.
Proof. unfold context_layout. repeat (constructor; [repeat (constructor; [unfold apart; cbn; lia|]); constructor|]). constructor. Qed.
Lemma context_layout_nodup : NoDup (context_layout.*1).
Proof. apply (bool_decide_unpack _). by vm_compute. Qed.
Lemma context_layout_range x : x ∈ context_layout -> 0 <= x.2 /\ x.2 + 8 <= 112 /\ (x.1 < 32)%nat.
Proof.
  assert (Forall (fun x => 0 <= x.2 /\ x.2 + 8 <= 112 /\ (x.1 < 32)%nat) context_layout) as H.
  { apply (bool_decide_unpack _). by vm_compute. }
  rewrite list.Forall_forall in H. apply H.
Qed.

Lemma swtch_eq s t u : run_all (sd (reg a0 s)) context_layout s = t -> run_all (ld (reg a1 t)) context_layout t = u ->
  swtch s = mkts (ts_regs u) (ts_mem u) (ts_sscratch u) (ts_satp u) (reg ra u).
Proof. intros Ht Hu. cbv beta delta [swtch]. rewrite Ht. cbv zeta. by rewrite Hu. Qed.

(** The state between the stores and the loads. *)
Definition swtch_saved (s : tstate) : tstate := run_all (sd (reg a0 s)) context_layout s.

Lemma swtch_saved_regs s : ts_regs (swtch_saved s) = ts_regs s.
Proof. exact (run_sd_regs (reg a0 s) context_layout s). Qed.
Lemma swtch_saved_slot s x : x ∈ context_layout -> 0 <= reg x.1 s < 18446744073709551616 ->
  ld64 (ts_mem (swtch_saved s)) (reg a0 s + x.2) = reg x.1 s.
Proof. exact (run_sd_slot (reg a0 s) context_layout x s context_layout_apart). Qed.
Lemma swtch_saved_frame s a : (reg a0 s + 112 <= a \/ a + 8 <= reg a0 s) -> ld64 (ts_mem (swtch_saved s)) a = ld64 (ts_mem s) a.
Proof.
  intros Ha. refine (run_sd_frame (reg a0 s) context_layout a s _). intros y Hy.
  pose proof (context_layout_range y Hy). lia.
Qed.

Lemma swtch_state s : exists u, swtch s = mkts (ts_regs u) (ts_mem u) (ts_sscratch u) (ts_satp u) (reg ra u) /\
  ts_mem u = ts_mem (swtch_saved s) /\ length (ts_regs u) = length (ts_regs s) /\
  (forall x, x ∈ context_layout -> (x.1 < length (ts_regs s))%nat -> reg x.1 u = ld64 (ts_mem (swtch_saved s)) (reg a1 s + x.2)).
Proof.
  remember (swtch_saved s) as t eqn:Ht. remember (run_all (ld (reg a1 t)) context_layout t) as u eqn:Hu.
  assert (ts_regs t = ts_regs s) as Hr by (rewrite Ht; apply swtch_saved_regs).
  exists u. split_and!.
  - exact (swtch_eq s t u (eq_sym Ht) (eq_sym Hu)).
  - rewrite Hu. apply run_ld_mem.
  - rewrite Hu, run_ld_length. by rewrite Hr.
  - intros x Hx Hl. rewrite Hu, run_ld_slot; [|apply context_layout_nodup|done|by rewrite Hr]. unfold reg. by rewrite Hr.
Qed.

#[local] Opaque swtch swtch_saved.

Lemma swtch_mem s : ts_mem (swtch s) = ts_mem (swtch_saved s).
Proof. by destruct (swtch_state s) as (u & -> & Hm & _). Qed.
Lemma swtch_pc s : ts_pc (swtch s) = reg ra (swtch s).
Proof. by destruct (swtch_state s) as (u & -> & _). Qed.
Lemma swtch_length s : length (ts_regs (swtch s)) = length (ts_regs s).
Proof. by destruct (swtch_state s) as (u & -> & _ & Hl & _). Qed.
Lemma swtch_loads s x : length (ts_regs s) = 32%nat -> x ∈ context_layout ->
  reg x.1 (swtch s) = ld64 (ts_mem (swtch_saved s)) (reg a1 s + x.2).
Proof.
  intros Hl Hx. destruct (swtch_state s) as (u & -> & _ & _ & H). change (reg x.1 u = ld64 (ts_mem (swtch_saved s)) (reg a1 s + x.2)).
  apply H; [done|]. rewrite Hl. by apply context_layout_range.
Qed.

(** C34: a kernel thread that [swtch] switches out resumes where it was.  Let [s]
    call [swtch], and let [k] be any later state, on any hart, that calls [swtch]
    with [s]'s context as the new one, that context being as [s] left it and apart
    from the one [k] saves to: then every register a function call preserves has
    [s]'s value, and execution continues at [s]'s return address. *)
Theorem swtch_resumes s k :
  length (ts_regs s) = 32%nat -> (forall r, 0 <= reg r s < 18446744073709551616) -> length (ts_regs k) = 32%nat ->
  reg a1 k = reg a0 s -> (reg a0 k + 112 <= reg a0 s \/ reg a0 s + 112 <= reg a0 k) ->
  (forall a, reg a0 s <= a < reg a0 s + 112 -> (ts_mem k).[a] = (ts_mem (swtch s)).[a]) ->
  (forall x, x ∈ context_layout -> reg x.1 (swtch k) = reg x.1 s) /\ ts_pc (swtch k) = reg ra s.
Proof.
  intros Hs Hr Hk Ha1 Hap Hkeep.
  assert (forall x, x ∈ context_layout -> reg x.1 (swtch k) = reg x.1 s) as Hreg.
  { intros x Hx. destruct (context_layout_range x Hx) as (H1 & H2 & _). rewrite swtch_loads, Ha1 by done.
    rewrite swtch_saved_frame by lia. rewrite (ld64_ext _ (ts_mem (swtch s))) by (intros; apply Hkeep; lia).
    rewrite swtch_mem. by apply swtch_saved_slot. }
  split; [exact Hreg|]. rewrite swtch_pc. apply (Hreg (ra, 0)). by left.
Qed.

(** The scheduler of another hart resumes the thread. *)
Definition resumer (s : tstate) : tstate := set_reg a0 50000 (set_reg a1 (reg a0 s) (swtch s)).

Lemma resumer_regs s : length (ts_regs s) = 32%nat ->
  length (ts_regs (resumer s)) = 32%nat /\ reg a1 (resumer s) = reg a0 s /\ reg a0 (resumer s) = 50000 /\
  ts_mem (resumer s) = ts_mem (swtch s).
Proof.
  intros H. assert (length (ts_regs (swtch s)) = 32%nat) as Hl by (by rewrite swtch_length).
  unfold resumer. generalize dependent (swtch s). intros w Hl. split_and!.
  - cbn. by rewrite !length_insert.
  - rewrite reg_set_ne by done. apply reg_set_eq. rewrite Hl. unfold a1. lia.
  - apply reg_set_eq. cbn. rewrite length_insert, Hl. unfold a0. lia.
  - done.
Qed.

Lemma swtch_resumes_witness :
  (forall x, x ∈ context_layout -> reg x.1 (swtch (resumer kernel_demo)) = reg x.1 kernel_demo) /\
  ts_pc (swtch (resumer kernel_demo)) = 1001.
Proof.
  destruct (resumer_regs kernel_demo eq_refl) as (H1 & H2 & H3 & H4).
  change 1001 with (reg ra kernel_demo).
  apply (swtch_resumes kernel_demo (resumer kernel_demo) eq_refl kernel_demo_range H1 H2);
    [rewrite H3; right|intros a _; by rewrite H4].
  change (reg a0 kernel_demo) with 1010. lia.
Defined.
