(* ===== verification/User.v ===== *)
(** * User space: processes and the C library (user/user.h, user/ulib.c)

    A user program runs on its own byte memory and talks to the kernel by system
    calls.  What the kernel answers is the list [u_answers] that accompanies the
    state: a theorem that holds for every list of answers holds whatever the
    kernel and the other processes do.  Every call made is recorded, with the
    bytes and strings the kernel would read from the memory, and with its
    answer.

    A program returns, or exits, or performs an access C leaves undefined, or
    waits for an answer that is not there yet, or (a loop of the model) has used
    its fuel. *)

From S2P Require Import Prelude KString.

(** ** System calls (user.h, usys.pl) *)

Inductive call : Type :=
| Cfork
| Cexit (status : Z)
| Cwait (addr : Z)
| Cpipe
| Cwrite (fd : Z) (data : list Z)
| Cread (fd n : Z)
| Cclose (fd : Z)
| Ckill (pid : Z)
| Cexec (path : list Z) (argv : list (list Z))
| Copen (path : list Z) (mode : Z)
| Cmknod (path : list Z) (major minor : Z)
| Cunlink (path : list Z)
| Cfstat (fd : Z)
| Clink (old new : list Z)
| Cmkdir (path : list Z)
| Cchdir (path : list Z)
| Cdup (fd : Z)
| Cgetpid
| Csbrk (n : Z)
| Csleep (n : Z)
| Cuptime
| Cps (start count : Z)
| Cschedls
| Cschedset (id : Z).

#[export] Instance call_eq_dec : EqDecision call.
Proof. solve_decision. Defined.

(** The value a system call returns in [a0] and the bytes the kernel copies to
    the buffer the call was given, if it was given one. *)
Record answer : Type := Answer { a_ret : Z; a_data : list Z }.

(** The callee-saved registers and [ra], [sp], as [struct context] holds them. *)
Definition NCONTEXT : nat := 14.

(** The static variables of the library: the free-list pointer of [umalloc.c],
    and the thread table of [uthread.c]. *)
Record statics : Type := Statics {
  s_freep : Z;
  s_thread_count : Z;
  s_threads : list Z;
  s_current_thread : Z
}.

(** A process: its memory, its static variables, the registers of the running
    thread, the kernel's answers, the calls made, and what the other threads do
    to memory and statics each time the thread switches away. *)
Record ust : Type := Ust {
  u_mem : gmap Z Z;
  u_static : statics;
  u_regs : list Z;
  u_answers : list answer;
  u_trace : list (call * answer);
  u_switches : list (gmap Z Z -> statics -> gmap Z Z * statics)
}.

Definition set_mem (f : gmap Z Z -> gmap Z Z) (s : ust) : ust :=
  Ust (f (u_mem s)) (u_static s) (u_regs s) (u_answers s) (u_trace s) (u_switches s).
Definition set_static (f : statics -> statics) (s : ust) : ust :=
  Ust (u_mem s) (f (u_static s)) (u_regs s) (u_answers s) (u_trace s) (u_switches s).
Definition set_regs (r : list Z) (s : ust) : ust :=
  Ust (u_mem s) (u_static s) r (u_answers s) (u_trace s) (u_switches s).
Definition set_kernel (a : list answer) (c : list (call * answer)) (s : ust) : ust :=
  Ust (u_mem s) (u_static s) (u_regs s) a c (u_switches s).
Definition set_switches (l : list (gmap Z Z -> statics -> gmap Z Z * statics)) (s : ust) : ust :=
  Ust (u_mem s) (u_static s) (u_regs s) (u_answers s) (u_trace s) l.

Definition set_freep (p : Z) : ust -> ust :=
  set_static (fun t => Statics p (s_thread_count t) (s_threads t) (s_current_thread t)).
Definition set_thread_count (n : Z) : ust -> ust :=
  set_static (fun t => Statics (s_freep t) n (s_threads t) (s_current_thread t)).
Definition set_threads (l : list Z) : ust -> ust :=
  set_static (fun t => Statics (s_freep t) (s_thread_count t) l (s_current_thread t)).
Definition set_current_thread (p : Z) : ust -> ust :=
  set_static (fun t => Statics (s_freep t) (s_thread_count t) (s_threads t) p).

(** ** The user monad *)

Inductive ures (A : Type) : Type :=
| URet (a : A) (s : ust)
| UExit (status : Z) (s : ust)
| UFault (msg : string)
| UWait (s : ust)
| UFuel.
Arguments URet {A} _ _.
Arguments UExit {A} _ _.
Arguments UFault {A} _.
Arguments UWait {A} _.
Arguments UFuel {A}.

Definition U (A : Type) : Type := ust -> ures A.

#[export] Instance U_ret : MRet U := fun A a s => URet a s.
#[export] Instance U_bind : MBind U := fun A B k c s =>
  match c s with
  | URet a s => k a s
  | UExit v s => UExit v s
  | UFault msg => UFault msg
  | UWait s => UWait s
  | UFuel => UFuel
  end.

Definition ufault {A : Type} (msg : string) : U A := fun _ => UFault msg.
Definition ufuel {A : Type} : U A := fun _ => UFuel.
Definition ugets {A : Type} (f : ust -> A) : U A := fun s => URet (f s) s.
Definition umodify (f : ust -> ust) : U unit := fun s => URet tt (f s).
Definition uwhen (b : bool) (c : U unit) : U unit := if b then c else mret tt.
Definition mem : U (gmap Z Z) := ugets u_mem.
Definition put_mem (m : gmap Z Z) : U unit := umodify (set_mem (fun _ => m)).

(** [for x in xs: body x]. *)
Fixpoint ufor {X : Type} (xs : list X) (body : X -> U unit) : U unit :=
  match xs with
  | [] => mret tt
  | x :: xs => body x;; ufor xs body
  end.

(** A system call: recorded with its answer.  [fit] is what the call guarantees
    of every answer. *)
Definition ecall_fit (fit : answer -> answer) (c : call) : U answer := fun s =>
  match u_answers s with
  | [] => UWait s
  | a :: r => URet (fit a) (set_kernel r (u_trace s ++ [(c, fit a)]) s)
  end.
Definition ecall : call -> U answer := ecall_fit id.

(** [read] delivers at most [n] bytes and returns their number, or -1. *)
Definition read_fit (n : Z) (a : answer) : answer :=
  if a_ret a <? 0 then Answer (-1) []
  else let d := u8 <$> take (Z.to_nat n) (a_data a) in Answer (length d) d.

Definition ret32 (c : call) : U Z := a ← ecall c; mret (s32 (a_ret a)).

Definition fork : U Z := ret32 Cfork.
Definition exit {A : Type} (status : Z) : U A := fun s => UExit status (set_kernel (u_answers s) (u_trace s ++ [(Cexit status, Answer 0 [])]) s).
Definition wait (addr : Z) : U Z := ret32 (Cwait addr).
(** [pipe(p)]: the result and the two descriptors. *)
Definition pipe : U (Z * Z * Z) :=
  a ← ecall Cpipe; mret (s32 (a_ret a), s32 (get_le 4 0 (a_data a)), s32 (get_le 4 4 (a_data a))).
(** [write] of bytes that are not in the modelled memory (a literal, a local). *)
Definition write_bytes (fd : Z) (data : list Z) : U Z := ret32 (Cwrite fd data).
Definition write (fd p n : Z) : U Z := m ← mem; write_bytes fd (rd_bytes (Z.to_nat n) m p).
(** [read] into a local variable, and into memory. *)
Definition read_bytes (fd n : Z) : U (Z * list Z) := a ← ecall_fit (read_fit n) (Cread fd n); mret (s32 (a_ret a), a_data a).
Definition read (fd p n : Z) : U Z :=
  '(r, data) ← read_bytes fd n;
  umodify (set_mem (fun m => wr_bytes m p data));; mret r.
Definition close (fd : Z) : U Z := ret32 (Cclose fd).
Definition kill (pid : Z) : U Z := ret32 (Ckill pid).
Definition exec (path : list Z) (argv : list (list Z)) : U Z := ret32 (Cexec path argv).
Definition open (path : list Z) (mode : Z) : U Z := ret32 (Copen path mode).
Definition mknod (path : list Z) (major minor : Z) : U Z := ret32 (Cmknod path major minor).
Definition unlink (path : list Z) : U Z := ret32 (Cunlink path).
Definition fstat (fd : Z) : U (Z * list Z) := a ← ecall (Cfstat fd); mret (s32 (a_ret a), a_data a).
Definition link (old new : list Z) : U Z := ret32 (Clink old new).
Definition mkdir (path : list Z) : U Z := ret32 (Cmkdir path).
Definition chdir (path : list Z) : U Z := ret32 (Cchdir path).
Definition dup (fd : Z) : U Z := ret32 (Cdup fd).
Definition sbrk (n : Z) : U Z := a ← ecall (Csbrk n); mret (u64 (a_ret a)).
Definition sleep (n : Z) : U Z := ret32 (Csleep n).
Definition uptime : U Z := ret32 Cuptime.
(** [ps] returns the address of the table the kernel filled in. *)
Definition ps (start count : Z) : U Z :=
  a ← ecall (Cps (u8 start) (u8 count)); 
  umodify (set_mem (fun m => wr_bytes m (u64 (a_ret a)) (a_data a)));; mret (u64 (a_ret a)).
Definition schedls : U Z := a ← ecall Cschedls; mret (u64 (a_ret a)).
Definition schedset (id : Z) : U Z := ret32 (Cschedset id).

Definition O_RDONLY : Z := 0.
Definition O_WRONLY : Z := 1.
Definition O_RDWR : Z := 2.
Definition O_CREATE : Z := 512.
Definition O_TRUNC : Z := 1024.

(** ** ulib.c

    A memory that is a finite map has zero bytes almost everywhere, so a loop
    over a string ends: [cfuel] bounds its length. *)
Definition cfuel (m : gmap Z Z) : nat := S (size m).

Fixpoint strcpy_loop (fuel : nat) (m : gmap Z Z) (s t : Z) : option (gmap Z Z) :=
  match fuel with
  | O => None
  | S fuel =>
      let c := m.[t] in
      let m := m.[s <- c] in
      if c =? 0 then Some m else strcpy_loop fuel m (s + 1) (t + 1)
  end.

Definition strcpy (s t : Z) : U Z :=
  m ← mem;
  match strcpy_loop (cfuel m) m s t with
  | Some m => put_mem m;; mret s
  | None => ufuel
  end.

Fixpoint strcmp_loop (fuel : nat) (m : gmap Z Z) (p q : Z) : Z :=
  match fuel with
  | O => 0
  | S fuel =>
      if negb (m.[p] =? 0) && (m.[p] =? m.[q])
      then strcmp_loop fuel m (p + 1) (q + 1)
      else m.[p] - m.[q]
  end.

Definition strcmp (m : gmap Z Z) (p q : Z) : Z := strcmp_loop (cfuel m) m p q.

Fixpoint strlen_loop (fuel : nat) (m : gmap Z Z) (s n : Z) : Z :=
  match fuel with
  | O => n
  | S fuel => if m.[s + n] =? 0 then n else strlen_loop fuel m s (n + 1)
  end.

Definition strlen (m : gmap Z Z) (s : Z) : Z := strlen_loop (cfuel m) m s 0.

(** The bytes of the string at [s], as the kernel reads them. *)
Definition string_at (m : gmap Z Z) (s : Z) : list Z := cpre (cfuel m) m s.

Definition memset (m : gmap Z Z) (dst c n : Z) : gmap Z Z := memset_loop (Z.to_nat (u32 n)) m dst 0 c.

Fixpoint strchr_loop (fuel : nat) (m : gmap Z Z) (s c : Z) : Z :=
  match fuel with
  | O => 0
  | S fuel => if m.[s] =? 0 then 0 else if m.[s] =? c then s else strchr_loop fuel m (s + 1) c
  end.

(** The address of the first [c] in the string at [s], or 0. *)
Definition strchr (m : gmap Z Z) (s c : Z) : Z := strchr_loop (cfuel m) m s c.

(** [strchr] on a literal: whether it finds the character. *)
Fixpoint strchr_lit (l : list Z) (c : Z) : bool :=
  match l with
  | [] => false
  | x :: l => if x =? c then true else strchr_lit l c
  end.

(** The loop of [gets]; [k] bounds the characters that still fit. *)
Fixpoint gets_loop (k : nat) (buf i : Z) : U Z :=
  match k with
  | O => mret i
  | S k =>
      '(cc, d) ← read_bytes 0 1;
      if cc <? 1 then mret i
      else
        let c := default 0 (head d) in
        umodify (set_mem (fun m => m.[buf + i <- c]));;
        if (c =? 10) || (c =? 13) then mret (i + 1) else gets_loop k buf (i + 1)
  end.

Definition gets (buf max : Z) : U Z :=
  i ← gets_loop (Z.to_nat (max - 1)) buf 0;
  umodify (set_mem (fun m => m.[buf + i <- 0]));;
  mret buf.

(** [stat]: the result of [fstat] on the opened file. *)
Definition stat (n : list Z) : U (Z * list Z) :=
  fd ← open n O_RDONLY;
  if fd <? 0 then mret (-1, [])
  else
    r ← fstat fd;
    close fd;;
    mret r.

Fixpoint atoi_loop (s : list Z) (n : Z) : Z :=
  match s with
  | [] => n
  | c :: s => if (48 <=? c) && (c <=? 57) then atoi_loop s (s32 (n * 10 + c - 48)) else n
  end.

(** [atoi], on the characters of its argument. *)
Definition atoi (s : list Z) : Z := atoi_loop s 0.

Definition memmove (m : gmap Z Z) (vdst vsrc n : Z) : gmap Z Z :=
  if vdst <? vsrc then copy_up (Z.to_nat n) m vdst vsrc
  else copy_down (Z.to_nat n) m (vdst + n) (vsrc + n).

Definition memcmp (m : gmap Z Z) (s1 s2 n : Z) : Z := memcmp_loop (Z.to_nat (u32 n)) m s1 s2.

Definition memcpy (m : gmap Z Z) (dst src n : Z) : gmap Z Z := memmove m dst src (s32 (u32 n)).

(** ** Specifications of user programs

    [uspec c Q X W s]: run on [s], [c] never faults and never runs out of fuel;
    [Q] holds if it returns, [X] if it exits, [W] if it ends waiting for an
    answer. *)
Definition uspec {A : Type} (c : U A) (Q : A -> ust -> Prop) (X : Z -> ust -> Prop) (W : ust -> Prop) (s : ust) : Prop :=
  match c s with
  | URet a s => Q a s
  | UExit v s => X v s
  | UWait s => W s
  | UFault _ => False
  | UFuel => False
  end.

Section Uspec.
Context {A B : Type}.
Implicit Types (X : Z -> ust -> Prop) (W : ust -> Prop).

Lemma uspec_ret (a : A) (Q : A -> ust -> Prop) X W s : Q a s -> uspec (mret a) Q X W s.
Proof. done. Qed.

Lemma uspec_bind (c : U A) (k : A -> U B) (Q : B -> ust -> Prop) X W s :
  uspec c (fun a s => uspec (k a) Q X W s) X W s -> uspec (c ≫= k) Q X W s.
Proof. unfold uspec, mbind, U_bind. by destruct (c s). Qed.

Lemma uspec_mono (c : U A) (Q Q' : A -> ust -> Prop) (X X' : Z -> ust -> Prop) (W W' : ust -> Prop) s :
  uspec c Q X W s -> (forall a s, Q a s -> Q' a s) -> (forall v s, X v s -> X' v s) -> (forall s, W s -> W' s) ->
  uspec c Q' X' W' s.
Proof. unfold uspec. destruct (c s); naive_solver. Qed.

Lemma uspec_eq (c : U A) (a : A) s' (Q : A -> ust -> Prop) X W s : c s = URet a s' -> Q a s' -> uspec c Q X W s.
Proof. intros H HQ. unfold uspec. by rewrite H. Qed.

Lemma uspec_gets (f : ust -> A) (Q : A -> ust -> Prop) X W s : Q (f s) s -> uspec (ugets f) Q X W s.
Proof. done. Qed.

Lemma uspec_modify (f : ust -> ust) (Q : unit -> ust -> Prop) X W s : Q tt (f s) -> uspec (umodify f) Q X W s.
Proof. done. Qed.

Lemma uspec_exit (v : Z) (Q : A -> ust -> Prop) X W s :
  X v (set_kernel (u_answers s) (u_trace s ++ [(Cexit v, Answer 0 [])]) s) -> uspec (exit v) Q X W s.
Proof. done. Qed.

Lemma uspec_ecall fit c (Q : answer -> ust -> Prop) X W s :
  (u_answers s = [] -> W s) ->
  (forall a r, u_answers s = a :: r -> Q (fit a) (set_kernel r (u_trace s ++ [(c, fit a)]) s)) ->
  uspec (ecall_fit fit c) Q X W s.
Proof. intros Hw Hq. unfold uspec, ecall_fit. destruct (u_answers s); auto. Qed.
End Uspec.

Ltac uspec_step :=
  lazymatch goal with
  | |- uspec (mbind _ _) _ _ _ _ => apply uspec_bind
  | |- uspec (mret _) _ _ _ _ => apply uspec_ret
  | |- uspec mem _ _ _ _ => apply uspec_gets
  | |- uspec (ugets _) _ _ _ _ => apply uspec_gets
  | |- uspec (put_mem _) _ _ _ _ => apply uspec_modify
  | |- uspec (umodify _) _ _ _ _ => apply uspec_modify
  | |- uspec (exit _) _ _ _ _ => apply uspec_exit
  end; cbn beta.
Ltac uspec_steps := repeat uspec_step.

(** ** Strings in memory

    Every address of a memory starts a string: the bytes before the first NUL. *)

Lemma cstr_dom m a l : cstr m a l -> forall i : nat, (i < length l)%nat -> is_Some (m !! (a + i)).
Proof.
  revert a. induction l as [|c l IH]; intros a; cbn [cstr length]; [lia|]. intros (Hc & Hn & Hl) i Hi.
  destruct i as [|i].
  - rewrite Z.add_0_r. unfold rd in Hc. destruct (m !! a) as [v|] eqn:E; [by eexists|]. cbn in Hc. subst. done.
  - replace (a + S i) with (a + 1 + i) by lia. apply IH; [done|lia].
Qed.

Lemma run_size (m : gmap Z Z) a (n : nat) : (forall i : nat, (i < n)%nat -> is_Some (m !! (a + i))) -> (n <= size m)%nat.
Proof.
  intros H. rewrite <- size_dom.
  assert (size (list_to_set ((fun i : nat => a + i) <$> seq 0 n) : gset Z) = n) as Hn.
  { rewrite size_list_to_set, length_fmap, length_seq; [done|].
    apply NoDup_fmap_2; [intros x y; lia|apply NoDup_seq]. }
  rewrite <- Hn. apply subseteq_size. intros x. rewrite elem_of_list_to_set, list_elem_of_fmap.
  intros (i & -> & Hi%elem_of_seq). apply elem_of_dom, H. lia.
Qed.

Lemma cstr_cfuel m a l : cstr m a l -> (length l < cfuel m)%nat.
Proof. intros H. unfold cfuel. pose proof (run_size m a (length l) (cstr_dom _ _ _ H)). lia. Qed.

Lemma cpre_cstr k m a : (length (cpre k m a) < k)%nat -> cstr m a (cpre k m a).
Proof.
  revert a. induction k as [|k IH]; intros a; cbn [cpre]; [lia|].
  destruct (Z.eqb_spec (m.[a]) 0) as [E|E]; cbn [length cstr]; [done|]. intros H. split_and!; [done|done|]. apply IH. lia.
Qed.

Lemma cpre_dom k m a : forall i : nat, (i < length (cpre k m a))%nat -> is_Some (m !! (a + i)).
Proof.
  revert a. induction k as [|k IH]; intros a i; cbn [cpre]; [cbn; lia|].
  destruct (Z.eqb_spec (m.[a]) 0) as [E|E]; cbn [length]; [lia|]. intros Hi. destruct i as [|i].
  - rewrite Z.add_0_r. unfold rd in E. destruct (m !! a) as [v|]; [by eexists|]. done.
  - replace (a + S i) with (a + 1 + i) by lia. apply IH. lia.
Qed.

(** The string at an address always exists. *)
Lemma string_at_cstr m a : cstr m a (string_at m a).
Proof.
  apply cpre_cstr. pose proof (run_size m a _ (cpre_dom (cfuel m) m a)). unfold cfuel at 2. lia.
Qed.

Lemma cstr_fun m a l1 l2 : cstr m a l1 -> cstr m a l2 -> l1 = l2.
Proof.
  revert a l2. induction l1 as [|c l1 IH]; intros a [|d l2]; cbn [cstr]; intros H1 H2; try done.
  - destruct H2 as (? & ? & ?). congruence.
  - destruct H1 as (? & ? & ?). congruence.
  - destruct H1 as (? & ? & ?), H2 as (? & ? & ?). f_equal; [congruence|by eapply IH].
Qed.

Lemma string_at_eq m a l : cstr m a l -> string_at m a = l.
Proof. intros H. eapply cstr_fun; [apply string_at_cstr|done]. Qed.

Lemma cstr_drop m a l (i : nat) : cstr m a l -> (i <= length l)%nat -> cstr m (a + i) (drop i l).
Proof.
  revert a l. induction i as [|i IH]; intros a l H Hi.
  { by rewrite Z.add_0_r, drop_0. }
  destruct l as [|c l]; [cbn in Hi; lia|]. destruct H as (? & ? & H). cbn [drop].
  replace (a + S i) with (a + 1 + i) by lia. apply IH; [done|cbn in Hi; lia].
Qed.

Lemma cstr_ext m1 m2 a l : (forall b, a <= b <= a + length l -> m1.[b] = m2.[b]) -> cstr m1 a l -> cstr m2 a l.
Proof.
  revert a. induction l as [|c l IH]; intros a; cbn [cstr length]; intros He.
  - intros H. rewrite <- (He a); [done|lia].
  - intros (H1 & H2 & H3). split_and!; [rewrite <- (He a); [done|lia]|done|].
    apply IH; [|done]. intros b Hb. apply He. lia.
Qed.

Lemma strlen_loop_eq fuel m s n l : cstr m (s + n) l -> (length l < fuel)%nat -> strlen_loop fuel m s n = n + length l.
Proof.
  revert n l. induction fuel as [|fuel IH]; intros n l Hs Hf; [lia|]. cbn [strlen_loop].
  destruct l as [|c l]; cbn [cstr] in Hs.
  - rewrite Hs, Z.eqb_refl. cbn. lia.
  - destruct Hs as (H1 & H2 & H3). destruct (Z.eqb_spec (m.[s + n]) 0); [congruence|].
    rewrite (IH (n + 1) l); [cbn [length]; lia| |cbn in Hf; lia]. by replace (s + (n + 1)) with (s + n + 1) by lia.
Qed.

(** [strlen] returns the length of the string. *)
Lemma strlen_eq m s l : cstr m s l -> strlen m s = length l.
Proof. intros H. unfold strlen. rewrite (strlen_loop_eq _ _ _ _ l); [lia|by rewrite Z.add_0_r|by eapply cstr_cfuel]. Qed.

(** [strcmp] compares the strings. *)
Lemma strcmp_loop_eq fuel m p q : strcmp_loop fuel m p q = strncmp_loop fuel m p q.
Proof. revert p q. induction fuel as [|fuel IH]; intros p q; cbn; [done|]. by rewrite IH. Qed.

Lemma cpre_full m a k l : cstr m a l -> (length l <= k)%nat -> cpre k m a = l.
Proof.
  revert a l. induction k as [|k IH]; intros a l Hl Hk; cbn [cpre].
  - by destruct l; [|cbn in Hk; lia].
  - destruct l as [|c l]; cbn [cstr] in Hl; [by rewrite Hl|]. destruct Hl as (H1 & H2 & H3).
    destruct (Z.eqb_spec (m.[a]) 0); [congruence|]. rewrite H1. f_equal. apply IH; [done|cbn in Hk; lia].
Qed.

Lemma strcmp_eq m p q l1 l2 : cstr m p l1 -> cstr m q l2 -> strcmp m p q = lexcmp l1 l2.
Proof.
  intros H1 H2. unfold strcmp. rewrite strcmp_loop_eq, strncmp_loop_lex.
  pose proof (cstr_cfuel _ _ _ H1). pose proof (cstr_cfuel _ _ _ H2).
  rewrite (cpre_full _ _ _ _ H1), (cpre_full _ _ _ _ H2) by lia. done.
Qed.

Lemma strchr_loop_none fuel m s c l : cstr m s l -> c ∉ l -> strchr_loop fuel m s c = 0.
Proof.
  revert s l. induction fuel as [|fuel IH]; intros s l Hs Hc; cbn [strchr_loop]; [done|].
  destruct l as [|x l]; cbn [cstr] in Hs.
  - by rewrite Hs.
  - destruct Hs as (-> & H2 & H3). rewrite not_elem_of_cons in Hc. destruct Hc as [Hc1 Hc2].
    destruct (Z.eqb_spec x 0); [done|]. destruct (Z.eqb_spec x c); [congruence|]. by eapply IH.
Qed.

Lemma strchr_loop_some fuel m s c l1 l2 : cstr m s (l1 ++ c :: l2) -> c ∉ l1 -> (length l1 < fuel)%nat ->
  strchr_loop fuel m s c = s + length l1.
Proof.
  revert s l1. induction fuel as [|fuel IH]; intros s l1 Hs Hc Hf; cbn [strchr_loop]; [lia|].
  destruct l1 as [|x l1]; cbn [cstr app] in Hs; destruct Hs as (-> & H2 & H3).
  - destruct (Z.eqb_spec c 0); [done|]. rewrite Z.eqb_refl. cbn. lia.
  - rewrite not_elem_of_cons in Hc. destruct Hc as [Hc1 Hc2].
    destruct (Z.eqb_spec x 0); [done|]. destruct (Z.eqb_spec x c); [congruence|].
    rewrite (IH _ l1); [cbn [length]; lia|done|done|cbn in Hf; lia].
Qed.

(** [strchr] finds the first occurrence. *)
Lemma strchr_none m s c l : cstr m s l -> c ∉ l -> strchr m s c = 0.
Proof. apply strchr_loop_none. Qed.
Lemma strchr_some m s c l1 l2 : cstr m s (l1 ++ c :: l2) -> c ∉ l1 -> strchr m s c = s + length l1.
Proof.
  intros H Hc. apply (strchr_loop_some _ _ _ _ _ l2); [done|done|]. apply cstr_cfuel in H. rewrite length_app in H. lia.
Qed.

Lemma strchr_lit_iff l c : strchr_lit l c = true <-> c ∈ l.
Proof.
  induction l as [|x l IH]; cbn; [set_solver|]. rewrite elem_of_cons.
  destruct (Z.eqb_spec x c); [naive_solver|]. rewrite IH. naive_solver.
Qed.

(** [memmove] copies as if through a temporary buffer. *)
Lemma memmove_at m dst src n a : 0 <= n ->
  (memmove m dst src n).[a] = if decide (dst <= a < dst + n) then m.[src + (a - dst)] else m.[a].
Proof.
  intros Hn. unfold memmove. destruct (Z.ltb_spec dst src).
  - rewrite copy_up_spec by lia. rewrite Z2Nat.id by lia. done.
  - rewrite copy_down_spec by lia. rewrite Z2Nat.id by lia.
    replace (dst + n - n) with dst by lia. case_decide; [|done]. f_equal. lia.
Qed.
