(* ===== verification/Uprintf.v ===== *)
(** * user/printf.c: formatted output of user programs

    A format string is the list of its bytes; the variable arguments are values
    of [arg].  Every character is one [write] system call, as in the source. *)

From S2P Require Import Prelude KString User.

Inductive arg : Type :=
| Anum (x : Z)
| Astr (s : list Z)
| Anull.

Definition digits : list Z := bytes "0123456789ABCDEF".
Definition digit (i : Z) : Z := default 0 (digits !! Z.to_nat i).

Definition putc (fd c : Z) : U unit := write_bytes fd [u8 c];; mret tt.

(** [do buf[i++] = digits[x % base]; while((x /= base) != 0)]; [k] is the room
    left in [buf]. *)
Fixpoint printint_loop (k : nat) (x base : Z) (buf : list Z) : option (list Z) :=
  match k with
  | O => None
  | S k =>
      let buf := buf ++ [digit (x mod base)] in
      let x := x / base in
      if x =? 0 then Some buf else printint_loop k x base buf
  end.

(** The characters [printint] leaves in its 16-byte buffer, in buffer order;
    [None] if they do not fit. *)
Definition printint_buf (xx base : Z) (sgn : bool) : option (list Z) :=
  let neg := sgn && (xx <? 0) in
  let x := if neg then u32 (- xx) else u32 xx in
  buf ← printint_loop 16 x base [];
  if neg then (if (length buf <? 16)%nat then Some (buf ++ [45]) else None) else Some buf.

Definition printint (fd xx base : Z) (sgn : bool) : U unit :=
  match printint_buf (s32 xx) base sgn with
  | None => ufault "printint: buffer overflow"
  | Some buf => ufor (rev buf) (putc fd)
  end.

Fixpoint printptr_loop (k : nat) (fd x : Z) : U unit :=
  match k with
  | O => mret tt
  | S k => putc fd (digit (Z.shiftr x 60));; printptr_loop k fd (u64 (Z.shiftl x 4))
  end.

Definition printptr (fd x : Z) : U unit :=
  putc fd 48;; putc fd 120;; printptr_loop 16 fd (u64 x).

(** [va_arg] of the given kind: reading an argument that was not passed is
    undefined. *)
Definition va_num (ap : list arg) : U (Z * list arg) :=
  match ap with Anum x :: ap => mret (x, ap) | _ => ufault "va_arg" end.
Definition va_str (ap : list arg) : U (list Z * list arg) :=
  match ap with
  | Astr s :: ap => mret (s, ap)
  | Anull :: ap => mret (bytes "(null)", ap)
  | _ => ufault "va_arg"
  end.

(** The loop of [vprintf]: [pct] is [state == '%']. *)
Fixpoint vprintf_loop (fd : Z) (fmt : list Z) (pct : bool) (ap : list arg) : U unit :=
  match fmt with
  | [] => mret tt
  | c :: fmt =>
      if negb pct then
        if c =? 37 then vprintf_loop fd fmt true ap
        else putc fd c;; vprintf_loop fd fmt false ap
      else if c =? 100 then
        '(x, ap) ← va_num ap; printint fd x 10 true;; vprintf_loop fd fmt false ap
      else if c =? 108 then
        '(x, ap) ← va_num ap; printint fd x 10 false;; vprintf_loop fd fmt false ap
      else if c =? 120 then
        '(x, ap) ← va_num ap; printint fd x 16 false;; vprintf_loop fd fmt false ap
      else if c =? 112 then
        '(x, ap) ← va_num ap; printptr fd x;; vprintf_loop fd fmt false ap
      else if c =? 115 then
        '(s, ap) ← va_str ap; ufor s (putc fd);; vprintf_loop fd fmt false ap
      else if c =? 99 then
        '(x, ap) ← va_num ap; putc fd x;; vprintf_loop fd fmt false ap
      else if c =? 37 then
        putc fd c;; vprintf_loop fd fmt false ap
      else
        putc fd 37;; putc fd c;; vprintf_loop fd fmt false ap
  end.

Definition vprintf (fd : Z) (fmt : list Z) (ap : list arg) : U unit := vprintf_loop fd fmt false ap.
Definition fprintf (fd : Z) (fmt : string) (ap : list arg) : U unit := vprintf fd (bytes fmt) ap.
Definition printf (fmt : string) (ap : list arg) : U unit := vprintf 1 (bytes fmt) ap.

(** ** Output

    [prints fd out c]: whatever the kernel answers, [c] writes a prefix of the
    bytes [out] to [fd], one by one, and all of them if it returns; it makes no
    other call and leaves the memory alone. *)

Definition out_calls (fd : Z) (out : list Z) (rs : list answer) : list (call * answer) :=
  zip_with (fun c r => (Cwrite fd [c], r)) out rs.

Definition prints {A : Type} (fd : Z) (out : list Z) (c : U A) (P : A -> Prop) : Prop :=
  forall s,
    uspec c
      (fun a s' => P a /\ exists rs, length rs = length out /\ u_answers s = rs ++ u_answers s' /\
         s' = set_kernel (u_answers s') (u_trace s ++ out_calls fd out rs) s)
      (fun _ _ => False)
      (fun s' => u_answers s' = [] /\ (length (u_answers s) < length out)%nat /\
         s' = set_kernel [] (u_trace s ++ out_calls fd (take (length (u_answers s)) out) (u_answers s)) s) s.

Lemma prints_ret {A} fd (a : A) (P : A -> Prop) : P a -> prints fd [] (mret a) P.
Proof.
  intros H s. cbn. split; [done|]. exists []. split_and!; [done|done|]. rewrite app_nil_r. by destruct s.
Qed.

Lemma out_calls_app fd o1 o2 r1 r2 : length r1 = length o1 ->
  out_calls fd (o1 ++ o2) (r1 ++ r2) = out_calls fd o1 r1 ++ out_calls fd o2 r2.
Proof. intros H. apply zip_with_app. by rewrite H. Qed.

Lemma prints_bind {A B} fd o1 o2 (c : U A) (k : A -> U B) (P : A -> Prop) (P' : B -> Prop) :
  prints fd o1 c P -> (forall a, P a -> prints fd o2 (k a) P') -> prints fd (o1 ++ o2) (c ≫= k) P'.
Proof.
  intros H1 H2 s. apply uspec_bind. eapply uspec_mono; [apply H1|..]; [|done|].
  - intros a s' [Ha (rs & Hl & Hs & ->)]. eapply uspec_mono; [by apply H2|..]; cbn [u_answers u_trace set_kernel]; [|done|].
    + intros b s'' [Hb (rs' & Hl' & Hs' & ->)]. split; [done|]. exists (rs ++ rs').
      rewrite !length_app, Hl, Hl', out_calls_app, Hs, Hs' by done. split_and!; [done|by rewrite app_assoc|].
      cbn. by rewrite app_assoc.
    + intros s'' (Hn & Hlt & ->). rewrite Hs, !length_app, Hl. split_and!; [done|lia|].
      rewrite take_app_add', out_calls_app by done. cbn. by rewrite app_assoc.
  - intros s' (Hn & Hlt & ->). cbn [u_answers set_kernel]. rewrite length_app. split_and!; [done|lia|].
    by rewrite take_app_le by lia.
Qed.

Lemma prints_putc fd c : prints fd [u8 c] (putc fd c) (fun _ => True).
Proof.
  intros s. unfold putc, write_bytes, ret32. apply uspec_bind, uspec_bind, uspec_ecall.
  - intros E. rewrite E. split_and!; [done|cbn; lia|]. cbn. rewrite app_nil_r, <- E. by destruct s.
  - intros a r E. cbn. split; [done|]. exists [a]. by rewrite E.
Qed.

Lemma prints_ufor fd l : prints fd (u8 <$> l) (ufor l (putc fd)) (fun _ => True).
Proof.
  induction l as [|c l IH]; cbn [ufor fmap list_fmap]; [by apply prints_ret|].
  apply (prints_bind fd [u8 c] (u8 <$> l) _ _ (fun _ => True)); [apply prints_putc|]. intros _ _. apply IH.
Qed.

(** The digits of a number, most significant first. *)
Fixpoint numeral (k : nat) (x base : Z) : list Z :=
  match k with
  | O => []
  | S k => (if x / base =? 0 then [] else numeral k (x / base) base) ++ [digit (x mod base)]
  end.

Lemma printint_loop_numeral (k : nat) x base buf : 2 <= base -> 0 <= x < base ^ k -> (0 < k)%nat ->
  printint_loop k x base buf = Some (buf ++ rev (numeral k x base)).
Proof.
  intros Hb. revert x buf. induction k as [|k IH]; intros x buf Hx Hk; [lia|]. cbn [printint_loop numeral].
  rewrite rev_app_distr. cbn [rev app]. destruct (Z.eqb_spec (x / base) 0) as [E|E]; [done|].
  rewrite Nat2Z.inj_succ, Z.pow_succ_r in Hx by lia.
  assert (0 <= x / base) by (apply Z.div_pos; lia).
  rewrite IH; [by rewrite <- app_assoc|split; [done|apply Z.div_lt_upper_bound; lia]|].
  destruct k; [|lia]. exfalso. apply E. apply Z.div_small. cbn in Hx. lia.
Qed.

Lemma numeral_length k x base : (length (numeral k x base) <= k)%nat.
Proof.
  revert x. induction k as [|k IH]; intros x; cbn; [lia|]. rewrite length_app. cbn.
  destruct (x / base =? 0); cbn; [lia|]. specialize (IH (x / base)). lia.
Qed.

Lemma numeral_more (k j : nat) x base : 2 <= base -> 0 <= x < base ^ k -> (0 < k)%nat -> numeral (k + j) x base = numeral k x base.
Proof.
  intros Hb. revert x. induction k as [|k IH]; intros x Hx Hk; [lia|]. cbn [numeral Nat.add].
  destruct (Z.eqb_spec (x / base) 0) as [E|E]; [done|]. f_equal.
  rewrite Nat2Z.inj_succ, Z.pow_succ_r in Hx by lia. apply IH.
  - split; [apply Z.div_pos; lia|]. apply Z.div_lt_upper_bound; lia.
  - destruct k; [|lia]. exfalso. apply E. apply Z.div_small. cbn in Hx. lia.
Qed.

(** The text [printint] prints for an [int]. *)
Definition int_text (xx base : Z) (sgn : bool) : list Z :=
  if sgn && (xx <? 0) then 45 :: numeral 10 (- xx) base else numeral 10 (u32 xx) base.

(** No argument overflows the buffer: ten digits and a sign fit. *)
Lemma printint_buf_text xx base sgn : base = 10 \/ base = 16 -> -2147483648 <= xx < 2147483648 ->
  printint_buf xx base sgn = Some (rev (int_text xx base sgn)).
Proof.
  intros Hb Hx. unfold printint_buf, int_text.
  assert (2 <= base /\ 4294967296 < base ^ 10%nat) as [Hb2 Hbp] by (destruct Hb as [-> | ->]; split; [lia|done|lia|done]).
  assert (forall x, 0 <= x < 4294967296 -> printint_loop 16 x base [] = Some (rev (numeral 10 x base))) as Hl.
  { intros x Hx'. assert (base ^ 10%nat <= base ^ 16%nat) by (apply Z.pow_le_mono_r; lia).
    rewrite printint_loop_numeral by lia. change 16%nat with (10 + 6)%nat. rewrite numeral_more by lia. done. }
  destruct (sgn && (xx <? 0)) eqn:E.
  - bool_facts. rewrite u32_small by lia. rewrite Hl by lia. cbn [mbind option_bind].
    rewrite length_rev. pose proof (numeral_length 10 (- xx) base).
    destruct (Nat.ltb_spec (length (numeral 10 (- xx) base)) 16); [done|lia].
  - rewrite Hl by apply u32_range. done.
Qed.

Lemma digit_range i : 0 <= digit i < 256.
Proof.
  unfold digit. destruct (digits !! Z.to_nat i) as [c|] eqn:E; cbn; [|lia].
  assert (Forall (fun c => 0 <= c < 256) digits) as H by (unfold digits, bytes; cbn; repeat constructor; lia).
  by apply (Forall_lookup_1 _ _ _ _ H E).
Qed.

Lemma numeral_bytes k x base : Forall (fun c => 0 <= c < 256) (numeral k x base).
Proof.
  revert x. induction k as [|k IH]; intros x; cbn [numeral]; [done|]. apply Forall_app; split.
  - by destruct (x / base =? 0).
  - repeat constructor; apply digit_range.
Qed.

Lemma int_text_bytes xx base sgn : u8 <$> int_text xx base sgn = int_text xx base sgn.
Proof.
  apply u8_bytes. unfold int_text. destruct (sgn && (xx <? 0)).
  - constructor; [lia|apply numeral_bytes].
  - apply numeral_bytes.
Qed.

Lemma s32_range x : -2147483648 <= s32 x < 2147483648.
Proof. unfold s32. pose proof (Z.mod_pos_bound (x + 2147483648) 4294967296 ltac:(lia)). lia. Qed.

Lemma prints_printint fd xx base sgn : base = 10 \/ base = 16 ->
  prints fd (int_text (s32 xx) base sgn) (printint fd xx base sgn) (fun _ => True).
Proof.
  intros Hb. unfold printint. rewrite printint_buf_text by (try done; apply s32_range).
  rewrite rev_involutive. rewrite <- (int_text_bytes (s32 xx) base sgn) at 1. apply prints_ufor.
Qed.

(** Reading back what [%d] prints. *)
Lemma atoi_loop_app l1 l2 n : Forall (fun c => 48 <= c <= 57) l1 -> atoi_loop (l1 ++ l2) n = atoi_loop l2 (atoi_loop l1 n).
Proof.
  revert n. induction l1 as [|c l1 IH]; intros n H; cbn; [done|]. inversion H; subst.
  rewrite (proj2 (Z.leb_le 48 c)), (proj2 (Z.leb_le c 57)) by lia. cbn [andb]. by apply IH.
Qed.

Lemma digit10 i : 0 <= i < 10 -> digit i = 48 + i.
Proof.
  intros Hi. assert (i = 0 \/ i = 1 \/ i = 2 \/ i = 3 \/ i = 4 \/ i = 5 \/ i = 6 \/ i = 7 \/ i = 8 \/ i = 9) as H by lia.
  by repeat destruct H as [-> | H]; [..|subst].
Qed.

Lemma numeral_digits k x : Forall (fun c => 48 <= c <= 57) (numeral k x 10).
Proof.
  revert x. induction k as [|k IH]; intros x; cbn [numeral]; [done|]. apply Forall_app; split.
  - by destruct (x / 10 =? 0).
  - pose proof (Z.mod_pos_bound x 10 ltac:(lia)). rewrite digit10 by lia. repeat constructor; lia.
Qed.

Lemma atoi_numeral (k : nat) x : (0 < k)%nat -> 0 <= x < 10 ^ k -> x < 2147483648 -> atoi (numeral k x 10) = x.
Proof.
  unfold atoi. revert x. induction k as [|k IH]; intros x Hk Hx Hs; [lia|]. cbn [numeral].
  rewrite Nat2Z.inj_succ, Z.pow_succ_r in Hx by lia.
  pose proof (Z.mod_pos_bound x 10 ltac:(lia)) as Hm. pose proof (Z.div_mod x 10 ltac:(lia)) as Hd.
  assert (atoi_loop (if x / 10 =? 0 then [] else numeral k (x / 10) 10) 0 = x / 10) as Hq.
  { destruct (Z.eqb_spec (x / 10) 0) as [E|E]; [by rewrite E|]. apply IH.
    - destruct k; [|lia]. exfalso. apply E. apply Z.div_small. cbn in Hx. lia.
    - split; [apply Z.div_pos; lia|apply Z.div_lt_upper_bound; lia].
    - lia. }
  rewrite atoi_loop_app by (destruct (x / 10 =? 0); [done|apply numeral_digits]). rewrite Hq, digit10 by lia.
  cbn [atoi_loop]. rewrite (proj2 (Z.leb_le 48 _)), (proj2 (Z.leb_le _ 57)) by lia. cbn [andb]. rewrite s32_small by lia. lia.
Qed.

(** ** What a format prints *)

Fixpoint hex_text (k : nat) (x : Z) : list Z :=
  match k with
  | O => []
  | S k => digit (Z.shiftr x 60) :: hex_text k (u64 (Z.shiftl x 4))
  end.

(** The text of a conversion, and the arguments left. *)
Definition conversion (c : Z) (ap : list arg) : option (list Z * list arg) :=
  if c =? 100 then match ap with Anum x :: ap => Some (int_text (s32 x) 10 true, ap) | _ => None end
  else if c =? 108 then match ap with Anum x :: ap => Some (int_text (s32 x) 10 false, ap) | _ => None end
  else if c =? 120 then match ap with Anum x :: ap => Some (int_text (s32 x) 16 false, ap) | _ => None end
  else if c =? 112 then match ap with Anum x :: ap => Some (48 :: 120 :: hex_text 16 (u64 x), ap) | _ => None end
  else if c =? 115 then
    match ap with Astr s :: ap => Some (u8 <$> s, ap) | Anull :: ap => Some (bytes "(null)", ap) | _ => None end
  else if c =? 99 then match ap with Anum x :: ap => Some ([u8 x], ap) | _ => None end
  else if c =? 37 then Some ([37], ap)
  else Some ([37; u8 c], ap).

Fixpoint render (fmt : list Z) (ap : list arg) : option (list Z) :=
  match fmt with
  | [] => Some []
  | c :: fmt =>
      if c =? 37 then
        match fmt with
        | [] => Some []
        | c :: fmt => '(t, ap) ← conversion c ap; app t <$> render fmt ap
        end
      else cons (u8 c) <$> render fmt ap
  end.

Lemma prints_hex k fd x : prints fd (hex_text k x) (printptr_loop k fd x) (fun _ => True).
Proof.
  revert x. induction k as [|k IH]; intros x; cbn [hex_text printptr_loop]; [by apply prints_ret|].
  apply (prints_bind fd [_] _ _ _ (fun _ => True)); [|intros _ _; apply IH].
  pose proof (prints_putc fd (digit (Z.shiftr x 60))) as H. rewrite u8_small in H by apply digit_range. exact H.
Qed.

Lemma prints_then {A} fd t out (c : U unit) (k : U A) P :
  prints fd t c (fun _ => True) -> prints fd out k P -> prints fd (t ++ out) (c;; k) P.
Proof. intros H1 H2. by apply (prints_bind fd t out _ _ (fun _ => True)). Qed.

Lemma prints_conversion fd c fmt ap t ap' out P :
  conversion c ap = Some (t, ap') -> prints fd out (vprintf_loop fd fmt false ap') P ->
  prints fd (t ++ out) (vprintf_loop fd (c :: fmt) true ap) P.
Proof.
  unfold conversion. cbn [vprintf_loop negb]. intros Hc Hk.
  destruct (c =? 100).
  { destruct ap as [|[x| |] ap]; simplify_eq. exact (prints_then _ _ _ _ _ _ (prints_printint fd x 10 true ltac:(auto)) Hk). }
  destruct (c =? 108).
  { destruct ap as [|[x| |] ap]; simplify_eq. exact (prints_then _ _ _ _ _ _ (prints_printint fd x 10 false ltac:(auto)) Hk). }
  destruct (c =? 120).
  { destruct ap as [|[x| |] ap]; simplify_eq. exact (prints_then _ _ _ _ _ _ (prints_printint fd x 16 false ltac:(auto)) Hk). }
  destruct (c =? 112).
  { destruct ap as [|[x| |] ap]; simplify_eq. refine (prints_then fd (48 :: 120 :: _) _ (printptr fd x) _ _ _ Hk).
    apply (prints_then fd [48]); [apply (prints_putc fd 48)|]. apply (prints_then fd [120]); [apply (prints_putc fd 120)|]. apply prints_hex. }
  destruct (c =? 115).
  { destruct ap as [|[|x|] ap]; simplify_eq.
    - exact (prints_then _ _ _ _ _ _ (prints_ufor fd x) Hk).
    - exact (prints_then _ _ _ _ _ _ (prints_ufor fd (bytes "(null)")) Hk). }
  destruct (c =? 99).
  { destruct ap as [|[x| |] ap]; simplify_eq. exact (prints_then _ _ _ _ _ _ (prints_putc fd x) Hk). }
  destruct (Z.eqb_spec c 37) as [->|]; simplify_eq.
  { exact (prints_then _ _ _ _ _ _ (prints_putc fd 37) Hk). }
  apply (prints_then fd [37] (u8 c :: out) _ _ _ (prints_putc fd 37)). exact (prints_then fd [u8 c] out _ _ _ (prints_putc fd c) Hk).
Qed.

(** [vprintf] prints the text its format describes, when every conversion has an
    argument of its kind. *)
Lemma prints_vprintf fd fmt ap out : render fmt ap = Some out -> prints fd out (vprintf fd fmt ap) (fun _ => True).
Proof.
  unfold vprintf. remember (length fmt) as n eqn:Hn. revert fmt ap out Hn. induction n as [n IH] using lt_wf_ind.
  intros fmt ap out -> Hr. destruct fmt as [|c fmt]; cbn [render] in Hr.
  { simplify_eq. by apply prints_ret. }
  cbn [vprintf_loop negb]. destruct (c =? 37).
  - destruct fmt as [|d fmt]; [simplify_eq; by apply prints_ret|].
    destruct (conversion d ap) as [[t ap']|] eqn:Ec; [|done]. cbn [mbind option_bind] in Hr.
    destruct (render fmt ap') as [out'|] eqn:Er; [|done]. cbn in Hr. simplify_eq.
    apply (prints_conversion _ _ _ _ _ _ _ _ Ec). apply (IH (length fmt)); [cbn; lia|done|done].
  - destruct (render fmt ap) as [out'|] eqn:Er; [|done]. cbn in Hr. simplify_eq.
    apply (prints_then fd [u8 c] out'); [apply prints_putc|]. apply (IH (length fmt)); [cbn; lia|done|done].
Qed.
