(* ===== verification/Grep.v ===== *)
(** * user/grep.c: the pattern matcher and the line filter

    The matcher runs on the strings in memory, as the C code does.  Its meaning
    is the relation [matches] between a pattern and a text; the filter is shown
    to print exactly the matching lines of its input, however the kernel cuts
    the input into pieces. *)

From S2P Require Import Prelude KString User Uprintf.

(** ** The code *)

(** [matchhere] and [matchstar] call each other; every call uses one unit of
    fuel, and the calls nested in a match number at most the length of the
    pattern plus that of the text plus one. *)
Fixpoint matchhere (fuel : nat) (m : gmap Z Z) (re text : Z) : option bool :=
  match fuel with
  | O => None
  | S fuel =>
      if m.[re] =? 0 then Some true
      else if m.[re + 1] =? 42 then matchstar fuel m (m.[re]) (re + 2) text
      else if (m.[re] =? 36) && (m.[re + 1] =? 0) then Some (m.[text] =? 0)
      else if negb (m.[text] =? 0) && ((m.[re] =? 46) || (m.[re] =? m.[text]))
      then matchhere fuel m (re + 1) (text + 1)
      else Some false
  end
with matchstar (fuel : nat) (m : gmap Z Z) (c re text : Z) : option bool :=
  match fuel with
  | O => None
  | S fuel =>
      match matchhere fuel m re text with
      | Some true => Some true
      | Some false =>
          if negb (m.[text] =? 0) && ((m.[text] =? c) || (c =? 46))
          then matchstar fuel m c re (text + 1)
          else Some false
      | None => None
      end
  end.

Definition mfuel (m : gmap Z Z) : nat := (cfuel m + cfuel m)%nat.

(** The [do ... while] of [match]. *)
Fixpoint match_loop (fuel : nat) (m : gmap Z Z) (re text : Z) : option bool :=
  match fuel with
  | O => None
  | S fuel =>
      match matchhere (mfuel m) m re text with
      | Some true => Some true
      | Some false => if m.[text] =? 0 then Some false else match_loop fuel m re (text + 1)
      | None => None
      end
  end.

Definition match_ (m : gmap Z Z) (re text : Z) : option bool :=
  if m.[re] =? 94 then matchhere (mfuel m) m (re + 1) text
  else match_loop (cfuel m) m re text.

(** The inner loop of [grep]: print the matching lines among the complete lines
    at [p]; the address after the last one. *)
Fixpoint grep_lines (fuel : nat) (pattern p : Z) : U Z :=
  match fuel with
  | O => ufuel
  | S fuel =>
      m ← mem;
      let q := strchr m p 10 in
      if q =? 0 then mret p
      else
        umodify (set_mem (fun m => m.[q <- 0]));;
        m ← mem;
        match match_ m pattern p with
        | None => ufuel
        | Some true =>
            umodify (set_mem (fun m => m.[q <- 10]));;
            write 1 p (q + 1 - p);;
            grep_lines fuel pattern (q + 1)
        | Some false => grep_lines fuel pattern (q + 1)
        end
  end.

Section Grep.
(** The address of the static array [buf]. *)
Context (buf : Z).

Fixpoint grep_loop (fuel : nat) (pattern fd m : Z) : U unit :=
  match fuel with
  | O => ufuel
  | S fuel =>
      n ← read fd (buf + m) (1024 - m - 1);
      if n <=? 0 then mret tt
      else
        let m := m + n in
        umodify (set_mem (fun mm => mm.[buf + m <- 0]));;
        p ← grep_lines 1025 pattern buf;
        if 0 <? m then
          let m := m - (p - buf) in
          umodify (set_mem (fun mm => memmove mm buf p m));;
          grep_loop fuel pattern fd m
        else grep_loop fuel pattern fd m
  end.

(** Each turn of the outer loop consumes an answer of the kernel. *)
Definition grep (pattern fd : Z) : U unit := fun s => grep_loop (S (length (u_answers s))) pattern fd 0 s.

(** [argv] holds the addresses of the arguments. *)
Fixpoint grep_files (pattern : Z) (files : list Z) : U unit :=
  match files with
  | [] => mret tt
  | f :: files =>
      m ← mem;
      fd ← open (string_at m f) 0;
      if fd <? 0 then printf ("grep: cannot open %s" +:+ NL) [Astr (string_at m f)];; exit 1
      else
        grep pattern fd;;
        close fd;;
        grep_files pattern files
  end.

Definition grep_main (argv : list Z) : U unit :=
  match argv with
  | _ :: pattern :: files =>
      match files with
      | [] => grep pattern 0;; exit 0
      | _ => grep_files pattern files;; exit 0
      end
  | _ => fprintf 2 ("usage: grep pattern [file ...]" +:+ NL) [];; exit 1
  end.
End Grep.

(** ** The meaning of patterns

    [matches re w rest]: the pattern [re] matches the text [w] when [rest]
    follows it. *)

Definition accepts (c x : Z) : Prop := c = 46 \/ c = x.

Inductive matches : list Z -> list Z -> list Z -> Prop :=
| matches_nil rest : matches [] [] rest
| matches_star c re w1 w2 rest :
    Forall (accepts c) w1 -> matches re w2 rest -> matches (c :: 42 :: re) (w1 ++ w2) rest
| matches_end : matches [36] [] []
| matches_char c re x w rest :
    head re <> Some 42 -> ~ (c = 36 /\ re = []) -> accepts c x -> matches re w rest ->
    matches (c :: re) (x :: w) rest.

(** A pattern matches somewhere in a text; [^] anchors it at the start. *)
Definition occurs (re text : list Z) : Prop :=
  match re with
  | 94 :: re => exists w rest, text = w ++ rest /\ matches re w rest
  | _ => exists pre w rest, text = pre ++ w ++ rest /\ matches re w rest
  end.

Definition occurs_at (re text : list Z) : Prop := exists w rest, text = w ++ rest /\ matches re w rest.

Lemma occurs_at_nil text : occurs_at [] text.
Proof. exists [], text. split; [done|constructor]. Qed.

Lemma occurs_at_star c re text :
  occurs_at (c :: 42 :: re) text <->
  occurs_at re text \/ exists x t, text = x :: t /\ accepts c x /\ occurs_at (c :: 42 :: re) t.
Proof.
  split.
  - intros (w & rest & -> & H). inversion H as [|c' re' w1 w2 rest' Hw Hm| |c' re' x w' rest' Hh]; subst.
    + destruct w1 as [|x w1]; [left; by exists w2, rest|]. right. inversion Hw; subst.
      exists x, ((w1 ++ w2) ++ rest). split_and!; [done|done|]. exists (w1 ++ w2), rest. split; [done|]. by constructor.
    + by destruct Hh.
  - intros [(w & rest & -> & H)|(x & t & -> & Hx & w & rest & -> & H)].
    + exists w, rest. split; [done|]. by apply (matches_star c re []).
    + inversion H as [|c' re' w1 w2 rest' Hw Hm| |c' re' x' w' rest' Hh]; subst; [|by destruct Hh].
      exists (x :: w1 ++ w2), rest. split; [done|]. apply (matches_star c re (x :: w1)); [by constructor|done].
Qed.

Lemma occurs_at_end text : occurs_at [36] text <-> text = [].
Proof.
  split.
  - intros (w & rest & -> & H). inversion H; subst; [done|]. naive_solver.
  - intros ->. exists [], []. split; [done|constructor].
Qed.

Lemma occurs_at_char c re text : head re <> Some 42 -> ~ (c = 36 /\ re = []) ->
  occurs_at (c :: re) text <-> exists x t, text = x :: t /\ accepts c x /\ occurs_at re t.
Proof.
  intros Hh He. split.
  - intros (w & rest & -> & H). inversion H; subst; [done|by destruct He|]. naive_solver (eexists _, _; eauto).
  - intros (x & t & -> & Hx & w & rest & -> & H). exists (x :: w), rest. split; [done|]. by constructor.
Qed.

(** ** The matcher decides the relation *)

Lemma cstr_head m a l : cstr m a l -> m.[a] = default 0 (head l).
Proof. destruct l; cbn; naive_solver. Qed.

Lemma accepts_iff c x : (c =? 46) || (c =? x) = true <-> accepts c x.
Proof. rewrite orb_true_iff, !Z.eqb_eq. done. Qed.

Lemma matcher_spec fuel m :
  (forall re text r t, cstr m re r -> cstr m text t -> (length r + length t < fuel)%nat ->
     exists b, matchhere fuel m re text = Some b /\ (b = true <-> occurs_at r t)) /\
  (forall c re text r t, cstr m re r -> cstr m text t -> (length r + length t + 1 < fuel)%nat ->
     exists b, matchstar fuel m c re text = Some b /\ (b = true <-> occurs_at (c :: 42 :: r) t)).
Proof.
  induction fuel as [|fuel [IHh IHs]]; [split; intros; lia|]. split.
  - intros re text r t Hr Ht Hf. cbn [matchhere]. destruct r as [|c r]; cbn [cstr] in Hr.
    { rewrite Hr. exists true. split; [done|]. split; [intros _; apply occurs_at_nil|done]. }
    destruct Hr as (-> & Hc & Hr). destruct (Z.eqb_spec c 0); [done|]. cbn [length] in Hf.
    destruct (Z.eqb_spec (m.[re + 1]) 42) as [E|E].
    { destruct r as [|d r]; cbn [cstr] in Hr; [congruence|]. destruct Hr as (H1 & H2 & Hr).
      assert (d = 42) as -> by congruence. replace (re + 2) with (re + 1 + 1) by lia. cbn [length] in Hf.
      apply IHs; [done|done|lia]. }
    assert (head r <> Some 42) as Hh.
    { intros Hh. apply E. rewrite (cstr_head _ _ _ Hr), Hh. done. }
    destruct ((c =? 36) && (m.[re + 1] =? 0)) eqn:E2.
    { bool_facts. assert (r = []) as ->.
      { destruct r as [|d r]; [done|]. cbn [cstr] in Hr. naive_solver congruence. }
      subst c. exists (m.[text] =? 0). split; [done|]. rewrite occurs_at_end, Z.eqb_eq.
      destruct t as [|x t]; cbn [cstr] in Ht; naive_solver. }
    assert (~ (c = 36 /\ r = [])) as He.
    { intros [-> ->]. cbn [cstr] in Hr. rewrite Hr in E2. done. }
    setoid_rewrite (occurs_at_char c r _ Hh He). destruct t as [|x t]; cbn [cstr] in Ht.
    { rewrite Ht. exists false. split; [done|]. naive_solver. }
    destruct Ht as (-> & Hx & Ht). destruct (Z.eqb_spec x 0); [done|]. cbn [negb andb].
    destruct ((c =? 46) || (c =? x)) eqn:Ea.
    + destruct (IHh (re + 1) (text + 1) r t Hr Ht) as (b & Hb & Hbi); [cbn [length] in Hf; lia|].
      exists b. split; [done|]. apply accepts_iff in Ea. rewrite Hbi. naive_solver.
    + exists false. split; [done|]. split; [done|]. intros (x' & t' & ? & Hacc & _). simplify_eq.
      apply accepts_iff in Hacc. congruence.
  - intros c re text r t Hr Ht Hf. cbn [matchstar].
    destruct (IHh re text r t Hr Ht) as (b & -> & Hb); [lia|]. setoid_rewrite occurs_at_star. destruct b.
    { exists true. split; [done|]. naive_solver. }
    destruct t as [|x t]; cbn [cstr] in Ht.
    { rewrite Ht. exists false. split; [done|]. naive_solver. }
    destruct Ht as (-> & Hx & Ht). destruct (Z.eqb_spec x 0); [done|]. cbn [negb andb].
    replace ((x =? c) || (c =? 46)) with ((c =? 46) || (c =? x)) by (rewrite orb_comm; f_equal; apply Z.eqb_sym).
    destruct ((c =? 46) || (c =? x)) eqn:Ea.
    + destruct (IHs c re (text + 1) r t Hr Ht) as (b & -> & Hbi); [cbn [length] in Hf; lia|].
      exists b. split; [done|]. apply accepts_iff in Ea. rewrite Hbi. naive_solver.
    + exists false. split; [done|]. split; [done|]. intros [H|(x' & t' & ? & Hacc & _)]; [naive_solver|].
      simplify_eq. apply accepts_iff in Hacc. congruence.
Qed.

Lemma matchhere_spec m re text r t : cstr m re r -> cstr m text t ->
  exists b, matchhere (mfuel m) m re text = Some b /\ (b = true <-> occurs_at r t).
Proof.
  intros Hr Ht. apply (proj1 (matcher_spec _ m)); [done|done|].
  pose proof (cstr_cfuel _ _ _ Hr). pose proof (cstr_cfuel _ _ _ Ht). unfold mfuel. lia.
Qed.

Lemma match_loop_spec fuel m re text r t : cstr m re r -> cstr m text t -> (length t < fuel)%nat ->
  exists b, match_loop fuel m re text = Some b /\ (b = true <-> exists pre post, t = pre ++ post /\ occurs_at r post).
Proof.
  intros Hr. revert text t. induction fuel as [|fuel IH]; intros text t Ht Hf; [lia|]. cbn [match_loop].
  destruct (matchhere_spec _ _ _ _ _ Hr Ht) as (b & -> & Hb). destruct b.
  { exists true. split; [done|]. split; [|done]. intros _. exists [], t. naive_solver. }
  destruct t as [|x t]; cbn [cstr] in Ht.
  { rewrite Ht. exists false. split; [done|]. split; [done|]. intros (pre & post & Hp & Ho).
    destruct pre; [|done]. cbn in Hp. subst post. naive_solver. }
  destruct Ht as (-> & Hx & Ht). destruct (Z.eqb_spec x 0); [done|].
  destruct (IH (text + 1) t Ht) as (b & -> & Hbi); [cbn [length] in Hf; lia|].
  exists b. split; [done|]. rewrite Hbi. split.
  - intros (pre & post & -> & Ho). by exists (x :: pre), post.
  - intros ([|y pre] & post & Hp & Ho); cbn in Hp; [subst post; naive_solver|]. simplify_eq. by exists pre, post.
Qed.

Lemma match_spec m re text r t : cstr m re r -> cstr m text t ->
  exists b, match_ m re text = Some b /\ (b = true <-> occurs r t).
Proof.
  intros Hr Ht. unfold match_. rewrite (cstr_head _ _ _ Hr).
  destruct (Z.eqb_spec (default 0 (head r)) 94) as [E|E].
  - destruct r as [|c r]; cbn in E; [done|]. subst c. cbn [cstr] in Hr. destruct Hr as (_ & _ & Hr).
    exact (matchhere_spec m (re + 1) text r t Hr Ht).
  - destruct (match_loop_spec (cfuel m) m re text r t Hr Ht) as (b & Hb & Hbi); [by eapply cstr_cfuel|].
    exists b. split; [done|]. rewrite Hbi. unfold occurs_at.
    assert (occurs r t <-> exists pre w rest, t = pre ++ w ++ rest /\ matches r w rest) as ->.
    { unfold occurs. destruct r as [|c r]; [done|]. cbn in E. by repeat case_match. }
    naive_solver.
Qed.

(** C26: [match] always answers, and answers 1 exactly when the pattern occurs in
    the text: [matchhere] and [matchstar], which call each other, terminate for
    every pair of strings and decide the meaning of [^ . * $] patterns. *)
Theorem match_decides_occurs m re text :
  exists b, match_ m re text = Some b /\ (b = true <-> occurs (string_at m re) (string_at m text)).
Proof. apply match_spec; apply string_at_cstr. Qed.

(** ** Lines

    [split_nl l]: the complete lines of [l], without their newlines, and the
    characters after the last newline. *)
Fixpoint split_nl (l : list Z) : list (list Z) * list Z :=
  match l with
  | [] => ([], [])
  | c :: l =>
      let '(ls, r) := split_nl l in
      if c =? 10 then ([] :: ls, r)
      else match ls with
           | [] => ([], c :: r)
           | x :: ls => ((c :: x) :: ls, r)
           end
  end.

Lemma split_nl_none l : 10 ∉ l -> split_nl l = ([], l).
Proof.
  induction l as [|c l IH]; cbn; [done|]. rewrite not_elem_of_cons. intros [H1 H2]. rewrite IH by done.
  by destruct (Z.eqb_spec c 10); [congruence|].
Qed.

Lemma split_nl_line l1 l2 : 10 ∉ l1 -> split_nl (l1 ++ 10 :: l2) = (l1 :: (split_nl l2).1, (split_nl l2).2).
Proof.
  induction l1 as [|c l1 IH]; cbn [app split_nl].
  - intros _. by destruct (split_nl l2).
  - rewrite not_elem_of_cons. intros [H1 H2]. rewrite IH by done. by destruct (Z.eqb_spec c 10); [congruence|].
Qed.

(** A text without newline, or its first line and the rest. *)
Lemma first_line l : 10 ∉ l \/ exists l1 l2, l = l1 ++ 10 :: l2 /\ 10 ∉ l1.
Proof.
  destruct (decide (10 ∈ l)) as [H|H]; [right|by left]. apply list_elem_of_split_l in H. naive_solver.
Qed.

Lemma split_nl_app a b :
  split_nl (a ++ b) = ((split_nl a).1 ++ (split_nl ((split_nl a).2 ++ b)).1, (split_nl ((split_nl a).2 ++ b)).2).
Proof.
  remember (length a) as n eqn:Hn. revert a Hn. induction n as [n IH] using lt_wf_ind. intros a ->.
  destruct (first_line a) as [H|(l1 & l2 & -> & H)].
  - rewrite (split_nl_none a) by done. cbn. by destruct (split_nl (a ++ b)).
  - rewrite <- app_assoc. cbn [app]. rewrite !split_nl_line by done. cbn [fst snd].
    rewrite (IH (length l2)) by (try rewrite length_app; cbn; try lia; done). done.
Qed.

Lemma split_nl_rest l : 10 ∉ (split_nl l).2.
Proof.
  remember (length l) as n eqn:Hn. revert l Hn. induction n as [n IH] using lt_wf_ind. intros l ->.
  destruct (first_line l) as [H|(l1 & l2 & -> & H)]; [by rewrite split_nl_none|].
  rewrite split_nl_line by done. cbn [snd]. eapply IH; [|done]. rewrite length_app. cbn. lia.
Qed.

Lemma split_nl_suffix l : exists k : nat, (k <= length l)%nat /\ (split_nl l).2 = drop k l.
Proof.
  remember (length l) as n eqn:Hn. revert l Hn. induction n as [n IH] using lt_wf_ind. intros l ->.
  destruct (first_line l) as [H|(l1 & l2 & -> & H)].
  - rewrite split_nl_none by done. exists O. by split; [lia|].
  - rewrite split_nl_line by done. cbn [snd]. destruct (IH (length l2)) with l2 as (k & Hk & ->); [rewrite length_app; cbn; lia|done|].
    exists (length l1 + S k)%nat. rewrite length_app. cbn [length]. split; [lia|]. by rewrite <- drop_drop, drop_app_length.
Qed.

(** A decision procedure for [occurs], on lists. *)
Definition acceptsb (c x : Z) : bool := (c =? 46) || (c =? x).

Fixpoint hereb (re : list Z) : list Z -> bool :=
  match re with
  | [] => fun _ => true
  | c :: re =>
      match re with
      | 42 :: re => fix star t := hereb re t || match t with [] => false | x :: t => acceptsb c x && star t end
      | _ =>
          if (c =? 36) && bool_decide (re = []) then fun t => bool_decide (t = [])
          else fun t => match t with [] => false | x :: t => acceptsb c x && hereb re t end
      end
  end.

Fixpoint anywhereb (p : list Z -> bool) (t : list Z) : bool :=
  p t || match t with [] => false | _ :: t => anywhereb p t end.

Definition occursb (re t : list Z) : bool :=
  match re with
  | 94 :: re => hereb re t
  | _ => anywhereb (hereb re) t
  end.

Lemma hereb_star c re t :
  hereb (c :: 42 :: re) t = hereb re t || match t with [] => false | x :: t => acceptsb c x && hereb (c :: 42 :: re) t end.
Proof. by destruct t. Qed.

Lemma hereb_char c re t : head re <> Some 42 -> ~ (c = 36 /\ re = []) ->
  hereb (c :: re) t = match t with [] => false | x :: t => acceptsb c x && hereb re t end.
Proof.
  intros Hh He. assert ((c =? 36) && bool_decide (re = []) = false) as E.
  { destruct ((c =? 36) && bool_decide (re = [])) eqn:E; [|done]. bool_facts. naive_solver. }
  cbn [hereb]. rewrite E. destruct re as [|d re]; [done|]. cbn in Hh. assert (d <> 42) by congruence.
  by repeat case_match.
Qed.

Lemma hereb_iff re t : hereb re t = true <-> occurs_at re t.
Proof.
  remember (length re) as n eqn:Hn. revert re t Hn. induction n as [n IH] using lt_wf_ind. intros re t ->.
  destruct re as [|c re]; [split; [intros _; apply occurs_at_nil|done]|].
  destruct (decide (head re = Some 42)) as [Hs|Hh].
  - destruct re as [|d re]; [done|]. cbn in Hs. injection Hs as ->.
    induction t as [|x t IHt]; rewrite hereb_star, occurs_at_star, orb_true_iff, (IH (length re)) by (cbn; auto with lia).
    + naive_solver.
    + rewrite andb_true_iff, IHt. unfold acceptsb. rewrite accepts_iff. naive_solver.
  - destruct (decide (c = 36 /\ re = [])) as [[-> ->]|He].
    + rewrite occurs_at_end. cbn. by rewrite bool_decide_eq_true.
    + rewrite hereb_char, occurs_at_char by done. destruct t as [|x t]; [naive_solver|].
      rewrite andb_true_iff, (IH (length re)) by (cbn; auto with lia). unfold acceptsb. rewrite accepts_iff. naive_solver.
Qed.

Lemma anywhereb_iff p t : anywhereb p t = true <-> exists pre post, t = pre ++ post /\ p post = true.
Proof.
  induction t as [|x t IH]; cbn [anywhereb]; rewrite orb_true_iff.
  - split; [intros [H|]; [by exists [], []|done]|]. intros ([|??] & post & H & Hp); [|done]. cbn in H. subst. by left.
  - rewrite IH. split.
    + intros [H|(pre & post & -> & H)]; [by exists [], (x :: t)|by exists (x :: pre), post].
    + intros ([|y pre] & post & H & Hp); cbn in H; [subst; by left|]. simplify_eq. right. by exists pre, post.
Qed.

#[export] Instance occurs_dec re t : Decision (occurs re t).
Proof.
  refine (cast_if (decide (occursb re t = true))); rename n into H || idtac.
  - unfold occurs, occursb in *. destruct re as [|c re].
    + apply anywhereb_iff in e as (pre & post & -> & H%hereb_iff). destruct H as (w & rest & -> & H). eauto.
    + repeat case_match; try (apply hereb_iff in e as (w & rest & -> & ?); eauto);
        (apply anywhereb_iff in e as (pre & post & -> & (w & rest & -> & ?)%hereb_iff); eauto).
  - intros Ho. apply H. clear H. unfold occurs, occursb in *. destruct re as [|c re].
    + destruct Ho as (pre & w & rest & -> & H). apply anywhereb_iff. eexists _, _. split; [done|]. apply hereb_iff. by eexists _, _.
    + repeat case_match; first [destruct Ho as (pre & w & rest & -> & ?) | destruct Ho as (w & rest & -> & ?)];
        first [apply anywhereb_iff; eexists _, _; split; [done|]; apply hereb_iff; by eexists _, _ | apply hereb_iff; by eexists _, _].
Defined.

(** ** The filter

    What a trace of system calls read, and what it wrote to the standard
    output. *)
Definition input (t : list (call * answer)) : list Z :=
  t ≫= fun '(c, a) => match c with Cread _ _ => a_data a | _ => [] end.
Definition output (t : list (call * answer)) : list (list Z) :=
  t ≫= fun '(c, _) => match c with Cwrite fd d => if fd =? 1 then [d] else [] | _ => [] end.

Lemma input_app t1 t2 : input (t1 ++ t2) = input t1 ++ input t2.
Proof. apply bind_app. Qed.
Lemma output_app t1 t2 : output (t1 ++ t2) = output t1 ++ output t2.
Proof. apply bind_app. Qed.

(** The lines among [ls] in which [re] occurs, with their newlines. *)
Definition selected (re : list Z) (ls : list (list Z)) : list (list Z) :=
  (fun l => l ++ [10]) <$> filter (occurs re) ls.

Lemma selected_app re l1 l2 : selected re (l1 ++ l2) = selected re l1 ++ selected re l2.
Proof. unfold selected. by rewrite list.filter_app, fmap_app. Qed.

(** [extends s s' i o]: between [s] and [s'] the program read the bytes [i] and
    printed [o]. *)
Definition extends (s s' : ust) (i : list Z) (o : list (list Z)) : Prop :=
  exists t, u_trace s' = u_trace s ++ t /\ input t = i /\ output t = o.

Lemma extends_refl s s' : u_trace s' = u_trace s -> extends s s' [] [].
Proof. intros H. exists []. by rewrite H, app_nil_r. Qed.

Lemma extends_trans s1 s2 s3 i1 o1 i2 o2 :
  extends s1 s2 i1 o1 -> extends s2 s3 i2 o2 -> extends s1 s3 (i1 ++ i2) (o1 ++ o2).
Proof.
  intros (t1 & H1 & <- & <-) (t2 & H2 & <- & <-). exists (t1 ++ t2). by rewrite H2, H1, app_assoc, input_app, output_app.
Qed.

Lemma extends_out s1 s2 s3 d o : extends s1 s2 d [] -> extends s2 s3 [] o -> extends s1 s3 d o.
Proof. intros H1 H2. rewrite <- (app_nil_r d). by apply (extends_trans s1 s2 s3 d []). Qed.

(** The answers the kernel has still to give contain no NUL bytes. *)
Definition text_answers (as_ : list answer) : Prop := Forall (fun a => Forall (fun c => u8 c <> 0) (a_data a)) as_.

Lemma cstr_split m a l1 l2 : cstr m a (l1 ++ l2) -> bytes_at m a l1 /\ Forall (fun c => c <> 0) l1 /\ cstr m (a + length l1) l2.
Proof.
  revert a. induction l1 as [|c l1 IH]; intros a; cbn [app cstr bytes_at length].
  - by rewrite Z.add_0_r.
  - intros (H1 & H2 & H3). apply IH in H3 as (H4 & H5 & H6). split_and!; [done|done|by constructor|].
    by replace (a + S (length l1)) with (a + 1 + length l1) by lia.
Qed.

Lemma rd_bytes_at m a l : bytes_at m a l -> rd_bytes (length l) m a = l.
Proof. revert a. induction l as [|c l IH]; intros a; cbn; [done|]. intros [-> H]. by rewrite IH. Qed.

Lemma bytes_at_app m a l1 l2 : bytes_at m a l1 -> bytes_at m (a + length l1) l2 -> bytes_at m a (l1 ++ l2).
Proof.
  revert a. induction l1 as [|c l1 IH]; intros a; cbn [app bytes_at length].
  - by rewrite Z.add_0_r.
  - intros [H1 H2] H3. split; [done|]. apply IH; [done|]. by replace (a + 1 + length l1) with (a + S (length l1)) by lia.
Qed.

Lemma write_spec fd p n s (Q : Z -> ust -> Prop) X (W : ust -> Prop) :
  W s -> (forall a r, u_answers s = a :: r ->
    Q (s32 (a_ret a)) (set_kernel r (u_trace s ++ [(Cwrite fd (rd_bytes (Z.to_nat n) (u_mem s) p), a)]) s)) ->
  uspec (write fd p n) Q X W s.
Proof.
  intros Hw Hq. unfold write, write_bytes, ret32. uspec_steps. apply uspec_ecall; [done|].
  intros a r E. by apply uspec_ret, Hq.
Qed.

Lemma line_written s m p l a s' : bytes_at m p l ->
  u_trace s' = u_trace s ++ [(Cwrite 1 (rd_bytes (Z.to_nat (length l)) m p), a)] -> extends s s' [] [l].
Proof.
  intros Hl Ht. eexists. split; [exact Ht|]. split; [done|]. cbn. by rewrite Nat2Z.id, rd_bytes_at.
Qed.

(** One line is cut out, matched and printed, and the loop goes on behind it. *)
Lemma grep_lines_spec fuel pattern re : forall p txt s,
  cstr (u_mem s) pattern re -> cstr (u_mem s) p txt -> 0 < p ->
  pattern + length re < p \/ p + length txt < pattern -> (length txt < fuel)%nat ->
  text_answers (u_answers s) ->
  uspec (grep_lines fuel pattern p)
    (fun p' s' => p' + length (split_nl txt).2 = p + length txt /\ p <= p' /\
       (forall a, a < p \/ p' <= a -> (u_mem s').[a] = (u_mem s).[a]) /\
       extends s s' [] (selected re (split_nl txt).1) /\
       exists used, u_answers s = used ++ u_answers s')
    (fun _ _ => False)
    (fun s' => exists k, extends s s' [] (take k (selected re (split_nl txt).1))) s.
Proof.
  induction fuel as [|fuel IH]; intros p txt s Hre Htxt Hp Hdis Hf Hans; [lia|]. cbn [grep_lines].
  apply uspec_bind, uspec_gets. destruct (first_line txt) as [Hn|(l1 & l2 & -> & Hn)].
  { rewrite (strchr_none _ _ _ txt), split_nl_none by done. cbn. split_and!; [done|done|done|by apply extends_refl|by exists []]. }
  rewrite (strchr_some _ _ _ l1 l2) by done. rewrite split_nl_line by done. cbn [fst snd]. rewrite length_app in *. cbn [length] in *.
  destruct (Z.eqb_spec (p + length l1) 0); [lia|]. set (q := p + length l1) in *.
  apply uspec_bind, uspec_modify, uspec_bind, uspec_gets. cbn [u_mem set_mem]. set (m1 := (u_mem s).[q <- 0]).
  pose proof (cstr_split _ _ _ _ Htxt) as (Hb & Hnz & Htl).
  assert (cstr m1 pattern re) as Hre1 by (eapply cstr_ext; [|exact Hre]; intros b Hb'; unfold m1; rewrite rd_wr_ne; [done|lia]).
  assert (cstr m1 p l1) as Hl1.
  { apply cstr_app_nul; [|done|].
    - eapply bytes_at_ext; [|exact Hb]. intros b Hb'. unfold m1. rewrite rd_wr_ne; [done|lia].
    - unfold m1, q. by rewrite rd_wr_eq. }
  destruct Htl as (Hq & _ & Htl). fold q in Hq, Htl. replace (q + 1) with (p + (length l1 + 1)) in * by lia.
  assert (forall m2 : gmap Z Z, (forall b, b <> q -> m2.[b] = (u_mem s).[b]) -> cstr m2 (p + (length l1 + 1)) l2) as Htl2.
  { intros m2 Hm2. eapply cstr_ext; [|exact Htl]. intros b Hb'. symmetry. apply Hm2. lia. }
  assert (forall m2 : gmap Z Z, (forall b, b <> q -> m2.[b] = (u_mem s).[b]) -> cstr m2 pattern re) as Hre2.
  { intros m2 Hm2. eapply cstr_ext; [|exact Hre]. intros b Hb'. symmetry. apply Hm2. lia. }
  destruct (match_spec _ _ _ _ _ Hre1 Hl1) as (b & -> & Hbi). destruct b.
  - apply uspec_bind, uspec_modify, uspec_bind. cbn [u_mem set_mem]. fold m1. set (m2 := m1.[q <- 10]).
    assert (forall b, m2.[b] = (u_mem s).[b]) as Hm2.
    { intros b. unfold m2, m1. rewrite !rd_wr. destruct (decide (q = b)) as [<-|]; [by rewrite Hq|done]. }
    assert (occurs re l1) as Ho by naive_solver.
    assert (selected re (l1 :: (split_nl l2).1) = (l1 ++ [10]) :: selected re (split_nl l2).1) as Hsel.
    { unfold selected. by rewrite filter_cons_True. }
    assert (bytes_at m2 p (l1 ++ [10])) as Hline.
    { eapply bytes_at_ext; [intros b _; symmetry; apply Hm2|]. apply bytes_at_app; [done|]. by split; [exact Hq|]. }
    replace (p + (length l1 + 1) - p) with (Z.of_nat (length (l1 ++ [10]))) by (rewrite length_app; cbn; lia).
    pose proof (line_written s m2 p (l1 ++ [10])) as Hwr. rewrite Hsel. apply write_spec.
    + exists O. by apply extends_refl.
    + intros a r Ha. cbn [u_mem u_trace set_mem set_kernel].
      eapply uspec_mono; [apply (IH _ l2)|..]; cbn [u_mem set_mem set_kernel]; fold m1; fold m2.
      * apply Hre2. intros. apply Hm2.
      * apply Htl2. intros. apply Hm2.
      * lia.
      * lia.
      * lia.
      * cbn in Ha. rewrite Ha in Hans. by inversion Hans.
      * intros p' s' (H1 & H2 & H3 & H4 & used & H5). split_and!; [lia|lia| | |].
        -- intros a' Ha'. rewrite H3 by lia. apply Hm2.
        -- eapply (extends_trans _ _ _ [] [l1 ++ [10]]); [|exact H4]. by eapply Hwr.
        -- cbn in Ha, H5. rewrite Ha. exists (a :: used). cbn. by rewrite H5.
      * done.
      * intros s' (k & H4). exists (S k). cbn [take]. eapply (extends_trans _ _ _ [] [l1 ++ [10]]); [|exact H4]. by eapply Hwr.
  - assert (~ occurs re l1) as Ho by naive_solver.
    assert (selected re (l1 :: (split_nl l2).1) = selected re (split_nl l2).1) as ->.
    { unfold selected. by rewrite filter_cons_False. }
    assert (forall b, b <> q -> m1.[b] = (u_mem s).[b]) as Hm1 by (intros b Hb'; unfold m1; rewrite rd_wr_ne; [done|lia]).
    eapply uspec_mono; [apply (IH _ l2)|..]; cbn [u_mem set_mem set_kernel]; fold m1; [by apply Hre2|by apply Htl2|lia|lia|lia|done|..].
    + intros p' s' (H1 & H2 & H3 & H4 & H5). split_and!; [lia|lia| |done|done]. intros a' Ha'. rewrite H3 by lia. apply Hm1. lia.
    + done.
    + intros s' (k & H4). by exists k.
Qed.

Lemma read_fit_cases n a : Forall (fun c => u8 c <> 0) (a_data a) ->
  read_fit n a = Answer (-1) [] \/
  exists d, read_fit n a = Answer (length d) d /\ (length d <= Z.to_nat n)%nat /\ Forall (fun c => c <> 0) d /\ Forall (fun c => 0 <= c < 256) d.
Proof.
  intros H. unfold read_fit. destruct (a_ret a <? 0); [by left|right]. eexists. split; [done|].
  rewrite length_fmap, length_take. split_and!; [lia| |].
  - apply Forall_fmap, Forall_take. exact H.
  - apply Forall_fmap, Forall_true. intros x. apply u8_range.
Qed.

Lemma bytes_at_wr_bytes m a l : Forall (fun c => 0 <= c < 256) l -> bytes_at (wr_bytes m a l) a l.
Proof.
  intros H. assert (forall k : nat, (k <= length l)%nat -> bytes_at (wr_bytes m a l) (a + k) (drop k l)) as Hk.
  2: { specialize (Hk O). rewrite Z.add_0_r, drop_0 in Hk. apply Hk. lia. }
  intros k Hk. remember (length l - k)%nat as j eqn:Hj. revert k Hk Hj. induction j as [|j IH]; intros k Hk Hj.
  - by rewrite drop_ge by lia.
  - destruct (lookup_lt_is_Some_2 l k) as [x Hx]; [lia|]. erewrite drop_S by done. cbn [bytes_at]. split.
    + rewrite rd_wr_bytes, decide_True by lia. replace (Z.to_nat (a + k - a)) with k by lia. rewrite Hx. cbn.
      apply Z.mod_small. by apply (Forall_lookup_1 _ _ _ _ H Hx).
    + replace (a + k + 1) with (a + S k) by lia. apply IH; lia.
Qed.

Lemma read_spec fd p n s (Q : Z -> ust -> Prop) X (W : ust -> Prop) :
  W s -> (forall a r, u_answers s = a :: r ->
    let a' := read_fit n a in
    Q (s32 (a_ret a')) (set_mem (fun m => wr_bytes m p (a_data a')) (set_kernel r (u_trace s ++ [(Cread fd n, a')]) s))) ->
  uspec (read fd p n) Q X W s.
Proof.
  intros Hw Hq. unfold read, read_bytes. apply uspec_bind, uspec_bind, uspec_ecall; [done|].
  intros a r E. apply uspec_ret, uspec_bind, uspec_modify, uspec_ret. by apply Hq.
Qed.

Lemma bytes_at_suffix m a l (k : nat) : bytes_at m a l -> bytes_at m (a + k) (drop k l).
Proof.
  revert a l. induction k as [|k IH]; intros a l H; [by rewrite Z.add_0_r, drop_0|].
  destruct l as [|c l]; [done|]. destruct H as [_ H]. cbn [drop]. replace (a + S k) with (a + 1 + k) by lia. by apply IH.
Qed.

Lemma bytes_at_moved m1 m2 a b l :
  (forall i, 0 <= i < length l -> m2.[b + i] = m1.[a + i]) -> bytes_at m1 a l -> bytes_at m2 b l.
Proof.
  revert a b. induction l as [|c l IH]; intros a b He; cbn [bytes_at length]; [done|]. intros [H1 H2].
  specialize (He 0 ltac:(cbn; lia)) as He0. rewrite !Z.add_0_r in He0. split; [congruence|].
  apply (IH (a + 1)); [|done]. intros i Hi. replace (b + 1 + i) with (b + (i + 1)) by lia.
  replace (a + 1 + i) with (a + (i + 1)) by lia. apply He. cbn. lia.
Qed.

Lemma extends_read s s' fd n a' m :
  u_trace s' = u_trace (set_mem m (set_kernel (u_answers s') (u_trace s ++ [(Cread fd n, a')]) s)) ->
  extends s s' (a_data a') [].
Proof. intros H. eexists. split; [exact H|]. cbn. by rewrite app_nil_r. Qed.

(** The piece just read, behind the rest of the last one. *)
Lemma fill_frame m buf (lo d : list Z) b : b < buf \/ buf + length lo + length d < b ->
  ((wr_bytes m (buf + length lo) d).[buf + (length lo + length d) <- 0]).[b] = m.[b].
Proof. intros H. rewrite rd_wr_ne, rd_wr_bytes, decide_False by lia. done. Qed.

Lemma fill_text m buf lo d :
  bytes_at m buf lo -> Forall (fun c => c <> 0) lo -> Forall (fun c => c <> 0) d -> Forall (fun c => 0 <= c < 256) d ->
  cstr ((wr_bytes m (buf + length lo) d).[buf + (length lo + length d) <- 0]) buf (lo ++ d).
Proof.
  intros Hlo Hnz Hdnz Hdb. apply cstr_app_nul; [|by apply Forall_app|].
  - apply bytes_at_app.
    + eapply bytes_at_ext; [|exact Hlo]. intros b Hb. rewrite rd_wr_ne, rd_wr_bytes, decide_False by lia. done.
    + eapply bytes_at_ext; [|by apply bytes_at_wr_bytes]. intros b Hb. rewrite rd_wr_ne by lia. done.
  - rewrite length_app, Nat2Z.inj_add. by rewrite rd_wr_eq.
Qed.

(** The incomplete line moved to the front of the buffer. *)
Lemma shift_text m m3 (pre lo : list Z) buf p :
  0 <= p - buf -> cstr m buf (pre ++ lo) -> p = buf + length pre -> (forall a, a < buf \/ p <= a -> m3.[a] = m.[a]) ->
  bytes_at (memmove m3 buf p (length lo)) buf lo.
Proof.
  intros Hpb Htxt -> Hm3. apply (bytes_at_moved m3 _ (buf + length pre)).
  - intros i Hi. rewrite memmove_at, decide_True by lia. f_equal. lia.
  - apply (bytes_at_moved m _ (buf + length pre)); [intros i Hi; apply Hm3; lia|].
    apply cstr_split in Htxt as (_ & _ & Htxt). replace lo with (lo ++ []) in Htxt by apply app_nil_r.
    by apply cstr_split in Htxt as (? & _).
Qed.

Section Filter.
Context (buf pattern : Z) (re : list Z).
Context (Hbuf : 0 < buf) (Hdis : pattern + length re < buf \/ buf + 1024 <= pattern).

Lemma grep_loop_spec fd fuel : forall lo s,
  cstr (u_mem s) pattern re -> bytes_at (u_mem s) buf lo -> 10 ∉ lo -> Forall (fun c => c <> 0) lo ->
  (length lo <= 1023)%nat -> text_answers (u_answers s) -> (length (u_answers s) < fuel)%nat ->
  uspec (grep_loop buf fuel pattern fd (length lo))
    (fun _ s' => exists i, extends s s' i (selected re (split_nl (lo ++ i)).1))
    (fun _ _ => False)
    (fun s' => exists i k, extends s s' i (take k (selected re (split_nl (lo ++ i)).1))) s.
Proof.
  induction fuel as [|fuel IH]; intros lo s Hre Hlo Hnl Hnz Hlen Hans Hf; [lia|]. cbn [grep_loop].
  apply uspec_bind, read_spec.
  { exists [], O. by apply extends_refl. }
  intros a r Ha. rewrite Ha in Hans, Hf. inversion Hans as [|? ? Ha1 Ha2]; subst. cbn [length] in Hf. cbv zeta.
  destruct (read_fit_cases (1024 - length lo - 1) a Ha1) as [->|(d & -> & Hd & Hdnz & Hdb)]; cbn [a_ret a_data].
  { apply uspec_ret. exists []. rewrite app_nil_r, split_nl_none by done. by apply (extends_read _ _ fd (1024 - length lo - 1) (Answer (-1) []) id). }
  rewrite s32_small by lia. destruct (Z.leb_spec (length d) 0) as [H0|H0].
  { assert (d = []) as -> by (destruct d; [done|cbn in H0; lia]). apply uspec_ret. exists [].
    rewrite app_nil_r, split_nl_none by done. by apply (extends_read _ _ fd (1024 - length lo - 1) (Answer 0 []) id). }
  apply uspec_bind, uspec_modify, uspec_bind. match goal with |- uspec _ _ _ _ ?x => set (s2 := x) end.
  assert (length lo + length d = length (lo ++ d)) as Hld by (rewrite length_app; lia).
  assert (length (lo ++ d) <= 1023) as Hmax by lia.
  assert (forall b, b < buf \/ buf + 1024 <= b -> (u_mem s2).[b] = (u_mem s).[b]) as Hframe by (intros; apply fill_frame; lia).
  assert (cstr (u_mem s2) buf (lo ++ d)) as Htxt by (by apply fill_text).
  assert (cstr (u_mem s2) pattern re) as Hre2 by (eapply cstr_ext; [|exact Hre]; intros b Hb; symmetry; apply Hframe; lia).
  assert (extends s s2 d []) as Hs2 by (by apply (extends_read _ _ fd (1024 - length lo - 1) (Answer (length d) d) id)).
  eapply uspec_mono; [apply (grep_lines_spec 1025 pattern re buf (lo ++ d)); try done; lia|..]; [|done|].
  2: { intros s' (k & Hk). exists d, k. exact (extends_out _ _ _ _ _ Hs2 Hk). }
  intros p s3 (Hp & Hpb & Hm3 & Hext & used & Hused). cbn beta. rewrite Hld.
  destruct (Z.ltb_spec 0 (length (lo ++ d))); [|lia]. apply uspec_bind, uspec_modify.
  set (lo' := (split_nl (lo ++ d)).2) in *. replace (length (lo ++ d) - (p - buf)) with (Z.of_nat (length lo')) by lia.
  assert (lo' `suffix_of` lo ++ d) as Hsuf.
  { destruct (split_nl_suffix (lo ++ d)) as (k & Hk & He). exists (take k (lo ++ d)). unfold lo'. by rewrite He, take_drop. }
  destruct Hsuf as [pre Hpre].
  eapply uspec_mono; [apply (IH lo')|..]; cbn [u_mem u_answers set_mem].
  - eapply cstr_ext; [|exact Hre2]. intros b Hb. rewrite memmove_at, decide_False by lia. symmetry. apply Hm3. lia.
  - apply (shift_text (u_mem s2) _ pre); [lia|by rewrite <- Hpre| |exact Hm3]. rewrite Hpre, length_app in Hp. lia.
  - apply split_nl_rest.
  - assert (Forall (fun c => c <> 0) (lo ++ d)) as Hall by (by apply Forall_app). rewrite Hpre in Hall. by apply Forall_app in Hall as [_ ?].
  - rewrite Hpre, length_app in Hmax. lia.
  - cbn in Hused. subst r. by apply Forall_app in Ha2 as [_ ?].
  - cbn in Hused. subst r. rewrite length_app in Hf. lia.
  - intros _ s' (i & Hi). exists (d ++ i). rewrite app_assoc, (split_nl_app (lo ++ d) i). cbn [fst]. fold lo'. rewrite selected_app.
    apply (extends_trans s s3); [|done]. by apply (extends_out s s2).
  - done.
  - intros s' (i & k & Hi). exists (d ++ i), (length (selected re (split_nl (lo ++ d)).1) + k)%nat.
    rewrite app_assoc, (split_nl_app (lo ++ d) i). cbn [fst]. fold lo'. rewrite selected_app, take_app_add' by done.
    apply (extends_trans s s3); [|done]. by apply (extends_out s s2).
Qed.

End Filter.

Definition grep_demo : ust :=
  Ust (wr_bytes ∅ 5000 (bytes "a.*z")) (Statics 0 0 [] 0) []
    [Answer 0 (bytes ("xabz" +:+ NL +:+ "no")); Answer 5 []; Answer 0 (bytes ("pe" +:+ NL)); Answer 0 []] [] [].

