(* ===== verification/Umalloc.v ===== *)
(** * user/umalloc.c: the Kernighan and Ritchie allocator

    The free list is threaded through the user's byte memory, as in the code: a
    header is 16 bytes, the pointer to the next free block at offset 0 and the
    size in headers at offset 8.  The list is circular, sorted by address, and
    starts at the static header [base].

    The theorems say that the blocks handed out never overlap each other or the
    free list, that they are large enough, that neither [malloc] nor [free]
    touches the contents of a block in use, and that both return. *)

From S2P Require Import Prelude KString User.

(** ** The code *)

Definition hptr (m : gmap Z Z) (p : Z) : Z := ld64 m p.
Definition hsize (m : gmap Z Z) (p : Z) : Z := ld32 m (p + 8).
Definition set_ptr (m : gmap Z Z) (p v : Z) : gmap Z Z := st64 m p v.
Definition set_size (m : gmap Z Z) (p v : Z) : gmap Z Z := st32 m (p + 8) (u32 v).

(** The search of [free] for the block after which [bp] belongs. *)
Fixpoint free_find (fuel : nat) (m : gmap Z Z) (bp p : Z) : option Z :=
  match fuel with
  | O => None
  | S fuel =>
      if (p <? bp) && (bp <? hptr m p) then Some p
      else if (hptr m p <=? p) && ((p <? bp) || (bp <? hptr m p)) then Some p
      else free_find fuel m bp (hptr m p)
  end.

(** Joining [bp] with the block after it, if they touch. *)
Definition join_upper (m : gmap Z Z) (bp p : Z) : gmap Z Z :=
  if bp + 16 * hsize m bp =? hptr m p then
    let m := set_size m bp (hsize m bp + hsize m (hptr m p)) in
    set_ptr m bp (hptr m (hptr m p))
  else set_ptr m bp (hptr m p).

(** Joining [p] with [bp] after it, if they touch. *)
Definition join_lower (m : gmap Z Z) (bp p : Z) : gmap Z Z :=
  if p + 16 * hsize m p =? bp then
    let m := set_size m p (hsize m p + hsize m bp) in
    set_ptr m p (hptr m bp)
  else set_ptr m p bp.

Definition free (ap : Z) : U unit :=
  let bp := ap - 16 in
  m ← mem;
  freep ← ugets (fun s => s_freep (u_static s));
  match free_find (cfuel m) m bp freep with
  | None => ufuel
  | Some p => put_mem (join_lower (join_upper m bp p) bp p);; umodify (set_freep p)
  end.

Definition morecore (nu : Z) : U Z :=
  let nu := if nu <? 4096 then 4096 else nu in
  p ← sbrk (s32 (nu * 16));
  if p =? 18446744073709551615 then mret 0
  else
    let hp := p in
    umodify (set_mem (fun m => set_size m hp nu));;
    free (hp + 16);;
    ugets (fun s => s_freep (u_static s)).

(** Cutting [nunits] out of the block [p] that is large enough. *)
Definition carve (nunits prevp p : Z) : U Z :=
  m ← mem;
  r ← (if hsize m p =? nunits then put_mem (set_ptr m prevp (hptr m p));; mret p
       else
         put_mem (set_size m p (hsize m p - nunits));;
         m ← mem;
         let p := p + 16 * hsize m p in
         put_mem (set_size m p nunits);; mret p);
  umodify (set_freep prevp);;
  mret (r + 16).

Fixpoint malloc_loop (fuel : nat) (nunits prevp p : Z) : U Z :=
  match fuel with
  | O => ufuel
  | S fuel =>
      m ← mem;
      if nunits <=? hsize m p then carve nunits prevp p
      else
        freep ← ugets (fun s => s_freep (u_static s));
        if p =? freep then
          p ← morecore nunits;
          if p =? 0 then mret 0
          else m ← mem; malloc_loop fuel nunits p (hptr m p)
        else malloc_loop fuel nunits p (hptr m p)
  end.

Section Malloc.
(** The address of the static header [base]. *)
Context (base : Z).

(** The loop visits each free block at most once before and once after it grows
    the heap, so twice the number of mapped bytes is fuel enough. *)
Definition malloc (nbytes : Z) : U Z :=
  let nunits := u32 ((u32 nbytes + 15) / 16 + 1) in
  freep ← ugets (fun s => s_freep (u_static s));
  (if freep =? 0 then
     umodify (set_mem (fun m => set_size (set_ptr m base base) base 0));;
     umodify (set_freep base)
   else mret tt);;
  prevp ← ugets (fun s => s_freep (u_static s));
  m ← mem;
  malloc_loop (2 * cfuel m + 3) nunits prevp (hptr m prevp).
End Malloc.

(** ** The heap

    A node is a free block: its address and its size in headers.  [base] has
    size 0 but occupies its header. *)

Abbreviation node := (Z * Z)%type.

Definition span (s : Z) : Z := 16 * Z.max 1 s.

Definition head_addr (l : list node) (q : Z) : Z := match l with [] => q | (a, _) :: _ => a end.

(** The nodes [l] are linked in memory, and the last points to [q]. *)
Fixpoint chain (m : gmap Z Z) (l : list node) (q : Z) : Prop :=
  match l with
  | [] => True
  | (a, s) :: l => hptr m a = head_addr l q /\ hsize m a = s /\ chain m l q
  end.

(** The nodes are in address order between [lo] and [hi] and do not overlap. *)
Fixpoint srt (lo : Z) (l : list node) (hi : Z) : Prop :=
  match l with
  | [] => lo <= hi
  | (a, s) :: l => lo <= a /\ 0 <= s /\ srt (a + span s) l hi
  end.

Definition disj (b c : node) : Prop := b.1 + span b.2 <= c.1 \/ c.1 + span c.2 <= b.1.

Fixpoint pairwise (l : list node) : Prop :=
  match l with
  | [] => True
  | b :: l => Forall (disj b) l /\ pairwise l
  end.

(** The heap between [base] and [hi]: the free list [fl] (without [base]), the
    blocks in use [al]. *)
Record heap (base hi : Z) (m : gmap Z Z) (freep : Z) (fl al : list node) : Prop := Heap {
  heap_base : 0 < base;
  heap_hi : hi < 2 ^ 36;
  heap_chain : chain m ((base, 0) :: fl) base;
  heap_srt : srt base ((base, 0) :: fl) hi;
  heap_size : Forall (fun b => 1 <= b.2) fl;
  heap_freep : freep = base \/ freep ∈ fl.*1;
  heap_used : Forall (fun b => 1 <= b.2 /\ base + 16 <= b.1 /\ b.1 + 16 * b.2 <= hi /\ hsize m b.1 = b.2) al;
  heap_disj : Forall (fun b => Forall (disj b) ((base, 0) :: fl)) al;
  heap_pair : pairwise al
}.

(** The contents of the blocks in use are the same in both memories. *)
Definition kept (al : list node) (m m' : gmap Z Z) : Prop :=
  Forall (fun b => forall x, b.1 <= x < b.1 + span b.2 -> m'.[x] = m.[x]) al.

(** ** Headers *)

Definition sep (a b : Z) : Prop := a + 16 <= b \/ b + 16 <= a.

Lemma hptr_set_ptr m p v : 0 <= v < 18446744073709551616 -> hptr (set_ptr m p v) p = v.
Proof. apply ld64_st64. Qed.
Lemma hptr_set_ptr_ne m p v a : sep a p -> hptr (set_ptr m p v) a = hptr m a.
Proof. intros H. apply ld64_st64_ne. unfold sep in H. lia. Qed.
Lemma hsize_set_ptr m p v a : a = p \/ sep a p -> hsize (set_ptr m p v) a = hsize m a.
Proof. intros H. apply (ldn_stn_frame 4 8). unfold sep in H. lia. Qed.
Lemma hsize_set_size m p v : 0 <= v < 4294967296 -> hsize (set_size m p v) p = v.
Proof. intros H. unfold hsize, set_size, ld32, st32. rewrite ldn_stn_same, u32_small by lia. by apply Z.mod_small. Qed.
Lemma hsize_set_size_ne m p v a : sep a p -> hsize (set_size m p v) a = hsize m a.
Proof. intros H. apply (ldn_stn_frame 4 4). unfold sep in H. lia. Qed.
Lemma hptr_set_size m p v a : a = p \/ sep a p -> hptr (set_size m p v) a = hptr m a.
Proof. intros H. apply (ldn_stn_frame 8 4). unfold sep in H. lia. Qed.
Lemma rd_set_ptr m p v x : x < p \/ p + 16 <= x -> (set_ptr m p v).[x] = m.[x].
Proof. intros H. apply st64_frame. lia. Qed.
Lemma rd_set_size m p v x : x < p \/ p + 16 <= x -> (set_size m p v).[x] = m.[x].
Proof. intros H. apply stn_frame. lia. Qed.

Ltac hdr := repeat first
  [ rewrite hptr_set_ptr by (unfold sep; lia) | rewrite hsize_set_size by (unfold sep; lia)
  | rewrite hptr_set_ptr_ne by (unfold sep; lia) | rewrite hsize_set_ptr by (unfold sep; lia)
  | rewrite hsize_set_size_ne by (unfold sep; lia) | rewrite hptr_set_size by (unfold sep; lia) ].

Lemma span_pos s : 16 <= span s.
Proof. unfold span. lia. Qed.
Lemma span_ge s : 16 * s <= span s.
Proof. unfold span. lia. Qed.
Lemma span_eq s : 1 <= s -> span s = 16 * s.
Proof. unfold span. lia. Qed.

(** ** Chains and sorted lists *)

Lemma chain_app_iff m l1 l2 q : chain m (l1 ++ l2) q <-> chain m l1 (head_addr l2 q) /\ chain m l2 q.
Proof.
  induction l1 as [|[a s] l1 IH]; cbn [app chain]; [naive_solver|]. rewrite IH.
  replace (head_addr (l1 ++ l2) q) with (head_addr l1 (head_addr l2 q)) by (by destruct l1 as [|[??] ?]). naive_solver.
Qed.

(** Only the headers of the nodes matter. *)
Lemma chain_frame m m' l q : Forall (fun b => hptr m' b.1 = hptr m b.1 /\ hsize m' b.1 = hsize m b.1) l ->
  chain m l q -> chain m' l q.
Proof.
  induction l as [|[a s] l IH]; cbn [chain]; [done|]. intros [[H1 H2] H3]%list.Forall_cons (H4 & H5 & H6). cbn in H1, H2.
  split_and!; [congruence|congruence|by apply IH].
Qed.

Lemma srt_app lo l1 a s l2 hi : srt lo (l1 ++ (a, s) :: l2) hi <-> srt lo l1 a /\ 0 <= s /\ srt (a + span s) l2 hi.
Proof. revert lo. induction l1 as [|[b t] l1 IH]; intros lo; cbn [app srt]; [done|]. rewrite IH. naive_solver. Qed.

Lemma srt_le lo l hi : srt lo l hi -> lo <= hi.
Proof.
  revert lo. induction l as [|[a s] l IH]; intros lo; cbn [srt]; [done|]. intros (H1 & H2 & H3%IH). pose proof (span_pos s). lia.
Qed.

Lemma srt_mono lo lo' l hi hi' : srt lo l hi -> lo' <= lo -> hi <= hi' -> srt lo' l hi'.
Proof. revert lo lo'. induction l as [|[a s] l IH]; intros lo lo'; cbn [srt]; intros; [lia|]. naive_solver lia. Qed.

(** Every node of a sorted list lies between the bounds. *)
Lemma srt_in lo l hi : srt lo l hi -> Forall (fun b => lo <= b.1 /\ 0 <= b.2 /\ b.1 + span b.2 <= hi) l.
Proof.
  revert lo. induction l as [|[a s] l IH]; intros lo; cbn [srt]; [done|]. intros (H1 & H2 & H3). constructor.
  - cbn. apply srt_le in H3. lia.
  - eapply list.Forall_impl; [by apply IH|]. cbn. pose proof (span_pos s). intros b. lia.
Qed.

Lemma srt_snoc lo l a hi : srt lo l a -> a <= hi -> srt lo l hi.
Proof. intros H Ha. eapply srt_mono; [done|lia|done]. Qed.

(** A chain of distinct linked nodes is not longer than the memory is large. *)
Lemma chain_mapped m l q : 0 < q -> Forall (fun b => 0 < b.1) l -> chain m l q ->
  Forall (fun b => exists x, b.1 <= x < b.1 + 8 /\ is_Some (m !! x)) l.
Proof.
  intros Hq. induction l as [|[a s] l IH]; [done|]. intros [Ha Hl]%list.Forall_cons. cbn [chain]. intros (H1 & H2 & H3).
  constructor; [|by apply IH]. cbn in *.
  assert (hptr m a <> 0) as Hnz.
  { rewrite H1. destruct l as [|[b t] l]; cbn; [lia|]. apply list.Forall_cons in Hl as [Hb _]. cbn in Hb. lia. }
  destruct (decide (Forall (fun i => m !! (a + Z.of_nat i) = None) (seq 0 8))) as [Hn|Hn].
  - exfalso. apply Hnz, ld64_zero. intros x Hx. rewrite list.Forall_forall in Hn. specialize (Hn (Z.to_nat (x - a))).
    replace (a + Z.to_nat (x - a)) with x in Hn by lia. unfold rd. rewrite Hn; [done|]. apply elem_of_seq. lia.
  - apply not_Forall_Exists in Hn; [|apply _]. apply list.Exists_exists in Hn as (i & Hi%elem_of_seq & Hn).
    exists (a + i). split; [lia|]. cbn in Hn. by destruct (m !! (a + i)).
Qed.

Lemma mapped_length (m : gmap Z Z) lo l hi : srt lo l hi -> Forall (fun b => exists x, b.1 <= x < b.1 + 8 /\ is_Some (m !! x)) l ->
  (length l <= size m)%nat.
Proof.
  intros Hs Hm. assert (exists X : list Z, length X = length l /\ NoDup X /\ Forall (fun x => lo <= x /\ is_Some (m !! x)) X) as (X & HX & Hnd & Hd).
  { revert lo Hs. induction Hm as [|[a s] l (x & Hx & Hmx) _ IH]; intros lo; cbn [srt].
    - intros _. exists []. split_and!; [done|constructor|done].
    - intros (H1 & H2 & H3). apply IH in H3 as (X & HX & Hnd & Hd). cbn in Hx. pose proof (span_pos s). exists (x :: X). cbn. split_and!; [by rewrite HX| |].
      + constructor; [|done]. intros Hin. rewrite list.Forall_forall in Hd. apply Hd in Hin. lia.
      + constructor; [split; [lia|done]|]. eapply list.Forall_impl; [done|]. cbn. intros y. intros []. split; [lia|done]. }
  rewrite <- HX, <- size_dom, <- (size_list_to_set (C := gset Z) X) by done. apply subseteq_size.
  intros y. rewrite elem_of_list_to_set, elem_of_dom. rewrite list.Forall_forall in Hd. naive_solver.
Qed.

Lemma chain_length m l q lo hi : 0 < q -> 0 < lo -> chain m l q -> srt lo l hi -> (length l < cfuel m)%nat.
Proof.
  intros Hq Hlo Hc Hs. unfold cfuel. assert (length l <= size m)%nat; [|lia]. eapply mapped_length; [exact Hs|].
  apply (chain_mapped _ _ q); [done| |done]. eapply list.Forall_impl; [by eapply srt_in|]. cbn. lia.
Qed.

(** ** The search of [free] *)

(** The list before a bound, or its first node at or above it. *)
Definition below (x : Z) (l : list node) : Prop := match l with [] => True | (a, _) :: _ => x <= a end.

Lemma pred_split lo N hi bp n : srt lo N hi -> Forall (disj (bp, n)) N -> N <> [] -> head_addr N 0 < bp ->
  exists L p sp R, N = L ++ (p, sp) :: R /\ p + span sp <= bp /\ below (bp + span n) R.
Proof.
  revert lo. induction N as [|[a s] N IH]; intros lo; [done|]. cbn [srt head_addr]. intros (H1 & H2 & H3) [Hd HN]%list.Forall_cons _ Hlt.
  unfold disj in Hd. cbn in Hd. pose proof (span_pos n). destruct N as [|[b t] N].
  { exists [], a, s, []. split_and!; [done|lia|done]. }
  destruct (decide (b < bp)) as [Hb|Hb].
  - destruct (IH _ H3 HN) as (L & p & sp & R & -> & ? & ?); [done|done|]. exists ((a, s) :: L), p, sp, R. done.
  - exists [], a, s, ((b, t) :: N). split_and!; [done|lia|]. apply list.Forall_cons in HN as [Hd' _]. unfold disj in Hd'. cbn in *. pose proof (span_pos t). lia.
Qed.

Lemma find_forward fuel m bp base X p sp R lo hi :
  chain m (X ++ (p, sp) :: R) base -> srt lo (X ++ (p, sp) :: R) hi -> base <= lo -> p < bp -> below (bp + 1) R ->
  (length X < fuel)%nat -> free_find fuel m bp (head_addr (X ++ (p, sp) :: R) 0) = Some p.
Proof.
  revert lo X. induction fuel as [|fuel IH]; intros lo X Hc Hs Hb Hp HR Hf; [lia|].
  cbn [free_find]. destruct X as [|[a s] X]; cbn [app chain srt head_addr length] in *.
  - destruct Hc as (Hc1 & Hc2 & Hc3), Hs as (Hs1 & Hs2 & Hs3). rewrite Hc1. destruct R as [|[q t] R]; cbn [head_addr below] in *.
    + destruct ((p <? bp) && (bp <? base)) eqn:E; [done|].
      rewrite (proj2 (Z.leb_le base p)), (proj2 (Z.ltb_lt p bp)) by lia. done.
    + by rewrite (proj2 (Z.ltb_lt p bp)), (proj2 (Z.ltb_lt bp q)) by lia.
  - destruct Hc as (Hc1 & Hc2 & Hc3), Hs as (Hs1 & Hs2 & Hs3). rewrite Hc1. pose proof (span_pos s).
    assert (a < head_addr (X ++ (p, sp) :: R) base <= p) as [Hlt Hle].
    { destruct X as [|[b t] X]; cbn [app srt head_addr] in *; [lia|].
      destruct Hs3 as (? & ? & Hs3%srt_app). destruct Hs3 as [Hs3%srt_le _]. pose proof (span_pos t). lia. }
    destruct (Z.ltb_spec bp (head_addr (X ++ (p, sp) :: R) base)); [lia|]. rewrite andb_false_r.
    destruct (Z.leb_spec (head_addr (X ++ (p, sp) :: R) base) a); [lia|]. cbn [andb].
    replace (head_addr (X ++ (p, sp) :: R) base) with (head_addr (X ++ (p, sp) :: R) 0) by (by destruct X as [|[??] ?]).
    apply (IH (a + span s)); try done; lia.
Qed.

Lemma find_wrap fuel m bp base S lo hi :
  chain m S base -> srt lo S hi -> base < bp < lo ->
  free_find (length S + fuel) m bp (head_addr S base) = free_find fuel m bp base.
Proof.
  revert lo. induction S as [|[a s] S IH]; intros lo Hc Hs Hb; [done|]. cbn [length Nat.add free_find head_addr chain srt] in *.
  destruct Hc as (Hc1 & Hc2 & Hc3), Hs as (Hs1 & Hs2 & Hs3). rewrite Hc1. pose proof (span_pos s).
  destruct (Z.ltb_spec a bp); [lia|]. cbn [andb orb].
  assert ((head_addr S base <=? a) && (bp <? head_addr S base) = false) as ->.
  { destruct S as [|[b t] S]; cbn [head_addr srt] in *.
    - destruct (Z.ltb_spec bp base); [lia|]. apply andb_false_r.
    - destruct (Z.leb_spec b a); [lia|]. done. }
  apply (IH (a + span s)); [done|done|lia].
Qed.

(** From any node of the list the search finds the node before [bp]. *)
Lemma find_pred m bp base hi L p sp R freep :
  let N := L ++ (p, sp) :: R in
  chain m N base -> srt base N hi -> 0 < base < bp -> head_addr N 0 = base ->
  p < bp -> below (bp + 1) R -> freep ∈ N.*1 -> free_find (cfuel m) m bp freep = Some p.
Proof.
  intros N Hc Hs Hb Hh Hp HR Hf. pose proof (chain_length _ _ _ _ _ (proj1 Hb) (proj1 Hb) Hc Hs) as Hlen.
  unfold N in Hlen. rewrite length_app in Hlen. cbn [length] in Hlen.
  apply list_elem_of_fmap in Hf as ([a sa] & -> & [N1 [N2 HN2]]%list_elem_of_split). cbn [fst].
  apply app_eq_inv in HN2 as [(k & -> & Hk)|(k & -> & Hk)].
  - (* the start is before p *)
    unfold N in Hc, Hs. rewrite <- app_assoc in Hc, Hs. rewrite <- Hk in Hs. apply chain_app_iff in Hc as [_ Hc].
    apply srt_app in Hs as (Hs1%srt_le & Hs2 & Hs3).
    change a with (head_addr ((a, sa) :: N2) 0). rewrite Hk. rewrite length_app in Hlen.
    apply (find_forward (cfuel m) m bp base k p sp R a hi); try done; [|lia].
    rewrite <- Hk. by split_and!.
  - destruct k as [|[b t] k]; cbn [app] in Hk; injection Hk as <- <- Hk || injection Hk as -> -> ->.
    + apply chain_app_iff in Hc as [_ Hc]. apply srt_app in Hs as (Hs1%srt_le & Hs2 & Hs3).
      apply (find_forward (cfuel m) m bp base [] p sp R p hi); try done; cbn; lia.
    + subst R. pose proof Hc as Hc'. pose proof Hs as Hs'. unfold N in Hc', Hs'.
      apply chain_app_iff in Hc' as [_ Hc']. apply srt_app in Hs' as (_ & _ & Hs').
      cbn [chain] in Hc'. destruct Hc' as (_ & _ & Hc'). apply chain_app_iff in Hc' as [_ Hc'].
      rewrite length_app in Hlen. cbn [length] in Hlen.
      assert (bp < a) as Hba.
      { destruct k as [|[c u] k]; cbn [app below] in *; [lia|]. cbn [srt] in Hs'. destruct Hs' as (_ & _ & Hs').
        apply srt_app in Hs' as (Hs'%srt_le & _). pose proof (span_pos u). lia. }
      apply srt_app in Hs' as (_ & Hs2 & Hs3).
      replace (cfuel m) with (length ((a, sa) :: N2) + (cfuel m - length ((a, sa) :: N2)))%nat by (cbn [length]; lia).
      change a with (head_addr ((a, sa) :: N2) base).
      rewrite (find_wrap _ m bp base _ a hi); [|done|by split_and!|lia].
      rewrite <- Hh. apply (find_forward _ m bp base L p sp (k ++ (a, sa) :: N2) base hi); try done; cbn [length]; lia.
Qed.

(** ** Inserting a block

    [bp] of size [n] goes between [p] and the nodes [R]. *)

Lemma disj_seps b l : Forall (disj b) l -> Forall (fun c => sep c.1 b.1) l.
Proof.
  intros H. eapply list.Forall_impl; [exact H|]. intros c. unfold disj, sep.
  pose proof (span_pos b.2). pose proof (span_pos c.2). lia.
Qed.

Lemma chain_set_ptr m l q p v : Forall (fun c => sep c.1 p) l -> chain m l q -> chain (set_ptr m p v) l q.
Proof.
  intros H. apply chain_frame. eapply list.Forall_impl; [exact H|]. cbn. intros c Hc.
  by rewrite hptr_set_ptr_ne, hsize_set_ptr by auto.
Qed.

Lemma chain_set_size m l q p v : Forall (fun c => sep c.1 p) l -> chain m l q -> chain (set_size m p v) l q.
Proof.
  intros H. apply chain_frame. eapply list.Forall_impl; [exact H|]. cbn. intros c Hc.
  by rewrite hptr_set_size, hsize_set_size_ne by auto.
Qed.

(** The nodes of a sorted list are apart from everything below it and above it. *)
Lemma srt_sep_above lo l hi x : srt lo l hi -> x + 16 <= lo -> Forall (fun c => sep c.1 x) l.
Proof. intros H Hx. eapply list.Forall_impl; [by apply (srt_in lo _ hi)|]. cbn. unfold sep. lia. Qed.
Lemma srt_sep_below lo l hi x : srt lo l hi -> hi <= x -> Forall (fun c => sep c.1 x) l.
Proof.
  intros H Hx. eapply list.Forall_impl; [by apply (srt_in lo _ hi)|]. cbn. intros c. pose proof (span_pos c.2). unfold sep. lia.
Qed.

Lemma head_addr_range lo l hi q : srt lo l hi -> 0 < q -> 0 < lo -> hi < 2 ^ 36 -> q < 2 ^ 36 ->
  0 <= head_addr l q < 18446744073709551616.
Proof.
  intros H Hq Hlo Hhi Hq2. destruct l as [|[a s] l]; cbn; [lia|]. apply srt_in, list.Forall_cons in H as [H _]. cbn in H.
  pose proof (span_pos s). lia.
Qed.

Section Insert.
Context (base hi : Z) (Hbase : 0 < base) (Hhi : hi < 2 ^ 36) (Hbh : base < 2 ^ 36).
Context (L R : list node) (p sp bp n : Z).
Context (HsL : srt base L p) (Hsp : 0 <= sp) (Hn : 1 <= n) (Hpb : p + span sp <= bp) (HsR : srt (bp + span n) R hi).

Lemma L_below x : p <= x -> Forall (fun c => sep c.1 x) (L ++ []).
Proof. rewrite app_nil_r. intros. by apply (srt_sep_below base _ p). Qed.

Lemma join_upper_spec m : chain m (L ++ (p, sp) :: R) base -> hsize m bp = n ->
  exists n1 R1, let m1 := join_upper m bp p in
    chain m1 (L ++ [(p, sp)]) (head_addr R base) /\ chain m1 ((bp, n1) :: R1) base /\
    srt bp ((bp, n1) :: R1) hi /\ n <= n1 /\ (length R1 <= length R)%nat /\
    (Forall (fun b => 1 <= b.2) R -> Forall (fun b => 1 <= b.2) R1) /\
    (forall x, x < bp \/ bp + 16 <= x -> m1.[x] = m.[x]) /\
    (forall c, disj c (bp, n) -> Forall (disj c) R -> Forall (disj c) ((bp, n1) :: R1)).
Proof.
  intros Hc Hsz. apply chain_app_iff in Hc as [HcL Hc]. cbn [chain head_addr] in HcL, Hc. destruct Hc as (Hp1 & Hp2 & HcR).
  pose proof (span_pos sp) as Hsp1. pose proof (span_pos n) as Hn1. pose proof (srt_le _ _ _ HsL) as Hbp.
  pose proof (srt_le _ _ _ HsR) as HRhi. rewrite (span_eq n Hn) in *.
  assert (Forall (fun c => sep c.1 bp) (L ++ [(p, sp)])) as HLb.
  { apply Forall_app. split; [apply (srt_sep_below base _ p); [done|lia]|]. repeat constructor. cbn. unfold sep. lia. }
  assert (Forall (fun c => sep c.1 bp) R) as HRb by (eapply srt_sep_above; [done|lia]).
  assert (chain m (L ++ [(p, sp)]) (head_addr R base)) as HcL2 by (apply chain_app_iff; split; [done|by split_and!]).
  pose proof (head_addr_range _ _ _ base HsR Hbase ltac:(lia) Hhi Hbh) as Hra.
  unfold join_upper. rewrite Hsz, Hp1. destruct (Z.eqb_spec (bp + 16 * n) (head_addr R base)) as [E|E].
  - destruct R as [|[q t] R']; cbn [head_addr] in *; [lia|]. cbn [chain srt] in *. destruct HcR as (Hq1 & Hq2 & HcR).
    destruct HsR as (Hs1 & Hs2 & Hs3). pose proof (srt_le _ _ _ Hs3). pose proof (span_ge t). pose proof (span_pos t).
    pose proof (head_addr_range _ _ _ base Hs3 Hbase ltac:(lia) Hhi Hbh).
    apply list.Forall_cons in HRb as [HRq HRb]. cbn in HRq. rewrite Hq2. cbv zeta.
    rewrite (hptr_set_size m bp (n + t) p), Hp1, (hptr_set_size m bp (n + t) q), Hq1 by (unfold sep in *; lia).
    exists (n + t), R'. cbn [chain srt]. split_and!.
    + by apply chain_set_ptr, chain_set_size.
    + hdr. done.
    + hdr. done.
    + by apply chain_set_ptr, chain_set_size.
    + lia.
    + lia.
    + eapply srt_mono; [exact Hs3| |lia]. unfold span. lia.
    + lia.
    + cbn. lia.
    + by intros [_ ?]%list.Forall_cons.
    + intros x Hx. rewrite rd_set_ptr, rd_set_size by done. done.
    + intros c Hc1 [Hc2 Hc3]%list.Forall_cons. constructor; [|done]. unfold disj in *. cbn in *.
      pose proof (span_pos c.2). unfold span in *. lia.
  - exists n, R. cbn [chain srt]. split_and!.
    + by apply chain_set_ptr.
    + hdr. done.
    + hdr. done.
    + by apply chain_set_ptr.
    + lia.
    + lia.
    + by rewrite span_eq.
    + lia.
    + lia.
    + done.
    + intros x Hx. by rewrite rd_set_ptr.
    + intros c Hc1 Hc2. by constructor.
Qed.

Lemma join_lower_spec m n1 R1 : chain m (L ++ [(p, sp)]) (head_addr R base) -> chain m ((bp, n1) :: R1) base ->
  srt bp ((bp, n1) :: R1) hi -> 1 <= n1 ->
  exists s2 R2, let m2 := join_lower m bp p in
    chain m2 (L ++ (p, s2) :: R2) base /\ srt base (L ++ (p, s2) :: R2) hi /\
    (Forall (fun b => 1 <= b.2) R1 -> Forall (fun b => 1 <= b.2) R2) /\
    (s2 = sp /\ R2 = (bp, n1) :: R1 \/ s2 = sp + n1 /\ R2 = R1 /\ p + 16 * sp = bp) /\
    (forall x, x < p \/ p + 16 <= x -> m2.[x] = m.[x]) /\
    (forall c, disj c (p, sp) -> Forall (disj c) ((bp, n1) :: R1) -> Forall (disj c) ((p, s2) :: R2)).
Proof.
  intros Hc1 Hc2 Hs1 Hn1. apply chain_app_iff in Hc1 as [HcL Hc]. cbn [chain head_addr] in HcL, Hc. destruct Hc as (Hp1 & Hp2 & _).
  pose proof (span_pos sp) as Hsp1. pose proof (srt_le _ _ _ HsL) as Hbp. pose proof (srt_le _ _ _ Hs1) as Hbhi.
  pose proof Hc2 as Hc2'. pose proof Hs1 as Hs1'. cbn [chain srt] in Hc2', Hs1'.
  destruct Hc2' as (Hb1 & Hb2 & HcR1), Hs1' as (_ & _ & HsR1). pose proof (srt_le _ _ _ HsR1). rewrite span_eq in * by lia.
  assert (Forall (fun c => sep c.1 p) L) as HLp by (by apply (srt_sep_below base _ p)).
  assert (Forall (fun c => sep c.1 p) ((bp, n1) :: R1)) as HRp by (eapply srt_sep_above; [exact Hs1|lia]).
  pose proof (head_addr_range _ _ _ base HsR1 Hbase ltac:(lia) Hhi Hbh) as Hra.
  unfold join_lower. rewrite Hp2. destruct (Z.eqb_spec (p + 16 * sp) bp) as [E|E].
  - assert (1 <= sp) as Hsp1' by (unfold span in *; lia). rewrite span_eq in * by lia. rewrite Hb2. cbv zeta.
    rewrite (hptr_set_size m p (sp + n1) bp), Hb1 by (unfold sep in *; lia).
    apply list.Forall_cons in HRp as [_ HRp].
    exists (sp + n1), R1. split_and!.
    + apply chain_app_iff. split; [by apply chain_set_ptr, chain_set_size|]. cbn [chain]. split_and!; [by hdr|by hdr|by apply chain_set_ptr, chain_set_size].
    + apply srt_app. split_and!; [done|lia|]. eapply srt_mono; [exact HsR1| |lia]. rewrite span_eq; lia.
    + done.
    + right. split_and!; done.
    + intros x Hx. by rewrite rd_set_ptr, rd_set_size.
    + intros c Hd1 [Hd2 Hd3]%list.Forall_cons. constructor; [|done]. unfold disj in *. cbn in *. pose proof (span_pos c.2). unfold span in *. lia.
  - exists sp, ((bp, n1) :: R1). split_and!.
    + apply chain_app_iff. split; [by apply chain_set_ptr|]. cbn [chain head_addr]. split_and!; [by hdr|by hdr|by hdr|by hdr|]. apply list.Forall_cons in HRp as [_ HRp]. by apply chain_set_ptr.
    + apply srt_app. split_and!; [done|done|]. cbn [srt]. rewrite (span_eq n1) by lia. split_and!; [lia|lia|done].
    + intros H1. constructor; [done|done].
    + by left.
    + intros x Hx. by rewrite rd_set_ptr.
    + intros c Hd1 Hd2. by constructor.
Qed.
End Insert.

(** ** [free] *)

Lemma kept_hsize al m m' : kept al m m' -> Forall (fun b => hsize m' b.1 = hsize m b.1) al.
Proof.
  intros H. eapply list.Forall_impl; [exact H|]. cbn. intros b Hb. apply (ldn_ext 4). intros x Hx.
  apply Hb. pose proof (span_pos b.2). lia.
Qed.

Lemma kept_refl al m : kept al m m.
Proof. apply Forall_true. done. Qed.
Lemma kept_trans al m1 m2 m3 : kept al m1 m2 -> kept al m2 m3 -> kept al m1 m3.
Proof.
  unfold kept. rewrite !list.Forall_forall. intros H1 H2 b Hb x Hx. rewrite (H2 b Hb), (H1 b Hb); done.
Qed.

(** A change confined to headers of blocks that are not in use. *)
Lemma kept_frame al m m' (hs : list node) :
  (forall x, Forall (fun h => x < h.1 \/ h.1 + 16 <= x) hs -> m'.[x] = m.[x]) ->
  Forall (fun b => Forall (disj b) hs) al -> kept al m m'.
Proof.
  intros Hm H. eapply list.Forall_impl; [exact H|]. cbn. intros b Hb x Hx. apply Hm.
  eapply list.Forall_impl; [exact Hb|]. unfold disj. intros h Hh. pose proof (span_pos h.2). lia.
Qed.

Lemma disj_sym b c : disj b c -> disj c b.
Proof. unfold disj. lia. Qed.

Lemma heap_used_kept base hi m m' al :
  Forall (fun b => 1 <= b.2 /\ base + 16 <= b.1 /\ b.1 + 16 * b.2 <= hi /\ hsize m b.1 = b.2) al -> kept al m m' ->
  Forall (fun b => 1 <= b.2 /\ base + 16 <= b.1 /\ b.1 + 16 * b.2 <= hi /\ hsize m' b.1 = b.2) al.
Proof.
  intros H Hk%kept_hsize. rewrite list.Forall_forall in *. intros b Hb. rewrite (Hk b Hb). by apply H.
Qed.

Lemma heap_freep_in base hi m freep fl al : heap base hi m freep fl al -> freep ∈ ((base, 0) :: fl).*1.
Proof. intros [_ _ _ _ _ [-> |H] _ _ _]; [left|by right]. Qed.

Lemma free_insert base hi fl al bp n s :
  heap base hi (u_mem s) (s_freep (u_static s)) fl al ->
  1 <= n -> base + 16 <= bp -> bp + 16 * n <= hi -> hsize (u_mem s) bp = n ->
  Forall (disj (bp, n)) ((base, 0) :: fl) -> Forall (disj (bp, n)) al ->
  exists p m' fl', free (bp + 16) s = URet tt (set_freep p (set_mem (fun _ => m') s)) /\
    heap base hi m' p fl' al /\ kept al (u_mem s) m' /\ Exists (fun b => n <= b.2) fl' /\ (length fl' <= S (length fl))%nat.
Proof.
  intros Hh Hn Hb1 Hb2 Hsz Hdf Hda. pose proof (heap_freep_in _ _ _ _ _ _ Hh) as Hfp.
  destruct Hh as [Hbase Hhi Hc Hs Hf1 _ Hu Hd Hpw]. set (m := u_mem s) in *.
  destruct (pred_split _ _ _ bp n Hs Hdf) as (L & p & sp & R & HN & Hpb & HR); [done|cbn; lia|].
  assert (find : free_find (cfuel m) m bp (s_freep (u_static s)) = Some p).
  { rewrite HN in Hc, Hs, Hfp. eapply (find_pred m bp base hi L p sp R); [done|done|lia| | | |done].
    - rewrite <- HN. done.
    - pose proof (span_pos sp). lia.
    - destruct R as [|[q t] R]; cbn in *; [done|]. pose proof (span_pos n). lia. }
  rewrite HN in Hc, Hs, Hdf. apply srt_app in Hs as (HsL & Hsp & HsR).
  assert (srt (bp + span n) R hi) as HsR'.
  { destruct R as [|[q t] R]; cbn [srt below] in *; [rewrite span_eq; lia|]. naive_solver. }
  pose proof (srt_le _ _ _ HsL) as HLp. pose proof (span_pos sp) as Hsp1. assert (base < 2 ^ 36) as Hbh by lia.
  destruct (join_upper_spec base hi Hbase Hhi Hbh L R p sp bp n HsL Hn Hpb HsR' m Hc Hsz) as (n1 & R1 & Hu1 & Hu2 & Hu3 & Hu4 & HuL & Hu5 & Hu6 & Hu7).
  destruct (join_lower_spec base hi Hbase Hhi Hbh L R p sp bp n HsL Hsp Hn Hpb HsR' (join_upper m bp p) n1 R1 Hu1 Hu2 Hu3) as (s2 & R2 & Hl1 & Hl2 & Hl3 & Hl4 & Hl5 & Hl6); [lia|].
  set (m' := join_lower (join_upper m bp p) bp p) in *.
  assert (kept al m m') as Hk.
  { apply (kept_frame _ _ _ [(p, sp); (bp, n)]).
    - intros x [Hx1 [Hx2 _]%list.Forall_cons]%list.Forall_cons. cbn in Hx1, Hx2. rewrite Hl5, Hu6 by lia. done.
    - rewrite list.Forall_forall in *. intros b Hb. specialize (Hd b Hb). rewrite HN in Hd. apply Forall_app in Hd as [_ [Hd _]%list.Forall_cons].
      constructor; [done|]. constructor; [by apply disj_sym, Hda|done]. }
  assert (length R2 <= S (length R))%nat as HlR by (destruct Hl4 as [[_ ->]|(_ & -> & _)]; cbn; lia).
  assert (exists fl', L ++ (p, s2) :: R2 = (base, 0) :: fl' /\ Forall (fun b => 1 <= b.2) fl' /\ Exists (fun b => n <= b.2) fl' /\ (p = base \/ p ∈ fl'.*1)) as (fl' & HN' & Hf' & He' & Hp').
  { destruct L as [|[a sa] L]; cbn [app] in HN |- *; simplify_eq.
    - destruct Hl4 as [[-> ->]|(_ & _ & ?)]; [|lia]. exists ((bp, n1) :: R1). split_and!; [done|auto|left; cbn; lia|by left].
    - apply Forall_app in Hf1 as [Hf1 [Hfp1 Hf2]%list.Forall_cons]. exists (L ++ (p, s2) :: R2). cbn in Hfp1.
      split_and!; [done| | |right; rewrite fmap_app; set_solver].
      + apply Forall_app; split; [done|]. constructor; [cbn; lia|auto].
      + apply Exists_app; right. destruct Hl4 as [[-> ->]|(-> & -> & _)]; [right; left; cbn; lia|left; cbn; lia]. }
  exists p, m', fl'. split_and!; [|constructor| | |]; try done.
  - unfold free. replace (bp + 16 - 16) with bp by lia. cbv beta iota zeta delta [mbind U_bind mem ugets]. fold m. by rewrite find.
  - by rewrite <- HN'.
  - by rewrite <- HN'.
  - by eapply heap_used_kept.
  - rewrite <- HN'. rewrite list.Forall_forall in *. intros b Hb. specialize (Hd b Hb). rewrite HN in Hd. apply Forall_app in Hd as [Hd1 [Hd2 Hd3]%list.Forall_cons].
    apply Forall_app; split; [done|]. apply Hl6; [done|]. apply Hu7; [|done]. by apply disj_sym, Hda.
  - apply (f_equal length) in HN, HN'. rewrite length_app in HN, HN'. cbn [length] in HN, HN'. lia.
Qed.

(** ** [malloc] *)

Lemma srt_disj lo L p s R hi : srt lo (L ++ (p, s) :: R) hi -> Forall (disj (p, s)) (L ++ R).
Proof.
  intros (HL & Hs & HR)%srt_app. apply Forall_app. split.
  - eapply list.Forall_impl; [by apply (srt_in lo _ p)|]. unfold disj. cbn. lia.
  - eapply list.Forall_impl; [by apply (srt_in (p + span s) _ hi)|]. unfold disj. cbn. lia.
Qed.

Lemma disj_sub b p s a t : disj b (p, s) -> p <= a -> a + span t <= p + span s -> disj b (a, t).
Proof. unfold disj. cbn. lia. Qed.

(** The node that points to a block of the free list is the one before it. *)
Lemma pred_node base hi m freep fl al prevp p sz : heap base hi m freep fl al ->
  prevp ∈ ((base, 0) :: fl).*1 -> hptr m prevp = p -> (p, sz) ∈ fl ->
  exists L sp R, fl = L ++ (p, sz) :: R /\ exists L0, (base, 0) :: L = L0 ++ [(prevp, sp)].
Proof.
  intros [Hbase _ Hc Hs _ _ _ _ _] Hin Hp Hpf.
  apply list_elem_of_fmap in Hin as ([a sp] & -> & [N1 [N2 HN]]%list_elem_of_split). cbn [fst] in *. rewrite HN in Hc.
  apply chain_app_iff in Hc as [_ Hc]. cbn [chain] in Hc. destruct Hc as (Hc1 & _ & Hc2). rewrite Hp in Hc1.
  cbn [srt] in Hs. destruct Hs as (_ & _ & Hs). pose proof (srt_in _ _ _ Hs) as Hin. rewrite list.Forall_forall in Hin.
  assert (base + 16 <= p) as Hpb by (apply Hin in Hpf; cbn in Hpf; unfold span in Hpf; lia).
  destruct N2 as [|[q t] R]; cbn [head_addr] in Hc1; [lia|]. subst q.
  assert (exists L, fl = L ++ (p, t) :: R /\ (base, 0) :: L = N1 ++ [(a, sp)]) as (L & HL & HL0).
  { destruct N1 as [|[c u] N1]; cbn [app] in HN; simplify_eq; [by exists []|]. exists (N1 ++ [(a, sp)]). by rewrite <- app_assoc. }
  exists L, sp, R. subst fl. apply elem_of_app in Hpf as [Hpf|[Hpf|Hpf]%elem_of_cons].
  - exfalso. apply srt_disj in Hs. apply Forall_app in Hs as [Hs _]. rewrite list.Forall_forall in Hs. apply Hs in Hpf. unfold disj in Hpf. cbn in Hpf.
    pose proof (span_pos sz). pose proof (span_pos t). lia.
  - simplify_eq. split; [done|]. by eexists.
  - exfalso. apply srt_disj in Hs. apply Forall_app in Hs as [_ Hs]. rewrite list.Forall_forall in Hs. apply Hs in Hpf. unfold disj in Hpf. cbn in Hpf.
    pose proof (span_pos sz). pose proof (span_pos t). lia.
Qed.

(** Taking a whole block out of the list. *)
Lemma take_whole base hi fl al L L0 prevp sp p sz R m freep : heap base hi m freep fl al ->
  fl = L ++ (p, sz) :: R -> (base, 0) :: L = L0 ++ [(prevp, sp)] ->
  heap base hi (set_ptr m prevp (head_addr R base)) prevp (L ++ R) ((p, sz) :: al) /\
  kept al m (set_ptr m prevp (head_addr R base)).
Proof.
  intros [Hbase Hhi Hc Hs Hf1 Hfp Hu Hd Hpw] Hfl HL.
  assert ((base, 0) :: fl = L0 ++ (prevp, sp) :: (p, sz) :: R) as HN by (rewrite Hfl, app_comm_cons, HL, <- app_assoc; done).
  assert ((base, 0) :: L ++ R = L0 ++ (prevp, sp) :: R) as HN' by (rewrite app_comm_cons, HL, <- app_assoc; done).
  pose proof Hs as Hs0. rewrite HN in Hs0, Hc. apply srt_app in Hs0 as (Hs1 & Hs2 & Hs3). cbn [srt] in Hs3. destruct Hs3 as (Hs3 & Hs4 & Hs5).
  apply chain_app_iff in Hc as [Hc1 Hc2]. cbn [chain head_addr] in Hc1, Hc2. destruct Hc2 as (Hp1 & Hp2 & Hp3 & Hp4 & HcR).
  pose proof (span_pos sp). pose proof (span_pos sz). pose proof (srt_le _ _ _ Hs1). pose proof (srt_le _ _ _ Hs5).
  pose proof (head_addr_range _ _ _ base Hs5 Hbase ltac:(lia) Hhi ltac:(lia)) as Hra.
  assert (kept al m (set_ptr m prevp (head_addr R base))) as Hk.
  { apply (kept_frame _ _ _ [(prevp, sp)]).
    - intros x [Hx _]%list.Forall_cons. by rewrite rd_set_ptr.
    - eapply list.Forall_impl; [exact Hd|]. cbn. intros b Hb. rewrite HN in Hb. apply Forall_app in Hb as [_ [Hb _]%list.Forall_cons]. by constructor. }
  rewrite Hfl in Hf1. apply Forall_app in Hf1 as [Hf1 [Hf2 Hf3]%list.Forall_cons]. cbn in Hf2.
  split; [|done]. constructor; try done.
  - rewrite HN'. apply chain_app_iff. cbn [chain head_addr]. split_and!; [|by hdr|by hdr|].
    + apply chain_set_ptr; [by apply (srt_sep_below base _ prevp)|done].
    + apply chain_set_ptr; [by apply (srt_sep_above (p + span sz) _ hi); [|lia]|done].
  - rewrite HN'. apply srt_app. split_and!; [done|done|]. eapply srt_mono; [exact Hs5|lia|lia].
  - by apply Forall_app.
  - assert (prevp ∈ ((base, 0) :: L).*1) as Hin by (rewrite HL, fmap_app; set_solver). rewrite fmap_app. set_solver.
  - constructor; [cbn|by eapply heap_used_kept]. rewrite hsize_set_ptr by (unfold sep; lia). rewrite span_eq in * by lia.
    split_and!; [done| |lia|done]. rewrite Hfl in Hs. cbn [srt] in Hs. destruct Hs as (_ & _ & Hs). apply srt_app in Hs as (Hs%srt_le & _).
    unfold span in Hs. lia.
  - constructor.
    + rewrite Hfl, app_comm_cons in Hs. by apply srt_disj in Hs.
    + eapply list.Forall_impl; [exact Hd|]. cbn. intros b Hb. rewrite Hfl, app_comm_cons in Hb. rewrite app_comm_cons.
      apply Forall_app in Hb as [? [? ?]%list.Forall_cons]. by apply Forall_app.
  - split; [|done]. eapply list.Forall_impl; [exact Hd|]. cbn. intros b Hb. rewrite Hfl, app_comm_cons in Hb.
    apply Forall_app in Hb as [_ [Hb _]%list.Forall_cons]. by apply disj_sym.
Qed.

(** Cutting the end off a block that is larger. *)
Lemma take_tail base hi fl al L p sz R m freep nunits : heap base hi m freep fl al ->
  fl = L ++ (p, sz) :: R -> 1 <= nunits < sz ->
  let m' := set_size (set_size m p (sz - nunits)) (p + 16 * (sz - nunits)) nunits in
  forall prevp, prevp = base \/ prevp ∈ fl.*1 ->
  heap base hi m' prevp (L ++ (p, sz - nunits) :: R) ((p + 16 * (sz - nunits), nunits) :: al) /\ kept al m m'.
Proof.
  intros [Hbase Hhi Hc Hs Hf1 Hfp Hu Hd Hpw] Hfl Hnu m' prevp Hprev. set (a := p + 16 * (sz - nunits)) in *.
  rewrite Hfl, app_comm_cons in Hc, Hs. pose proof (srt_disj _ _ _ _ _ _ Hs) as Hdis.
  apply srt_app in Hs as (Hs1 & Hs2 & Hs3). apply chain_app_iff in Hc as [Hc1 Hc2]. cbn [head_addr] in Hc1.
  cbn [chain] in Hc2. destruct Hc2 as (Hp1 & Hp2 & HcR). pose proof (srt_le _ _ _ Hs1). pose proof (srt_le _ _ _ Hs3).
  rewrite (span_eq sz) in * by lia.
  assert (base + 16 <= p) as Hbp. { cbn [srt] in Hs1. destruct Hs1 as (_ & _ & Hs1%srt_le). unfold span in Hs1. lia. }
  assert (kept al m m') as Hk.
  { apply (kept_frame _ _ _ [(p, sz - nunits); (a, nunits)]).
    - intros x [Hx1 [Hx2 _]%list.Forall_cons]%list.Forall_cons. unfold m'. by rewrite !rd_set_size.
    - eapply list.Forall_impl; [exact Hd|]. cbn. intros b Hb. rewrite Hfl, app_comm_cons in Hb. apply Forall_app in Hb as [_ [Hb _]%list.Forall_cons].
      constructor; [|constructor; [|done]]; (eapply disj_sub; [exact Hb|lia|rewrite !span_eq by lia; lia]). }
  rewrite Hfl in Hf1. apply Forall_app in Hf1 as [Hf1 [Hf2 Hf3]%list.Forall_cons].
  split; [|done]. constructor; try done.
  - rewrite app_comm_cons. apply chain_app_iff. unfold m'. cbn [head_addr]. split.
    + apply chain_set_size; [apply (srt_sep_below base _ p); [done|lia]|]. apply chain_set_size; [by apply (srt_sep_below base _ p)|done].
    + cbn [chain]. split_and!; [by hdr|by hdr|]. apply chain_set_size; [apply (srt_sep_above (p + 16 * sz) _ hi); [done|lia]|].
      apply chain_set_size; [apply (srt_sep_above (p + 16 * sz) _ hi); [done|lia]|done].
  - rewrite app_comm_cons. apply srt_app. split_and!; [done|lia|]. eapply srt_mono; [exact Hs3|rewrite span_eq; lia|lia].
  - apply Forall_app. split; [done|]. constructor; [cbn; lia|done].
  - destruct Hprev as [?|Hprev]; [by left|right]. rewrite Hfl, fmap_app in Hprev. rewrite fmap_app. exact Hprev.
  - constructor; [cbn|by eapply heap_used_kept]. unfold m'. hdr. split_and!; lia.
  - rewrite app_comm_cons. constructor.
    + apply Forall_app in Hdis as [Hd1 Hd2]. apply Forall_app. split; [|constructor].
      * eapply list.Forall_impl; [exact Hd1|]. intros c Hcc. apply disj_sym. eapply disj_sub; [by apply disj_sym|lia|rewrite !span_eq; lia].
      * unfold disj. cbn. rewrite !span_eq by lia. lia.
      * eapply list.Forall_impl; [exact Hd2|]. intros c Hcc. apply disj_sym. eapply disj_sub; [by apply disj_sym|lia|rewrite !span_eq; lia].
    + eapply list.Forall_impl; [exact Hd|]. cbn. intros b Hb. rewrite Hfl, app_comm_cons in Hb. apply Forall_app in Hb as [? [Hb ?]%list.Forall_cons].
      rewrite app_comm_cons. apply Forall_app. split; [done|]. constructor; [|done]. eapply disj_sub; [exact Hb|lia|rewrite !span_eq; lia].
  - split; [|done]. eapply list.Forall_impl; [exact Hd|]. cbn. intros b Hb. rewrite Hfl, app_comm_cons in Hb. apply Forall_app in Hb as [_ [Hb _]%list.Forall_cons].
    apply disj_sym. eapply disj_sub; [exact Hb|lia|rewrite !span_eq; lia].
Qed.

Lemma carve_spec base hi fl al nunits prevp p sz s :
  heap base hi (u_mem s) (s_freep (u_static s)) fl al -> 1 <= nunits <= sz ->
  (p, sz) ∈ fl -> prevp ∈ ((base, 0) :: fl).*1 -> hptr (u_mem s) prevp = p ->
  exists a m' fl', carve nunits prevp p s = URet (a + 16) (set_freep prevp (set_mem (fun _ => m') s)) /\
    heap base hi m' prevp fl' ((a, nunits) :: al) /\ kept al (u_mem s) m'.
Proof.
  intros Hh Hnu Hpf Hprev Hp. pose proof Hh as [Hbase Hhi Hc Hs _ _ _ _ _].
  destruct (pred_node _ _ _ _ _ _ _ _ _ Hh Hprev Hp Hpf) as (L & sp & R & Hfl & L0 & HL).
  assert (hptr (u_mem s) p = head_addr R base /\ hsize (u_mem s) p = sz) as [Hp1 Hp2].
  { rewrite Hfl, app_comm_cons in Hc. apply chain_app_iff in Hc as [_ Hc]. cbn [chain] in Hc. naive_solver. }
  unfold carve. cbv beta iota zeta delta [mbind U_bind mem ugets]. rewrite Hp2. destruct (Z.eqb_spec sz nunits) as [->|Hne].
  - destruct (take_whole _ _ _ _ _ _ _ _ _ _ _ _ _ Hh Hfl HL) as [Hh' Hk]. exists p, (set_ptr (u_mem s) prevp (head_addr R base)), (L ++ R).
    rewrite Hp1. split_and!; [reflexivity|done|done].
  - destruct (take_tail _ _ _ _ _ _ _ _ _ _ nunits Hh Hfl ltac:(lia) prevp) as [Hh' Hk].
    { apply elem_of_cons in Hprev as [Hprev|Hprev]; [by left|by right]. }
    assert (sz < 2 ^ 32) as Hsz.
    { cbn [srt] in Hs. destruct Hs as (_ & _ & Hs). rewrite Hfl in Hs. apply srt_app in Hs as (Hs1%srt_le & _ & Hs%srt_le). unfold span in *. lia. }
    eexists _, _, _. split; [|split; [exact Hh'|exact Hk]]. cbn [put_mem umodify u_mem set_mem]. unfold put_mem, umodify, mret, U_ret. cbn [u_mem set_mem].
    rewrite hsize_set_size by lia. reflexivity.
Qed.

(** The rest of the loop once no free block is large enough. *)
Definition more (k : nat) (nunits : Z) : U Z :=
  p ← morecore nunits;
  if p =? 0 then mret 0 else m ← mem; malloc_loop k nunits p (hptr m p).

(** One turn around the list, along the nodes [W] up to [freep]: a block is found
    and cut, or all are too small. *)
Lemma loop_turn nunits W : forall k prevp s,
  let m := u_mem s in let fp := s_freep (u_static s) in
  chain m W fp -> hptr m prevp = head_addr W fp -> Forall (fun b => b.1 <> fp) W ->
  (exists prev a sz, (a, sz) ∈ W ++ [(fp, hsize m fp)] /\ nunits <= sz /\ hptr m prev = a /\ prev ∈ prevp :: W.*1 /\
     malloc_loop (length W + 1 + k) nunits prevp (head_addr W fp) s = carve nunits prev a s) \/
  (Forall (fun b => b.2 < nunits) W /\ hsize m fp < nunits /\
     malloc_loop (length W + 1 + k) nunits prevp (head_addr W fp) s = more k nunits s).
Proof.
  induction W as [|[a sz] W IH]; intros k prevp s m fp Hc Hp Hne; cbn [length Nat.add malloc_loop head_addr chain] in *;
    cbv beta iota zeta delta [mbind U_bind mem ugets].
  - fold m fp. destruct (Z.leb_spec nunits (hsize m fp)) as [Hle|Hlt].
    + left. exists prevp, fp, (hsize m fp). split_and!; [by left|done|done|by left|reflexivity].
    + right. rewrite Z.eqb_refl. split_and!; [done|done|reflexivity].
  - destruct Hc as (Hc1 & Hc2 & Hc3). apply list.Forall_cons in Hne as [Hne1 Hne2]. cbn in Hne1. fold m fp. rewrite Hc2.
    destruct (Z.leb_spec nunits sz) as [Hle|Hlt].
    + left. exists prevp, a, sz. split_and!; [by left|done|done|by left|reflexivity].
    + rewrite (proj2 (Z.eqb_neq a (s_freep (u_static s))) Hne1), Hc1. destruct (IH k a s Hc3 Hc1 Hne2) as [(prev & b & t & H1 & H2 & H3 & H4 & H5)|(H1 & H2 & H3)].
      * left. exists prev, b, t. split_and!; [by right|done|done|by right|exact H5].
      * right. split_and!; [by constructor|exact H2|exact H3].
Qed.

Lemma srt_distinct lo L p s R hi : srt lo (L ++ (p, s) :: R) hi -> Forall (fun b => b.1 <> p) (R ++ L).
Proof.
  intros H%srt_disj. apply Forall_app in H as [H1 H2]. apply Forall_app.
  split; (eapply list.Forall_impl; [eassumption|]); unfold disj; cbn; intros b; pose proof (span_pos s); pose proof (span_pos b.2); lia.
Qed.

(** From [freep], with fuel for one turn: a block is found, or none is there. *)
Lemma loop_heap base hi fl al nunits k s :
  let m := u_mem s in let fp := s_freep (u_static s) in
  heap base hi m fp fl al -> 1 <= nunits -> (S (length fl) <= k)%nat ->
  (exists prev a sz, (a, sz) ∈ fl /\ nunits <= sz /\ hptr m prev = a /\ prev ∈ ((base, 0) :: fl).*1 /\
     malloc_loop k nunits fp (hptr m fp) s = carve nunits prev a s) \/
  (Forall (fun b => b.2 < nunits) fl /\ malloc_loop k nunits fp (hptr m fp) s = more (k - S (length fl)) nunits s).
Proof.
  intros m fp Hh Hnu Hk. pose proof (heap_freep_in _ _ _ _ _ _ Hh) as Hin. destruct Hh as [Hbase _ Hc Hs _ _ _ _ _].
  apply list_elem_of_fmap in Hin as ([fp' sf] & Hfp & [A [B HN]]%list_elem_of_split). cbn in Hfp. subst fp'.
  assert (length fl = length (B ++ A)) as Hlen.
  { apply (f_equal length) in HN. cbn in HN. rewrite length_app in HN |- *. cbn in HN. lia. }
  assert (head_addr A fp = base) as HA by (destruct A as [|[??] ?]; cbn in HN; by simplify_eq).
  rewrite HN in Hc, Hs. pose proof (srt_distinct _ _ _ _ _ _ Hs) as Hne. apply chain_app_iff in Hc as [HcA HcB].
  cbn [head_addr] in HcA. cbn [chain] in HcB. destruct HcB as (Hf1 & Hf2 & HcB).
  assert (chain m (B ++ A) fp) as HcV by (apply chain_app_iff; by rewrite HA).
  assert (hptr m fp = head_addr (B ++ A) fp) as Hnext.
  { rewrite Hf1. destruct B as [|[??] ?]; cbn; [by rewrite HA|done]. }
  assert (forall b, b ∈ (B ++ A) ++ [(fp, sf)] <-> b ∈ (base, 0) :: fl) as Hset by (intros b; rewrite HN; set_solver).
  rewrite Hlen in *. rewrite Hnext.
  assert (length (B ++ A) + 1 + (k - S (length (B ++ A))) = k)%nat as Hk' by lia.
  destruct (loop_turn nunits (B ++ A) (k - S (length (B ++ A))) fp s HcV Hnext Hne) as [(prev & a & sz & H1 & H2 & H3 & H4 & H5)|(H1 & H2 & H3)].
  - left. rewrite Hk' in H5. fold m fp in H1. rewrite Hf2 in H1. apply Hset in H1. apply elem_of_cons in H1 as [H1|H1]; [simplify_eq; lia|].
    exists prev, a, sz. split_and!; [done|done|done| |exact H5]. fold fp in H4.
    assert (prev ∈ (((B ++ A) ++ [(fp, sf)]).*1)) as H6 by (rewrite fmap_app; set_solver).
    apply list_elem_of_fmap in H6 as (b & -> & Hb). apply Hset in Hb. by apply list_elem_of_fmap_2.
  - right. rewrite Hk' in H3. fold m fp in H2. split; [|exact H3]. apply list.Forall_forall. intros b Hb.
    assert (b ∈ (B ++ A) ++ [(fp, sf)]) as Hb' by (apply Hset; set_solver). apply elem_of_app in Hb' as [Hb'|Hb'].
    + rewrite list.Forall_forall in H1. by apply H1.
    + apply list_elem_of_singleton in Hb'. subst b. cbn. lia.
Qed.

(** The heap may end further up. *)
Lemma heap_grow base hi hi' m freep fl al : heap base hi m freep fl al -> hi <= hi' -> hi' < 2 ^ 36 -> heap base hi' m freep fl al.
Proof.
  intros [Hbase Hhi Hc Hs Hf1 Hfp Hu Hd Hpw] H1 H2. constructor; try done.
  - eapply srt_mono; [exact Hs|lia|lia].
  - eapply list.Forall_impl; [exact Hu|]. cbn. intros b. intuition lia.
Qed.

(** Memory above the end of the heap is free to write. *)
Lemma heap_above base hi m freep fl al x v : heap base hi m freep fl al -> hi <= x ->
  heap base hi (set_size m x v) freep fl al /\ kept al m (set_size m x v) /\
  Forall (fun b => b.1 + span b.2 <= hi) ((base, 0) :: fl) /\ Forall (fun b => b.1 + span b.2 <= hi) al.
Proof.
  intros [Hbase Hhi Hc Hs Hf1 Hfp Hu Hd Hpw] Hx.
  assert (Forall (fun b => b.1 + span b.2 <= hi) al) as Hal.
  { eapply list.Forall_impl; [exact Hu|]. cbn. intros b (H1 & _ & H2 & _). by rewrite span_eq. }
  assert (kept al m (set_size m x v)) as Hk.
  { eapply list.Forall_impl; [exact Hal|]. cbn. intros b Hb y Hy. rewrite rd_set_size; [done|lia]. }
  split_and!; [|done| |done].
  - constructor; try done.
    + apply chain_set_size; [by apply (srt_sep_below base _ hi)|done].
    + by eapply heap_used_kept.
  - eapply list.Forall_impl; [by eapply srt_in|]. cbn. lia.
Qed.

(** What [sbrk(n)] promises: -1, or the start of [n] bytes above everything the
    heap has so far. *)
Definition sbrk_ok (hi n : Z) (as_ : list answer) : Prop :=
  forall a, head as_ = Some a -> u64 (a_ret a) = 18446744073709551615 \/ hi <= u64 (a_ret a) /\ u64 (a_ret a) + n < 2 ^ 36.

Definition core_units (nunits : Z) : Z := if nunits <? 4096 then 4096 else nunits.

Lemma morecore_spec base hi fl al nunits s :
  heap base hi (u_mem s) (s_freep (u_static s)) fl al -> 1 <= nunits -> 16 * core_units nunits < 2147483648 ->
  sbrk_ok hi (16 * core_units nunits) (u_answers s) ->
  uspec (morecore nunits)
    (fun p s' => kept al (u_mem s) (u_mem s') /\
       (p = 0 /\ u_mem s' = u_mem s /\ u_static s' = u_static s \/
        p = s_freep (u_static s') /\ exists hi' fl', hi <= hi' /\ heap base hi' (u_mem s') p fl' al /\
          Exists (fun b => nunits <= b.2) fl' /\ (length fl' <= S (length fl))%nat))
    (fun _ _ => False) (fun s' => s' = s) s.
Proof.
  intros Hh Hnu Hmax Hsb. unfold morecore. fold (core_units nunits). set (nu := core_units nunits) in *.
  assert (1 <= nu /\ nunits <= nu) as [Hnu1 Hnu2] by (unfold nu, core_units; destruct (Z.ltb_spec nunits 4096); lia).
  rewrite s32_small by lia. unfold sbrk. apply uspec_bind, uspec_bind, uspec_ecall; [done|]. intros a r Ha. apply uspec_ret.
  specialize (Hsb a ltac:(by rewrite Ha)). change (id a) with a. set (hp := u64 (a_ret a)) in *.
  destruct (Z.eqb_spec hp 18446744073709551615) as [E|E].
  { apply uspec_ret. split; [apply kept_refl|by left]. }
  destruct Hsb as [|[Hhp Hhp2]]; [done|]. apply uspec_bind, uspec_modify.
  destruct (heap_above _ _ _ _ _ _ hp nu Hh Hhp) as (Hh1 & Hk1 & Hf & Hal).
  apply (heap_grow _ _ (hp + 16 * nu)) in Hh1; [|lia|lia].
  match goal with |- uspec _ _ _ _ ?x => set (s1 := x) end.
  destruct (free_insert base (hp + 16 * nu) fl al hp nu s1) as (p & m' & fl' & Hfree & Hh' & Hk & He & Hle).
  { exact Hh1. }
  { done. }
  { apply list.Forall_cons in Hf as [Hf _]. unfold span in Hf. cbn in Hf. lia. }
  { lia. }
  { cbn. apply hsize_set_size. lia. }
  { eapply list.Forall_impl; [exact Hf|]. cbn. intros b Hb. right. cbn. lia. }
  { eapply list.Forall_impl; [exact Hal|]. cbn. intros b Hb. right. cbn. lia. }
  apply uspec_bind, (uspec_eq _ _ _ _ _ _ _ Hfree), uspec_gets.
  split; [by eapply kept_trans|]. right. split; [done|]. exists (hp + 16 * nu), fl'. split_and!; [lia|done| |done].
  eapply list.Exists_impl; [exact He|]. cbn. lia.
Qed.

Lemma loop_spec base hi fl al nunits k s :
  heap base hi (u_mem s) (s_freep (u_static s)) fl al -> 1 <= nunits -> 16 * core_units nunits < 2147483648 ->
  sbrk_ok hi (16 * core_units nunits) (u_answers s) -> (2 * cfuel (u_mem s) + 3 <= k)%nat ->
  uspec (malloc_loop k nunits (s_freep (u_static s)) (hptr (u_mem s) (s_freep (u_static s))))
    (fun p s' => kept al (u_mem s) (u_mem s') /\
       (p = 0 /\ u_mem s' = u_mem s /\ u_static s' = u_static s \/
        exists hi' fl', hi <= hi' /\ heap base hi' (u_mem s') (s_freep (u_static s')) fl' ((p - 16, nunits) :: al)))
    (fun _ _ => False) (fun s' => s' = s) s.
Proof.
  intros Hh Hnu Hmax Hsb Hk. pose proof Hh as [Hbase _ Hc Hs _ _ _ _ _]. pose proof (chain_length _ _ _ _ _ Hbase Hbase Hc Hs) as Hlen. cbn [length] in Hlen.
  destruct (loop_heap base hi fl al nunits k s Hh Hnu) as [(prev & a & sz & H1 & H2 & H3 & H4 & H5)|(H1 & H2)]; [lia| |].
  - destruct (carve_spec base hi fl al nunits prev a sz s Hh) as (b & m' & fl' & Hca & Hh' & Hk'); [lia|done|done|done|].
    unfold uspec. rewrite H5, Hca. split; [done|]. right. exists hi, fl'. split; [lia|]. by replace (b + 16 - 16) with b by lia.
  - unfold uspec. rewrite H2. fold (uspec (A := Z)). unfold more. apply uspec_bind.
    eapply uspec_mono; [by apply (morecore_spec base hi fl al)|..]; [|done|done].
    intros p s1 [Hk1 [(-> & Hm1 & Hs1)|(-> & hi' & fl' & Hhi' & Hh' & He & Hle)]]; cbn beta.
    { apply uspec_ret. split; [done|]. by left. }
    pose proof Hh' as [_ Hhi2 Hc' Hs' _ Hfp' _ _ _]. pose proof (chain_length _ _ _ _ _ Hbase Hbase Hc' Hs') as Hlen'. cbn [length] in Hlen'.
    destruct (Z.eqb_spec (s_freep (u_static s1)) 0) as [E|E].
    { exfalso. apply (srt_in base) in Hs'. apply heap_freep_in in Hh'. rewrite E in Hh'. apply list_elem_of_fmap in Hh' as ([x y] & Hx & Hin).
      rewrite list.Forall_forall in Hs'. apply Hs' in Hin. cbn in *. lia. }
    apply uspec_bind, uspec_gets. unfold uspec. 
    destruct (loop_heap base hi' fl' al nunits (k - S (length fl)) s1 Hh' Hnu) as [(prev & a & sz & G1 & G2 & G3 & G4 & G5)|(G1 & G2)].
    + lia.
    + destruct (carve_spec base hi' fl' al nunits prev a sz s1 Hh') as (b & m' & fl2 & Hca & Hh2 & Hk'); [lia|done|done|done|].
      rewrite G5, Hca. split; [by eapply kept_trans|]. right. exists hi', fl2. split; [lia|]. by replace (b + 16 - 16) with b by lia.
    + exfalso. apply list.Exists_exists in He as (b & Hb & Hbl). rewrite list.Forall_forall in G1. apply G1 in Hb. cbn in *. lia.
Qed.

(** The state of the allocator: not used yet, or a heap. *)
Definition heap_st (base hi : Z) (s : ust) (fl al : list node) : Prop :=
  (s_freep (u_static s) = 0 /\ fl = [] /\ al = [] /\ 0 < base /\ base + 16 <= hi /\ hi < 2 ^ 36) \/
  heap base hi (u_mem s) (s_freep (u_static s)) fl al.

Lemma heap_init base hi m : 0 < base -> base + 16 <= hi -> hi < 2 ^ 36 -> heap base hi (set_size (set_ptr m base base) base 0) base [] [].
Proof.
  intros H1 H2 H3. constructor; try done; try by left.
  cbn [chain head_addr]. split_and!; [|by hdr|done]. by hdr.
Qed.

Definition units (nbytes : Z) : Z := (nbytes + 15) / 16 + 1.

Lemma units_bound nbytes : 0 <= nbytes < 2147352576 ->
  u32 ((u32 nbytes + 15) / 16 + 1) = units nbytes /\ 1 <= units nbytes /\ nbytes <= 16 * (units nbytes - 1) /\ 16 * core_units (units nbytes) < 2147483648.
Proof.
  intros H. unfold units. rewrite (u32_small nbytes) by lia.
  pose proof (Z.div_mod (nbytes + 15) 16 ltac:(lia)). pose proof (Z.mod_pos_bound (nbytes + 15) 16 ltac:(lia)).
  rewrite u32_small by lia. unfold core_units. destruct (Z.ltb_spec ((nbytes + 15) / 16 + 1) 4096); lia.
Qed.

(** C12: [malloc] always returns.  Unless the kernel refuses memory, in which case
    it returns 0 and changes nothing, the block it returns has at least [nbytes]
    bytes behind its header and overlaps neither a block in use nor a free
    block; the free list stays sorted, linked and within the heap, and the
    contents of the blocks in use do not change. *)
Theorem malloc_correct base hi fl al nbytes s :
  heap_st base hi s fl al -> 0 <= nbytes < 2147352576 -> sbrk_ok hi (16 * core_units (units nbytes)) (u_answers s) ->
  uspec (malloc base nbytes)
    (fun p s' => kept al (u_mem s) (u_mem s') /\
       (p = 0 /\ heap_st base hi s' fl al \/
        exists n hi' fl', hi <= hi' /\ nbytes <= 16 * (n - 1) /\ heap_st base hi' s' fl' ((p - 16, n) :: al)))
    (fun _ _ => False)
    (fun s' => kept al (u_mem s) (u_mem s') /\ heap_st base hi s' fl al) s.
Proof.
  intros Hst Hnb Hsb. destruct (units_bound nbytes Hnb) as (Hu & Hu1 & Hu2 & Hu3). unfold malloc. rewrite Hu.
  apply uspec_bind, uspec_gets, uspec_bind.
  assert (exists s1, (if s_freep (u_static s) =? 0 then
     umodify (set_mem (fun m => set_size (set_ptr m base base) base 0));; umodify (set_freep base) else mret tt) s = URet tt s1 /\
     heap base hi (u_mem s1) (s_freep (u_static s1)) fl al /\ kept al (u_mem s) (u_mem s1) /\ u_answers s1 = u_answers s) as (s1 & Hs1 & Hh & Hk & Ha).
  { destruct Hst as [(Hf & -> & -> & H1 & H2 & H3)|Hh].
    - rewrite Hf, Z.eqb_refl. eexists. split; [reflexivity|]. cbn. split_and!; [by apply heap_init|constructor|done].
    - destruct (Z.eqb_spec (s_freep (u_static s)) 0) as [E|E]; [|exists s; split_and!; [done|done|apply kept_refl|done]].
      exfalso. pose proof (heap_freep_in _ _ _ _ _ _ Hh) as Hin. destruct Hh as [Hb _ _ Hs _ _ _ _ _]. apply (srt_in base) in Hs. rewrite E in Hin.
      apply list_elem_of_fmap in Hin as ([x y] & Hx & Hin). rewrite list.Forall_forall in Hs. apply Hs in Hin. cbn in *. lia. }
  apply (uspec_eq _ _ _ _ _ _ _ Hs1), uspec_bind, uspec_gets, uspec_bind, uspec_gets. rewrite <- Ha in Hsb.
  eapply uspec_mono; [by apply (loop_spec base hi fl al)| | |]; cbn beta.
  - intros p s' [Hk' [(-> & Hm & Hs)|(hi' & fl' & Hhi & Hh')]]; (split; [by eapply kept_trans|]).
    + left. split; [done|]. right. by rewrite Hm, Hs.
    + right. exists (units nbytes), hi', fl'. split_and!; [done|done|by right].
  - done.
  - intros s' ->. split; [done|by right].
Qed.

(** A process that has not allocated yet, and a kernel that gives it 64 KiB. *)
Definition heap_demo : ust := Ust ∅ (Statics 0 0 [] 0) [] [Answer 16384 []] [] [].

Lemma malloc_correct_witness :
  uspec (malloc 4096 100)
    (fun p s' => kept [] (u_mem heap_demo) (u_mem s') /\
       (p = 0 /\ heap_st 4096 8192 s' [] [] \/
        exists n hi' fl', 8192 <= hi' /\ 100 <= 16 * (n - 1) /\ heap_st 4096 hi' s' fl' [(p - 16, n)]))
    (fun _ _ => False)
    (fun s' => kept [] (u_mem heap_demo) (u_mem s') /\ heap_st 4096 8192 s' [] []) heap_demo /\
  match malloc 4096 100 heap_demo with URet p _ => p = 16384 + 16 * 4096 - 16 * 7 | _ => False end.
Proof.
  split.
  - apply (malloc_correct 4096 8192 [] [] 100 heap_demo).
    + left. by split_and!.
    + lia.
    + intros a Ha. injection Ha as <-. right. split; vm_compute; [discriminate|reflexivity].
  - vm_compute. reflexivity.
Defined.

Lemma pairwise_split l1 b l2 : pairwise (l1 ++ b :: l2) -> Forall (disj b) (l1 ++ l2) /\ pairwise (l1 ++ l2).
Proof.
  induction l1 as [|c l1 IH]; cbn [app pairwise]; [done|]. intros [[H1 [H2 H3]%list.Forall_cons]%Forall_app [H4 H5]%IH].
  split; [constructor; [by apply disj_sym|done]|]. split; [by apply Forall_app|done].
Qed.


Definition heap_demo2 : ust := match malloc 4096 100 heap_demo with URet _ s => s | _ => heap_demo end.

Lemma heap_demo2_heap : heap_st 4096 81920 heap_demo2 [(16384, 4088)] ([] ++ [(81808 - 16, 8)]).
Proof.
  right. constructor; try done.
  - repeat constructor; cbn; lia.
  - left. vm_compute. reflexivity.
  - repeat constructor; cbn; try lia; vm_compute; reflexivity.
  - repeat constructor; unfold disj, span; cbn; lia.
Qed.


(** The number of bytes asked for is passed to [sbrk] as an [int]: a request for
    4 GiB - 1 bytes asks the kernel for 16, and [malloc] returns a block. *)
Lemma malloc_huge :
  match malloc 4096 4294967295 (Ust ∅ (Statics 0 0 [] 0) [] [Answer 16384 []] [] []) with
  | URet p s => p = 16400 /\ u_trace s = [(Csbrk 16, Answer 16384 [])]
  | _ => False
  end.
Proof. vm_compute. split; reflexivity. Qed.
