(* ===== verification/Shell.v ===== *)
(** * user/sh.c: the shell

    The parser reads the command line in memory; a parsed command keeps the
    addresses of the words in the line, as the C structures do, and
    [nulterminate] puts the terminators in.  The nodes themselves, which the code
    allocates with [malloc], are values of [cmd].  [exit] and [panic] end the
    process. *)

From S2P Require Import Prelude KString User Uprintf.

(** ** Commands *)

Definition MAXARGS : nat := 10.

(** The arguments are pairs [(argv[i], eargv[i])]. *)
Inductive cmd : Type :=
| EXEC (argv : list (Z * Z))
| REDIR (c : cmd) (file efile mode fd : Z)
| PIPE (left right : cmd)
| LIST (left right : cmd)
| BACK (c : cmd).

Definition execcmd : cmd := EXEC [].
Definition redircmd (subcmd : cmd) (file efile mode fd : Z) : cmd := REDIR subcmd file efile mode fd.
Definition pipecmd (left right : cmd) : cmd := PIPE left right.
Definition listcmd (left right : cmd) : cmd := LIST left right.
Definition backcmd (subcmd : cmd) : cmd := BACK subcmd.

(** [parseexec] keeps a pointer to the [execcmd] it allocated while redirections
    are wrapped around it: storing an argument reaches through them. *)
Fixpoint store_arg (c : cmd) (q eq : Z) : cmd :=
  match c with
  | EXEC argv => EXEC (argv ++ [(q, eq)])
  | REDIR c file efile mode fd => REDIR (store_arg c q eq) file efile mode fd
  | c => c
  end.

Definition panic {A : Type} (s : string) : U A := fprintf 2 ("%s" +:+ NL) [Astr (bytes s)];; exit 1.

Definition fork1 : U Z :=
  pid ← fork;
  if pid =? -1 then panic "fork" else mret pid.

(** ** Tokens *)

Definition whitespace : list Z := [32; 9; 13; 10; 11].
Definition symbols : list Z := bytes "<|>&;()".

(** [while (s < es && strchr(whitespace, *s)) s++]; [k] is [es - s]. *)
Fixpoint skip_white (k : nat) (m : gmap Z Z) (s : Z) : Z :=
  match k with
  | O => s
  | S k => if strchr_lit whitespace (m.[s]) then skip_white k m (s + 1) else s
  end.

Fixpoint skip_word (k : nat) (m : gmap Z Z) (s : Z) : Z :=
  match k with
  | O => s
  | S k =>
      if negb (strchr_lit whitespace (m.[s])) && negb (strchr_lit symbols (m.[s]))
      then skip_word k m (s + 1) else s
  end.

(** The token kind, the start and the end of its text, and the new position. *)
Definition gettoken (m : gmap Z Z) (s es : Z) : Z * Z * Z * Z :=
  let s := skip_white (Z.to_nat (es - s)) m s in
  let q := s in
  let c := m.[s] in
  let '(ret, s) :=
    if c =? 0 then (c, s)
    else if (c =? 124) || (c =? 40) || (c =? 41) || (c =? 59) || (c =? 38) || (c =? 60) then (c, s + 1)
    else if c =? 62 then (if m.[s + 1] =? 62 then (43, s + 2) else (c, s + 1))
    else (97, skip_word (Z.to_nat (es - s)) m s) in
  let eq := s in
  (ret, q, eq, skip_white (Z.to_nat (es - s)) m s).

Definition peek (m : gmap Z Z) (s es : Z) (toks : list Z) : Z * bool :=
  let s := skip_white (Z.to_nat (es - s)) m s in
  (s, negb (m.[s] =? 0) && strchr_lit toks (m.[s])).

(** ** The parser

    Each function returns the command and the new value of [*ps].  [fuel] bounds
    the depth of the recursion; loops that consume a token per turn take the
    number of characters left. *)

Fixpoint parseredirs (fuel : nat) (m : gmap Z Z) (c : cmd) (s es : Z) : U (cmd * Z) :=
  match fuel with
  | O => ufuel
  | S fuel =>
      let '(s, b) := peek m s es (bytes "<>") in
      if negb b then mret (c, s)
      else
        let '(tok, _, _, s) := gettoken m s es in
        let '(tok2, q, eq, s) := gettoken m s es in
        if negb (tok2 =? 97) then panic "missing file for redirection"
        else
          let c :=
            if tok =? 60 then redircmd c q eq O_RDONLY 0
            else if tok =? 62 then redircmd c q eq (Z.lor (Z.lor O_WRONLY O_CREATE) O_TRUNC) 1
            else if tok =? 43 then redircmd c q eq (Z.lor O_WRONLY O_CREATE) 1
            else c in
          parseredirs fuel m c s es
  end.

(** The loop of [parseexec] over the arguments. *)
Fixpoint parseargs (fuel : nat) (m : gmap Z Z) (ret : cmd) (argc : nat) (s es : Z) : U (cmd * Z) :=
  match fuel with
  | O => ufuel
  | S fuel =>
      let '(s, b) := peek m s es (bytes "|)&;") in
      if b then mret (ret, s)
      else
        let '(tok, q, eq, s) := gettoken m s es in
        if tok =? 0 then mret (ret, s)
        else if negb (tok =? 97) then panic "syntax"
        else
          let ret := store_arg ret q eq in
          let argc := S argc in
          if (MAXARGS <=? argc)%nat then panic "too many args"
          else
            '(ret, s) ← parseredirs fuel m ret s es;
            parseargs fuel m ret argc s es
  end.

Fixpoint parsebacks (fuel : nat) (m : gmap Z Z) (c : cmd) (s es : Z) : U (cmd * Z) :=
  match fuel with
  | O => ufuel
  | S fuel =>
      let '(s, b) := peek m s es (bytes "&") in
      if b then
        let '(_, _, _, s) := gettoken m s es in
        parsebacks fuel m (backcmd c) s es
      else mret (c, s)
  end.

Definition turns (s es : Z) : nat := S (Z.to_nat (es - s)).

Fixpoint parseline (fuel : nat) (m : gmap Z Z) (s es : Z) : U (cmd * Z) :=
  match fuel with
  | O => ufuel
  | S fuel =>
      '(c, s) ← parsepipe fuel m s es;
      '(c, s) ← parsebacks (turns s es) m c s es;
      let '(s, b) := peek m s es (bytes ";") in
      if b then
        let '(_, _, _, s) := gettoken m s es in
        '(r, s) ← parseline fuel m s es;
        mret (listcmd c r, s)
      else mret (c, s)
  end
with parsepipe (fuel : nat) (m : gmap Z Z) (s es : Z) : U (cmd * Z) :=
  match fuel with
  | O => ufuel
  | S fuel =>
      '(c, s) ← parseexec fuel m s es;
      let '(s, b) := peek m s es (bytes "|") in
      if b then
        let '(_, _, _, s) := gettoken m s es in
        '(r, s) ← parsepipe fuel m s es;
        mret (pipecmd c r, s)
      else mret (c, s)
  end
with parseexec (fuel : nat) (m : gmap Z Z) (s es : Z) : U (cmd * Z) :=
  match fuel with
  | O => ufuel
  | S fuel =>
      let '(s, b) := peek m s es (bytes "(") in
      if b then parseblock fuel m s es
      else
        '(ret, s) ← parseredirs (turns s es) m execcmd s es;
        parseargs (turns s es) m ret 0 s es
  end
with parseblock (fuel : nat) (m : gmap Z Z) (s es : Z) : U (cmd * Z) :=
  match fuel with
  | O => ufuel
  | S fuel =>
      let '(s, b) := peek m s es (bytes "(") in
      if negb b then panic "parseblock"
      else
        let '(_, _, _, s) := gettoken m s es in
        '(c, s) ← parseline fuel m s es;
        let '(s, b) := peek m s es (bytes ")") in
        if negb b then panic "syntax - missing )"
        else
          let '(_, _, _, s) := gettoken m s es in
          parseredirs (turns s es) m c s es
  end.

(** [for (i = 0; ecmd->argv[i]; i++) *ecmd->eargv[i] = 0]. *)
Fixpoint terminate_args (m : gmap Z Z) (argv : list (Z * Z)) : gmap Z Z :=
  match argv with
  | [] => m
  | (q, eq) :: argv => if q =? 0 then m else terminate_args (m.[eq <- 0]) argv
  end.

Fixpoint nulterminate (m : gmap Z Z) (c : cmd) : gmap Z Z :=
  match c with
  | EXEC argv => terminate_args m argv
  | REDIR c file efile mode fd => (nulterminate m c).[efile <- 0]
  | PIPE l r => nulterminate (nulterminate m l) r
  | LIST l r => nulterminate (nulterminate m l) r
  | BACK c => nulterminate m c
  end.

(** Four functions call each other before a character must be consumed. *)
Definition parse_fuel (s es : Z) : nat := 4 * S (Z.to_nat (es - s)).

Definition parsecmd (s : Z) : U cmd :=
  m ← mem;
  let es := s + strlen m s in
  '(c, s) ← parseline (parse_fuel s es) m s es;
  let '(s, _) := peek m s es [] in
  if negb (s =? es) then
    fprintf 2 ("leftovers: %s" +:+ NL) [Astr (string_at m s)];;
    panic "syntax"
  else
    put_mem (nulterminate m c);;
    mret c.

(** ** Running commands *)

Definition arg_strings (m : gmap Z Z) (argv : list (Z * Z)) : list (list Z) := (fun a => string_at m a.1) <$> argv.

Fixpoint runcmd (c : cmd) : U unit :=
  match c with
  | EXEC argv =>
      m ← mem;
      match arg_strings m argv with
      | [] => exit 1
      | path :: _ as args =>
          exec path args;;
          fprintf 2 ("exec %s failed" +:+ NL) [Astr path];;
          exit 0
      end
  | REDIR c file efile mode fd =>
      close fd;;
      m ← mem;
      r ← open (string_at m file) mode;
      if r <? 0 then
        fprintf 2 ("open %s failed" +:+ NL) [Astr (string_at m file)];;
        exit 1
      else runcmd c
  | LIST l r =>
      pid ← fork1;
      (if pid =? 0 then runcmd l else mret tt);;
      wait 0;;
      runcmd r
  | PIPE l r =>
      '(rc, p0, p1) ← pipe;
      (if rc <? 0 then panic "pipe" else mret tt);;
      pid ← fork1;
      (if pid =? 0 then close 1;; dup p1;; close p0;; close p1;; runcmd l else mret tt);;
      pid ← fork1;
      (if pid =? 0 then close 0;; dup p0;; close p0;; close p1;; runcmd r else mret tt);;
      close p0;;
      close p1;;
      wait 0;;
      wait 0;;
      exit 0
  | BACK c =>
      pid ← fork1;
      (if pid =? 0 then runcmd c else mret tt);;
      exit 0
  end.

Definition getcmd (buf nbuf : Z) : U Z :=
  write_bytes 2 (bytes "$ ");;
  umodify (set_mem (fun m => memset m buf 0 nbuf));;
  User.gets buf nbuf;;
  m ← mem;
  if m.[buf] =? 0 then mret (-1) else mret 0.

Definition parse_buffer (buf : Z) : U unit :=
  m ← mem;
  if (m.[buf] =? 99) && (m.[buf + 1] =? 100) && (m.[buf + 2] =? 32) then
    umodify (set_mem (fun m => m.[buf + strlen m buf - 1 <- 0]));;
    m ← mem;
    r ← chdir (string_at m (buf + 3));
    if r <? 0 then fprintf 2 ("cannot cd %s" +:+ NL) [Astr (string_at m (buf + 3))] else mret tt
  else if (m.[buf] =? 101) && (m.[buf + 1] =? 120) && (m.[buf + 2] =? 105) && (m.[buf + 3] =? 116) then exit 0
  else
    pid ← fork1;
    (if pid =? 0 then c ← parsecmd buf; runcmd c else mret tt);;
    wait 0;;
    mret tt.

Section Main.
(** The address of the static array [buf] of 120 bytes. *)
Context (buf : Z).

(** The loops of [main] consume an answer of the kernel per turn. *)
Definition answer_fuel {A : Type} (f : nat -> U A) : U A := fun s => f (S (length (u_answers s))) s.

Fixpoint open_three (fuel : nat) : U unit :=
  match fuel with
  | O => ufuel
  | S fuel =>
      fd ← open (bytes "console") O_RDWR;
      if fd <? 0 then mret tt
      else if 3 <=? fd then close fd;; mret tt
      else open_three fuel
  end.

Fixpoint script_loop (fuel : nat) (shfd : Z) : U unit :=
  match fuel with
  | O => ufuel
  | S fuel =>
      parse_buffer buf;;
      n ← read shfd buf 120;
      if n =? 120 then script_loop fuel shfd else mret tt
  end.

Fixpoint command_loop (fuel : nat) : U unit :=
  match fuel with
  | O => ufuel
  | S fuel =>
      r ← getcmd buf 120;
      if r <? 0 then mret tt else parse_buffer buf;; command_loop fuel
  end.

Definition sh_main (argv : list (list Z)) : U unit :=
  answer_fuel open_three;;
  match argv with
  | [_; script] =>
      shfd ← open script O_RDWR;
      if shfd <? 0 then
        printf ("Failed to open %s" +:+ NL) [Astr script];;
        exit 1
      else
        read shfd buf 120;;
        answer_fuel (fun fuel => script_loop fuel shfd);;
        exit 0
  | _ =>
      answer_fuel command_loop;;
      exit 0
  end.
End Main.

(** ** The parser is total and stays in the line *)

(** Characters of words. *)
Definition plain (c : Z) : bool := negb (c =? 0) && negb (strchr_lit whitespace c) && negb (strchr_lit symbols c).

(** A whole word of the line between [lo] and [es]. *)
Definition word_ok (m : gmap Z Z) (lo es : Z) (w : Z * Z) : Prop :=
  lo <= w.1 < w.2 /\ w.2 <= es /\ (forall x, w.1 <= x < w.2 -> plain (m.[x]) = true) /\ plain (m.[w.2]) = false.

(** The words a command refers to. *)
Fixpoint words (c : cmd) : list (Z * Z) :=
  match c with
  | EXEC argv => argv
  | REDIR c file efile _ _ => (file, efile) :: words c
  | PIPE l r => words l ++ words r
  | LIST l r => words l ++ words r
  | BACK c => words c
  end.

(** Every argument vector leaves room for its null pointer. *)
Fixpoint argv_ok (c : cmd) : Prop :=
  match c with
  | EXEC argv => (length argv < MAXARGS)%nat
  | REDIR c _ _ _ _ => argv_ok c
  | PIPE l r => argv_ok l /\ argv_ok r
  | LIST l r => argv_ok l /\ argv_ok r
  | BACK c => argv_ok c
  end.

Definition cmd_ok (m : gmap Z Z) (lo es : Z) (c : cmd) : Prop := argv_ok c /\ Forall (word_ok m lo es) (words c).

Section Line.
Context (m : gmap Z Z) (lo es : Z).
Context (Hin : forall x, lo <= x < es -> m.[x] <> 0) (Hend : m.[es] = 0).

Lemma skip_white_range (k : nat) s : s <= skip_white k m s <= s + k.
Proof. revert s. induction k as [|k IH]; intros s; cbn [skip_white]; [lia|]. destruct (strchr_lit _ _); [specialize (IH (s + 1))|]; lia. Qed.

Lemma skip_white_stop (k : nat) s : skip_white k m s < s + k -> strchr_lit whitespace (m.[skip_white k m s]) = false.
Proof.
  revert s. induction k as [|k IH]; intros s; cbn [skip_white]; [lia|]. destruct (strchr_lit whitespace (m.[s])) eqn:E; [|done].
  intros H. apply IH. lia.
Qed.

Lemma skip_word_spec (k : nat) s : let e := skip_word k m s in
  s <= e <= s + k /\ (forall x, s <= x < e -> strchr_lit whitespace (m.[x]) = false /\ strchr_lit symbols (m.[x]) = false) /\
  (e < s + k -> strchr_lit whitespace (m.[e]) = true \/ strchr_lit symbols (m.[e]) = true).
Proof.
  revert s. induction k as [|k IH]; intros s; cbn [skip_word]; [split_and!; intros; lia|].
  destruct (negb (strchr_lit whitespace (m.[s])) && negb (strchr_lit symbols (m.[s]))) eqn:E.
  - destruct (IH (s + 1)) as (H1 & H2 & H3). bool_facts. split_and!; [lia|lia| |intros; apply H3; lia].
    intros x Hx. destruct (decide (x = s)) as [->|]; [done|]. apply H2. lia.
  - split_and!; [lia|lia|intros; lia|]. intros _. bool_facts. destruct E as [E|E]; bool_facts; auto.
Qed.

Lemma plain_true c : c <> 0 -> strchr_lit whitespace c = false -> strchr_lit symbols c = false -> plain c = true.
Proof. intros H1 H2 H3. unfold plain. rewrite H2, H3. destruct (Z.eqb_spec c 0); done. Qed.

(** A token lies ahead in the line; unless it is the end it is not empty, and a
    word token is a whole word. *)
Lemma gettoken_spec s ret q eq s' : lo <= s <= es -> gettoken m s es = (ret, q, eq, s') ->
  s <= q <= eq /\ eq <= s' <= es /\ (ret <> 0 -> q < eq) /\ (ret = 0 -> s' = es) /\ (ret = 97 -> word_ok m lo es (q, eq)).
Proof.
  intros Hs. unfold gettoken. set (t := skip_white (Z.to_nat (es - s)) m s).
  pose proof (skip_white_range (Z.to_nat (es - s)) s) as Ht. fold t in Ht.
  assert (t < es -> m.[t] <> 0) as Hnz by (intros; apply Hin; lia).
  assert (t < es -> strchr_lit whitespace (m.[t]) = false) as Hnw by (intros; apply skip_white_stop; fold t; lia).
  assert (forall r e, e <= es -> t <= e -> (r <> 0 -> t < e) -> (r = 0 -> e = es) -> (r = 97 -> word_ok m lo es (t, e)) ->
    (r, t, e, skip_white (Z.to_nat (es - e)) m e) = (ret, q, eq, s') ->
    s <= q <= eq /\ eq <= s' <= es /\ (ret <> 0 -> q < eq) /\ (ret = 0 -> s' = es) /\ (ret = 97 -> word_ok m lo es (q, eq))) as Hgen.
  { intros r e H1 H2 H3 H4 H5 [= <- <- <- <-]. pose proof (skip_white_range (Z.to_nat (es - e)) e). split_and!; try done; try lia. }
  destruct (Z.eqb_spec (m.[t]) 0) as [E|E].
  { assert (t = es) as Hte by (destruct (decide (t < es)); [by exfalso; apply Hnz|lia]). apply Hgen; try lia; rewrite E; lia. }
  assert (t < es) as Hlt by (destruct (decide (t < es)); [done|]; assert (t = es) by lia; congruence).
  destruct ((m.[t] =? 124) || _ || _ || _ || _ || _) eqn:E1.
  { apply Hgen; lia. }
  destruct (Z.eqb_spec (m.[t]) 62) as [E2|E2].
  { destruct (Z.eqb_spec (m.[t + 1]) 62) as [E3|E3]; [|apply Hgen; lia].
    apply Hgen; try lia. destruct (decide (t + 1 < es)); [lia|]. assert (t + 1 = es) as E4 by lia. rewrite E4 in E3. lia. }
  assert (strchr_lit symbols (m.[t]) = false) as Hns.
  { destruct (strchr_lit symbols (m.[t])) eqn:Es; [|done]. apply strchr_lit_iff in Es. bool_facts.
    unfold symbols, bytes in Es. cbn in Es. repeat (apply elem_of_cons in Es as [Es|Es]; [done|]). by apply elem_of_nil in Es. }
  destruct (skip_word_spec (Z.to_nat (es - t)) t) as (H1 & H2 & H3). set (e := skip_word (Z.to_nat (es - t)) m t) in *.
  assert (t < e) as Hte.
  { destruct (decide (t < e)); [done|]. assert (e = t) as Het by lia. rewrite Het in H3. destruct H3 as [H3|H3]; [lia|..]; rewrite ?Hnw, ?Hns in H3 by done; done. }
  apply Hgen; try lia. intros _. unfold word_ok. cbn [fst snd]. split_and!; [lia|lia|lia| |].
  - intros x Hx. destruct (H2 x Hx). apply plain_true; [apply Hin; lia|done|done].
  - unfold plain. destruct (decide (e < es)) as [He|He].
    + destruct H3 as [H3|H3]; [lia|..]; rewrite H3; cbn; rewrite ?andb_false_r; done.
    + assert (e = es) as -> by lia. by rewrite Hend.
Qed.

Lemma peek_spec s s' b toks : lo <= s <= es -> peek m s es toks = (s', b) -> s <= s' <= es /\ (b = true -> s' < es).
Proof.
  intros Hs. unfold peek. intros [= <- <-]. pose proof (skip_white_range (Z.to_nat (es - s)) s). split; [lia|].
  intros Hb. bool_facts. set (t := skip_white _ _ _) in *. destruct (decide (t < es)); [done|]. assert (t = es) by lia. congruence.
Qed.

(** Before the end of the line every token moves the position. *)
Lemma gettoken_consumes s ret q eq s' : lo <= s < es -> gettoken m s es = (ret, q, eq, s') -> s < s' <= es.
Proof.
  intros Hs Hg. destruct (gettoken_spec s ret q eq s' ltac:(lia) Hg) as (H1 & H2 & H3 & H4 & _).
  destruct (decide (ret = 0)) as [E|E]; [rewrite (H4 E); lia|]. specialize (H3 E). lia.
Qed.

(** Printing ends, or waits for the kernel; a panic exits with status 1. *)
Lemma uspec_prints {A} fd out (c : U A) (P : A -> Prop) (Q : A -> ust -> Prop) X s :
  prints fd out c P -> (forall a s', u_mem s' = u_mem s -> P a -> Q a s') -> uspec c Q X (fun _ => True) s.
Proof.
  intros H HQ. eapply uspec_mono; [apply H|..]; [|done|done]. intros a s' [Ha (rs & _ & _ & ->)]. by apply HQ.
Qed.

Lemma prints_line l : prints 2 ((u8 <$> l) ++ [10]) (fprintf 2 ("%s" +:+ NL) [Astr l]) (fun _ => True).
Proof.
  apply prints_vprintf. cbn. by destruct l.
Qed.

Lemma panic_spec {A} msg (Q : A -> ust -> Prop) s : uspec (panic msg) Q (fun v _ => v = 1) (fun _ => True) s.
Proof. unfold panic. apply uspec_bind. eapply uspec_prints; [apply prints_line|]. intros. by apply uspec_exit. Qed.

(** What a parsing function promises: a position ahead and a command whose words
    are words of the line; or it exits with status 1, or waits for the kernel.
    It leaves the memory alone. *)
Definition parses (P : cmd -> Prop) (s : Z) (c : U (cmd * Z)) : Prop :=
  forall u, u_mem u = m ->
    uspec c (fun r u' => u_mem u' = m /\ s <= r.2 <= es /\ P r.1) (fun v _ => v = 1) (fun _ => True) u.

Lemma parses_bind P P' s (c : U (cmd * Z)) (k : cmd * Z -> U (cmd * Z)) :
  parses P s c -> (forall a s', s <= s' <= es -> P a -> parses P' s' (k (a, s'))) -> parses P' s (c ≫= k).
Proof.
  intros H Hk u Hu. apply uspec_bind. eapply uspec_mono; [by apply H|..]; [|done|done].
  intros [a s'] u' (Hm & Hs & Ha). eapply uspec_mono; [by apply Hk|..]; [|done|done]. cbn in *. intros r u'' (? & ? & ?). split_and!; [done|lia|lia|done].
Qed.

Lemma parses_ret (P : cmd -> Prop) s c s' : s <= s' <= es -> P c -> parses P s (mret (c, s')).
Proof. intros. by intros u Hu. Qed.

Lemma parses_panic P s msg : parses P s (panic msg).
Proof. intros u Hu. apply panic_spec. Qed.

Lemma parses_le P s s' c : parses P s' c -> s <= s' -> parses P s c.
Proof.
  intros H Hs u Hu. eapply uspec_mono; [by apply H|..]; [|done|done]. intros r u' (? & ? & ?). split_and!; [done|lia|lia|done].
Qed.

(** The argument vector at the bottom of the redirections. *)
Fixpoint exec_args (c : cmd) : option (list (Z * Z)) :=
  match c with
  | EXEC argv => Some argv
  | REDIR c _ _ _ _ => exec_args c
  | _ => None
  end.

(** [c] is [c0] with redirections around it. *)
Definition same_exec (n : option nat) (c : cmd) : Prop := length <$> exec_args c = n.

Lemma parseredirs_spec P fuel c s :
  lo <= s <= es -> (Z.to_nat (es - s) < fuel)%nat -> P c ->
  (forall c q e mode fd, P c -> word_ok m lo es (q, e) -> P (REDIR c q e mode fd)) ->
  parses P s (parseredirs fuel m c s es).
Proof.
  intros Hs Hf Hc HP. revert c s Hs Hf Hc. induction fuel as [|fuel IH]; intros c s Hs Hf Hc; [lia|]. cbn [parseredirs].
  destruct (peek m s es (bytes "<>")) as [s1 b] eqn:Ep. destruct (peek_spec _ _ _ _ Hs Ep) as [H1 H2].
  destruct b; cbn [negb]; [|by apply parses_ret]. specialize (H2 eq_refl).
  destruct (gettoken m s1 es) as [[[tok q0] e0] s2] eqn:E2. destruct (gettoken m s2 es) as [[[tok2 q] e] s3] eqn:E3.
  pose proof (gettoken_consumes s1 _ _ _ _ ltac:(lia) E2) as H3.
  destruct (gettoken_spec s2 _ _ _ _ ltac:(lia) E3) as (H4 & H5 & _ & _ & Hw).
  destruct (Z.eqb_spec tok2 97) as [->|]; cbn [negb]; [|apply parses_panic]. specialize (Hw eq_refl).
  apply (parses_le _ _ s3); [|lia]. apply IH; [lia|lia|]. unfold redircmd. repeat case_if; auto.
Qed.

Lemma store_arg_ok c q e argv : exec_args c = Some argv -> word_ok m lo es (q, e) -> (S (length argv) < MAXARGS)%nat -> cmd_ok m lo es c ->
  cmd_ok m lo es (store_arg c q e) /\ exec_args (store_arg c q e) = Some (argv ++ [(q, e)]).
Proof.
  unfold cmd_ok. induction c as [a|c IH f ef mo fd| | |]; cbn [exec_args store_arg argv_ok words]; try done.
  - intros [= ->] Hw Hl [_ Hf]. rewrite length_app. cbn. split_and!; [lia| |done]. apply Forall_app. by split; [|constructor].
  - intros Ha Hw Hl [H1 [H2 H3]%list.Forall_cons]. destruct (IH Ha Hw Hl) as [[H4 H5] H6]; [done|]. split_and!; [done|by constructor|done].
Qed.

Lemma redir_ok c q e mode fd : cmd_ok m lo es c -> word_ok m lo es (q, e) -> cmd_ok m lo es (REDIR c q e mode fd).
Proof. intros [H1 H2] Hw. split; [done|]. by constructor. Qed.

Lemma parseargs_spec fuel c argv s :
  lo <= s <= es -> (Z.to_nat (es - s) < fuel)%nat -> cmd_ok m lo es c -> exec_args c = Some argv ->
  parses (cmd_ok m lo es) s (parseargs fuel m c (length argv) s es).
Proof.
  revert c argv s. induction fuel as [|fuel IH]; intros c argv s Hs Hf Hc Ha; [lia|]. cbn [parseargs].
  destruct (peek m s es (bytes "|)&;")) as [s1 b] eqn:Ep. destruct (peek_spec _ _ _ _ Hs Ep) as [H1 _].
  destruct b; [by apply parses_ret|].
  destruct (gettoken m s1 es) as [[[tok q] e] s2] eqn:E2.
  destruct (gettoken_spec s1 _ _ _ _ ltac:(lia) E2) as (H2 & H3 & H4 & H5 & Hw).
  destruct (Z.eqb_spec tok 0) as [->|Ht]; [apply parses_ret; [lia|done]|].
  destruct (Z.eqb_spec tok 97) as [->|]; cbn [negb]; [|apply parses_panic]. specialize (Hw eq_refl). specialize (H4 ltac:(lia)).
  destruct (Nat.leb_spec MAXARGS (S (length argv))); [apply parses_panic|].
  destruct (store_arg_ok c q e argv Ha Hw) as [H6 H7]; [lia|done|].
  apply (parses_le _ _ s2); [|lia].
  apply (parses_bind (fun c => cmd_ok m lo es c /\ exec_args c = Some (argv ++ [(q, e)]))).
  - apply parseredirs_spec; [lia|lia|done|]. intros c' q' e' mode fd [Hc1 Hc2] Hw'. split; [by apply redir_ok|done].
  - intros c' s3 Hs3 [Hc1 Hc2]. replace (S (length argv)) with (length (argv ++ [(q, e)])) by (rewrite length_app; cbn; lia).
    apply IH; [lia|lia|done|done].
Qed.

Lemma parsebacks_spec fuel c s :
  lo <= s <= es -> (Z.to_nat (es - s) < fuel)%nat -> cmd_ok m lo es c -> parses (cmd_ok m lo es) s (parsebacks fuel m c s es).
Proof.
  revert c s. induction fuel as [|fuel IH]; intros c s Hs Hf Hc; [lia|]. cbn [parsebacks].
  destruct (peek m s es (bytes "&")) as [s1 b] eqn:Ep. destruct (peek_spec _ _ _ _ Hs Ep) as [H1 H2].
  destruct b; [|by apply parses_ret]. specialize (H2 eq_refl).
  destruct (gettoken m s1 es) as [[[tok q] e] s2] eqn:E2. pose proof (gettoken_consumes s1 _ _ _ _ ltac:(lia) E2) as H3.
  apply (parses_le _ _ s2); [|lia]. apply IH; [lia|lia|done].
Qed.

(** The mutually recursive functions: four calls per character are enough. *)
Lemma parser_spec fuel :
  (forall s, lo <= s <= es -> (4 * Z.to_nat (es - s) + 4 <= fuel)%nat -> parses (cmd_ok m lo es) s (parseline fuel m s es)) /\
  (forall s, lo <= s <= es -> (4 * Z.to_nat (es - s) + 3 <= fuel)%nat -> parses (cmd_ok m lo es) s (parsepipe fuel m s es)) /\
  (forall s, lo <= s <= es -> (4 * Z.to_nat (es - s) + 2 <= fuel)%nat -> parses (cmd_ok m lo es) s (parseexec fuel m s es)) /\
  (forall s, lo <= s <= es -> (4 * Z.to_nat (es - s) + 1 <= fuel)%nat -> parses (cmd_ok m lo es) s (parseblock fuel m s es)).
Proof.
  induction fuel as [|fuel (IHl & IHp & IHe & IHb)]; [split_and!; intros; lia|].
  split_and!; intros s Hs Hf; cbn [parseline parsepipe parseexec parseblock].
  - apply (parses_bind (cmd_ok m lo es)); [apply IHp; lia|]. intros c s1 Hs1 Hc.
    apply (parses_bind (cmd_ok m lo es)); [apply parsebacks_spec; [lia|unfold turns; lia|done]|]. intros c2 s2 Hs2 Hc2.
    destruct (peek m s2 es (bytes ";")) as [s3 b] eqn:Ep. destruct (peek_spec s2 _ _ _ ltac:(lia) Ep) as [H1 H2].
    destruct b; [|by apply parses_ret]. specialize (H2 eq_refl).
    destruct (gettoken m s3 es) as [[[tok q] e] s4] eqn:E2. pose proof (gettoken_consumes s3 _ _ _ _ ltac:(lia) E2) as H3.
    apply (parses_le _ _ s4); [|lia]. apply (parses_bind (cmd_ok m lo es)); [apply IHl; lia|]. intros r s5 Hs5 [Hr1 Hr2].
    apply parses_ret; [lia|]. destruct Hc2. split; [done|]. by apply Forall_app.
  - apply (parses_bind (cmd_ok m lo es)); [apply IHe; lia|]. intros c s1 Hs1 Hc.
    destruct (peek m s1 es (bytes "|")) as [s3 b] eqn:Ep. destruct (peek_spec s1 _ _ _ ltac:(lia) Ep) as [H1 H2].
    destruct b; [|by apply parses_ret]. specialize (H2 eq_refl).
    destruct (gettoken m s3 es) as [[[tok q] e] s4] eqn:E2. pose proof (gettoken_consumes s3 _ _ _ _ ltac:(lia) E2) as H3.
    apply (parses_le _ _ s4); [|lia]. apply (parses_bind (cmd_ok m lo es)); [apply IHp; lia|]. intros r s5 Hs5 [Hr1 Hr2].
    apply parses_ret; [lia|]. destruct Hc. split; [done|]. by apply Forall_app.
  - destruct (peek m s es (bytes "(")) as [s1 b] eqn:Ep. destruct (peek_spec s _ _ _ ltac:(lia) Ep) as [H1 H2].
    apply (parses_le _ _ s1); [|lia]. destruct b; [apply IHb; lia|].
    apply (parses_bind (fun c => cmd_ok m lo es c /\ exec_args c = Some [])).
    + apply parseredirs_spec; [lia|unfold turns; lia|split; [split; cbn; [unfold MAXARGS; lia|done]|done]|].
      intros c' q' e' mode fd [Hc1 Hc2] Hw'. split; [by apply redir_ok|done].
    + intros c s2 Hs2 [Hc1 Hc2]. apply (parseargs_spec _ c []); [lia|unfold turns; lia|done|done].
  - destruct (peek m s es (bytes "(")) as [s1 b] eqn:Ep. destruct (peek_spec s _ _ _ ltac:(lia) Ep) as [H1 H2].
    destruct b; cbn [negb]; [|apply parses_panic]. specialize (H2 eq_refl).
    destruct (gettoken m s1 es) as [[[tok q] e] s2] eqn:E2. pose proof (gettoken_consumes s1 _ _ _ _ ltac:(lia) E2) as H3.
    apply (parses_le _ _ s2); [|lia]. apply (parses_bind (cmd_ok m lo es)); [apply IHl; lia|]. intros c s3 Hs3 Hc.
    destruct (peek m s3 es (bytes ")")) as [s4 b'] eqn:Ep'. destruct (peek_spec s3 _ _ _ ltac:(lia) Ep') as [H4 H5].
    destruct b'; cbn [negb]; [|apply parses_panic]. specialize (H5 eq_refl).
    destruct (gettoken m s4 es) as [[[tok' q'] e'] s5] eqn:E3. pose proof (gettoken_consumes s4 _ _ _ _ ltac:(lia) E3) as H6.
    apply (parses_le _ _ s5); [|lia]. apply parseredirs_spec; [lia|unfold turns; lia|done|]. intros; by apply redir_ok.
Qed.
End Line.

Lemma terminate_args_rd m argv x : Forall (fun w => w.1 <> 0) argv ->
  (terminate_args m argv).[x] = if decide (x ∈ argv.*2) then 0 else m.[x].
Proof.
  revert m. induction argv as [|[q e] argv IH]; intros m; cbn [terminate_args fmap list_fmap]; [done|].
  intros [Hq Ha]%list.Forall_cons. cbn in Hq. destruct (Z.eqb_spec q 0); [done|]. rewrite IH by done.
  destruct (decide (x ∈ argv.*2)) as [H|H].
  - rewrite decide_True; [done|by right].
  - rewrite rd_wr. destruct (decide (e = x)) as [->|He].
    + rewrite decide_True; [done|left].
    + rewrite decide_False; [done|]. cbn. set_solver.
Qed.

(** [nulterminate] writes a terminator at the end of every word, and nothing
    else. *)
Lemma nulterminate_rd m c x : Forall (fun w => w.1 <> 0) (words c) ->
  (nulterminate m c).[x] = if decide (x ∈ (words c).*2) then 0 else m.[x].
Proof.
  revert m. induction c as [a|c IH f ef mo fd|l IHl r IHr|l IHl r IHr|c IH]; intros m; cbn [nulterminate words].
  - apply terminate_args_rd.
  - intros [Hf Hc]%list.Forall_cons. rewrite rd_wr, IH by done. cbn [fmap list_fmap snd].
    destruct (decide (ef = x)) as [->|]; [rewrite decide_True; [done|left]|].
    destruct (decide (x ∈ (words c).*2)) as [H|H]; [rewrite decide_True; [done|by right]|].
    rewrite decide_False; [done|]. rewrite elem_of_cons. naive_solver.
  - intros [Hl Hr]%Forall_app. rewrite IHr, IHl, fmap_app by done.
    repeat case_decide; rewrite elem_of_app in *; naive_solver.
  - intros [Hl Hr]%Forall_app. rewrite IHr, IHl, fmap_app by done.
    repeat case_decide; rewrite elem_of_app in *; naive_solver.
  - apply IH.
Qed.

Lemma bytes_at_rd m1 m2 a (n : nat) : (forall x, a <= x < a + n -> m1.[x] = m2.[x]) -> bytes_at m1 a (rd_bytes n m2 a).
Proof.
  revert a. induction n as [|n IH]; intros a H; cbn [rd_bytes bytes_at]; [done|]. split; [apply H; lia|]. apply IH. intros x Hx. apply H. lia.
Qed.

Lemma rd_bytes_all (P : Z -> Prop) m a (n : nat) : (forall x, a <= x < a + n -> P (m.[x])) -> Forall P (rd_bytes n m a).
Proof.
  revert a. induction n as [|n IH]; intros a H; cbn [rd_bytes]; [done|]. constructor; [apply H; lia|]. apply IH. intros x Hx. apply H. lia.
Qed.

(** After termination every word of the command is a string of its own. *)
Lemma words_terminated m lo es c w : 0 < lo -> cmd_ok m lo es c -> w ∈ words c ->
  string_at (nulterminate m c) w.1 = rd_bytes (Z.to_nat (w.2 - w.1)) m w.1.
Proof.
  intros Hlo [_ Hws] Hw. assert (Forall (fun w => w.1 <> 0) (words c)) as Hnz.
  { eapply list.Forall_impl; [exact Hws|]. intros w' (H1 & _). lia. }
  pose proof Hws as Hws'. rewrite list.Forall_forall in Hws'. destruct (Hws' w Hw) as (H1 & H2 & H3 & H4).
  assert (forall x, w.1 <= x < w.2 -> (nulterminate m c).[x] = m.[x]) as Hsame.
  { intros x Hx. rewrite nulterminate_rd, decide_False; [done| |done]. intros (w' & -> & Hw')%list_elem_of_fmap.
    destruct (Hws' w' Hw') as (_ & _ & _ & Hp). rewrite H3 in Hp; [done|lia]. }
  apply string_at_eq, cstr_app_nul.
  - apply bytes_at_rd. intros x Hx. apply Hsame. lia.
  - apply rd_bytes_all. intros x Hx E. specialize (H3 x ltac:(lia)). by rewrite E in H3.
  - rewrite length_rd_bytes, Z2Nat.id by lia. replace (w.1 + (w.2 - w.1)) with w.2 by lia.
    rewrite nulterminate_rd, decide_True; [done| |done]. by apply list_elem_of_fmap_2.
Qed.


(** [ls -l | wc > out] at address 1000. *)
Definition line_demo : ust := Ust (wr_bytes ∅ 1000 (bytes "ls -l|wc >out")) (Statics 0 0 [] 0) [] [] [] [].

