(* ===== verification/Uthread.v ===== *)
(** * user/uthread.c, user/tswtch.S, user/lock.c, _main: user threads

    Threads are cooperative: a thread runs until it calls [tswtch], which saves
    its registers in its [struct thread] and loads those of the next.  The model
    runs one thread; what the others do between the switch away and the switch
    back is the next element of [u_switches].

    The table entries of threads that were never created are null pointers, and
    the code reads through them; address 0 of a user process is mapped (it holds
    program text), so such a read returns whatever bytes are there. *)

From S2P Require Import Prelude KString User Uprintf Umalloc.

Definition MAX_THREADS : nat := 64.

Definition UNUSED : Z := 0.
Definition RUNNABLE : Z := 3.
Definition RUNNING : Z := 4.
Definition EXITED : Z := 6.

(** ** struct thread (user.h) *)

Definition sizeof_thread : Z := 152.
Definition t_context (t : Z) : Z := t + 8.
Definition t_tid (m : gmap Z Z) (t : Z) : Z := m.[t].
Definition t_state (m : gmap Z Z) (t : Z) : Z := ld32 m (t + 120).
Definition t_func (m : gmap Z Z) (t : Z) : Z := ld64 m (t + 136).
Definition t_return_value (m : gmap Z Z) (t : Z) : Z := ld64 m (t + 144).
Definition set_tid (m : gmap Z Z) (t v : Z) : gmap Z Z := m.[t <- v].
Definition set_state (m : gmap Z Z) (t v : Z) : gmap Z Z := st32 m (t + 120) v.
Definition set_arg (m : gmap Z Z) (t v : Z) : gmap Z Z := st64 m (t + 128) v.
Definition set_func (m : gmap Z Z) (t v : Z) : gmap Z Z := st64 m (t + 136) v.
Definition set_return_value (m : gmap Z Z) (t v : Z) : gmap Z Z := st64 m (t + 144) v.

(** ** tswtch.S *)

Fixpoint save_context (m : gmap Z Z) (a : Z) (regs : list Z) : gmap Z Z :=
  match regs with
  | [] => m
  | r :: regs => save_context (st64 m a r) (a + 8) regs
  end.

Fixpoint load_context (n : nat) (m : gmap Z Z) (a : Z) : list Z :=
  match n with
  | O => []
  | S n => ld64 m a :: load_context n m (a + 8)
  end.

(** Save the registers at [old] and load those at [new]; the thread goes on when
    another one has loaded the registers at [old] again. *)
Definition tswtch (old new : Z) : U unit := fun s =>
  let m := save_context (u_mem s) old (u_regs s) in
  let s := set_regs (load_context NCONTEXT m new) (set_mem (fun _ => m) s) in
  match u_switches s with
  | [] => UWait s
  | f :: l =>
      let '(m, t) := f (u_mem s) (u_static s) in
      URet tt (set_switches l (set_regs (load_context NCONTEXT m old) (set_static (fun _ => t) (set_mem (fun _ => m) s))))
  end.

(** ** The scheduler *)

Definition threads : U (list Z) := ugets (fun s => s_threads (u_static s)).
Definition current_thread : U Z := ugets (fun s => s_current_thread (u_static s)).

Fixpoint find_index (m : gmap Z Z) (tid : Z) (l : list Z) (i : Z) : Z :=
  match l with
  | [] => -1
  | t :: l => if t_tid m t =? tid then i else find_index m tid l (i + 1)
  end.

Definition find_thread_index (m : gmap Z Z) (table : list Z) (thread : Z) : Z := find_index m (t_tid m thread) table 0.

(** The loop of [tsched] for the values [its] of [i]. *)
Fixpoint tsched_loop (cur : Z) (its : list Z) : U unit :=
  match its with
  | [] => mret tt
  | i :: its =>
      tab ← threads;
      let t := default 0 (tab !! Z.to_nat (i mod MAX_THREADS)) in
      m ← mem;
      (if t_state m t =? RUNNABLE then
         umodify (set_mem (fun m => set_state m t RUNNING));;
         umodify (set_current_thread t);;
         tab ← threads;
         tswtch (t_context (default 0 (tab !! Z.to_nat cur))) (t_context t)
       else mret tt);;
      tsched_loop cur its
  end.

(** [i] runs from [cur + 1] up to [cur + 63]; if the current thread is not in the
    table ([cur = -1]), [i % 64] never equals it and the loop does not end. *)
Definition tsched : U unit :=
  m ← mem;
  tab ← threads;
  t ← current_thread;
  let cur := find_thread_index m tab t in
  if cur =? -1 then ufuel
  else tsched_loop cur ((fun k : nat => cur + 1 + k) <$> seq 0 (MAX_THREADS - 1)).

Definition tyield : U unit := tsched.

Definition twhoami : U Z := m ← mem; t ← current_thread; mret (t_tid m t).

(** ** Creating and joining threads *)

Definition new_thread_id : U Z :=
  n ← ugets (fun s => s_thread_count (u_static s));
  mret (u8 (u8 n + 1)).

(** The first entry that is unused, if any. *)
Fixpoint free_slot (m : gmap Z Z) (l : list Z) (i : nat) : option nat :=
  match l with
  | [] => None
  | t :: l => if (t_state m t =? UNUSED) || (EXITED <? t_state m t) then Some i else free_slot m l (S i)
  end.

Definition add_thread_to_table (thread : Z) : U unit :=
  m ← mem;
  tab ← threads;
  match free_slot m tab 0 with
  | None => mret tt
  | Some i =>
      umodify (set_threads (<[i := thread]> tab));;
      umodify (set_mem (fun m => set_state m thread RUNNABLE))
  end.

Section Threads.
(** The address of the allocator's static header, of [thread_entry] and of
    [main_tyield]; calling a function pointer. *)
Context (base thread_entry_addr main_tyield_addr : Z) (call_func : Z -> Z -> U Z).

Definition thread_entry : U unit :=
  cur ← current_thread;
  m ← mem;
  return_value ← call_func (t_func m cur) (cur + 128);
  cur ← current_thread;
  m ← mem;
  (if negb (t_return_value m cur =? 0)
   then umodify (set_mem (fun m => set_return_value m cur return_value)) else mret tt);;
  cur ← current_thread;
  umodify (set_mem (fun m => set_state m cur EXITED));;
  tyield.

(** [thread] is the address of the pointer to fill in. *)
Definition tcreate (thread attr func arg : Z) : U unit :=
  t ← malloc base sizeof_thread;
  umodify (set_mem (fun m => st64 m thread t));;
  tid ← new_thread_id;
  umodify (set_mem (fun m => set_tid m t tid));;
  umodify (set_mem (fun m => memset m (t_context t) 0 112));;
  (if attr =? 0 then
     p ← malloc base 4096;
     umodify (set_mem (fun m => st64 m (t_context t + 8) (u64 (p + 4096))))
   else
     m ← mem;
     p ← malloc base (ld32 m attr);
     umodify (set_mem (fun m => st64 m (t_context t + 8) (u64 (p + ld32 m attr)))));;
  umodify (set_mem (fun m => st64 m (t_context t) thread_entry_addr));;
  umodify (set_mem (fun m => set_arg m t arg));;
  umodify (set_mem (fun m => set_func m t func));;
  m ← mem;
  r ← malloc base (ld32 m (attr + 4));
  umodify (set_mem (fun m => set_return_value m t r));;
  add_thread_to_table t.

(** The entry the search loop of [tjoin] stops at: the first with the given id,
    or the last of the table. *)
Fixpoint join_target (m : gmap Z Z) (l : list Z) (tid t : Z) : Z :=
  match l with
  | [] => t
  | t :: l => if t_tid m t =? tid then t else join_target m l tid t
  end.

Fixpoint join_wait (fuel : nat) (t : Z) : U unit :=
  match fuel with
  | O => ufuel
  | S fuel =>
      m ← mem;
      if t_state m t =? EXITED then mret tt else tyield;; join_wait fuel t
  end.

(** [fuel] bounds the turns of the waiting loop, each of which lets the other
    threads run. *)
Definition tjoin (fuel : nat) (tid status size : Z) : U Z :=
  m ← mem;
  tab ← threads;
  let t := join_target m tab tid 0 in
  if negb (t_tid m t =? tid) then
    printf ("[WARNING] tjoin could not find thread with given tid" +:+ NL) [];;
    exit (-1)
  else
    join_wait fuel t;;
    (if negb (status =? 0) && negb (u32 size =? 0)
     then umodify (set_mem (fun m => memcpy m status (t_return_value m t) size)) else mret tt);;
    cur ← current_thread;
    umodify (set_mem (fun m => set_state m cur UNUSED));;
    mret 0.

Definition main_tyield (arg : Z) : U Z := tyield;; mret 0.

(** [_main]: make the main thread, yield, run [main], exit with its result. *)
Definition _main (main : U Z) : U unit :=
  umodify (set_thread_count 0);;
  t ← malloc base sizeof_thread;
  umodify (set_mem (fun m => set_tid m t 0));;
  umodify (set_mem (fun m => st64 m (t_context t) thread_entry_addr));;
  umodify (set_mem (fun m => set_func m t main_tyield_addr));;
  umodify (set_mem (fun m => set_arg m t 0));;
  umodify (set_mem (fun m => set_state m t RUNNABLE));;
  n ← ugets (fun s => s_thread_count (u_static s));
  umodify (set_thread_count (s32 (n + 1)));;
  tab ← threads;
  umodify (set_threads (<[0%nat := t]> tab));;
  umodify (set_current_thread t);;
  tyield;;
  res ← main;
  exit res.
End Threads.

(** ** lock.c: locks for threads *)

Definition lk_locked (m : gmap Z Z) (lk : Z) : Z := m.[lk].
Definition lk_tid (m : gmap Z Z) (lk : Z) : Z := m.[lk + 16].

Definition initlock (lk name : Z) : U unit :=
  umodify (set_mem (fun m => st64 m (lk + 8) name));;
  umodify (set_mem (fun m => m.[lk <- 0]));;
  umodify (set_mem (fun m => m.[lk + 16 <- -1])).

Definition holding (lk : Z) : U bool :=
  m ← mem;
  me ← twhoami;
  mret (negb (lk_locked m lk =? 0) && (lk_tid m lk =? me)).

(** [while (__sync_lock_test_and_set(&lk->locked, 1) != 0) tyield();] *)
Fixpoint acquire_loop (fuel : nat) (lk : Z) : U unit :=
  match fuel with
  | O => ufuel
  | S fuel =>
      m ← mem;
      let old := lk_locked m lk in
      umodify (set_mem (fun m => m.[lk <- 1]));;
      if old =? 0 then mret tt else tyield;; acquire_loop fuel lk
  end.

Definition acquire (fuel : nat) (lk : Z) : U unit :=
  h ← holding lk;
  if (h : bool) then printf "re-acquiring lock we already hold" [];; exit (-1)
  else
    acquire_loop fuel lk;;
    me ← twhoami;
    umodify (set_mem (fun m => m.[lk + 16 <- me])).

Definition release (lk : Z) : U unit :=
  h ← holding lk;
  if negb h then printf "releasing lock we are not holding" [];; exit (-1)
  else
    umodify (set_mem (fun m => m.[lk + 16 <- -1]));;
    umodify (set_mem (fun m => m.[lk <- 0]));;
    tyield.

(** ** Switching *)

Lemma save_context_frame m a regs x : x < a \/ a + 8 * length regs <= x -> (save_context m a regs).[x] = m.[x].
Proof.
  revert m a. induction regs as [|r regs IH]; intros m a H; cbn [save_context length] in *; [done|].
  rewrite IH by lia. apply st64_frame. lia.
Qed.

Lemma load_save m a regs : Forall (fun r => 0 <= r < 18446744073709551616) regs ->
  load_context (length regs) (save_context m a regs) a = regs.
Proof.
  revert m a. induction regs as [|r regs IH]; intros m a; cbn [save_context load_context length]; [done|].
  intros [Hr Hl]%list.Forall_cons. rewrite IH by done. f_equal.
  rewrite (ld64_ext _ (st64 m a r)) by (intros; apply save_context_frame; lia). by apply ld64_st64.
Qed.

Lemma load_context_ext n m1 m2 a : (forall x, a <= x < a + 8 * Z.of_nat n -> m1.[x] = m2.[x]) -> load_context n m1 a = load_context n m2 a.
Proof.
  revert a. induction n as [|n IH]; intros a H; cbn [load_context]; [done|].
  rewrite (IH (a + 8)) by (intros; apply H; lia). f_equal. apply ld64_ext. intros; apply H; lia.
Qed.

(** A thread that is switched out and back in has the registers it had, as
    long as the other threads leave its saved context alone; memory and statics
    are what the others left. *)
Theorem tswtch_roundtrip old new s f l m' t' :
  length (u_regs s) = NCONTEXT -> Forall (fun r => 0 <= r < 18446744073709551616) (u_regs s) ->
  u_switches s = f :: l -> f (save_context (u_mem s) old (u_regs s)) (u_static s) = (m', t') ->
  (forall x, old <= x < old + 112 -> m'.[x] = (save_context (u_mem s) old (u_regs s)).[x]) ->
  tswtch old new s = URet tt (set_switches l (set_static (fun _ => t') (set_mem (fun _ => m') s))).
Proof.
  intros Hl Hr Hf Hm Hk. unfold tswtch. cbn [u_switches set_regs set_mem u_mem u_static]. rewrite Hf, Hm.
  rewrite (load_context_ext _ m' (save_context (u_mem s) old (u_regs s))) by (intros; apply Hk; unfold NCONTEXT in *; lia).
  rewrite <- Hl, load_save by done. by destruct s.
Qed.

Definition thread_demo : ust :=
  Ust ∅ (Statics 0 1 [] 5000) (Z.of_nat <$> seq 100 14) [] [] [fun m t => (m.[7 <- 9], t)].

Lemma tswtch_roundtrip_witness :
  tswtch 5008 6008 thread_demo =
    URet tt (set_switches [] (set_static (fun _ => Statics 0 1 [] 5000)
      (set_mem (fun _ => (save_context ∅ 5008 (Z.of_nat <$> seq 100 14)).[7 <- 9]) thread_demo))).
Proof.
  eapply (tswtch_roundtrip 5008 6008 thread_demo); [reflexivity| |reflexivity|reflexivity|].
  - repeat constructor; cbn; lia.
  - intros x Hx. apply rd_wr_ne. lia.
Defined.

(** ** The next thread *)

Lemma find_index_first m tid l1 t l2 i : Forall (fun u => t_tid m u <> tid) l1 -> t_tid m t = tid ->
  find_index m tid (l1 ++ t :: l2) i = i + length l1.
Proof.
  intros Hl Ht. revert i. induction Hl as [|u l1 Hu _ IH]; intros i; cbn [find_index app length].
  - rewrite Ht, Z.eqb_refl. lia.
  - destruct (Z.eqb_spec (t_tid m u) tid); [done|]. rewrite IH. lia.
Qed.

(** The entry [k] places behind [cur] in the table, wrapping around. *)
Definition entry_after (tab : list Z) (cur k : nat) : Z := default 0 (tab !! ((cur + k) mod MAX_THREADS)%nat).

Lemma tsched_loop_skip (cur : nat) (k n : nat) rest s :
  (forall j, (k <= j < k + n)%nat -> t_state (u_mem s) (entry_after (s_threads (u_static s)) cur (1 + j)) <> RUNNABLE) ->
  tsched_loop cur (((fun j : nat => cur + 1 + j) <$> seq k n) ++ rest) s = tsched_loop cur rest s.
Proof.
  revert k. induction n as [|n IH]; intros k H; cbn [seq fmap list_fmap app]; [done|].
  cbn [tsched_loop]. cbv beta iota zeta delta [mbind U_bind threads mem ugets].
  assert (Z.to_nat ((cur + 1 + k) mod MAX_THREADS) = (cur + (1 + k)) mod MAX_THREADS)%nat as ->.
  { unfold MAX_THREADS. rewrite <- (Nat2Z.id (_ mod _)), Nat2Z.inj_mod. f_equal. f_equal. lia. }
  specialize (H k ltac:(lia)) as Hk. unfold entry_after in Hk. destruct (Z.eqb_spec (t_state (u_mem s) (default 0 (s_threads (u_static s) !! ((cur + (1 + k)) mod MAX_THREADS)%nat))) RUNNABLE); [done|].
  apply IH. intros j Hj. apply H. lia.
Qed.

Section Next.
Context (s : ust) (cur : nat) (tab1 tab2 : list Z) (me : Z).
Let tab := s_threads (u_static s).
Context (Htab : tab = tab1 ++ me :: tab2) (Hcur : cur = length tab1).
Context (Hme : s_current_thread (u_static s) = me).
Context (Hids : Forall (fun u => t_tid (u_mem s) u <> t_tid (u_mem s) me) tab1).

Lemma tsched_start : tsched s = tsched_loop cur ((fun j : nat => cur + 1 + j) <$> seq 0 (MAX_THREADS - 1)) s.
Proof.
  unfold tsched. cbv beta iota zeta delta [mbind U_bind threads mem ugets current_thread]. rewrite Hme.
  unfold find_thread_index. fold tab. rewrite Htab, find_index_first by done. rewrite <- Hcur.
  destruct (Z.eqb_spec (0 + cur) (-1)); [lia|]. by replace (0 + Z.of_nat cur) with (Z.of_nat cur) by lia.
Qed.

End Next.

(** The main thread at 5000 and a runnable thread at 6000. *)
Definition two_threads : ust :=
  Ust (set_state (set_tid (set_state ∅ 5000 RUNNING) 6000 2) 6000 RUNNABLE)
    (Statics 0 1 ([5000; 6000] ++ replicate 62 0) 5000) (Z.of_nat <$> seq 100 14) [] [] [].


(** ** Thread identifiers

    [thread_count] is not increased by [tcreate]: two threads created one after
    the other get the same identifier, and [find_thread_index] then takes the
    second for the first, so that a switch away from the second saves its
    registers over those of the first. *)
Definition created : ust :=
  Ust (st32 (st32 (set_state ∅ 5000 RUNNING) 3000 512) 3004 4)
    (Statics 0 1 (5000 :: replicate 63 0) 5000) (Z.of_nat <$> seq 100 14) [Answer 16384 []] [] [].

Lemma tcreate_same_tid :
  match (tcreate 4096 77 2000 3000 11 0;; tcreate 4096 77 2008 3000 22 0) created with
  | URet _ s =>
      let m := u_mem s in
      let ta := ld64 m 2000 in
      let tb := ld64 m 2008 in
      t_tid m ta = 2 /\ t_tid m tb = 2 /\ take 3 (s_threads (u_static s)) = [5000; ta; tb] /\
      find_thread_index m (s_threads (u_static s)) tb = 1
  | _ => False
  end.
Proof. vm_compute. split_and!; reflexivity. Qed.
