(* ===== verification/Programs.v ===== *)
(** * User programs: cat, echo, forktest, init, kill, ln, ls, mkdir, ps, rm,
    schedls, schedset, stressfs, time, wc, zombie, congen

    An argument vector is the list of the argument strings.  Loops that make a
    system call per turn have the number of answers of the kernel as fuel. *)

From S2P Require Import Prelude KString User Uprintf Grep Shell.

(** [for (i = 1; i < argc; i++)]: the arguments after the program's name. *)
Definition args (argv : list (list Z)) : list (list Z) := tail argv.

(** ** cat.c *)

Section Cat.
(** The address of the static array [buf]. *)
Context (buf : Z).

Fixpoint cat_loop (fuel : nat) (fd : Z) : U Z :=
  match fuel with
  | O => ufuel
  | S fuel =>
      n ← read fd buf 512;
      if 0 <? n then
        r ← write 1 buf n;
        if negb (r =? n) then fprintf 2 ("cat: write error" +:+ NL) [];; exit 1
        else cat_loop fuel fd
      else mret n
  end.

Definition cat (fd : Z) : U unit :=
  n ← answer_fuel (fun fuel => cat_loop fuel fd);
  if n <? 0 then fprintf 2 ("cat: read error" +:+ NL) [];; exit 1 else mret tt.

Fixpoint cat_files (files : list (list Z)) : U unit :=
  match files with
  | [] => mret tt
  | f :: files =>
      fd ← open f 0;
      (if fd <? 0 then fprintf 2 ("cat: cannot open %s" +:+ NL) [Astr f];; exit 1 else mret tt);;
      cat fd;;
      close fd;;
      cat_files files
  end.

Definition cat_main (argv : list (list Z)) : U unit :=
  match args argv with
  | [] => cat 0;; exit 0
  | files => cat_files files;; exit 0
  end.
End Cat.

(** ** echo.c *)

Fixpoint echo_loop (l : list (list Z)) : U unit :=
  match l with
  | [] => mret tt
  | a :: l =>
      write_bytes 1 a;;
      write_bytes 1 (match l with [] => [10] | _ => [32] end);;
      echo_loop l
  end.

Definition echo_main (argv : list (list Z)) : U unit := echo_loop (args argv);; exit 0.

(** ** wc.c *)

Record counts : Type := Counts { wl : Z; ww : Z; wcc : Z; inword : bool }.

Definition wc_char (k : counts) (b : Z) : counts :=
  let c := wcc k + 1 in
  let l := if b =? 10 then wl k + 1 else wl k in
  if strchr_lit [32; 13; 9; 10; 11] b then Counts l (ww k) c false
  else if inword k then Counts l (ww k) c true
  else Counts l (ww k + 1) c true.

Section Wc.
Context (buf : Z).

Fixpoint wc_loop (fuel : nat) (fd : Z) (k : counts) : U (Z * counts) :=
  match fuel with
  | O => ufuel
  | S fuel =>
      n ← read fd buf 512;
      if 0 <? n then
        m ← mem;
        wc_loop fuel fd (foldl wc_char k (rd_bytes (Z.to_nat n) m buf))
      else mret (n, k)
  end.

Definition wc (fd : Z) (name : list Z) : U unit :=
  '(n, k) ← answer_fuel (fun fuel => wc_loop fuel fd (Counts 0 0 0 false));
  (if n <? 0 then printf ("wc: read error" +:+ NL) [];; exit 1 else mret tt);;
  printf ("%d %d %d %s" +:+ NL) [Anum (wl k); Anum (ww k); Anum (wcc k); Astr name].

Fixpoint wc_files (files : list (list Z)) : U unit :=
  match files with
  | [] => mret tt
  | f :: files =>
      fd ← open f 0;
      (if fd <? 0 then printf ("wc: cannot open %s" +:+ NL) [Astr f];; exit 1 else mret tt);;
      wc fd f;;
      close fd;;
      wc_files files
  end.

Definition wc_main (argv : list (list Z)) : U unit :=
  match args argv with
  | [] => wc 0 [];; exit 0
  | files => wc_files files;; exit 0
  end.
End Wc.

(** ** kill.c, ln.c, mkdir.c, rm.c *)

Definition kill_main (argv : list (list Z)) : U unit :=
  if (length argv <? 2)%nat then fprintf 2 ("usage: kill pid..." +:+ NL) [];; exit 1
  else ufor (args argv) (fun a => kill (atoi a);; mret tt);; exit 0.

Definition ln_main (argv : list (list Z)) : U unit :=
  match argv with
  | [_; old; new] =>
      r ← link old new;
      (if r <? 0 then fprintf 2 ("link %s %s: failed" +:+ NL) [Astr old; Astr new] else mret tt);;
      exit 0
  | _ => fprintf 2 ("Usage: ln old new" +:+ NL) [];; exit 1
  end.

Fixpoint mkdir_loop (l : list (list Z)) : U unit :=
  match l with
  | [] => mret tt
  | a :: l =>
      r ← mkdir a;
      if r <? 0 then fprintf 2 ("mkdir: %s failed to create" +:+ NL) [Astr a] else mkdir_loop l
  end.

Definition mkdir_main (argv : list (list Z)) : U unit :=
  if (length argv <? 2)%nat then fprintf 2 ("Usage: mkdir files..." +:+ NL) [];; exit 1
  else mkdir_loop (args argv);; exit 0.

Fixpoint rm_loop (l : list (list Z)) : U unit :=
  match l with
  | [] => mret tt
  | a :: l =>
      r ← unlink a;
      if r <? 0 then fprintf 2 ("rm: %s failed to delete" +:+ NL) [Astr a] else rm_loop l
  end.

Definition rm_main (argv : list (list Z)) : U unit :=
  if (length argv <? 2)%nat then fprintf 2 ("Usage: rm files..." +:+ NL) [];; exit 1
  else rm_loop (args argv);; exit 0.

(** ** ls.c *)

Definition DIRSIZ : nat := 14.
Definition T_DIR : Z := 1.
Definition T_FILE : Z := 2.
Definition T_DEVICE : Z := 3.

(** The characters after the last slash. *)
Fixpoint after_slash (path : list Z) : list Z :=
  match path with
  | [] => []
  | c :: path => if strchr_lit path 47 then after_slash path else if c =? 47 then path else c :: path
  end.

Definition fmtname (path : list Z) : list Z :=
  let p := after_slash path in
  if (DIRSIZ <=? length p)%nat then p else p ++ replicate (DIRSIZ - length p) 32.

(** [struct stat] as the kernel fills it in: dev, ino, type, nlink, size. *)
Definition st_ino (st : list Z) : Z := get_le 4 4 st.
Definition st_type (st : list Z) : Z := s16 (get_le 2 8 st).
Definition st_size (st : list Z) : Z := get_le 8 16 st.

Fixpoint ls_dir (fuel : nat) (fd : Z) (path : list Z) : U unit :=
  match fuel with
  | O => ufuel
  | S fuel =>
      '(n, de) ← read_bytes fd 16;
      if negb (n =? 16) then mret tt
      else if get_le 2 0 de =? 0 then ls_dir fuel fd path
      else
        let buf := path ++ [47] ++ cstring (take DIRSIZ (drop 2 de)) in
        '(r, st) ← stat buf;
        (if r <? 0 then printf ("ls: cannot stat %s" +:+ NL) [Astr buf]
         else printf ("%s %d %d %d" +:+ NL) [Astr (fmtname buf); Anum (st_type st); Anum (st_ino st); Anum (st_size st)]);;
        ls_dir fuel fd path
  end.

Definition ls (path : list Z) : U unit :=
  fd ← open path 0;
  if fd <? 0 then fprintf 2 ("ls: cannot open %s" +:+ NL) [Astr path]
  else
    '(r, st) ← fstat fd;
    if r <? 0 then
      fprintf 2 ("ls: cannot stat %s" +:+ NL) [Astr path];;
      close fd;; mret tt
    else
      (if (st_type st =? T_DEVICE) || (st_type st =? T_FILE) then
         printf ("%s %d %d %l" +:+ NL) [Astr (fmtname path); Anum (st_type st); Anum (st_ino st); Anum (st_size st)]
       else if st_type st =? T_DIR then
         if (512 <? length path + 1 + DIRSIZ + 1)%nat then printf ("ls: path too long" +:+ NL) []
         else answer_fuel (fun fuel => ls_dir fuel fd path)
       else mret tt);;
      close fd;; mret tt.

Definition ls_main (argv : list (list Z)) : U unit :=
  if (length argv <? 2)%nat then ls (bytes ".");; exit 0
  else ufor (args argv) ls;; exit 0.

(** ** ps.c, schedls.c, schedset.c *)

(** [struct user_proc]: state, killed, xstate, pid, parent_id, name[16]. *)
Definition sizeof_user_proc : Z := 36.

Fixpoint ps_loop (k : nat) (procs i : Z) : U unit :=
  match k with
  | O => mret tt
  | S k =>
      m ← mem;
      let p := procs + i * sizeof_user_proc in
      if ld32 m p =? 0 then mret tt
      else
        printf ("%s (%d): %d" +:+ NL) [Astr (string_at m (p + 20)); Anum (s32 (ld32 m (p + 12))); Anum (ld32 m p)];;
        ps_loop k procs (i + 1)
  end.

Definition ps_main : U unit :=
  procs ← ps 0 64;
  ps_loop 64 procs 0;;
  exit 0.

Definition schedls_main : U unit := schedls;; exit 0.

Definition schedset_main (argv : list (list Z)) : U unit :=
  match argv with
  | [_; a] => schedset (default 0 (head a) - 48);; exit 0
  | _ => printf ("Usage: schedset [SCHED ID]" +:+ NL) [];; exit 1
  end.

(** ** init.c *)

Definition CONSOLE : Z := 1.

Fixpoint init_wait (fuel : nat) (pid : Z) : U unit :=
  match fuel with
  | O => ufuel
  | S fuel =>
      wpid ← wait 0;
      if wpid =? pid then mret tt
      else if wpid <? 0 then printf ("init: wait returned an error" +:+ NL) [];; exit 1
      else init_wait fuel pid
  end.

Fixpoint init_loop (fuel : nat) : U unit :=
  match fuel with
  | O => ufuel
  | S fuel =>
      printf ("init: starting sh" +:+ NL) [];;
      pid ← fork;
      (if pid <? 0 then printf ("init: fork failed" +:+ NL) [];; exit 1 else mret tt);;
      (if pid =? 0 then
         exec (bytes "sh") [bytes "sh"];;
         printf ("init: exec sh failed" +:+ NL) [];; exit 1
       else mret tt);;
      answer_fuel (fun fuel => init_wait fuel pid);;
      init_loop fuel
  end.

Definition init_main : U unit :=
  r ← open (bytes "console") O_RDWR;
  (if r <? 0 then mknod (bytes "console") CONSOLE 0;; open (bytes "console") O_RDWR;; mret tt else mret tt);;
  dup 0;;
  dup 0;;
  answer_fuel init_loop.

(** ** time.c, zombie.c *)

Definition time_main (argv : list (list Z)) : U unit :=
  match args argv with
  | [] =>
      printf ("Time took 0 ticks" +:+ NL) [];;
      printf ("Usage: time [exec] [arg1 arg2 ...]" +:+ NL) [];;
      exit 1
  | prog :: _ as rest =>
      startticks ← uptime;
      pid ← fork;
      (if pid <? 0 then printf "fork failed... couldn't start %s" [Astr prog];; exit 1 else mret tt);;
      (if pid =? 0 then exec prog rest;; mret tt
       else
         wait 0;;
         endticks ← uptime;
         printf ("Executing %s took %d ticks" +:+ NL) [Astr prog; Anum (endticks - startticks)]);;
      exit 0
  end.

Definition zombie_main : U unit :=
  pid ← fork;
  (if 0 <? pid then sleep 5;; mret tt else mret tt);;
  exit 0.

(** ** forktest.c, congen.c, stressfs.c *)

Definition print (s : string) : U unit := write_bytes 1 (bytes s);; mret tt.

(** The number of forks that worked, at most [k] more. *)
Fixpoint fork_loop (k : nat) (n : Z) : U Z :=
  match k with
  | O => mret n
  | S k =>
      pid ← fork;
      if pid <? 0 then mret n
      else if pid =? 0 then exit 0
      else fork_loop k (n + 1)
  end.

Fixpoint wait_loop_n (k : nat) : U unit :=
  match k with
  | O => mret tt
  | S k =>
      r ← wait 0;
      if r <? 0 then print ("wait stopped early" +:+ NL);; exit 1 else wait_loop_n k
  end.

Definition forktest_main : U unit :=
  print ("fork test" +:+ NL);;
  n ← fork_loop 1000 0;
  (if n =? 1000 then print ("fork claimed to work N times!" +:+ NL);; exit 1 else mret tt);;
  wait_loop_n (Z.to_nat n);;
  r ← wait 0;
  (if negb (r =? -1) then print ("wait got too many" +:+ NL);; exit 1 else mret tt);;
  print ("fork test OK" +:+ NL);;
  exit 0.

(** The loop of [congen]: the value of [n] and the last [pid]. *)
Fixpoint congen_fork (k : nat) (n pid : Z) : U (Z * Z) :=
  match k with
  | O => mret (n, pid)
  | S k =>
      pid ← fork;
      if pid <? 0 then mret (n, pid)
      else if pid =? 0 then mret (n, pid)
      else congen_fork k (n + 1) pid
  end.

Definition congen_main : U unit :=
  print ("fork test" +:+ NL);;
  '(n, pid) ← congen_fork 5 0 0;
  ufor (seq 0 1000) (fun i =>
    if pid =? 0 then printf ("CHILD %d: %d" +:+ NL) [Anum n; Anum i] else printf ("PARENT: %d" +:+ NL) [Anum i]);;
  print ("fork test OK" +:+ NL);;
  exit 0.

(** The value of [i] when the fork loop of [stressfs] ends. *)
Fixpoint stress_fork (k : nat) (i : Z) : U Z :=
  match k with
  | O => mret i
  | S k => pid ← fork; if 0 <? pid then mret i else stress_fork k (i + 1)
  end.

Definition stressfs_main : U unit :=
  printf ("stressfs starting" +:+ NL) [];;
  i ← stress_fork 4 0;
  printf ("write %d" +:+ NL) [Anum i];;
  let path := bytes "stressfs" ++ [u8 (48 + i)] in
  fd ← open path (Z.lor O_CREATE O_RDWR);
  ufor (seq 0 20) (fun _ => write_bytes fd (replicate 512 97);; mret tt);;
  close fd;;
  printf ("read" +:+ NL) [];;
  fd ← open path O_RDONLY;
  ufor (seq 0 20) (fun _ => read_bytes fd 512;; mret tt);;
  close fd;;
  wait 0;;
  exit 0.

(** ** cat copies its input *)

Lemma extends_write s a r d : 
  extends s (set_kernel r (u_trace s ++ [(Cwrite 1 d, a)]) s) [] [d].
Proof. eexists. split; [reflexivity|]. done. Qed.

Lemma extends_exit s s' i o v : extends s s' i o ->
  extends s (set_kernel (u_answers s') (u_trace s' ++ [(Cexit v, Answer 0 [])]) s') i o.
Proof.
  intros (t & Ht & <- & <-). exists (t ++ [(Cexit v, Answer 0 [])]). cbn. rewrite Ht, app_assoc. split_and!; [done| |].
  - rewrite input_app. apply app_nil_r.
  - rewrite output_app. apply app_nil_r.
Qed.

(** What is printed on the standard error is not output. *)
Lemma extends_stderr s s' i o out rs : extends s s' i o ->
  extends s (set_kernel (u_answers s') (u_trace s' ++ out_calls 2 out rs) s') i o.
Proof.
  intros (t & Ht & <- & <-). exists (t ++ out_calls 2 out rs). cbn. rewrite Ht, app_assoc. split_and!; [done| |];
    rewrite ?input_app, ?output_app; (replace (_ (out_calls 2 out rs)) with (@nil Z) || replace (output (out_calls 2 out rs)) with (@nil (list Z)));
    try apply app_nil_r; symmetry; revert rs; induction out as [|c out IH]; intros [|r rs]; try done; apply IH.
Qed.

(** The bytes written to the standard output are those read. *)
Definition copied (s s' : ust) : Prop := exists i o, extends s s' i o /\ concat o = i.
(** ... or a beginning of them. *)
Definition copying (s s' : ust) : Prop := exists i o, extends s s' i o /\ concat o `prefix_of` i.

Lemma copied_trans s1 s2 s3 : copied s1 s2 -> copied s2 s3 -> copied s1 s3.
Proof.
  intros (i1 & o1 & H1 & <-) (i2 & o2 & H2 & <-). eexists _, _. split; [by eapply extends_trans|]. apply concat_app.
Qed.
Lemma copying_trans s1 s2 s3 : copied s1 s2 -> copying s2 s3 -> copying s1 s3.
Proof.
  intros (i1 & o1 & H1 & <-) (i2 & o2 & H2 & Hp). eexists _, _. split; [by eapply extends_trans|].
  rewrite concat_app. by apply prefix_app.
Qed.
Lemma copied_refl s : copied s s.
Proof. exists [], []. split; [by apply extends_refl|done]. Qed.
Lemma copied_copying s s' : copied s s' -> copying s s'.
Proof. intros (i & o & H & <-). eexists _, _. by split. Qed.

Lemma stderr_exit {A} s0 s fmt ap (Q : A -> ust -> Prop) out : render (bytes fmt) ap = Some out -> copied s0 s ->
  uspec (fprintf 2 fmt ap;; exit 1) Q (fun v s' => v = 1 /\ copied s0 s') (copying s0) s.
Proof.
  intros Hr (i & o & He & Hc). apply uspec_bind. eapply uspec_mono; [by apply (prints_vprintf 2 _ _ out)|..]; cbn beta; [|done|].
  - intros _ s' [_ (rs & _ & _ & ->)]. apply uspec_exit. split; [done|]. exists i, o. split; [|done].
    apply (extends_exit s0 (set_kernel _ _ s)). apply (extends_stderr _ _ _ _ out rs) in He. destruct He as (t & Ht & ? & ?). by exists t.
  - intros s' (_ & _ & ->). exists i, o. split; [|by subst i].
    apply (extends_stderr _ _ _ _ (take (length (u_answers s)) out) (u_answers s)) in He. destruct He as (t & Ht & ? & ?). by exists t.
Qed.

Lemma cat_loop_spec buf fd fuel s : (length (u_answers s) < fuel)%nat ->
  uspec (cat_loop buf fuel fd) (fun n s' => copied s s') (fun v s' => v = 1 /\ copied s s') (copying s) s.
Proof.
  revert s. induction fuel as [|fuel IH]; intros s Hf; [lia|]. cbn [cat_loop]. apply uspec_bind, read_spec.
  { apply copied_copying, copied_refl. }
  intros a r Ha. cbv zeta. rewrite Ha in Hf. cbn [length] in Hf. set (a' := read_fit 512 a).
  assert (a_data a' = [] /\ a_ret a' = -1 \/ a_ret a' = length (a_data a') /\ (length (a_data a') <= 512)%nat /\ Forall (fun c => 0 <= c < 256) (a_data a')) as Hd.
  { unfold a', read_fit. destruct (a_ret a <? 0); [by left|right]. cbn [a_ret a_data]. split_and!; [done|rewrite length_fmap, length_take; lia|].
    apply Forall_fmap, Forall_true. intros x. apply u8_range. }
  set (s1 := set_mem _ (set_kernel r _ s)).
  assert (extends s s1 (a_data a') []) as H1 by (by apply (extends_read _ _ fd 512 a' id)).
  destruct (Z.ltb_spec 0 (s32 (a_ret a'))) as [Hpos|Hneg].
  2: { apply uspec_ret. exists (a_data a'), []. split; [done|]. destruct Hd as [[-> _]|(Hr & Hl & _)]; [done|].
    rewrite Hr, s32_small in Hneg by lia. by destruct (a_data a'). }
  destruct Hd as [[_ Hr]|(Hr & Hl & Hb)]; [rewrite Hr in Hpos; done|]. rewrite Hr in *. rewrite s32_small in * by lia.
  apply uspec_bind, write_spec.
  { exists (a_data a'), []. split; [done|]. apply prefix_nil. }
  intros b r' Hb'. rewrite Nat2Z.id. cbn [u_mem s1 set_mem].
  rewrite rd_bytes_at by (by apply bytes_at_wr_bytes). match goal with |- uspec _ _ _ _ ?x => set (s2 := x) end.
  assert (copied s s2) as Hc.
  { exists (a_data a'), [a_data a']. split; [|apply app_nil_r]. apply (extends_trans s s1 s2 (a_data a') [] [] [a_data a']) in H1; [by rewrite app_nil_r in H1|].
    apply (extends_write s1 b r'). }
  case_if; [by eapply stderr_exit|].
  eapply uspec_mono; [apply IH|..].
  - cbn in Hb'. subst r. cbn. cbn in Hf. lia.
  - intros n s' H. by eapply copied_trans.
  - intros v s' [-> H]. split; [done|]. by eapply copied_trans.
  - intros s' H. by eapply copying_trans.
Qed.

(** [cat] copies: if it returns, or exits because a write or a read failed,
    the bytes it sent to the standard output are exactly the bytes it read; and
    while it waits they are a prefix of them.  An exit has status 1. *)
Theorem cat_copies buf fd s :
  uspec (cat buf fd) (fun _ s' => copied s s') (fun v s' => v = 1 /\ copied s s') (copying s) s.
Proof.
  unfold cat, answer_fuel. apply uspec_bind. eapply uspec_mono; [apply (cat_loop_spec buf fd (S (length (u_answers s)))); lia|..]; [|done|done].
  intros n s' H. case_if; [by eapply stderr_exit|by apply uspec_ret].
Qed.
